(** * kilo.c: a shallow embedding of the editor core, with its invariants

    The C source keeps one global [Editor E] and a handful of function-local
    [static] variables.  Here the global is an explicit record threaded
    through every operation; the statics are fields of a [World] record.

    - C [int]s are integers of [Z]: signed overflow is undefined in C and
      the model covers the executions without it.
    - C [char]s are [ascii] bytes; [char] is signed, as on the platforms the
      editor is built for, so a byte converts to an [int] of -128..127.
      <ctype.h> is modelled in the C locale and is false on negative
      arguments.
    - Heap buffers are lists holding exactly the bytes in use.  The
      terminating NUL is implied: reading one past the end of a list yields
      NUL, as [chars[size]] and [render[rsize]] do in C.  An allocation of
      one byte or more never fails, and neither does [malloc(0)].  In a
      run of the program one call can resize a block to 0 bytes:
      [xrealloc(row->hl, rsize)] in [editorUpdateSyntax], on a row without
      characters that was highlighted before ([abAppend] never asks for
      less than the six bytes of the first escape sequence).  The
      [realloc] of the GNU C library then frees the block and returns
      NULL, and the program exits with status 1 through [die]; so it does
      here ([xrealloc_hl]).
    - A pointer [Row *row] into [E.row] is the position it points to; the
      field [row->idx] is kept as the code has it.
    - Array accesses that the source performs without a guard are modelled
      in an error monad: an access out of bounds is [Undefined].  A loop
      whose bound is not structural carries fuel and yields [NoFuel] when
      it runs out.
    - Screen output does not influence the buffer: the editing functions
      are modelled without it, and the frame that [editorRefreshScreen]
      writes is modelled on its own, with the status message and the time
      as parameters.  The terminal attributes are left out; writing the
      file on save succeeds or fails as the environment decides. *)

From Stdlib Require Import ZArith Ascii String List Bool Lia.
Import ListNotations.

#[local] Open Scope Z_scope.
#[local] Open Scope list_scope.

(* ================================================================= *)
(** ** C characters, <ctype.h> and <string.h> *)

Definition NUL : ascii := Ascii.zero.
Definition ESC : ascii := ascii_of_nat 27.
Definition TAB : ascii := ascii_of_nat 9.
Definition LF : ascii := ascii_of_nat 10.
Definition CR : ascii := ascii_of_nat 13.

(** The byte as an unsigned value, and as the [int] a (signed) [char]
    converts to. *)
Definition uchar (c : ascii) : Z := Z.of_N (N_of_ascii c).
Definition char_to_int (c : ascii) : Z :=
  if uchar c <? 128 then uchar c else uchar c - 256.

(** [(char)c] for an [int] c. *)
Definition int_to_char (c : Z) : ascii := ascii_of_N (Z.to_N (c mod 256)).

Definition chr (s : string) : ascii :=
  match s with String c _ => c | EmptyString => NUL end.

Definition str (s : string) : list ascii := list_ascii_of_string s.

(** <ctype.h> in the C locale, on the [int] value of the argument. *)
Definition isspace (c : Z) : bool := (c =? 32) || ((9 <=? c) && (c <=? 13)).
Definition isdigit (c : Z) : bool := (48 <=? c) && (c <=? 57).
Definition iscntrl (c : Z) : bool := ((0 <=? c) && (c <? 32)) || (c =? 127).

(** [s[i]] on a NUL-terminated buffer whose bytes in use are [s]. *)
Definition char_at (s : list ascii) (i : Z) : ascii :=
  if i <? 0 then NUL else nth (Z.to_nat i) s NUL.

(** [strchr(set, c) != NULL]: the terminator of [set] is found too. *)
Fixpoint strchr (set : list ascii) (c : ascii) : bool :=
  match set with
  | [] => Ascii.eqb c NUL
  | x :: r => if Ascii.eqb x NUL then Ascii.eqb c NUL
              else Ascii.eqb x c || strchr r c
  end.

(** [strncmp(s1, s2, n) == 0]: byte by byte, at most [n] bytes, stopping
    at the first difference or at a terminator common to both. *)
Fixpoint strncmp0 (s1 s2 : list ascii) (n : nat) : bool :=
  match n with
  | O => true
  | S n' =>
      let a := hd NUL s1 in
      let b := hd NUL s2 in
      if Ascii.eqb a b
      then (if Ascii.eqb a NUL then true else strncmp0 (tl s1) (tl s2) n')
      else false
  end.

(** The C string held by a buffer: its bytes up to the first NUL. *)
Fixpoint cstr (s : list ascii) : list ascii :=
  match s with
  | [] => []
  | c :: r => if Ascii.eqb c NUL then [] else c :: cstr r
  end.

Definition strlen (s : list ascii) : Z := Z.of_nat (length (cstr s)).

Fixpoint is_prefix (p s : list ascii) : bool :=
  match p, s with
  | [], _ => true
  | _ :: _, [] => false
  | a :: p', b :: s' => Ascii.eqb a b && is_prefix p' s'
  end.

(** [strstr(hay, needle)]: offset of the first occurrence, if any. *)
Fixpoint strstr_from (hay needle : list ascii) (off : Z) : option Z :=
  if is_prefix needle hay then Some off
  else match hay with
       | [] => None
       | _ :: r => strstr_from r needle (off + 1)
       end.

Definition strstr (hay needle : list ascii) : option Z :=
  strstr_from (cstr hay) (cstr needle) 0.

(* ================================================================= *)
(** ** Configuration constants and enumerations *)

Definition TAB_STOP : Z := 8.
Definition QUIT_TIMES : Z := 3.

Definition CTRL_KEY (k : string) : Z := Z.land (uchar (chr k)) 31.

Definition KEY_BACKSPACE : Z := 127.
Definition KEY_ARROW_LEFT : Z := 1000.
Definition KEY_ARROW_RIGHT : Z := 1001.
Definition KEY_ARROW_UP : Z := 1002.
Definition KEY_ARROW_DOWN : Z := 1003.
Definition KEY_DEL : Z := 1004.
Definition KEY_HOME : Z := 1005.
Definition KEY_END : Z := 1006.
Definition KEY_PAGE_UP : Z := 1007.
Definition KEY_PAGE_DOWN : Z := 1008.
Definition KEY_ESC : Z := 27.
Definition KEY_ENTER : Z := 13.

Inductive Highlight : Set :=
| HL_NORMAL | HL_COMMENT | HL_MLCOMMENT | HL_KEYWORD1 | HL_KEYWORD2
| HL_STRING | HL_NUMBER | HL_MATCH.

Definition Highlight_eqb (a b : Highlight) : bool :=
  match a, b with
  | HL_NORMAL, HL_NORMAL | HL_COMMENT, HL_COMMENT
  | HL_MLCOMMENT, HL_MLCOMMENT | HL_KEYWORD1, HL_KEYWORD1
  | HL_KEYWORD2, HL_KEYWORD2 | HL_STRING, HL_STRING
  | HL_NUMBER, HL_NUMBER | HL_MATCH, HL_MATCH => true
  | _, _ => false
  end.

Definition HL_NUMBERS : Z := Z.shiftl 1 0.
Definition HL_STRINGS : Z := Z.shiftl 1 1.

(* ================================================================= *)
(** ** Data types *)

Record Row : Set := mkRow {
  idx : Z;                       (* row index in file *)
  size : Z;                      (* size of chars *)
  rsize : Z;                     (* size of render *)
  chars : list ascii;            (* raw chars *)
  render : list ascii;           (* rendered chars (tabs expanded) *)
  hl : list Highlight;           (* highlight for render *)
  hl_open_comment : bool         (* if multiline comment continues *)
}.

Record Syntax : Set := mkSyntax {
  filetype : string;
  filematch : list string;
  keywords : list string;        (* those ending with | are keyword2 *)
  scs : option string;           (* single-line comment start *)
  mcs : option string;           (* multi-line comment start *)
  mce : option string;           (* multi-line comment end *)
  flags : Z
}.

Record Editor : Set := mkEditor {
  cx : Z; cy : Z;                (* cursor x/y in chars *)
  rx : Z;                        (* cursor x in render *)
  rowoff : Z;
  coloff : Z;
  screenrows : Z;
  screencols : Z;
  numrows : Z;
  row : list Row;
  dirty : Z;
  filename : option (list ascii);
  syntax : option Syntax
}.

(** The [static] variables of [editorFindCallback]. *)
Record FindState : Set := mkFind {
  last_match : Z;
  direction : Z;
  saved_hl_line : Z;
  saved_hl : option (list Highlight)
}.

(** Everything that survives from one key press to the next: the global
    [E], the [static quit_times] of [editorProcessKeypress] and the statics
    of the search callback.  (The status message is display only, a
    parameter of the frame; the saved terminal attributes are left
    out.) *)
Record World : Set := mkWorld {
  ed : Editor;
  quit_times : Z;
  find : FindState
}.

(** Outcomes.  [Undefined] is an array access out of bounds, [NoFuel] a
    loop that did not finish within its bound, [Exited] a call of [exit],
    [Waiting w] a call of [editorReadKey] that finds the input used up
    while the editor is in state [w]. *)
Inductive Res (A : Type) : Type :=
| Ok (a : A)
| Undefined
| NoFuel
| Exited (status : Z)
| Waiting (w : World).

Arguments Ok {A} a.
Arguments Undefined {A}.
Arguments NoFuel {A}.
Arguments Exited {A} status.
Arguments Waiting {A} w.

Definition bind {A B : Type} (m : Res A) (k : A -> Res B) : Res B :=
  match m with
  | Ok a => k a
  | Undefined => Undefined
  | NoFuel => NoFuel
  | Exited s => Exited s
  | Waiting w => Waiting w
  end.

Notation "x <- m ;; k" := (bind m (fun x => k))
  (at level 61, m at next level, right associativity).
Notation "' p <- m ;; k" := (bind m (fun x => match x with p => k end))
  (at level 61, p pattern, m at next level, right associativity).

(** Arrays. *)
Definition len {A : Type} (a : list A) : Z := Z.of_nat (length a).

(** [memset(&a[i], v, n)]. *)
Definition memset {A : Type} (a : list A) (i : Z) (v : A) (n : Z)
  : Res (list A) :=
  if (0 <=? i) && (0 <=? n) && (i + n <=? len a)
  then Ok (firstn (Z.to_nat i) a ++ repeat v (Z.to_nat n)
             ++ skipn (Z.to_nat (i + n)) a)
  else Undefined.

(** [a[i] = v]. *)
Definition store {A : Type} (a : list A) (i : Z) (v : A) : Res (list A) :=
  memset a i v 1.

(** [a[i]]. *)
Definition load {A : Type} (a : list A) (i : Z) : Res A :=
  if 0 <=? i
  then match nth_error a (Z.to_nat i) with
       | Some x => Ok x
       | None => Undefined
       end
  else Undefined.

(** Field updates of the global [E]. *)
Definition set_cursor (E : Editor) (x y : Z) : Editor :=
  mkEditor x y (rx E) (rowoff E) (coloff E) (screenrows E) (screencols E)
           (numrows E) (row E) (dirty E) (filename E) (syntax E).
Definition set_view (E : Editor) (r ro co : Z) : Editor :=
  mkEditor (cx E) (cy E) r ro co (screenrows E) (screencols E)
           (numrows E) (row E) (dirty E) (filename E) (syntax E).
Definition set_rows (E : Editor) (rows : list Row) : Editor :=
  mkEditor (cx E) (cy E) (rx E) (rowoff E) (coloff E) (screenrows E)
           (screencols E) (numrows E) rows (dirty E) (filename E) (syntax E).
Definition set_numrows (E : Editor) (n : Z) : Editor :=
  mkEditor (cx E) (cy E) (rx E) (rowoff E) (coloff E) (screenrows E)
           (screencols E) n (row E) (dirty E) (filename E) (syntax E).
Definition set_dirty (E : Editor) (d : Z) : Editor :=
  mkEditor (cx E) (cy E) (rx E) (rowoff E) (coloff E) (screenrows E)
           (screencols E) (numrows E) (row E) d (filename E) (syntax E).
Definition set_filename (E : Editor) (f : option (list ascii)) : Editor :=
  mkEditor (cx E) (cy E) (rx E) (rowoff E) (coloff E) (screenrows E)
           (screencols E) (numrows E) (row E) (dirty E) f (syntax E).
Definition set_syntax (E : Editor) (s : option Syntax) : Editor :=
  mkEditor (cx E) (cy E) (rx E) (rowoff E) (coloff E) (screenrows E)
           (screencols E) (numrows E) (row E) (dirty E) (filename E) s.

(** [E.row[i]] read, and [E.row[i] = r] for a row read before. *)
Definition row_at (E : Editor) (i : Z) : Res Row := load (row E) i.

Definition set_row (E : Editor) (i : Z) (r : Row) : Editor :=
  set_rows E (firstn (Z.to_nat i) (row E) ++ r
                :: skipn (S (Z.to_nat i)) (row E)).

(** Field updates of a row. *)
Definition set_idx (r : Row) (i : Z) : Row :=
  mkRow i (size r) (rsize r) (chars r) (render r) (hl r) (hl_open_comment r).
Definition set_chars (r : Row) (n : Z) (cs : list ascii) : Row :=
  mkRow (idx r) n (rsize r) cs (render r) (hl r) (hl_open_comment r).
Definition set_render (r : Row) (n : Z) (rs : list ascii) : Row :=
  mkRow (idx r) (size r) n (chars r) rs (hl r) (hl_open_comment r).
Definition set_hl (r : Row) (h : list Highlight) : Row :=
  mkRow (idx r) (size r) (rsize r) (chars r) (render r) h (hl_open_comment r).
Definition set_open (r : Row) (b : bool) : Row :=
  mkRow (idx r) (size r) (rsize r) (chars r) (render r) (hl r) b.

(* ================================================================= *)
(** ** Terminal input: [editorReadKey] *)

(** One call of [read(STDIN_FILENO, &c, 1)] under VMIN = 0, VTIME = 1:
    a byte (return value 1), a timeout (0), or an error (-1) with
    [errno == EAGAIN] or not. *)
Inductive ReadResult : Set :=
| RByte (c : ascii)
| RTimeout
| RError (eagain : bool).

(** The terminal as the list of the results of the successive reads; once
    the list is used up every further read times out. *)
Definition read1 (inp : list ReadResult) : option ascii * list ReadResult :=
  match inp with
  | [] => (None, [])
  | RByte c :: rest => (Some c, rest)
  | _ :: rest => (None, rest)
  end.

(** The body of [if (c == '\x1b') { ... }]. *)
Definition editorReadKey_escape (inp : list ReadResult)
  : Z * list ReadResult :=
  match read1 inp with
  | (None, inp1) => (KEY_ESC, inp1)
  | (Some seq0, inp1) =>
    match read1 inp1 with
    | (None, inp2) => (KEY_ESC, inp2)
    | (Some seq1, inp2) =>
      if Ascii.eqb seq0 (chr "[") then
        if (char_to_int (chr "0") <=? char_to_int seq1)
           && (char_to_int seq1 <=? char_to_int (chr "9"))
        then
          match read1 inp2 with
          | (None, inp3) => (KEY_ESC, inp3)
          | (Some seq2, inp3) =>
            if Ascii.eqb seq2 (chr "~") then
              if Ascii.eqb seq1 (chr "1") then (KEY_HOME, inp3)
              else if Ascii.eqb seq1 (chr "3") then (KEY_DEL, inp3)
              else if Ascii.eqb seq1 (chr "4") then (KEY_END, inp3)
              else if Ascii.eqb seq1 (chr "5") then (KEY_PAGE_UP, inp3)
              else if Ascii.eqb seq1 (chr "6") then (KEY_PAGE_DOWN, inp3)
              else if Ascii.eqb seq1 (chr "7") then (KEY_HOME, inp3)
              else if Ascii.eqb seq1 (chr "8") then (KEY_END, inp3)
              else (KEY_ESC, inp3)
            else (KEY_ESC, inp3)
          end
        else
          if Ascii.eqb seq1 (chr "A") then (KEY_ARROW_UP, inp2)
          else if Ascii.eqb seq1 (chr "B") then (KEY_ARROW_DOWN, inp2)
          else if Ascii.eqb seq1 (chr "C") then (KEY_ARROW_RIGHT, inp2)
          else if Ascii.eqb seq1 (chr "D") then (KEY_ARROW_LEFT, inp2)
          else if Ascii.eqb seq1 (chr "H") then (KEY_HOME, inp2)
          else if Ascii.eqb seq1 (chr "F") then (KEY_END, inp2)
          else (KEY_ESC, inp2)
      else if Ascii.eqb seq0 (chr "O") then
        if Ascii.eqb seq1 (chr "H") then (KEY_HOME, inp2)
        else if Ascii.eqb seq1 (chr "F") then (KEY_END, inp2)
        else (KEY_ESC, inp2)
      else (KEY_ESC, inp2)
    end
  end.

(** What a call of [editorReadKey] comes to. *)
Inductive KeyResult : Set :=
| GotKey (k : Z) (rest : list ReadResult)
| Died                       (* die("read") *)
| NoInput.                   (* the terminal never delivers a byte again *)

Fixpoint editorReadKey (inp : list ReadResult) : KeyResult :=
  match inp with
  | [] => NoInput
  | RTimeout :: rest => editorReadKey rest
  | RError true :: rest => editorReadKey rest
  | RError false :: _ => Died
  | RByte c :: rest =>
      if Ascii.eqb c ESC
      then let (k, rest') := editorReadKey_escape rest in GotKey k rest'
      else GotKey (char_to_int c) rest
  end.

(* ================================================================= *)
(** ** Rows: column mapping *)

Definition tab_advance (c : ascii) (rx : Z) : Z :=
  (if Ascii.eqb c TAB then rx + ((TAB_STOP - 1) - Z.rem rx TAB_STOP) else rx)
  + 1.

(** [for (j = 0; j < cx; j++)], with [n] iterations left. *)
Fixpoint rowCxToRx_loop (cs : list ascii) (n : nat) (j rx : Z) : Z :=
  match n with
  | O => rx
  | S n' => rowCxToRx_loop cs n' (j + 1) (tab_advance (char_at cs j) rx)
  end.

Definition rowCxToRx (r : Row) (cx : Z) : Z :=
  rowCxToRx_loop (chars r) (Z.to_nat cx) 0 0.

(** [for (cx = 0; cx < row->size; cx++)], with [n] iterations left. *)
Fixpoint rowRxToCx_loop (cs : list ascii) (rx : Z) (n : nat) (cx cur_rx : Z)
  : Z :=
  match n with
  | O => cx
  | S n' =>
      let cur_rx' := tab_advance (char_at cs cx) cur_rx in
      if cur_rx' >? rx then cx
      else rowRxToCx_loop cs rx n' (cx + 1) cur_rx'
  end.

Definition rowRxToCx (r : Row) (rx : Z) : Z :=
  rowRxToCx_loop (chars r) rx (Z.to_nat (size r)) 0 0.

(* ================================================================= *)
(** ** Filetypes *)

Definition C_EXTS : list string := [".c"; ".h"; ".cpp"; ".hpp"]%string.

Definition C_KW : list string :=
  ["switch"; "if"; "while"; "for"; "break"; "continue"; "return"; "else";
   "struct"; "union"; "typedef"; "static"; "enum"; "class"; "case";
   "int|"; "long|"; "double|"; "float|"; "char|"; "unsigned|"; "signed|";
   "void|"; "size_t|"; "ssize_t|"; "bool|"]%string.

Definition HLDB : list Syntax :=
  [ mkSyntax "c" C_EXTS C_KW (Some "//"%string) (Some "/*"%string)
             (Some "*/"%string) (Z.lor HL_NUMBERS HL_STRINGS) ].

(* ================================================================= *)
(** ** Syntax highlighting *)

Definition isSeparator (c : Z) : bool :=
  isspace c || (c =? 0) || strchr (str ",.()+-/*=~%<>[]:;{}") (int_to_char c).

Definition opt_str (m : option string) : list ascii :=
  match m with Some s => str s | None => [] end.

(** [m ? strlen(m) : 0]. *)
Definition opt_len (m : option string) : Z :=
  match m with Some s => strlen (str s) | None => 0 end.

(** [!strncmp(&render[i], pat, n)]. *)
Definition match_at (rnd : list ascii) (i : Z) (pat : list ascii) (n : Z)
  : bool :=
  strncmp0 (skipn (Z.to_nat i) rnd) pat (Z.to_nat n).

(** [for (k = 0; keywords[k]; k++)]: the first keyword that matches at
    [i], as its length and whether it is a keyword2. *)
Fixpoint match_keyword (rnd : list ascii) (i : Z) (kws : list string)
  : option (Z * bool) :=
  match kws with
  | [] => None
  | kw :: rest =>
      let klen0 := strlen (str kw) in
      let kw2 := Ascii.eqb (char_at (str kw) (klen0 - 1)) (chr "|") in
      let klen := if kw2 then klen0 - 1 else klen0 in
      if match_at rnd i (str kw) klen
         && isSeparator (char_to_int (char_at rnd (i + klen)))
      then Some (klen, kw2)
      else match_keyword rnd i rest
  end.

(** The locals of the scanning loop of [editorUpdateSyntax]. *)
Record Scan : Set := mkScan {
  sc_i : Z;
  sc_hl : list Highlight;
  sc_prev_sep : bool;
  sc_in_string : Z;
  sc_in_comment : bool
}.

Definition DQUOTE : ascii := ascii_of_nat 34.
Definition BACKSLASH : ascii := ascii_of_nat 92.

(** One iteration of [while (i < row->rsize)]; the flag tells [break]. *)
Definition scan_step (sy : Syntax) (rnd : list ascii) (rsz : Z) (s : Scan)
  : Res (bool * Scan) :=
  let i := sc_i s in
  let h := sc_hl s in
  let prev_sep := sc_prev_sep s in
  let in_string := sc_in_string s in
  let in_comment := sc_in_comment s in
  let scs_len := opt_len (scs sy) in
  let mcs_len := opt_len (mcs sy) in
  let mce_len := opt_len (mce sy) in
  let c := char_at rnd i in
  prev_hl <- (if 0 <? i then load h (i - 1) else Ok HL_NORMAL) ;;
  if negb (scs_len =? 0) && (in_string =? 0) && negb in_comment
     && match_at rnd i (opt_str (scs sy)) scs_len
  then
    (* single-line comment *)
    h1 <- memset h i HL_COMMENT (rsz - i) ;;
    Ok (true, mkScan i h1 prev_sep in_string in_comment)
  else if negb (mcs_len =? 0) && negb (mce_len =? 0) && (in_string =? 0)
          && in_comment
  then
    (* inside a multi-line comment *)
    h1 <- store h i HL_MLCOMMENT ;;
    if match_at rnd i (opt_str (mce sy)) mce_len
    then h2 <- memset h1 i HL_MLCOMMENT mce_len ;;
         Ok (false, mkScan (i + mce_len) h2 true in_string false)
    else Ok (false, mkScan (i + 1) h1 prev_sep in_string in_comment)
  else if negb (mcs_len =? 0) && negb (mce_len =? 0) && (in_string =? 0)
          && match_at rnd i (opt_str (mcs sy)) mcs_len
  then
    (* a multi-line comment starts *)
    h1 <- memset h i HL_MLCOMMENT mcs_len ;;
    Ok (false, mkScan (i + mcs_len) h1 prev_sep in_string true)
  else if negb (Z.land (flags sy) HL_STRINGS =? 0) && negb (in_string =? 0)
  then
    (* inside a string *)
    h1 <- store h i HL_STRING ;;
    if Ascii.eqb c (chr "\") && (i + 1 <? rsz)
    then h2 <- store h1 (i + 1) HL_STRING ;;
         Ok (false, mkScan (i + 2) h2 prev_sep in_string in_comment)
    else Ok (false, mkScan (i + 1) h1 true
                      (if char_to_int c =? in_string then 0 else in_string)
                      in_comment)
  else if negb (Z.land (flags sy) HL_STRINGS =? 0)
          && (Ascii.eqb c DQUOTE || Ascii.eqb c (chr "'"))
  then
    (* a string starts *)
    h1 <- store h i HL_STRING ;;
    Ok (false, mkScan (i + 1) h1 prev_sep (char_to_int c) in_comment)
  else if negb (Z.land (flags sy) HL_NUMBERS =? 0)
          && ((isdigit (uchar c)
               && (prev_sep || Highlight_eqb prev_hl HL_NUMBER))
              || (Ascii.eqb c (chr ".") && Highlight_eqb prev_hl HL_NUMBER))
  then
    (* numbers (digits / decimals) *)
    h1 <- store h i HL_NUMBER ;;
    Ok (false, mkScan (i + 1) h1 false in_string in_comment)
  else
    match (if prev_sep then match_keyword rnd i (keywords sy) else None) with
    | Some (klen, kw2) =>
        h1 <- memset h i (if kw2 then HL_KEYWORD2 else HL_KEYWORD1) klen ;;
        Ok (false, mkScan (i + klen) h1 false in_string in_comment)
    | None =>
        Ok (false, mkScan (i + 1) h (isSeparator (char_to_int c))
                     in_string in_comment)
    end.

Fixpoint scan_loop (sy : Syntax) (rnd : list ascii) (rsz : Z) (fuel : nat)
  (s : Scan) : Res Scan :=
  if sc_i s <? rsz then
    match fuel with
    | O => NoFuel
    | S fuel' =>
        '(brk, s') <- scan_step sy rnd rsz s ;;
        if (brk : bool) then Ok s' else scan_loop sy rnd rsz fuel' s'
    end
  else Ok s.

(** [xrealloc(row->hl, (size_t)n)].  [hl_null] tells whether [row->hl] is
    NULL.  For a size of 0 and a block to resize, the [realloc] of the GNU
    C library frees the block and returns NULL, and [xrealloc] ends the
    program through [die]; [realloc(NULL, 0)] returns a block. *)
Definition xrealloc_hl (hl_null : bool) (n : Z) : Res unit :=
  if negb hl_null && (n =? 0) then Exited 1 else Ok tt.

(** [editorUpdateSyntax(&E.row[p])]; [fuel] bounds the calls for the rows
    that follow.  [row->hl] is NULL in the row that [editorInsertRow] has
    just made, and in no other: every row is highlighted before
    [editorInsertRow] returns, and only this function assigns [row->hl]
    afterwards. *)
Fixpoint editorUpdateSyntax_rec (fuel : nat) (E : Editor) (p : Z)
  (hl_null : bool) : Res Editor :=
  r <- row_at E p ;;
  _ <- xrealloc_hl hl_null (rsize r) ;;
  let h0 := repeat HL_NORMAL (Z.to_nat (rsize r)) in
  match syntax E with
  | None => Ok (set_row E p (set_hl r h0))
  | Some sy =>
      in_comment0 <-
        (if 0 <? idx r
         then prev <- row_at E (idx r - 1) ;;
              Ok (hl_open_comment prev)
         else Ok false) ;;
      s <- scan_loop sy (render r) (rsize r) (Z.to_nat (rsize r))
             (mkScan 0 h0 true 0 in_comment0) ;;
      let changed := negb (Bool.eqb (hl_open_comment r) (sc_in_comment s)) in
      let E' := set_row E p (set_open (set_hl r (sc_hl s)) (sc_in_comment s)) in
      if changed && (idx r + 1 <? numrows E)
      then match fuel with
           | O => NoFuel
           | S fuel' => editorUpdateSyntax_rec fuel' E' (idx r + 1) false
           end
      else Ok E'
  end.

Definition editorUpdateSyntax (E : Editor) (p : Z) (hl_null : bool)
  : Res Editor :=
  editorUpdateSyntax_rec (Z.to_nat (numrows E)) E p hl_null.

(* ================================================================= *)
(** ** Rows *)

(** [while (idx % TAB_STOP != 0) row->render[idx++] = ' ';] where [idx] is
    the number of bytes written so far; at most [TAB_STOP - 1] rounds. *)
Fixpoint tab_fill (fuel : nat) (out : list ascii) : list ascii :=
  match fuel with
  | O => out
  | S fuel' =>
      if Z.rem (len out) TAB_STOP =? 0 then out
      else tab_fill fuel' (out ++ [chr " "])
  end.

(** [for (j = 0; j < row->size; j++)] filling [row->render]. *)
Fixpoint render_loop (cs : list ascii) (n : nat) (j : Z) (out : list ascii)
  : list ascii :=
  match n with
  | O => out
  | S n' =>
      let c := char_at cs j in
      render_loop cs n' (j + 1)
        (if Ascii.eqb c TAB
         then tab_fill (Z.to_nat TAB_STOP) (out ++ [chr " "])
         else out ++ [c])
  end.

Definition editorUpdateRow (E : Editor) (p : Z) (hl_null : bool)
  : Res Editor :=
  r <- row_at E p ;;
  let out := render_loop (chars r) (Z.to_nat (size r)) 0 [] in
  editorUpdateSyntax (set_row E p (set_render r (len out) out)) p hl_null.

Definition add_idx (d : Z) (r : Row) : Row := set_idx r (idx r + d).

Definition editorInsertRow (E : Editor) (at_ : Z) (s : list ascii)
  : Res Editor :=
  if (at_ <? 0) || (at_ >? numrows E) then Ok E
  else
    let fresh := mkRow at_ (len s) 0 s [] [] false in
    let rows := firstn (Z.to_nat at_) (row E) ++ fresh
                  :: map (add_idx 1) (skipn (Z.to_nat at_) (row E)) in
    E1 <- editorUpdateRow (set_rows E rows) at_ true ;;
    Ok (set_dirty (set_numrows E1 (numrows E1 + 1)) (dirty E1 + 1)).

Definition editorDelRow (E : Editor) (at_ : Z) : Res Editor :=
  if (at_ <? 0) || (at_ >=? numrows E) then Ok E
  else
    let rows := firstn (Z.to_nat at_) (row E)
                  ++ map (add_idx (-1)) (skipn (S (Z.to_nat at_)) (row E)) in
    let E1 := set_rows E rows in
    Ok (set_dirty (set_numrows E1 (numrows E1 - 1)) (dirty E1 + 1)).

(** The row functions take the place [p] of the row they are handed a
    pointer to. *)
Definition rowInsertChar (E : Editor) (p : Z) (at_ : Z) (c : Z)
  : Res Editor :=
  r <- row_at E p ;;
  let at' := if (at_ <? 0) || (at_ >? size r) then size r else at_ in
  let cs := firstn (Z.to_nat at') (chars r) ++ int_to_char c
              :: skipn (Z.to_nat at') (chars r) in
  E1 <- editorUpdateRow (set_row E p (set_chars r (size r + 1) cs)) p
          false ;;
  Ok (set_dirty E1 (dirty E1 + 1)).

Definition rowAppendString (E : Editor) (p : Z) (s : list ascii)
  : Res Editor :=
  r <- row_at E p ;;
  let cs := firstn (Z.to_nat (size r)) (chars r) ++ s in
  E1 <- editorUpdateRow (set_row E p (set_chars r (size r + len s) cs)) p
          false ;;
  Ok (set_dirty E1 (dirty E1 + 1)).

Definition rowDelChar (E : Editor) (p : Z) (at_ : Z) : Res Editor :=
  r <- row_at E p ;;
  if (at_ <? 0) || (at_ >=? size r) then Ok E
  else
    let cs := firstn (Z.to_nat at_) (chars r)
                ++ skipn (S (Z.to_nat at_)) (chars r) in
    E1 <- editorUpdateRow (set_row E p (set_chars r (size r - 1) cs)) p
            false ;;
    Ok (set_dirty E1 (dirty E1 + 1)).

(* ================================================================= *)
(** ** Editor operations *)

Definition editorInsertChar (E : Editor) (c : Z) : Res Editor :=
  E1 <- (if cy E =? numrows E then editorInsertRow E (numrows E) []
         else Ok E) ;;
  E2 <- rowInsertChar E1 (cy E1) (cx E1) c ;;
  Ok (set_cursor E2 (cx E2 + 1) (cy E2)).

(** [&row->chars[from]] for [n] bytes; reading past the terminator is
    out of bounds. *)
Definition sub_chars (r : Row) (from n : Z) : Res (list ascii) :=
  if (0 <=? from) && (0 <=? n) && (from + n <=? size r)
  then Ok (firstn (Z.to_nat n) (skipn (Z.to_nat from) (chars r)))
  else Undefined.

Definition editorInsertNewline (E : Editor) : Res Editor :=
  E3 <- (if cx E =? 0 then editorInsertRow E (cy E) []
         else
           r <- row_at E (cy E) ;;
           s <- sub_chars r (cx E) (size r - cx E) ;;
           E1 <- editorInsertRow E (cy E + 1) s ;;
           r1 <- row_at E1 (cy E1) ;;
           let r2 := set_chars r1 (cx E1) (firstn (Z.to_nat (cx E1)) (chars r1)) in
           editorUpdateRow (set_row E1 (cy E1) r2) (cy E1) false) ;;
  Ok (set_cursor E3 0 (cy E3 + 1)).

Definition editorDelChar (E : Editor) : Res Editor :=
  if cy E =? numrows E then Ok E
  else if (cx E =? 0) && (cy E =? 0) then Ok E
  else
    r <- row_at E (cy E) ;;
    if cx E >? 0 then
      E1 <- rowDelChar E (cy E) (cx E - 1) ;;
      Ok (set_cursor E1 (cx E1 - 1) (cy E1))
    else
      prev <- row_at E (cy E - 1) ;;
      let E0 := set_cursor E (size prev) (cy E) in
      s <- sub_chars r 0 (size r) ;;
      E1 <- rowAppendString E0 (cy E0 - 1) s ;;
      E2 <- editorDelRow E1 (cy E1) ;;
      Ok (set_cursor E2 (cx E2) (cy E2 - 1)).

(* ================================================================= *)
(** ** File I/O *)

(** The buffer and its length, [*buflen]. *)
Definition editorRowsToString (E : Editor) : list ascii * Z :=
  let rows := firstn (Z.to_nat (numrows E)) (row E) in
  (flat_map (fun r => firstn (Z.to_nat (size r)) (chars r) ++ [LF]) rows,
   fold_left (fun tot r => tot + (size r + 1)) rows 0).

(** The successive results of [getline] on a stream holding [data]: each
    line with its newline, the last one possibly without; [cur] is the
    line being read. *)
Fixpoint getlines (data cur : list ascii) : list (list ascii) :=
  match data with
  | [] => match cur with [] => [] | _ :: _ => [cur] end
  | c :: rest =>
      if Ascii.eqb c LF then (cur ++ [c]) :: getlines rest []
      else getlines rest (cur ++ [c])
  end.

(** [while (len > 0 && (line[len-1] == '\n' || line[len-1] == '\r')) len--;]
    started at [len = n]. *)
Fixpoint strip_len (line : list ascii) (n : nat) : nat :=
  match n with
  | O => O
  | S n' =>
      let c := nth n' line NUL in
      if Ascii.eqb c LF || Ascii.eqb c CR then strip_len line n' else n
  end.

(** [strrchr(s, '.')]: the tail of the C string from its last dot. *)
Fixpoint strrchr_dot (s : list ascii) : option (list ascii) :=
  match s with
  | [] => None
  | c :: r =>
      match strrchr_dot r with
      | Some t => Some t
      | None => if Ascii.eqb c (chr ".") then Some s else None
      end
  end.

Definition list_ascii_eqb (a b : list ascii) : bool :=
  (length a =? length b)%nat && is_prefix a b.

Definition filematch_hit (fname : list ascii) (fm : string) : bool :=
  let is_ext := Ascii.eqb (char_at (str fm) 0) (chr ".") in
  (is_ext && match strrchr_dot (cstr fname) with
             | Some ext => list_ascii_eqb ext (cstr (str fm))
             | None => false
             end)
  || (negb is_ext && match strstr fname (str fm) with
                     | Some _ => true
                     | None => false
                     end).

(** [for (r = 0; r < E.numrows; r++) editorUpdateSyntax(&E.row[r]);] with
    [n] rows to go from [r]. *)
Fixpoint update_all_syntax (n : nat) (E : Editor) (r : Z) : Res Editor :=
  match n with
  | O => Ok E
  | S n' =>
      E1 <- editorUpdateSyntax E r false ;; update_all_syntax n' E1 (r + 1)
  end.

Definition editorSelectSyntax (E : Editor) : Res Editor :=
  let E0 := set_syntax E None in
  match filename E0 with
  | None => Ok E0
  | Some fname =>
      match List.find (fun s => existsb (filematch_hit fname) (filematch s)) HLDB
      with
      | Some s =>
          let E1 := set_syntax E0 (Some s) in
          update_all_syntax (Z.to_nat (numrows E1)) E1 0
      | None => Ok E0
      end
  end.

(** [editorOpen(filename)]; [file] is what [fopen] finds: nothing, or the
    bytes of the file. *)
Definition editorOpen (E : Editor) (fname : list ascii)
  (file : option (list ascii)) : Res Editor :=
  E1 <- editorSelectSyntax (set_filename E (Some fname)) ;;
  match file with
  | None => Exited 1
  | Some data =>
      E2 <- fold_left
              (fun acc line =>
                 E' <- acc ;;
                 editorInsertRow E' (numrows E')
                   (firstn (strip_len line (length line)) line))
              (getlines data []) (Ok E1) ;;
      Ok (set_dirty E2 0)
  end.

(* ================================================================= *)
(** ** Search *)

(** [for (i = 0; i < E.numrows; i++)] of [editorFindCallback], with [n]
    iterations to go. *)
Fixpoint find_loop (n : nat) (query : list ascii) (w : World) (current : Z)
  : Res World :=
  match n with
  | O => Ok w
  | S n' =>
      let E := ed w in
      let current := current + direction (find w) in
      let current := if current =? -1 then numrows E - 1 else current in
      let current := if current =? numrows E then 0 else current in
      r <- row_at E current ;;
      match strstr (render r) query with
      | Some off =>
          let E1 := set_cursor E (rowRxToCx r off) current in
          let E2 := set_view E1 (rx E1) (numrows E1) (coloff E1) in
          saved <- (if (0 <=? rsize r) && (rsize r <=? len (hl r))
                    then Ok (firstn (Z.to_nat (rsize r)) (hl r))
                    else Undefined) ;;
          h <- memset (hl r) off HL_MATCH (strlen query) ;;
          Ok (mkWorld (set_row E2 current (set_hl r h)) (quit_times w)
                (mkFind current (direction (find w)) current (Some saved)))
      | None => find_loop n' query w current
      end
  end.

(** [if (saved_hl) { memcpy(...); free(saved_hl); ... }]: restore the
    highlight saved at the previous match. *)
Definition find_restore (w : World) : Res World :=
  match saved_hl (find w) with
  | Some saved =>
      let line := saved_hl_line (find w) in
      r <- row_at (ed w) line ;;
      if (0 <=? rsize r) && (rsize r <=? len saved)
         && (rsize r <=? len (hl r))
      then
        let h := firstn (Z.to_nat (rsize r)) saved
                   ++ skipn (Z.to_nat (rsize r)) (hl r) in
        Ok (mkWorld (set_row (ed w) line (set_hl r h)) (quit_times w)
              (mkFind (last_match (find w)) (direction (find w))
                 (-1) None))
      else Undefined
  | None => Ok w
  end.

Definition editorFindCallback (query : list ascii) (key : Z) (w : World)
  : Res World :=
  w1 <- find_restore w ;;
  let f := find w1 in
  let reset := mkFind (-1) 1 (saved_hl_line f) (saved_hl f) in
  if (key =? KEY_ENTER) || (key =? KEY_ESC)
  then Ok (mkWorld (ed w1) (quit_times w1) reset)
  else
    let f1 :=
      if (key =? KEY_ARROW_RIGHT) || (key =? KEY_ARROW_DOWN)
      then mkFind (last_match f) 1 (saved_hl_line f) (saved_hl f)
      else if (key =? KEY_ARROW_LEFT) || (key =? KEY_ARROW_UP)
      then mkFind (last_match f) (-1) (saved_hl_line f) (saved_hl f)
      else reset in
    let f2 :=
      if last_match f1 =? -1
      then mkFind (last_match f1) 1 (saved_hl_line f1) (saved_hl f1)
      else f1 in
    let w2 := mkWorld (ed w1) (quit_times w1) f2 in
    find_loop (Z.to_nat (numrows (ed w2))) query w2 (last_match f2).

Definition with_ed (w : World) (E : Editor) : World :=
  mkWorld E (quit_times w) (find w).

(* ================================================================= *)
(** ** Output: only [editorScroll] changes the state *)

Definition editorScroll (E : Editor) : Res Editor :=
  rx1 <- (if cy E <? numrows E
          then r <- row_at E (cy E) ;; Ok (rowCxToRx r (cx E))
          else Ok 0) ;;
  let ro := if cy E <? rowoff E then cy E else rowoff E in
  let ro := if cy E >=? ro + screenrows E then cy E - screenrows E + 1
            else ro in
  let co := if rx1 <? coloff E then rx1 else coloff E in
  let co := if rx1 >=? co + screencols E then rx1 - screencols E + 1
            else co in
  Ok (set_view E rx1 ro co).

Definition editorRefreshScreen (E : Editor) : Res Editor := editorScroll E.

(* ================================================================= *)
(** ** Input *)

(** [(E.cy >= E.numrows) ? NULL : &E.row[E.cy]], as the row read there. *)
Definition cursor_row (E : Editor) : Res (option Row) :=
  if cy E >=? numrows E then Ok None
  else r <- row_at E (cy E) ;; Ok (Some r).

Definition editorMoveCursor (E : Editor) (key : Z) : Res Editor :=
  orow <- cursor_row E ;;
  E1 <-
    (if key =? KEY_ARROW_LEFT then
       if negb (cx E =? 0) then Ok (set_cursor E (cx E - 1) (cy E))
       else if cy E >? 0 then
         prev <- row_at E (cy E - 1) ;;
         Ok (set_cursor E (size prev) (cy E - 1))
       else Ok E
     else if key =? KEY_ARROW_RIGHT then
       match orow with
       | Some r =>
           if cx E <? size r then Ok (set_cursor E (cx E + 1) (cy E))
           else if cx E =? size r then Ok (set_cursor E 0 (cy E + 1))
           else Ok E
       | None => Ok E
       end
     else if key =? KEY_ARROW_UP then
       if negb (cy E =? 0) then Ok (set_cursor E (cx E) (cy E - 1))
       else Ok E
     else if key =? KEY_ARROW_DOWN then
       if cy E <? numrows E then Ok (set_cursor E (cx E) (cy E + 1))
       else Ok E
     else Ok E) ;;
  orow1 <- cursor_row E1 ;;
  let rowlen := match orow1 with Some r => size r | None => 0 end in
  Ok (if cx E1 >? rowlen then set_cursor E1 rowlen (cy E1) else E1).

(** A callback handed to [editorPrompt]. *)
Definition Callback : Type := list ascii -> Z -> World -> Res World.

Definition call (cb : option Callback) (buf : list ascii) (key : Z)
  (w : World) : Res World :=
  match cb with
  | Some f => f buf key w
  | None => Ok w
  end.

(** [editorPrompt]: one round of [while (1)] per key of [keys].  The result
    is the answer (None for NULL), the state and the keys left. *)
Fixpoint editorPrompt (cb : option Callback) (keys : list Z)
  (buf : list ascii) (w : World)
  : Res (option (list ascii) * World * list Z) :=
  E1 <- editorRefreshScreen (ed w) ;;
  let w1 := with_ed w E1 in
  match keys with
  | [] => Waiting w1
  | c :: rest =>
      if (c =? KEY_DEL) || (c =? CTRL_KEY "h") || (c =? KEY_BACKSPACE) then
        let buf1 := match buf with [] => buf | _ :: _ => removelast buf end in
        w2 <- call cb buf1 c w1 ;;
        editorPrompt cb rest buf1 w2
      else if c =? KEY_ESC then
        w2 <- call cb buf c w1 ;;
        Ok (None, w2, rest)
      else if c =? KEY_ENTER then
        match buf with
        | _ :: _ =>
            w2 <- call cb buf c w1 ;;
            Ok (Some buf, w2, rest)
        | [] =>
            w2 <- call cb buf c w1 ;;
            editorPrompt cb rest buf w2
        end
      else if negb (iscntrl c) && (c <? 128) then
        let buf1 := buf ++ [int_to_char c] in
        w2 <- call cb buf1 c w1 ;;
        editorPrompt cb rest buf1 w2
      else
        w2 <- call cb buf c w1 ;;
        editorPrompt cb rest buf w2
  end.

(** [editorSave]; [writes] are the outcomes of the successive attempts to
    write the file (open, truncate and write all succeed, or not). *)
Definition editorSave (keys : list Z) (writes : list bool) (w : World)
  : Res (World * list Z * list bool) :=
  '(go, w1, keys1) <-
    match filename (ed w) with
    | Some _ => Ok (true, w, keys)
    | None =>
        '(name, w', keys') <- editorPrompt None keys [] w ;;
        match name with
        | None => Ok (false, w', keys')
        | Some n =>
            E' <- editorSelectSyntax (set_filename (ed w') (Some n)) ;;
            Ok (true, with_ed w' E', keys')
        end
    end ;;
  if (go : bool) then
    match writes with
    | true :: writes' => Ok (with_ed w1 (set_dirty (ed w1) 0), keys1, writes')
    | _ => Ok (w1, keys1, tl writes)
    end
  else Ok (w1, keys1, writes).

Definition editorFind (keys : list Z) (w : World) : Res (World * list Z) :=
  let E := ed w in
  '(query, w1, keys1) <- editorPrompt (Some editorFindCallback) keys [] w ;;
  match query with
  | Some _ => Ok (w1, keys1)
  | None =>
      let E1 := set_cursor (ed w1) (cx E) (cy E) in
      Ok (with_ed w1 (set_view E1 (rx E1) (rowoff E) (coloff E)), keys1)
  end.

(** [while (times--) editorMoveCursor(key);] *)
Fixpoint move_times (n : nat) (E : Editor) (key : Z) : Res Editor :=
  match n with
  | O => Ok E
  | S n' => E1 <- editorMoveCursor E key ;; move_times n' E1 key
  end.

(** [editorProcessKeypress] once the key [c] has been read; a result [Ok]
    is a return to [main]. *)
Definition editorProcessKeypress (c : Z) (keys : list Z)
  (writes : list bool) (w : World) : Res (World * list Z * list bool) :=
  let E := ed w in
  let done (r : Res Editor) : Res (World * list Z * list bool) :=
    E' <- r ;; Ok (mkWorld E' QUIT_TIMES (find w), keys, writes) in
  if c =? KEY_ENTER then done (editorInsertNewline E)
  else if c =? CTRL_KEY "q" then
    if negb (dirty E =? 0) && (quit_times w >? 0)
    then Ok (mkWorld E (quit_times w - 1) (find w), keys, writes)
    else Exited 0
  else if c =? CTRL_KEY "s" then
    '(w1, keys1, writes1) <- editorSave keys writes w ;;
    Ok (mkWorld (ed w1) QUIT_TIMES (find w1), keys1, writes1)
  else if c =? CTRL_KEY "f" then
    '(w1, keys1) <- editorFind keys w ;;
    Ok (mkWorld (ed w1) QUIT_TIMES (find w1), keys1, writes)
  else if c =? KEY_HOME then done (Ok (set_cursor E 0 (cy E)))
  else if c =? KEY_END then
    done (if cy E <? numrows E
          then r <- row_at E (cy E) ;; Ok (set_cursor E (size r) (cy E))
          else Ok E)
  else if (c =? KEY_BACKSPACE) || (c =? CTRL_KEY "h") || (c =? KEY_DEL) then
    done (E1 <- (if c =? KEY_DEL then editorMoveCursor E KEY_ARROW_RIGHT
                 else Ok E) ;;
          editorDelChar E1)
  else if (c =? KEY_PAGE_UP) || (c =? KEY_PAGE_DOWN) then
    let E1 :=
      if c =? KEY_PAGE_UP then set_cursor E (cx E) (rowoff E)
      else
        let y := rowoff E + screenrows E - 1 in
        set_cursor E (cx E) (if y >? numrows E then numrows E else y) in
    if screenrows E1 <? 0 then NoFuel
    else done (move_times (Z.to_nat (screenrows E1)) E1
                 (if c =? KEY_PAGE_UP then KEY_ARROW_UP else KEY_ARROW_DOWN))
  else if (c =? KEY_ARROW_UP) || (c =? KEY_ARROW_DOWN)
          || (c =? KEY_ARROW_LEFT) || (c =? KEY_ARROW_RIGHT) then
    done (editorMoveCursor E c)
  else if (c =? CTRL_KEY "l") || (c =? KEY_ESC) then done (Ok E)
  else
    done (if negb (iscntrl c) && (c <? 128) then editorInsertChar E c
          else Ok E).

(* ================================================================= *)
(** ** Init and the main loop *)

Definition find0 : FindState := mkFind (-1) 1 (-1) None.

(** [initEditor]; [rows] and [cols] are what [getWindowSize] reports. *)
Definition initEditor (rows cols : Z) : World :=
  mkWorld (mkEditor 0 0 0 0 0 (rows - 2) cols 0 [] 0 None None)
          QUIT_TIMES find0.

(** [while (1) { editorRefreshScreen(); editorProcessKeypress(); }] *)
Fixpoint main_loop (fuel : nat) (keys : list Z) (writes : list bool)
  (w : World) : Res World :=
  match fuel with
  | O => NoFuel
  | S fuel' =>
      E1 <- editorRefreshScreen (ed w) ;;
      let w1 := with_ed w E1 in
      match keys with
      | [] => Waiting w1
      | c :: rest =>
          '(w2, keys2, writes2) <- editorProcessKeypress c rest writes w1 ;;
          main_loop fuel' keys2 writes2 w2
      end
  end.

(** [main]: the terminal reports [rows] x [cols]; [arg] is the file named
    on the command line, if any, with what [fopen] finds for it. *)
Definition main (rows cols : Z)
  (arg : option (list ascii * option (list ascii)))
  (keys : list Z) (writes : list bool) : Res World :=
  let w0 := initEditor rows cols in
  w1 <- match arg with
        | Some (fname, file) =>
            E1 <- editorOpen (ed w0) fname file ;; Ok (with_ed w0 E1)
        | None => Ok w0
        end ;;
  main_loop (S (length keys)) keys writes w1.

(* ================================================================= *)
(** ** Rows: the allocation of the render buffer *)

(** [for (j = 0; j < row->size; j++) if (row->chars[j] == '\t') tabs++;] of
    [editorUpdateRow], with [n] iterations left. *)
Fixpoint count_tabs (cs : list ascii) (n : nat) (j tabs : Z) : Z :=
  match n with
  | O => tabs
  | S n' =>
      count_tabs cs n' (j + 1)
        (if Ascii.eqb (char_at cs j) TAB then tabs + 1 else tabs)
  end.

(** The number of bytes [editorUpdateRow] allocates for [row->render]:
    [row->size + tabs * (TAB_STOP - 1) + 1]. *)
Definition render_alloc (r : Row) : Z :=
  size r + count_tabs (chars r) (Z.to_nat (size r)) 0 0 * (TAB_STOP - 1) + 1.

(* ================================================================= *)
(** ** Output: the frame written to the terminal *)

Definition KILO_VERSION : string := "1.0".

(** [E.statusmsg], as the C string the array holds, and
    [E.statusmsg_time]. *)
Record Status : Set := mkStatus {
  statusmsg : list ascii;
  statusmsg_time : Z
}.

(** The conversion [%d] of <stdio.h>: the decimal digits of [n], most
    significant first, [fuel] bounding their number. *)
Fixpoint digits (fuel : nat) (n : Z) (acc : list ascii) : list ascii :=
  match fuel with
  | O => acc
  | S fuel' =>
      let acc' := int_to_char (char_to_int (chr "0") + n mod 10) :: acc in
      if n <? 10 then acc' else digits fuel' (n / 10) acc'
  end.

Definition fmt_d (n : Z) : list ascii :=
  if n <? 0
  then chr "-" :: digits (S (Z.to_nat (Z.log2 (- n)))) (- n) []
  else digits (S (Z.to_nat (Z.log2 n))) n [].

(** [snprintf(buf, size, fmt, ...)] where the format expands to [s]: the
    bytes [buf] holds before its terminator, and the value returned. *)
Definition snprintf (size : Z) (s : list ascii) : list ascii * Z :=
  (firstn (Z.to_nat (size - 1)) s, len s).

(** [abAppend(ab, s, len)], [s] being the bytes in use of a terminated
    buffer: [memcpy] copies [len] of them, the terminator included if
    [len] reaches it; beyond that, and for a negative [len], it reads or
    writes out of bounds. *)
Definition abAppend (ab s : list ascii) (n : Z) : Res (list ascii) :=
  if (0 <=? n) && (n <=? len s + 1)
  then Ok (ab ++ firstn (Z.to_nat n) (s ++ [NUL]))
  else Undefined.

Definition syntaxToColor (h : Highlight) : Z :=
  match h with
  | HL_COMMENT | HL_MLCOMMENT => 36
  | HL_KEYWORD1 => 33
  | HL_KEYWORD2 => 32
  | HL_STRING => 35
  | HL_NUMBER => 31
  | HL_MATCH => 34
  | _ => 37
  end.

(** [snprintf(buf, sizeof(buf), "\x1b[%dm", color)] with [char buf[16]]. *)
Definition color_escape (color : Z) : list ascii * Z :=
  snprintf 16 (ESC :: str "[" ++ fmt_d color ++ str "m").

(** [for (int j = 0; j < len; j++)] of [editorDrawRows], with [n]
    iterations left; [co] is the offset of the pointers [c] and [hl] into
    [render] and [hl], checked where they are read through. *)
Fixpoint draw_row_loop (r : Row) (co : Z) (n : nat) (j current_color : Z)
  (ab : list ascii) : Res (list ascii) :=
  match n with
  | O => Ok ab
  | S n' =>
      c <- load (render r) (co + j) ;;
      '(ab1, color1) <-
        (if iscntrl (uchar c)
         then
           let sym := if char_to_int c <=? 26
                      then int_to_char (char_to_int (chr "@") + char_to_int c)
                      else chr "?" in
           ab1 <- abAppend ab (ESC :: str "[7m") 4 ;;
           ab2 <- abAppend ab1 [sym] 1 ;;
           ab3 <- abAppend ab2 (ESC :: str "[m") 3 ;;
           ab4 <- (if current_color =? -1 then Ok ab3
                   else let '(buf, clen) := color_escape current_color in
                        abAppend ab3 buf clen) ;;
           Ok (ab4, current_color)
         else
           h <- load (hl r) (co + j) ;;
           if Highlight_eqb h HL_NORMAL
           then
             ab1 <- (if current_color =? -1 then Ok ab
                     else abAppend ab (ESC :: str "[39m") 5) ;;
             ab2 <- abAppend ab1 [c] 1 ;;
             Ok (ab2, -1)
           else
             let color := syntaxToColor h in
             ab1 <- (if color =? current_color then Ok ab
                     else let '(buf, clen) := color_escape color in
                          abAppend ab buf clen) ;;
             ab2 <- abAppend ab1 [c] 1 ;;
             Ok (ab2, color)) ;;
      draw_row_loop r co n' (j + 1) color1 ab1
  end.

(** [while (padding--) abAppend(ab, " ", 1);] with [n] iterations left. *)
Fixpoint pad_loop (n : nat) (ab : list ascii) : Res (list ascii) :=
  match n with
  | O => Ok ab
  | S n' => ab1 <- abAppend ab (str " ") 1 ;; pad_loop n' ab1
  end.

(** The welcome line of an empty buffer. *)
Definition draw_welcome (E : Editor) (ab : list ascii) : Res (list ascii) :=
  let '(welcome, welcomelen) :=
    snprintf 80 (str "Kilo -- v" ++ cstr (str KILO_VERSION)) in
  let welcomelen := if welcomelen >? screencols E then screencols E
                    else welcomelen in
  let padding := Z.quot (screencols E - welcomelen) 2 in
  '(ab1, padding) <-
    (if padding =? 0 then Ok (ab, padding)
     else ab1 <- abAppend ab (str "~") 1 ;; Ok (ab1, padding - 1)) ;;
  ab2 <- (if padding <? 0 then NoFuel
          else pad_loop (Z.to_nat padding) ab1) ;;
  abAppend ab2 welcome welcomelen.

(** The body of [for (int y = 0; y < E.screenrows; y++)]. *)
Definition draw_line (E : Editor) (y : Z) (ab : list ascii)
  : Res (list ascii) :=
  let filerow := y + rowoff E in
  ab1 <-
    (if filerow >=? numrows E
     then
       if (numrows E =? 0) && (y =? Z.quot (screenrows E) 3)
       then draw_welcome E ab
       else abAppend ab (str "~") 1
     else
       r <- row_at E filerow ;;
       let len0 := rsize r - coloff E in
       let len1 := if len0 <? 0 then 0 else len0 in
       let len2 := if len1 >? screencols E then screencols E else len1 in
       ab1 <- draw_row_loop r (coloff E) (Z.to_nat len2) 0 (-1) ab ;;
       abAppend ab1 (ESC :: str "[39m") 5) ;;
  ab2 <- abAppend ab1 (ESC :: str "[K") 3 ;;
  abAppend ab2 [CR; LF] 2.

Fixpoint editorDrawRows_loop (E : Editor) (n : nat) (y : Z)
  (ab : list ascii) : Res (list ascii) :=
  match n with
  | O => Ok ab
  | S n' => ab1 <- draw_line E y ab ;; editorDrawRows_loop E n' (y + 1) ab1
  end.

Definition editorDrawRows (E : Editor) (ab : list ascii)
  : Res (list ascii) :=
  editorDrawRows_loop E (Z.to_nat (screenrows E)) 0 ab.

(** What ["%.20s - %d lines %s"] and ["%s | %d/%d"] expand to. *)
Definition status_text (E : Editor) : list ascii :=
  firstn 20 (cstr (match filename E with
                   | Some f => f
                   | None => str "[No Name]"
                   end))
  ++ str " - " ++ fmt_d (numrows E) ++ str " lines "
  ++ cstr (if dirty E =? 0 then [] else str "(modified)").

Definition rstatus_text (E : Editor) : list ascii :=
  cstr (str (match syntax E with
             | Some sy => filetype sy
             | None => "no ft"%string
             end))
  ++ str " | " ++ fmt_d (cy E + 1) ++ str "/" ++ fmt_d (numrows E).

(** [while (len < E.screencols)] of [editorDrawStatusBar], with [n]
    iterations left. *)
Fixpoint status_fill (E : Editor) (rstatus : list ascii) (rlen : Z)
  (n : nat) (len_ : Z) (ab : list ascii) : Res (list ascii) :=
  if len_ <? screencols E
  then match n with
       | O => NoFuel
       | S n' =>
           if screencols E - len_ =? rlen
           then abAppend ab rstatus rlen
           else ab1 <- abAppend ab (str " ") 1 ;;
                status_fill E rstatus rlen n' (len_ + 1) ab1
       end
  else Ok ab.

Definition editorDrawStatusBar (E : Editor) (ab : list ascii)
  : Res (list ascii) :=
  ab1 <- abAppend ab (ESC :: str "[7m") 4 ;;
  let '(status, len0) := snprintf 80 (status_text E) in
  let '(rstatus, rlen) := snprintf 80 (rstatus_text E) in
  let len1 := if len0 >? screencols E then screencols E else len0 in
  ab2 <- abAppend ab1 status len1 ;;
  ab3 <- status_fill E rstatus rlen (Z.to_nat (screencols E - len1)) len1
           ab2 ;;
  ab4 <- abAppend ab3 (ESC :: str "[m") 3 ;;
  abAppend ab4 [CR; LF] 2.

(** [editorSetStatusMessage(fmt, ...)] at time [now], the format expanding
    to [text]. *)
Definition editorSetStatusMessage (text : list ascii) (now : Z) : Status :=
  mkStatus (cstr (fst (snprintf 80 text))) now.

(** [editorDrawMessageBar] at time [now]. *)
Definition editorDrawMessageBar (E : Editor) (S : Status) (now : Z)
  (ab : list ascii) : Res (list ascii) :=
  ab1 <- abAppend ab (ESC :: str "[K") 3 ;;
  let msglen := strlen (statusmsg S) in
  let msglen := if msglen >? screencols E then screencols E else msglen in
  if negb (msglen =? 0) && (now - statusmsg_time S <? 5)
  then abAppend ab1 (cstr (statusmsg S)) msglen
  else Ok ab1.

(** What ["\x1b[%d;%dH"] expands to for the cursor of [E]. *)
Definition cursor_escape (E : Editor) : list ascii :=
  ESC :: str "[" ++ fmt_d ((cy E - rowoff E) + 1) ++ str ";"
      ++ fmt_d ((rx E - coloff E) + 1) ++ str "H".

(** [editorRefreshScreen] with the bytes it writes to the terminal; its
    effect on the state is [editorScroll], as in [editorRefreshScreen]
    above. *)
Definition editorRefreshScreen_frame (E : Editor) (S : Status) (now : Z)
  : Res (Editor * list ascii) :=
  E1 <- editorScroll E ;;
  ab1 <- abAppend [] (ESC :: str "[?25l") 6 ;;
  ab2 <- abAppend ab1 (ESC :: str "[H") 3 ;;
  ab3 <- editorDrawRows E1 ab2 ;;
  ab4 <- editorDrawStatusBar E1 ab3 ;;
  ab5 <- editorDrawMessageBar E1 S now ab4 ;;
  let '(buf, _) := snprintf 32 (cursor_escape E1) in
  ab6 <- abAppend ab5 buf (strlen buf) ;;
  ab7 <- abAppend ab6 (ESC :: str "[?25h") 6 ;;
  Ok (E1, ab7).

(* ================================================================= *)
(** * Specification-level definitions

    Invariants of the editor state, the reachable states, and the notions
    the statements below are phrased in. *)

Definition kw_len (kw : string) : Z :=
  let klen0 := strlen (str kw) in
  if Ascii.eqb (char_at (str kw) (klen0 - 1)) (chr "|") then klen0 - 1 else klen0.

Definition wf_syntax (sy : Syntax) : Prop :=
  Forall (fun kw => 1 <= kw_len kw) (keywords sy).

Definition upd {A} (l : list A) (p : nat) (x : A) : list A :=
  firstn p l ++ x :: skipn (S p) l.

Definition row_sim (r r' : Row) : Prop :=
  idx r' = idx r /\ size r' = size r /\ rsize r' = rsize r /\
  chars r' = chars r /\ render r' = render r.

Definition hl_upd (r r' : Row) : Prop :=
  row_sim r r' /\ (r' = r \/ len (hl r') = rsize r').

Definition rows_rel (R : Row -> Row -> Prop) (l l' : list Row) : Prop :=
  length l' = length l /\
  forall j r r', nth_error l j = Some r -> nth_error l' j = Some r' -> R r r'.

Definition ed_sim (E E' : Editor) : Prop :=
  cx E' = cx E /\ cy E' = cy E /\ rx E' = rx E /\ rowoff E' = rowoff E /\
  coloff E' = coloff E /\ screenrows E' = screenrows E /\
  screencols E' = screencols E /\ numrows E' = numrows E /\
  dirty E' = dirty E /\ filename E' = filename E /\ syntax E' = syntax E /\
  rows_rel hl_upd (row E) (row E').

Definition syntax_ok (E : Editor) : Prop :=
  match syntax E with None => True | Some sy => wf_syntax sy end.

(** What [editorUpdateSyntax] needs of the rows from [p] on. *)
Definition tail_ok (E : Editor) (p : Z) : Prop :=
  forall j r, p <= Z.of_nat j -> nth_error (row E) j = Some r ->
    idx r = Z.of_nat j /\ rsize r = len (render r).

Definition lines (E : Editor) : list (list ascii) := map chars (row E).

Definition row_ok (r : Row) : Prop :=
  size r = len (chars r) /\ rsize r = len (render r) /\
  len (hl r) = rsize r /\
  render r = render_loop (chars r) (Z.to_nat (size r)) 0 [] /\
  Forall (fun c => c <> LF) (chars r).

Definition rows_ok (rows : list Row) : Prop :=
  forall j r, nth_error rows j = Some r -> idx r = Z.of_nat j /\ row_ok r.

Definition buf_ok (E : Editor) : Prop :=
  syntax_ok E /\ numrows E = len (row E) /\ rows_ok (row E).

(** The row at [p] is raw: only its index and its characters are set. *)
Definition rows_pre (rows : list Row) (p : Z) : Prop :=
  forall j r, nth_error rows j = Some r ->
    idx r = Z.of_nat j /\
    (Z.of_nat j <> p -> row_ok r) /\
    (Z.of_nat j = p -> size r = len (chars r) /\
                       Forall (fun c => c <> LF) (chars r)).

Definition noLF (s : list ascii) : Prop := Forall (fun c => c <> LF) s.

Definition same_frame (E E' : Editor) : Prop :=
  cx E' = cx E /\ cy E' = cy E /\ rx E' = rx E /\ rowoff E' = rowoff E /\
  coloff E' = coloff E /\ screenrows E' = screenrows E /\
  screencols E' = screencols E /\ filename E' = filename E /\
  syntax E' = syntax E.

Definition nth_line (ls : list (list ascii)) (y : Z) : list ascii :=
  match nth_error ls (Z.to_nat y) with Some l => l | None => [] end.

Definition line_at (E : Editor) (y : Z) : list ascii := nth_line (lines E) y.

Definition ins_char (cs : list ascii) (at_ : Z) (c : Z) : list ascii :=
  let at' := if (at_ <? 0) || (at_ >? len cs) then len cs else at_ in
  firstn (Z.to_nat at') cs ++ int_to_char c :: skipn (Z.to_nat at') cs.

Definition del_char (cs : list ascii) (at_ : Z) : list ascii :=
  firstn (Z.to_nat at_) cs ++ skipn (S (Z.to_nat at_)) cs.

Definition cursor_ok (E : Editor) : Prop :=
  0 <= cy E <= numrows E /\ 0 <= cx E <= len (line_at E (cy E)).

Definition view_ok (E : Editor) : Prop := 0 <= rowoff E /\ 1 <= screenrows E.

Definition ed_ok (E : Editor) : Prop := buf_ok E /\ cursor_ok E /\ view_ok E.

(** The statics of the search callback fit the buffer. *)
Definition find_ok (w : World) : Prop :=
  let f := find w in
  -1 <= last_match f < Z.max 0 (numrows (ed w)) /\
  (direction f = 1 \/ direction f = -1) /\
  match saved_hl f with
  | None => saved_hl_line f = -1
  | Some l =>
      exists r, 0 <= saved_hl_line f /\
        nth_error (row (ed w)) (Z.to_nat (saved_hl_line f)) = Some r /\
        len l = rsize r
  end.

(** Same buffer content and same bookkeeping, whatever the highlight. *)
Definition same_text (E E' : Editor) : Prop :=
  lines E' = lines E /\ numrows E' = numrows E /\ dirty E' = dirty E /\
  filename E' = filename E.

Definition kw_okb (kw : string) : bool := 1 <=? kw_len kw.

(** A line as [editorOpen] hands it to [editorInsertRow]. *)
Definition strip (line : list ascii) : list ascii :=
  firstn (strip_len line (length line)) line.

Definition no_trailing_CR (l : list ascii) : Prop := last l NUL <> CR.

Definition line_shape (l : list ascii) : Prop :=
  (exists l0, l = l0 ++ [LF] /\ noLF l0) \/ noLF l.

Definition open_step (acc : Res Editor) (line : list ascii) : Res Editor :=
  E' <- acc ;;
  editorInsertRow E' (numrows E')
    (firstn (strip_len line (length line)) line).

Definition join_lines (ls : list (list ascii)) : list ascii :=
  flat_map (fun l => l ++ [LF]) ls.

Definition good (w : World) : Prop := ed_ok (ed w) /\ find_ok w.

(** Between two key presses of the main loop the search statics are reset. *)
Definition normal (w : World) : Prop := ed_ok (ed w) /\ find w = find0.

Definition safe {A : Type} (P : A -> Prop) (r : Res A) : Prop :=
  match r with
  | Ok a => P a
  | Waiting w => good w
  | Exited _ => True
  | Undefined | NoFuel => False
  end.

Definition suffix (ks' ks : list Z) : Prop := exists pre, ks = pre ++ ks'.

(** The values [editorReadKey] can return. *)
Definition key_ok (k : Z) : Prop := -128 <= k <= 127 \/ 1000 <= k <= 1008.

Definition step_post (keys : list Z) : World * list Z * list bool -> Prop :=
  fun '(w', keys', _) => normal w' /\ suffix keys' keys.

Definition reachable (w : World) : Prop :=
  exists rows cols arg keys writes,
    3 <= rows /\ Forall key_ok keys /\
    main rows cols arg keys writes = Waiting w.

(** Rendered width of the first [k] characters. *)
Definition width (cs : list ascii) (k : nat) : Z := rowCxToRx_loop cs k 0 0.

Definition quit_key : Z := CTRL_KEY "q".

(** The escape sequences of the specification: the bytes after the escape
    byte and the key they stand for. *)
Inductive escape_seq : list ascii -> Z -> Prop :=
| seq_up : escape_seq (str "[A") KEY_ARROW_UP
| seq_down : escape_seq (str "[B") KEY_ARROW_DOWN
| seq_right : escape_seq (str "[C") KEY_ARROW_RIGHT
| seq_left : escape_seq (str "[D") KEY_ARROW_LEFT
| seq_home : escape_seq (str "[H") KEY_HOME
| seq_end : escape_seq (str "[F") KEY_END
| seq_home1 : escape_seq (str "[1~") KEY_HOME
| seq_del : escape_seq (str "[3~") KEY_DEL
| seq_end4 : escape_seq (str "[4~") KEY_END
| seq_pgup : escape_seq (str "[5~") KEY_PAGE_UP
| seq_pgdn : escape_seq (str "[6~") KEY_PAGE_DOWN
| seq_home7 : escape_seq (str "[7~") KEY_HOME
| seq_end8 : escape_seq (str "[8~") KEY_END
| seq_homeO : escape_seq (str "OH") KEY_HOME
| seq_endO : escape_seq (str "OF") KEY_END.







(** A keyword of the table without its trailing [|]. *)
Definition kw_chars (kw : string) : list ascii :=
  firstn (Z.to_nat (kw_len kw)) (str kw).

Definition is_kw2 (kw : string) : bool :=
  Ascii.eqb (char_at (str kw) (strlen (str kw) - 1)) (chr "|").

(** Render and highlight of a row are derived from its characters. *)
Definition row_derived (r : Row) : Prop :=
  len (hl r) = rsize r /\ rsize r = len (render r) /\
  render r = render_loop (chars r) (Z.to_nat (size r)) 0 [].

(** Every row's stored index is its position. *)
Definition idx_inv (E : Editor) : Prop :=
  numrows E = len (row E) /\
  forall i r, nth_error (row E) i = Some r -> idx r = Z.of_nat i.

(** [editorUpdateSyntax] with the neighbours taken by position instead of
    through [row->idx]. *)
Fixpoint editorUpdateSyntax_pos (fuel : nat) (E : Editor) (p : Z)
  (hl_null : bool) : Res Editor :=
  r <- row_at E p ;;
  _ <- xrealloc_hl hl_null (rsize r) ;;
  let h0 := repeat HL_NORMAL (Z.to_nat (rsize r)) in
  match syntax E with
  | None => Ok (set_row E p (set_hl r h0))
  | Some sy =>
      in_comment0 <-
        (if 0 <? p
         then prev <- row_at E (p - 1) ;; Ok (hl_open_comment prev)
         else Ok false) ;;
      s <- scan_loop sy (render r) (rsize r) (Z.to_nat (rsize r))
             (mkScan 0 h0 true 0 in_comment0) ;;
      let changed := negb (Bool.eqb (hl_open_comment r) (sc_in_comment s)) in
      let E' := set_row E p (set_open (set_hl r (sc_hl s)) (sc_in_comment s)) in
      if changed && (p + 1 <? numrows E)
      then match fuel with
           | O => NoFuel
           | S fuel' => editorUpdateSyntax_pos fuel' E' (p + 1) false
           end
      else Ok E'
  end.

(** The state a run of [main] ends in when it waits for a key. *)
Definition final_state (r : Res World) : World :=
  match r with Waiting w => w | _ => initEditor 0 0 end.

Definition hl_rows (r : Res World) : option (list (list Highlight)) :=
  match r with
  | Waiting w => Some (map hl (row (ed w)))
  | _ => None
  end.

Definition c_file (text : list ascii) : option (list ascii * option (list ascii)) :=
  Some (str "a.c", Some text).

Definition comment_text : list ascii :=
  str "/* start" ++ [LF] ++ str "middle" ++ [LF] ++ str "end */" ++ [LF]
    ++ str "after" ++ [LF].

Definition star : Z := uchar (chr "*").

Definition slash : Z := uchar (chr "/").

(** Move to line 1, [k] columns right, and type the closing marker. *)
Definition close_in_line1 (k : nat) : list Z :=
  KEY_ARROW_DOWN :: repeat KEY_ARROW_RIGHT k ++ [star; slash].

Definition keyword_text : list ascii := str "ifdef" ++ [LF] ++ str "if(" ++ [LF].


Definition cr_text : list ascii := [chr "a"; CR; chr "b"; LF].

Definition four_rows : Editor :=
  ed (final_state (main 24 80 (c_file comment_text) [] [])).

Definition ml (n : nat) : list Highlight := repeat HL_MLCOMMENT n.

Definition nm (n : nat) : list Highlight := repeat HL_NORMAL n.




Definition cr_keys : list Z :=
  [KEY_ARROW_RIGHT; KEY_ARROW_RIGHT; KEY_ENTER; CTRL_KEY "s"].

(** A buffer that is not modified (the counter is 0 after the save) and
    does not survive save and reload: the file holds [a CR b], the line is
    split after the carriage return and the buffer is saved. *)
Definition cr_state : World :=
  final_state (main 24 80 (Some (str "t.txt", Some cr_text)) cr_keys [true]).

Definition loaded_state : World :=
  final_state (main 24 80 (c_file comment_text) [] []).

Definition edited_state : World :=
  final_state (main 24 80 None [uchar (chr "a")] []).

(** The number of reads [editorReadKey_escape] makes on [inp]. *)
Definition reads_after_escape (inp : list ReadResult) : nat :=
  length inp - length (snd (editorReadKey_escape inp)).

(* ----------------------------------------------------------------- *)
(** ** The cursor and the window *)

(** The cursor is inside the window: its line among the [screenrows] lines
    from [rowoff], its render column among the [screencols] columns from
    [coloff]. *)
Definition in_view (E : Editor) : Prop :=
  rowoff E <= cy E < rowoff E + screenrows E /\
  coloff E <= rx E < coloff E + screencols E.

(** The render column of the cursor, as [editorScroll] computes it. *)
Definition cursor_rx (E : Editor) : Z :=
  match nth_error (row E) (Z.to_nat (cy E)) with
  | Some r => rowCxToRx r (cx E)
  | None => 0
  end.

(* ----------------------------------------------------------------- *)
(** ** The render buffer *)

(** What one character adds to the render buffer. *)
Definition render_step (c : ascii) (out : list ascii) : list ascii :=
  if Ascii.eqb c TAB
  then tab_fill (Z.to_nat TAB_STOP) (out ++ [chr " "])
  else out ++ [c].

(** A row with a tab, as [editorOpen] builds it from a file. *)
Definition tab_text : list ascii := str "a" ++ [TAB] ++ str "b" ++ [LF].

Definition tab_row : Row :=
  hd (mkRow 0 0 0 [] [] [] false)
     (row (ed (final_state
                 (main 24 80 (Some (str "t.txt", Some tab_text)) [] [])))).

(* ----------------------------------------------------------------- *)
(** ** Lines after an edit *)

(** The window and the file attributes are the same in both states. *)
Definition same_window (E E' : Editor) : Prop :=
  rowoff E' = rowoff E /\ coloff E' = coloff E /\
  screenrows E' = screenrows E /\ screencols E' = screencols E /\
  filename E' = filename E /\ syntax E' = syntax E.

(** Line [y] with the byte [c] put in at column [x]. *)
Definition line_with (l : list ascii) (x : Z) (c : ascii) : list ascii :=
  firstn (Z.to_nat x) l ++ c :: skipn (Z.to_nat x) l.

(** Line [y] without the byte at column [x]. *)
Definition line_without (l : list ascii) (x : Z) : list ascii :=
  firstn (Z.to_nat x) l ++ skipn (S (Z.to_nat x)) l.

(** The lines with line [y] split in two at column [x]. *)
Definition split_line (ls : list (list ascii)) (y x : Z) : list (list ascii) :=
  firstn (Z.to_nat y) ls
    ++ firstn (Z.to_nat x) (nth_line ls y)
    :: skipn (Z.to_nat x) (nth_line ls y)
    :: skipn (S (Z.to_nat y)) ls.

(** The lines with line [y] appended to line [y - 1]. *)
Definition join_line (ls : list (list ascii)) (y : Z) : list (list ascii) :=
  firstn (Z.to_nat (y - 1)) ls
    ++ (nth_line ls (y - 1) ++ nth_line ls y)
    :: skipn (S (Z.to_nat y)) ls.

(* ----------------------------------------------------------------- *)
(** ** Targets of the arrow keys *)

(** Where an arrow key takes the cursor before the column is cut to the
    length of the line reached. *)
Definition move_target (E : Editor) (key : Z) : Z * Z :=
  if key =? KEY_ARROW_LEFT then
    if 0 <? cx E then (cx E - 1, cy E)
    else if 0 <? cy E then (len (line_at E (cy E - 1)), cy E - 1)
    else (cx E, cy E)
  else if key =? KEY_ARROW_RIGHT then
    if cy E <? numrows E then
      if cx E <? len (line_at E (cy E)) then (cx E + 1, cy E)
      else (0, cy E + 1)
    else (cx E, cy E)
  else if key =? KEY_ARROW_UP then
    (cx E, if 0 <? cy E then cy E - 1 else cy E)
  else if key =? KEY_ARROW_DOWN then
    (cx E, if cy E <? numrows E then cy E + 1 else cy E)
  else (cx E, cy E).

(* ----------------------------------------------------------------- *)
(** ** The window across operations *)

(** The window is the same in both states: offsets and terminal size;
    and so is the syntax profile. *)
Definition same_view (E E' : Editor) : Prop :=
  rowoff E' = rowoff E /\ coloff E' = coloff E /\
  screenrows E' = screenrows E /\ screencols E' = screencols E /\
  syntax E' = syntax E.

(** The column offset, the terminal size and the syntax profile are the
    same in both states. *)
Definition same_cols (E E' : Editor) : Prop :=
  coloff E' = coloff E /\ screenrows E' = screenrows E /\
  screencols E' = screencols E /\ syntax E' = syntax E.

(** The window of a terminal of [rows] x [cols]: the text area has two
    rows less, and the column offset is not negative; the syntax profile,
    if there is one, is one of the table. *)
Definition window_ok (rows cols : Z) (E : Editor) : Prop :=
  screenrows E = rows - 2 /\ screencols E = cols /\ 0 <= coloff E /\
  match syntax E with Some sy => In sy HLDB | None => True end.

(* ----------------------------------------------------------------- *)
(** ** Files and their lines *)

(** The bytes of a file with a newline added at the end unless the file is
    empty or ends in one. *)
Definition with_final_newline (data : list ascii) : list ascii :=
  match data with
  | [] => []
  | _ :: _ => if Ascii.eqb (last data NUL) LF then data else data ++ [LF]
  end.

(** The number of lines of a file: its newlines, and one more for a last
    line that is not terminated. *)
Definition line_count (data : list ascii) : Z :=
  Z.of_nat (count_occ ascii_dec data LF)
  + match data with
    | [] => 0
    | _ :: _ => if Ascii.eqb (last data NUL) LF then 0 else 1
    end.

(* ----------------------------------------------------------------- *)
(** ** What holds while the editor waits *)

(** What is on the screen while the editor waits for a key in state [w], on
    a terminal of [rows] x [cols]: the window has the size of the terminal,
    the cursor is inside it, and [rx] is the render column of the cursor. *)
Definition shown (rows cols : Z) (w : World) : Prop :=
  window_ok rows cols (ed w) /\ in_view (ed w) /\
  rx (ed w) = cursor_rx (ed w).

(** A result that, when the editor waits, waits in a state [W], and when
    it returns, returns a value [Q]. *)
Definition pass {A : Type} (W : World -> Prop) (Q : A -> Prop) (r : Res A)
  : Prop :=
  match r with
  | Ok a => Q a
  | Waiting w => W w
  | _ => True
  end.

(* ----------------------------------------------------------------- *)
(** ** Typed input *)

(** A byte the prompt and the key handler take as text: ASCII and not a
    control character. *)
Definition printable (c : ascii) : Prop := 32 <= uchar c < 127.

(** A read that makes [editorReadKey] try again: a timeout, or an error
    with [errno == EAGAIN]. *)
Definition retried (r : ReadResult) : Prop := r = RTimeout \/ r = RError true.

(** The cursor, the rows and the modification counter are the same. *)
Definition same_buffer (E E' : Editor) : Prop :=
  cx E' = cx E /\ cy E' = cy E /\ row E' = row E /\ numrows E' = numrows E /\
  dirty E' = dirty E /\ filename E' = filename E /\ syntax E' = syntax E.

(* ----------------------------------------------------------------- *)
(** ** The rows during a search *)


(** A result that is a return with [Q] or a wait in a state [W]: no exit,
    no access out of bounds, no loop left unfinished. *)
Definition ends {A : Type} (W : World -> Prop) (Q : A -> Prop) (r : Res A)
  : Prop :=
  match r with
  | Ok a => Q a
  | Waiting w => W w
  | _ => False
  end.


(* ----------------------------------------------------------------- *)
(** ** The match colour *)



(* ----------------------------------------------------------------- *)
(** ** The text a terminal shows *)

(** A scanner for the control sequences the editor writes: an escape
    byte, one introducer byte, parameter bytes, and a final byte in
    [@]..[~]. *)
Inductive EscState : Set := Text | Intro | Params.

Definition esc_step (st : EscState) (c : ascii) : EscState * list ascii :=
  match st with
  | Text => if Ascii.eqb c ESC then (Intro, []) else (Text, [c])
  | Intro => (Params, [])
  | Params => if (64 <=? uchar c) && (uchar c <=? 126) then (Text, [])
              else (Params, [])
  end.

Fixpoint visible_from (st : EscState) (s : list ascii) : list ascii :=
  match s with
  | [] => []
  | c :: r => snd (esc_step st c) ++ visible_from (fst (esc_step st c)) r
  end.

Fixpoint state_after (st : EscState) (s : list ascii) : EscState :=
  match s with
  | [] => st
  | c :: r => state_after (fst (esc_step st c)) r
  end.

(** The bytes of [s] outside control sequences. *)
Definition visible (s : list ascii) : list ascii := visible_from Text s.

(** [out] is made of whole control sequences and the text [t]. *)
Definition shows (out t : list ascii) : Prop :=
  visible_from Text out = t /\ state_after Text out = Text.

(** How [editorDrawRows] shows one byte of a rendered line. *)
Definition show_char (c : ascii) : ascii :=
  if iscntrl (uchar c)
  then if char_to_int c <=? 26 then int_to_char (64 + char_to_int c)
       else chr "?"
  else c.

(** The welcome text, and the line it is centred on: cut to the window
    when the window is narrower, otherwise after a tilde and blanks. *)
Definition welcome_text : list ascii := str "Kilo -- v1.0".

Definition welcome_line (cols : Z) : list ascii :=
  if cols <? len welcome_text + 2
  then firstn (Z.to_nat cols) welcome_text
  else str "~" ++ repeat (chr " ")
                         (Z.to_nat ((cols - len welcome_text) / 2 - 1))
       ++ welcome_text.

(** Line [y] of the window of [E]. *)
Definition screen_line (E : Editor) (y : Z) : list ascii :=
  match nth_error (row E) (Z.to_nat (y + rowoff E)) with
  | Some r => map show_char
                (firstn (Z.to_nat (screencols E))
                        (skipn (Z.to_nat (coloff E)) (render r)))
  | None => if (numrows E =? 0) && (y =? Z.quot (screenrows E) 3)
            then welcome_line (screencols E) else str "~"
  end.

(** The lines [y], [y + 1], ... ([n] of them), each ended by CR LF. *)
Fixpoint screen_lines (E : Editor) (n : nat) (y : Z) : list ascii :=
  match n with
  | O => []
  | S n' => screen_line E y ++ [CR; LF] ++ screen_lines E n' (y + 1)
  end.

(** The text of the status bar on [cols] columns. *)
Definition status_bar (E : Editor) (cols : Z) : list ascii :=
  let left := firstn (Z.to_nat cols) (status_text E) in
  let room := cols - len left in
  left ++ (if len (rstatus_text E) <=? room
           then repeat (chr " ") (Z.to_nat (room - len (rstatus_text E)))
                ++ rstatus_text E
           else repeat (chr " ") (Z.to_nat room)).

(** The values of a 32-bit [int]. *)
Definition int_range (n : Z) : Prop := - 2 ^ 31 <= n < 2 ^ 31.

(** The syntax profile, if there is one, is an entry of [HLDB]. *)
Definition syntax_known (E : Editor) : Prop :=
  match syntax E with Some sy => In sy HLDB | None => True end.

(** The values [current_color] takes in [editorDrawRows]. *)
Definition color_inv (color : Z) : Prop :=
  color = -1 \/ exists h, color = syntaxToColor h.

(** Text without a terminator and without an escape byte. *)
Definition plain_text (s : list ascii) : Prop :=
  Forall (fun c => c <> NUL /\ c <> ESC) s.

(* ----------------------------------------------------------------- *)
(** ** The bars of the frame *)

(** The status bar and the message bar as [editorRefreshScreen] writes
    them at time [now]. *)
Definition bars (E : Editor) (S : Status) (now : Z) : list ascii :=
  (ESC :: str "[7m") ++ status_bar E (screencols E) ++ (ESC :: str "[m")
  ++ [CR; LF] ++ (ESC :: str "[K")
  ++ (if now - statusmsg_time S <? 5
      then firstn (Z.to_nat (screencols E)) (cstr (statusmsg S))
      else []).

(* ----------------------------------------------------------------- *)
(** ** The C profile *)

(** The extensions of the C profile, without their dot. *)
Definition c_extensions : list (list ascii) :=
  [str "c"; str "h"; str "cpp"; str "hpp"].

(** The one entry of [HLDB]. *)
Definition c_profile : Syntax :=
  mkSyntax "c" C_EXTS C_KW (Some "//"%string) (Some "/*"%string)
           (Some "*/"%string) (Z.lor HL_NUMBERS HL_STRINGS).

(* ----------------------------------------------------------------- *)
(** ** The exit of [xrealloc] *)

(** No line from line [y] on is empty. *)
Definition no_empty_line_from (E : Editor) (y : Z) : Prop :=
  forall j, 0 <= j -> y <= j < numrows E -> line_at E j <> [].

(** [editorUpdateSyntax] cannot be led to an empty row from line [y] on:
    there is no syntax profile, so that it never goes on to the next row,
    or no line from [y] on is empty. *)
Definition calm (E : Editor) (y : Z) : Prop :=
  syntax E = None \/ no_empty_line_from E y.

(** The same in terms of the rows: no render from row [p] on is empty. *)
Definition solid (E : Editor) (p : Z) : Prop :=
  syntax E = None \/
  forall j r, p <= Z.of_nat j -> nth_error (row E) j = Some r -> rsize r <> 0.

(** Whether no line of [ls] is empty. *)
Definition no_empty_lineb (ls : list (list ascii)) : bool :=
  forallb (fun l => match l with [] => false | _ :: _ => true end) ls.

(** The file of the lines [// /* x] and [y], and the file of the lines
    [x], the empty line and [y]. *)
Definition split_text : list ascii := str "// /* x" ++ [LF] ++ str "y" ++ [LF].

Definition gap_text : list ascii := str "x" ++ [LF; LF] ++ str "y" ++ [LF].

(** The example buffer after a closing marker was typed at column 3 of
    line 1: the cursor stands behind it, at column 5 of that line. *)
Definition closed_state : World :=
  final_state (main 24 80 (c_file comment_text) (close_in_line1 3) []).

(** The file of the lines [/* a], the empty line and [b]. *)
Definition open_gap_text : list ascii :=
  str "/* a" ++ [LF; LF] ++ str "b" ++ [LF].

(* ================================================================= *)
(** * The program over a C library whose [realloc(p, 0)] returns a block

    The C standard leaves the result of [realloc(p, 0)] to the library.
    Over a library that returns a block, [xrealloc] never ends the
    program and [editorUpdateSyntax] has no use for [hl_null].  The
    functions of this module are those of the model above without that
    one exit; the functions that do not reach [editorUpdateSyntax] are
    the same for both and are not repeated.  The module serves the proofs
    only: the invariants are proved of these functions first, and carried
    over to the program by [sim] below.  Every theorem on the program is
    stated on the model above. *)

Module Ideal.

Fixpoint editorUpdateSyntax_rec (fuel : nat) (E : Editor) (p : Z)
  : Res Editor :=
  r <- row_at E p ;;
  let h0 := repeat HL_NORMAL (Z.to_nat (rsize r)) in
  match syntax E with
  | None => Ok (set_row E p (set_hl r h0))
  | Some sy =>
      in_comment0 <-
        (if 0 <? idx r
         then prev <- row_at E (idx r - 1) ;;
              Ok (hl_open_comment prev)
         else Ok false) ;;
      s <- scan_loop sy (render r) (rsize r) (Z.to_nat (rsize r))
             (mkScan 0 h0 true 0 in_comment0) ;;
      let changed := negb (Bool.eqb (hl_open_comment r) (sc_in_comment s)) in
      let E' := set_row E p (set_open (set_hl r (sc_hl s)) (sc_in_comment s)) in
      if changed && (idx r + 1 <? numrows E)
      then match fuel with
           | O => NoFuel
           | S fuel' => editorUpdateSyntax_rec fuel' E' (idx r + 1)
           end
      else Ok E'
  end.

Definition editorUpdateSyntax (E : Editor) (p : Z) : Res Editor :=
  editorUpdateSyntax_rec (Z.to_nat (numrows E)) E p.

Definition editorUpdateRow (E : Editor) (p : Z) : Res Editor :=
  r <- row_at E p ;;
  let out := render_loop (chars r) (Z.to_nat (size r)) 0 [] in
  editorUpdateSyntax (set_row E p (set_render r (len out) out)) p.

Definition editorInsertRow (E : Editor) (at_ : Z) (s : list ascii)
  : Res Editor :=
  if (at_ <? 0) || (at_ >? numrows E) then Ok E
  else
    let fresh := mkRow at_ (len s) 0 s [] [] false in
    let rows := firstn (Z.to_nat at_) (row E) ++ fresh
                  :: map (add_idx 1) (skipn (Z.to_nat at_) (row E)) in
    E1 <- editorUpdateRow (set_rows E rows) at_ ;;
    Ok (set_dirty (set_numrows E1 (numrows E1 + 1)) (dirty E1 + 1)).

Definition rowInsertChar (E : Editor) (p : Z) (at_ : Z) (c : Z)
  : Res Editor :=
  r <- row_at E p ;;
  let at' := if (at_ <? 0) || (at_ >? size r) then size r else at_ in
  let cs := firstn (Z.to_nat at') (chars r) ++ int_to_char c
              :: skipn (Z.to_nat at') (chars r) in
  E1 <- editorUpdateRow (set_row E p (set_chars r (size r + 1) cs)) p ;;
  Ok (set_dirty E1 (dirty E1 + 1)).

Definition rowAppendString (E : Editor) (p : Z) (s : list ascii)
  : Res Editor :=
  r <- row_at E p ;;
  let cs := firstn (Z.to_nat (size r)) (chars r) ++ s in
  E1 <- editorUpdateRow (set_row E p (set_chars r (size r + len s) cs)) p ;;
  Ok (set_dirty E1 (dirty E1 + 1)).

Definition rowDelChar (E : Editor) (p : Z) (at_ : Z) : Res Editor :=
  r <- row_at E p ;;
  if (at_ <? 0) || (at_ >=? size r) then Ok E
  else
    let cs := firstn (Z.to_nat at_) (chars r)
                ++ skipn (S (Z.to_nat at_)) (chars r) in
    E1 <- editorUpdateRow (set_row E p (set_chars r (size r - 1) cs)) p ;;
    Ok (set_dirty E1 (dirty E1 + 1)).

Definition editorInsertChar (E : Editor) (c : Z) : Res Editor :=
  E1 <- (if cy E =? numrows E then editorInsertRow E (numrows E) []
         else Ok E) ;;
  E2 <- rowInsertChar E1 (cy E1) (cx E1) c ;;
  Ok (set_cursor E2 (cx E2 + 1) (cy E2)).

Definition editorInsertNewline (E : Editor) : Res Editor :=
  E3 <- (if cx E =? 0 then editorInsertRow E (cy E) []
         else
           r <- row_at E (cy E) ;;
           s <- sub_chars r (cx E) (size r - cx E) ;;
           E1 <- editorInsertRow E (cy E + 1) s ;;
           r1 <- row_at E1 (cy E1) ;;
           let r2 := set_chars r1 (cx E1) (firstn (Z.to_nat (cx E1)) (chars r1)) in
           editorUpdateRow (set_row E1 (cy E1) r2) (cy E1)) ;;
  Ok (set_cursor E3 0 (cy E3 + 1)).

Definition editorDelChar (E : Editor) : Res Editor :=
  if cy E =? numrows E then Ok E
  else if (cx E =? 0) && (cy E =? 0) then Ok E
  else
    r <- row_at E (cy E) ;;
    if cx E >? 0 then
      E1 <- rowDelChar E (cy E) (cx E - 1) ;;
      Ok (set_cursor E1 (cx E1 - 1) (cy E1))
    else
      prev <- row_at E (cy E - 1) ;;
      let E0 := set_cursor E (size prev) (cy E) in
      s <- sub_chars r 0 (size r) ;;
      E1 <- rowAppendString E0 (cy E0 - 1) s ;;
      E2 <- editorDelRow E1 (cy E1) ;;
      Ok (set_cursor E2 (cx E2) (cy E2 - 1)).

Fixpoint update_all_syntax (n : nat) (E : Editor) (r : Z) : Res Editor :=
  match n with
  | O => Ok E
  | S n' => E1 <- editorUpdateSyntax E r ;; update_all_syntax n' E1 (r + 1)
  end.

Definition editorSelectSyntax (E : Editor) : Res Editor :=
  let E0 := set_syntax E None in
  match filename E0 with
  | None => Ok E0
  | Some fname =>
      match List.find (fun s => existsb (filematch_hit fname) (filematch s)) HLDB
      with
      | Some s =>
          let E1 := set_syntax E0 (Some s) in
          update_all_syntax (Z.to_nat (numrows E1)) E1 0
      | None => Ok E0
      end
  end.

Definition editorOpen (E : Editor) (fname : list ascii)
  (file : option (list ascii)) : Res Editor :=
  E1 <- editorSelectSyntax (set_filename E (Some fname)) ;;
  match file with
  | None => Exited 1
  | Some data =>
      E2 <- fold_left
              (fun acc line =>
                 E' <- acc ;;
                 editorInsertRow E' (numrows E')
                   (firstn (strip_len line (length line)) line))
              (getlines data []) (Ok E1) ;;
      Ok (set_dirty E2 0)
  end.

Definition editorSave (keys : list Z) (writes : list bool) (w : World)
  : Res (World * list Z * list bool) :=
  '(go, w1, keys1) <-
    match filename (ed w) with
    | Some _ => Ok (true, w, keys)
    | None =>
        '(name, w', keys') <- editorPrompt None keys [] w ;;
        match name with
        | None => Ok (false, w', keys')
        | Some n =>
            E' <- editorSelectSyntax (set_filename (ed w') (Some n)) ;;
            Ok (true, with_ed w' E', keys')
        end
    end ;;
  if (go : bool) then
    match writes with
    | true :: writes' => Ok (with_ed w1 (set_dirty (ed w1) 0), keys1, writes')
    | _ => Ok (w1, keys1, tl writes)
    end
  else Ok (w1, keys1, writes).

Definition editorProcessKeypress (c : Z) (keys : list Z)
  (writes : list bool) (w : World) : Res (World * list Z * list bool) :=
  let E := ed w in
  let done (r : Res Editor) : Res (World * list Z * list bool) :=
    E' <- r ;; Ok (mkWorld E' QUIT_TIMES (find w), keys, writes) in
  if c =? KEY_ENTER then done (editorInsertNewline E)
  else if c =? CTRL_KEY "q" then
    if negb (dirty E =? 0) && (quit_times w >? 0)
    then Ok (mkWorld E (quit_times w - 1) (find w), keys, writes)
    else Exited 0
  else if c =? CTRL_KEY "s" then
    '(w1, keys1, writes1) <- editorSave keys writes w ;;
    Ok (mkWorld (ed w1) QUIT_TIMES (find w1), keys1, writes1)
  else if c =? CTRL_KEY "f" then
    '(w1, keys1) <- editorFind keys w ;;
    Ok (mkWorld (ed w1) QUIT_TIMES (find w1), keys1, writes)
  else if c =? KEY_HOME then done (Ok (set_cursor E 0 (cy E)))
  else if c =? KEY_END then
    done (if cy E <? numrows E
          then r <- row_at E (cy E) ;; Ok (set_cursor E (size r) (cy E))
          else Ok E)
  else if (c =? KEY_BACKSPACE) || (c =? CTRL_KEY "h") || (c =? KEY_DEL) then
    done (E1 <- (if c =? KEY_DEL then editorMoveCursor E KEY_ARROW_RIGHT
                 else Ok E) ;;
          editorDelChar E1)
  else if (c =? KEY_PAGE_UP) || (c =? KEY_PAGE_DOWN) then
    let E1 :=
      if c =? KEY_PAGE_UP then set_cursor E (cx E) (rowoff E)
      else
        let y := rowoff E + screenrows E - 1 in
        set_cursor E (cx E) (if y >? numrows E then numrows E else y) in
    if screenrows E1 <? 0 then NoFuel
    else done (move_times (Z.to_nat (screenrows E1)) E1
                 (if c =? KEY_PAGE_UP then KEY_ARROW_UP else KEY_ARROW_DOWN))
  else if (c =? KEY_ARROW_UP) || (c =? KEY_ARROW_DOWN)
          || (c =? KEY_ARROW_LEFT) || (c =? KEY_ARROW_RIGHT) then
    done (editorMoveCursor E c)
  else if (c =? CTRL_KEY "l") || (c =? KEY_ESC) then done (Ok E)
  else
    done (if negb (iscntrl c) && (c <? 128) then editorInsertChar E c
          else Ok E).

Fixpoint main_loop (fuel : nat) (keys : list Z) (writes : list bool)
  (w : World) : Res World :=
  match fuel with
  | O => NoFuel
  | S fuel' =>
      E1 <- editorRefreshScreen (ed w) ;;
      let w1 := with_ed w E1 in
      match keys with
      | [] => Waiting w1
      | c :: rest =>
          '(w2, keys2, writes2) <- editorProcessKeypress c rest writes w1 ;;
          main_loop fuel' keys2 writes2 w2
      end
  end.

Definition main (rows cols : Z)
  (arg : option (list ascii * option (list ascii)))
  (keys : list Z) (writes : list bool) : Res World :=
  let w0 := initEditor rows cols in
  w1 <- match arg with
        | Some (fname, file) =>
            E1 <- editorOpen (ed w0) fname file ;; Ok (with_ed w0 E1)
        | None => Ok w0
        end ;;
  main_loop (S (length keys)) keys writes w1.

Definition open_step (acc : Res Editor) (line : list ascii) : Res Editor :=
  E' <- acc ;;
  editorInsertRow E' (numrows E')
    (firstn (strip_len line (length line)) line).

Definition reachable (w : World) : Prop :=
  exists rows cols arg keys writes,
    3 <= rows /\ Forall key_ok keys /\
    main rows cols arg keys writes = Waiting w.

End Ideal.

(** A result of the program and the result of the same call over such a
    library: they are the same, or the program has exited with status 1. *)
Definition sim {A : Type} (r r' : Res A) : Prop := r = r' \/ r = Exited 1.

(* ================================================================= *)
(** * Proofs *)

(* ----------------------------------------------------------------- *)
(** ** Lists, buffers and C strings *)

Lemma len_nonneg {A} (l : list A) : 0 <= len l.
Proof. unfold len; lia. Qed.

Lemma len_app {A} (a b : list A) : len (a ++ b) = len a + len b.
Proof. unfold len; rewrite length_app; lia. Qed.

Lemma len_cons {A} (x : A) (l : list A) : len (x :: l) = 1 + len l.
Proof. unfold len; simpl length; lia. Qed.

Lemma len_repeat {A} (v : A) (n : Z) : 0 <= n -> len (repeat v (Z.to_nat n)) = n.
Proof. unfold len; intros; rewrite repeat_length; lia. Qed.

Lemma len_firstn {A} (l : list A) (n : Z) :
  0 <= n <= len l -> len (firstn (Z.to_nat n) l) = n.
Proof. unfold len; intros; rewrite length_firstn; lia. Qed.

Lemma len_skipn {A} (l : list A) (n : Z) :
  0 <= n <= len l -> len (skipn (Z.to_nat n) l) = len l - n.
Proof. unfold len; intros; rewrite length_skipn; lia. Qed.

Lemma len_map {A B} (f : A -> B) (l : list A) : len (map f l) = len l.
Proof. unfold len; rewrite length_map; reflexivity. Qed.

Lemma memset_ok {A} (a : list A) i v n :
  0 <= i -> 0 <= n -> i + n <= len a ->
  exists a', memset a i v n = Ok a' /\ len a' = len a.
Proof.
  intros Hi Hn Hb. unfold memset.
  replace ((0 <=? i) && (0 <=? n) && (i + n <=? len a)) with true
    by (symmetry; rewrite !andb_true_iff; repeat split; lia).
  eexists; split; [reflexivity|].
  rewrite !len_app, len_repeat, len_firstn, len_skipn; lia.
Qed.

Lemma store_ok {A} (a : list A) i v :
  0 <= i < len a -> exists a', store a i v = Ok a' /\ len a' = len a.
Proof. intros; unfold store; apply memset_ok; lia. Qed.

Lemma load_ok {A} (a : list A) i :
  0 <= i < len a ->
  exists x, load a i = Ok x /\ nth_error a (Z.to_nat i) = Some x.
Proof.
  intros H. unfold load. replace (0 <=? i) with true by (symmetry; lia).
  destruct (nth_error a (Z.to_nat i)) eqn:E.
  - eauto.
  - apply nth_error_None in E. unfold len in H. lia.
Qed.

Lemma load_inv {A} (a : list A) i x :
  load a i = Ok x -> 0 <= i < len a /\ nth_error a (Z.to_nat i) = Some x.
Proof.
  unfold load. destruct (0 <=? i) eqn:Hi; [|discriminate].
  destruct (nth_error a (Z.to_nat i)) eqn:E; [|discriminate].
  intros H; inversion H; subst. split; [|reflexivity].
  assert (Z.to_nat i < length a)%nat by (apply nth_error_Some; congruence).
  unfold len; lia.
Qed.

Lemma strncmp0_len n : forall s1 s2,
  strncmp0 s1 s2 n = true -> (n <= length (cstr s2))%nat ->
  (n <= length s1)%nat.
Proof.
  induction n as [|n IH]; intros s1 s2 H Hn; [lia|].
  destruct s2 as [|b t2]; [simpl in Hn; lia|].
  cbn [cstr] in Hn. destruct (Ascii.eqb b NUL) eqn:Hb; [simpl in Hn; lia|].
  simpl in Hn.
  destruct s1 as [|a t1]; cbn [strncmp0 hd tl] in H.
  - rewrite Ascii.eqb_sym in H. rewrite Hb in H. discriminate.
  - destruct (Ascii.eqb a b) eqn:Hab; [|discriminate].
    apply Ascii.eqb_eq in Hab; subst a. rewrite Hb in H.
    simpl. apply le_n_S. apply (IH t1 t2); auto. lia.
Qed.

Lemma match_at_bound rnd i pat n :
  match_at rnd i pat n = true -> 0 <= i <= len rnd -> 0 <= n <= strlen pat ->
  i + n <= len rnd.
Proof.
  unfold match_at, strlen, len. intros H Hi Hn.
  apply strncmp0_len in H; [|lia].
  rewrite length_skipn in H. lia.
Qed.

Lemma strlen_nonneg s : 0 <= strlen s.
Proof. unfold strlen; lia. Qed.

Lemma match_keyword_bound rnd i kws klen kw2 :
  match_keyword rnd i kws = Some (klen, kw2) ->
  Forall (fun kw => 1 <= kw_len kw) kws ->
  0 <= i <= len rnd ->
  1 <= klen /\ i + klen <= len rnd.
Proof.
  induction kws as [|kw rest IH]; simpl; [discriminate|].
  intros H Hwf Hi. inversion Hwf as [|? ? Hk Hrest]; subst.
  unfold kw_len in Hk.
  destruct (_ && _) eqn:Hm in H.
  - inversion H; subst; clear H. apply andb_true_iff in Hm as [Hm _].
    split; [exact Hk|].
    apply (match_at_bound _ _ (str kw)); auto.
    pose proof (strlen_nonneg (str kw)).
    destruct (Ascii.eqb _ _); lia.
  - apply IH; auto.
Qed.

(* ----------------------------------------------------------------- *)
(** ** The highlighter scans within the render buffer *)

Lemma opt_len_nonneg m : 0 <= opt_len m.
Proof. destruct m; simpl; [apply strlen_nonneg|lia]. Qed.

Lemma opt_len_strlen m : opt_len m <= strlen (opt_str m).
Proof. destruct m; simpl; [lia|unfold strlen; simpl; lia]. Qed.

Ltac use_memset Hl :=
  match goal with
  | |- context [memset ?h ?i ?v ?n] =>
      let h1 := fresh "h" in let Hm := fresh "Hm" in let Hl1 := fresh "Hl" in
      destruct (memset_ok h i v n) as (h1 & Hm & Hl1);
      [try lia; try (rewrite Hl; lia) .. | rewrite Hm; cbn [bind]]
  | |- context [store ?h ?i ?v] =>
      let h1 := fresh "h" in let Hm := fresh "Hm" in let Hl1 := fresh "Hl" in
      destruct (store_ok h i v) as (h1 & Hm & Hl1);
      [try lia; try (rewrite Hl; lia) | rewrite Hm; cbn [bind]]
  end.

Ltac case_if H :=
  lazymatch goal with
  | |- exists _ _, (if ?c then _ else _) = _ /\ _ => destruct c eqn:H
  end.

Lemma scan_step_ok sy rnd s :
  wf_syntax sy -> 0 <= sc_i s < len rnd -> len (sc_hl s) = len rnd ->
  exists brk s', scan_step sy rnd (len rnd) s = Ok (brk, s') /\
     len (sc_hl s') = len rnd /\ (brk = true \/ sc_i s < sc_i s' <= len rnd).
Proof.
  intros Hwf Hi Hl. destruct s as [i h ps ins inc]. cbn [sc_i sc_hl] in *.
  unfold scan_step. cbn [sc_i sc_hl sc_prev_sep sc_in_string sc_in_comment].
  assert (Hp : exists ph, (if 0 <? i then load h (i - 1) else Ok HL_NORMAL) = Ok ph).
  { destruct (0 <? i) eqn:E; [|eauto].
    destruct (load_ok h (i - 1)) as (x & Hx & _); [lia|eauto]. }
  destruct Hp as (ph & ->). cbn [bind].
  pose proof (opt_len_nonneg (scs sy)). pose proof (opt_len_nonneg (mcs sy)).
  pose proof (opt_len_nonneg (mce sy)).
  pose proof (opt_len_strlen (scs sy)). pose proof (opt_len_strlen (mcs sy)).
  pose proof (opt_len_strlen (mce sy)).
  case_if C1.
  { use_memset Hl. do 2 eexists; split; [reflexivity|]. cbn. split; [lia|auto]. }
  clear C1. case_if C2.
  { use_memset Hl.
    rewrite !andb_true_iff in C2. destruct C2 as [[[C2a C2b] C2c] C2d].
    case_if M.
    - apply match_at_bound in M; [|lia|lia].
      use_memset Hl0.
      do 2 eexists; split; [reflexivity|]. cbn. split; [lia|right; lia].
    - do 2 eexists; split; [reflexivity|]. cbn. split; [lia|right; lia]. }
  clear C2. case_if C3.
  { rewrite !andb_true_iff in C3. destruct C3 as [[[C3a C3b] C3c] M].
    apply match_at_bound in M; [|lia|lia].
    use_memset Hl.
    do 2 eexists; split; [reflexivity|]. cbn. split; [lia|right; lia]. }
  clear C3. case_if C4.
  { use_memset Hl. case_if C4'.
    - apply andb_true_iff in C4' as [_ C4']. apply Z.ltb_lt in C4'.
      use_memset Hl0.
      do 2 eexists; split; [reflexivity|]. cbn. split; [lia|right; lia].
    - do 2 eexists; split; [reflexivity|]. cbn. split; [lia|right; lia]. }
  clear C4. case_if C5.
  { use_memset Hl.
    do 2 eexists; split; [reflexivity|]. cbn. split; [lia|right; lia]. }
  clear C5. case_if C6.
  { use_memset Hl.
    do 2 eexists; split; [reflexivity|]. cbn. split; [lia|right; lia]. }
  clear C6.
  destruct (if ps then match_keyword rnd i (keywords sy) else None)
    as [[klen kw2]|] eqn:K.
  - destruct ps; [|discriminate].
    apply match_keyword_bound in K; [|exact Hwf|lia].
    use_memset Hl.
    do 2 eexists; split; [reflexivity|]. cbn. split; [lia|right; lia].
  - do 2 eexists; split; [reflexivity|]. cbn. split; [lia|right; lia].
Qed.

Lemma scan_loop_ok sy rnd : wf_syntax sy -> forall fuel s,
  0 <= sc_i s -> len (sc_hl s) = len rnd ->
  len rnd - sc_i s <= Z.of_nat fuel ->
  exists s', scan_loop sy rnd (len rnd) fuel s = Ok s' /\
             len (sc_hl s') = len rnd.
Proof.
  intros Hwf. induction fuel as [|fuel IH]; intros s Hi Hl Hf.
  - simpl. replace (sc_i s <? len rnd) with false by (symmetry; lia). eauto.
  - cbn [scan_loop]. destruct (sc_i s <? len rnd) eqn:E; [|eauto].
    destruct (scan_step_ok sy rnd s Hwf) as (brk & s' & Hs & Hl' & Hp);
      [lia|auto|].
    rewrite Hs. cbn [bind]. destruct brk; [eauto|].
    destruct Hp as [Hp|Hp]; [discriminate|].
    apply IH; lia.
Qed.

(* ----------------------------------------------------------------- *)
(** ** Highlighting a row changes highlight classes only *)

Lemma upd_length {A} (l : list A) p x :
  (p < length l)%nat -> length (upd l p x) = length l.
Proof.
  intros. unfold upd. rewrite length_app. cbn [length].
  rewrite length_firstn, length_skipn. lia.
Qed.

Lemma upd_nth {A} (l : list A) p x j :
  (p < length l)%nat ->
  nth_error (upd l p x) j = if Nat.eqb j p then Some x else nth_error l j.
Proof.
  intros Hp. unfold upd.
  assert (Hf : length (firstn p l) = p) by (rewrite length_firstn; lia).
  destruct (Nat.eqb_spec j p) as [->|Hne].
  - rewrite nth_error_app2 by lia. rewrite Hf, Nat.sub_diag. reflexivity.
  - destruct (Nat.lt_ge_cases j p).
    + rewrite nth_error_app1 by lia. rewrite nth_error_firstn.
      destruct (Nat.ltb_spec j p); [reflexivity|lia].
    + rewrite nth_error_app2 by lia. rewrite Hf.
      destruct (j - p)%nat as [|k] eqn:E; [lia|]. cbn [nth_error].
      rewrite nth_error_skipn. f_equal. lia.
Qed.

Lemma set_row_rows E i r :
  row (set_row E i r) = upd (row E) (Z.to_nat i) r.
Proof. reflexivity. Qed.

Lemma row_sim_refl r : row_sim r r.
Proof. unfold row_sim; tauto. Qed.

Lemma hl_upd_refl r : hl_upd r r.
Proof. split; [apply row_sim_refl|auto]. Qed.

Lemma hl_upd_trans a b c : hl_upd a b -> hl_upd b c -> hl_upd a c.
Proof.
  unfold hl_upd, row_sim. intros [S1 H1] [S2 H2]. split.
  - intuition congruence.
  - destruct H2 as [->|H2]; auto.
Qed.

Lemma rows_rel_refl l : rows_rel hl_upd l l.
Proof.
  split; [reflexivity|]. intros j r r' H1 H2.
  rewrite H1 in H2; inversion H2; subst. apply hl_upd_refl.
Qed.

Lemma rows_rel_trans l1 l2 l3 :
  rows_rel hl_upd l1 l2 -> rows_rel hl_upd l2 l3 -> rows_rel hl_upd l1 l3.
Proof.
  intros [L1 H1] [L2 H2]. split; [congruence|].
  intros j r r'' Hr Hr''.
  destruct (nth_error l2 j) as [r'|] eqn:E.
  - eapply hl_upd_trans; eauto.
  - apply nth_error_None in E.
    assert (j < length l1)%nat by (apply nth_error_Some; congruence). lia.
Qed.

Lemma rows_rel_upd l p r r' :
  nth_error l p = Some r -> hl_upd r r' -> rows_rel hl_upd l (upd l p r').
Proof.
  intros Hn Hu.
  assert (Hp : (p < length l)%nat) by (apply nth_error_Some; congruence).
  split; [apply upd_length; auto|].
  intros j a b Ha Hb. rewrite upd_nth in Hb by auto.
  destruct (Nat.eqb_spec j p) as [->|].
  - inversion Hb; subst. rewrite Hn in Ha; inversion Ha; subst. auto.
  - rewrite Ha in Hb; inversion Hb; subst. apply hl_upd_refl.
Qed.

Lemma ed_sim_refl E : ed_sim E E.
Proof. unfold ed_sim. do 11 (split; [reflexivity|]). apply rows_rel_refl. Qed.

Lemma ed_sim_trans E1 E2 E3 : ed_sim E1 E2 -> ed_sim E2 E3 -> ed_sim E1 E3.
Proof.
  unfold ed_sim. intros H1 H2.
  destruct H1 as (?&?&?&?&?&?&?&?&?&?&?&?).
  destruct H2 as (?&?&?&?&?&?&?&?&?&?&?&?).
  do 11 (split; [congruence|]). eapply rows_rel_trans; eauto.
Qed.

Lemma ed_sim_set_row E p r r' :
  nth_error (row E) (Z.to_nat p) = Some r -> hl_upd r r' ->
  ed_sim E (set_row E p r').
Proof.
  intros. unfold ed_sim. do 11 (split; [reflexivity|]).
  rewrite set_row_rows; eapply rows_rel_upd; eauto.
Qed.

Lemma tail_ok_sim E E' p : ed_sim E E' -> tail_ok E p -> tail_ok E' p.
Proof.
  intros HS HT j r' Hj Hr'.
  destruct HS as (_&_&_&_&_&_&_&_&_&_&_&HL&HR).
  destruct (nth_error (row E) j) as [r|] eqn:E0.
  - destruct (HR _ _ _ E0 Hr') as [(?&?&?&?&?) _].
    destruct (HT _ _ Hj E0). split; congruence.
  - apply nth_error_None in E0.
    assert (j < length (row E'))%nat by (apply nth_error_Some; congruence). lia.
Qed.

Lemma set_row_nth_same E p r :
  0 <= p < len (row E) ->
  nth_error (row (set_row E p r)) (Z.to_nat p) = Some r.
Proof.
  intros Hp. rewrite set_row_rows, upd_nth by (unfold len in Hp; lia).
  rewrite Nat.eqb_refl. reflexivity.
Qed.

Lemma set_row_len E p r :
  0 <= p < len (row E) -> len (row (set_row E p r)) = len (row E).
Proof.
  intros Hp. rewrite set_row_rows. unfold len.
  rewrite upd_length by (unfold len in Hp; lia). reflexivity.
Qed.

(* ----------------------------------------------------------------- *)
(** ** Rows derived from their characters *)

Lemma hl_upd_row_ok r r' : hl_upd r r' -> row_ok r -> row_ok r'.
Proof.
  intros [(Hi&Hs&Hr&Hc&Hn) H] (A&B&C&D&F). destruct H as [->|H].
  - repeat split; auto.
  - unfold row_ok. rewrite Hs, Hr, Hc, Hn. repeat split; auto. congruence.
Qed.

Lemma ed_sim_eq E E' : ed_sim E E' -> E' = set_rows E (row E').
Proof.
  unfold ed_sim, set_rows. destruct E, E'; cbn.
  intros (?&?&?&?&?&?&?&?&?&?&?&?). subst. reflexivity.
Qed.

Lemma rows_rel_chars l l' :
  rows_rel hl_upd l l' -> map chars l' = map chars l.
Proof.
  intros [HL HR]. revert l' HL HR.
  induction l as [|a l IH]; intros [|b l'] HL HR; simpl in HL; try lia; auto.
  simpl. f_equal.
  - destruct (HR 0%nat a b eq_refl eq_refl) as [(_&_&_&Hc&_) _]. exact Hc.
  - apply IH; [lia|]. intros j r r' H1 H2. apply (HR (S j)); auto.
Qed.

Lemma rows_rel_nth l l' j r' :
  rows_rel hl_upd l l' -> nth_error l' j = Some r' ->
  exists r, nth_error l j = Some r /\ hl_upd r r'.
Proof.
  intros [HL HR] H.
  destruct (nth_error l j) as [r|] eqn:E.
  - exists r; split; auto. eapply HR; eauto.
  - apply nth_error_None in E.
    assert (j < length l')%nat by (apply nth_error_Some; congruence). lia.
Qed.

Lemma map_upd_same {A B} (f : A -> B) (l : list A) p x r :
  nth_error l p = Some r -> f x = f r -> map f (upd l p x) = map f l.
Proof.
  intros Hn Hf.
  assert (Hp : (p < length l)%nat) by (apply nth_error_Some; congruence).
  apply nth_error_ext. intros n. rewrite !nth_error_map, upd_nth by auto.
  destruct (Nat.eqb_spec n p) as [->|]; [|reflexivity].
  rewrite Hn. cbn. congruence.
Qed.

(* ----------------------------------------------------------------- *)
(** ** Inserting and deleting rows *)

Lemma same_frame_refl E : same_frame E E.
Proof. unfold same_frame; tauto. Qed.

Lemma same_frame_trans E1 E2 E3 :
  same_frame E1 E2 -> same_frame E2 E3 -> same_frame E1 E3.
Proof. unfold same_frame; intuition congruence. Qed.

Lemma upd_map {A B} (f : A -> B) (l : list A) p x :
  map f (upd l p x) = upd (map f l) p (f x).
Proof.
  unfold upd. rewrite map_app. cbn [map].
  rewrite firstn_map, skipn_map. reflexivity.
Qed.

Lemma buf_ok_row E p :
  buf_ok E -> 0 <= p < numrows E ->
  exists r, row_at E p = Ok r /\ nth_error (row E) (Z.to_nat p) = Some r /\
            idx r = p /\ row_ok r.
Proof.
  intros (Hsy & Hn & Hok) Hp. unfold row_at.
  destruct (load_ok (row E) p) as (r & Hr & Hnth); [lia|].
  exists r. destruct (Hok _ _ Hnth) as [Hi Hr'].
  split; [exact Hr|]. split; [exact Hnth|]. split; [lia|exact Hr'].
Qed.

Lemma nth_error_insert {A} (g : A -> A) (l : list A) p x j :
  (p <= length l)%nat ->
  nth_error (firstn p l ++ x :: map g (skipn p l)) j =
  if (j <? p)%nat then nth_error l j
  else if (j =? p)%nat then Some x
  else option_map g (nth_error l (j - 1)).
Proof.
  intros Hp.
  assert (Hf : length (firstn p l) = p) by (rewrite length_firstn; lia).
  destruct (Nat.ltb_spec j p).
  - rewrite nth_error_app1 by lia. rewrite nth_error_firstn.
    destruct (Nat.ltb_spec j p); [reflexivity|lia].
  - rewrite nth_error_app2 by lia. rewrite Hf.
    destruct (Nat.eqb_spec j p) as [->|].
    + rewrite Nat.sub_diag. reflexivity.
    + destruct (j - p)%nat as [|k] eqn:E; [lia|]. cbn [nth_error].
      rewrite nth_error_map, nth_error_skipn. do 2 f_equal. lia.
Qed.

Lemma nth_error_delete {A} (g : A -> A) (l : list A) p j :
  (p < length l)%nat ->
  nth_error (firstn p l ++ map g (skipn (S p) l)) j =
  if (j <? p)%nat then nth_error l j
  else option_map g (nth_error l (S j)).
Proof.
  intros Hp.
  assert (Hf : length (firstn p l) = p) by (rewrite length_firstn; lia).
  destruct (Nat.ltb_spec j p).
  - rewrite nth_error_app1 by lia. rewrite nth_error_firstn.
    destruct (Nat.ltb_spec j p); [reflexivity|lia].
  - rewrite nth_error_app2 by lia. rewrite Hf.
    rewrite nth_error_map, nth_error_skipn. do 2 f_equal. lia.
Qed.

Lemma add_idx_row_ok d r : row_ok r -> row_ok (add_idx d r).
Proof. intros H; exact H. Qed.

Lemma map_chars_add_idx d l : map chars (map (add_idx d) l) = map chars l.
Proof. rewrite map_map. reflexivity. Qed.

Lemma editorDelRow_ok E at_ :
  buf_ok E -> 0 <= at_ < numrows E ->
  exists E', editorDelRow E at_ = Ok E' /\ buf_ok E' /\
    lines E' = firstn (Z.to_nat at_) (lines E)
                 ++ skipn (S (Z.to_nat at_)) (lines E) /\
    numrows E' = numrows E - 1 /\ dirty E' = dirty E + 1 /\
    same_frame E E'.
Proof.
  intros (Hsy & Hn & Hok) Hat. unfold editorDelRow.
  replace ((at_ <? 0) || (at_ >=? numrows E)) with false
    by (symmetry; apply orb_false_iff; split; lia).
  eexists. split; [reflexivity|].
  split; [|split; [|split; [|split]]].
  - split; [exact Hsy|].
    cbn [row set_rows set_numrows set_dirty numrows]. split.
    + unfold len in *. rewrite length_app, length_map, length_firstn, length_skipn.
      lia.
    + intros j x Hx. rewrite nth_error_delete in Hx by (unfold len in *; lia).
      destruct (Nat.ltb_spec j (Z.to_nat at_)).
      * apply Hok; auto.
      * destruct (nth_error (row E) (S j)) as [y|] eqn:Ey; [|discriminate].
        inversion Hx; subst x. destruct (Hok _ _ Ey) as [Hi Hr]. cbn.
        split; [lia|exact Hr].
  - unfold lines. cbn [row set_rows set_numrows set_dirty numrows].
    rewrite map_app, map_chars_add_idx.
    rewrite firstn_map, skipn_map. reflexivity.
  - reflexivity.
  - reflexivity.
  - unfold same_frame. cbn. tauto.
Qed.

(* ----------------------------------------------------------------- *)
(** ** Editing the characters of a row *)

Lemma line_at_row E p r :
  nth_error (row E) (Z.to_nat p) = Some r -> line_at E p = chars r.
Proof.
  intros H. unfold line_at, nth_line, lines. rewrite nth_error_map, H. reflexivity.
Qed.

Lemma noLF_app a b : noLF a -> noLF b -> noLF (a ++ b).
Proof. unfold noLF. intros. apply Forall_app; auto. Qed.

Lemma noLF_firstn n a : noLF a -> noLF (firstn n a).
Proof.
  unfold noLF. intros H. rewrite <- (firstn_skipn n a) in H.
  apply Forall_app in H. tauto.
Qed.

Lemma noLF_skipn n a : noLF a -> noLF (skipn n a).
Proof.
  unfold noLF. intros H. rewrite <- (firstn_skipn n a) in H.
  apply Forall_app in H. tauto.
Qed.

Lemma noLF_cons c a : c <> LF -> noLF a -> noLF (c :: a).
Proof. unfold noLF. intros. constructor; auto. Qed.

Lemma len_ins_char cs at_ c : len (ins_char cs at_ c) = len cs + 1.
Proof.
  unfold ins_char. pose proof (len_nonneg cs).
  destruct (_ || _) eqn:E.
  - rewrite len_app, len_cons, len_firstn, len_skipn; lia.
  - apply orb_false_iff in E as [E1 E2].
    rewrite len_app, len_cons, len_firstn, len_skipn; lia.
Qed.

Lemma len_del_char cs at_ : 0 <= at_ < len cs -> len (del_char cs at_) = len cs - 1.
Proof.
  intros. unfold del_char, len in *.
  rewrite length_app, length_firstn, length_skipn. lia.
Qed.

(* ----------------------------------------------------------------- *)
(** ** Editor operations keep the editor invariant *)

Lemma buf_ok_lines_len E : buf_ok E -> len (lines E) = numrows E.
Proof. intros (_ & H & _). unfold lines. rewrite len_map. lia. Qed.

Lemma nth_line_upd_same ls p x :
  0 <= p < len ls -> nth_line (upd ls (Z.to_nat p) x) p = x.
Proof.
  intros H. unfold nth_line. rewrite upd_nth by (unfold len in H; lia).
  rewrite Nat.eqb_refl. reflexivity.
Qed.

Lemma nth_line_upd_other ls p x q :
  0 <= p < len ls -> 0 <= q -> q <> p ->
  nth_line (upd ls (Z.to_nat p) x) q = nth_line ls q.
Proof.
  intros H Hq Hne. unfold nth_line. rewrite upd_nth by (unfold len in H; lia).
  destruct (Nat.eqb_spec (Z.to_nat q) (Z.to_nat p)); [lia|reflexivity].
Qed.

Lemma nth_line_insert ls p x q :
  0 <= p <= len ls -> 0 <= q ->
  nth_line (firstn (Z.to_nat p) ls ++ x :: skipn (Z.to_nat p) ls) q =
  if q <? p then nth_line ls q else if q =? p then x else nth_line ls (q - 1).
Proof.
  intros Hp Hq. unfold nth_line.
  rewrite <- (map_id (skipn (Z.to_nat p) ls)).
  rewrite nth_error_insert by (unfold len in Hp; lia).
  destruct (Z.ltb_spec q p); destruct (Nat.ltb_spec (Z.to_nat q) (Z.to_nat p)); try lia; auto.
  destruct (Z.eqb_spec q p); destruct (Nat.eqb_spec (Z.to_nat q) (Z.to_nat p)); try lia; auto.
  replace (Z.to_nat (q - 1)) with (Z.to_nat q - 1)%nat by lia.
  destruct (nth_error ls (Z.to_nat q - 1)); reflexivity.
Qed.

Lemma nth_line_delete ls p q :
  0 <= p < len ls -> 0 <= q < p ->
  nth_line (firstn (Z.to_nat p) ls ++ skipn (S (Z.to_nat p)) ls) q = nth_line ls q.
Proof.
  intros Hp Hq. unfold nth_line.
  rewrite <- (map_id (skipn (S (Z.to_nat p)) ls)).
  rewrite nth_error_delete by (unfold len in Hp; lia).
  destruct (Nat.ltb_spec (Z.to_nat q) (Z.to_nat p)); [reflexivity|lia].
Qed.

Lemma nth_line_out ls q : len ls <= q -> nth_line ls q = [].
Proof.
  intros H. unfold nth_line.
  destruct (nth_error ls (Z.to_nat q)) eqn:E; [|reflexivity].
  assert (Z.to_nat q < length ls)%nat by (apply nth_error_Some; congruence).
  unfold len in H. lia.
Qed.

Lemma buf_ok_set_cursor E x y : buf_ok E -> buf_ok (set_cursor E x y).
Proof. intros H; exact H. Qed.

Lemma buf_ok_set_view E a b c : buf_ok E -> buf_ok (set_view E a b c).
Proof. intros H; exact H. Qed.

Lemma buf_row_noLF E p : buf_ok E -> noLF (line_at E p).
Proof.
  intros (_ & _ & Hok). unfold line_at, nth_line, lines.
  rewrite nth_error_map.
  destruct (nth_error (row E) (Z.to_nat p)) eqn:H; cbn; [|constructor].
  destruct (Hok _ _ H) as [_ (_&_&_&_&Hlf)]. exact Hlf.
Qed.

Lemma cursor_ok_intro E x y :
  0 <= y <= numrows E -> 0 <= x <= len (nth_line (lines E) y) ->
  cursor_ok (set_cursor E x y).
Proof. intros; split; assumption. Qed.

Lemma view_ok_frame E E' : same_frame E E' -> view_ok E -> view_ok E'.
Proof.
  intros (_&_&_&A&_&B&_) [C D]. unfold view_ok. rewrite A, B. auto.
Qed.

Lemma view_ok_set_cursor E x y : view_ok E -> view_ok (set_cursor E x y).
Proof. intros H; exact H. Qed.

Lemma ed_ok_intro E x y :
  buf_ok E -> view_ok E ->
  0 <= y <= numrows E -> 0 <= x <= len (nth_line (lines E) y) ->
  ed_ok (set_cursor E x y).
Proof. intros. split; [|split]; auto. apply cursor_ok_intro; auto. Qed.

Lemma sub_chars_ok r from n :
  size r = len (chars r) -> 0 <= from -> 0 <= n -> from + n = size r ->
  sub_chars r from n = Ok (skipn (Z.to_nat from) (chars r)).
Proof.
  intros Hs Hf Hn He. unfold sub_chars.
  replace ((0 <=? from) && (0 <=? n) && (from + n <=? size r)) with true
    by (symmetry; rewrite !andb_true_iff; repeat split; lia).
  f_equal. apply firstn_all2. rewrite length_skipn. unfold len in Hs. lia.
Qed.

(* ----------------------------------------------------------------- *)
(** ** Cursor movement and scrolling *)

Lemma cursor_row_ok E :
  buf_ok E -> 0 <= cy E <= numrows E ->
  exists o, cursor_row E = Ok o /\
    len (line_at E (cy E)) = match o with Some r => size r | None => 0 end /\
    match o with Some _ => cy E < numrows E | None => numrows E <= cy E end.
Proof.
  intros Hb Hcy. unfold cursor_row.
  pose proof (buf_ok_lines_len E Hb) as HL.
  destruct (Z.geb_spec (cy E) (numrows E)).
  - exists None. split; [reflexivity|]. split; [|lia].
    unfold line_at. rewrite nth_line_out by lia. reflexivity.
  - destruct (buf_ok_row E (cy E) Hb) as (r & -> & Hnth & _ & (Hsz & _)); [lia|].
    cbn [bind]. exists (Some r). split; [reflexivity|]. split; [|lia].
    rewrite (line_at_row _ _ _ Hnth). lia.
Qed.

Lemma clamp_ok E :
  buf_ok E -> view_ok E -> 0 <= cy E <= numrows E -> 0 <= cx E ->
  exists E',
    (orow1 <- cursor_row E ;;
     let rowlen := match orow1 with Some r => size r | None => 0 end in
     Ok (if cx E >? rowlen then set_cursor E rowlen (cy E) else E)) = Ok E' /\
    ed_ok E' /\ lines E' = lines E /\ numrows E' = numrows E.
Proof.
  intros Hb Hv Hcy Hcx.
  destruct (cursor_row_ok E Hb Hcy) as (o & -> & Hlen & _). cbn [bind].
  pose proof (len_nonneg (line_at E (cy E))).
  eexists. split; [reflexivity|].
  destruct (Z.gtb_spec (cx E) (match o with Some r => size r | None => 0 end)).
  - split; [|split; reflexivity]. apply ed_ok_intro; auto. unfold line_at in *. lia.
  - split; [|split; reflexivity]. split; [|split]; auto. split; auto. lia.
Qed.

Lemma editorMoveCursor_ok E key :
  buf_ok E -> view_ok E -> 0 <= cy E <= numrows E -> 0 <= cx E ->
  exists E', editorMoveCursor E key = Ok E' /\ ed_ok E' /\
             lines E' = lines E /\ numrows E' = numrows E.
Proof.
  intros Hb Hv Hcy Hcx. unfold editorMoveCursor.
  destruct (cursor_row_ok E Hb Hcy) as (o & -> & Hlen & Ho). cbn [bind].
  pose proof (len_nonneg (line_at E (cy E))) as Hln.
  match goal with |- exists E', bind ?m _ = _ /\ _ =>
    assert (H1 : exists x y, m = Ok (set_cursor E x y) /\ 0 <= y <= numrows E /\ 0 <= x)
  end.
  { assert (Hid : Ok E = Ok (set_cursor E (cx E) (cy E))) by (destruct E; reflexivity).
    destruct (key =? KEY_ARROW_LEFT).
    { destruct (Z.eqb_spec (cx E) 0); cbn [negb].
      - destruct (Z.gtb_spec (cy E) 0).
        + destruct (buf_ok_row E (cy E - 1) Hb) as (prev & -> & _ & _ & (Hsz & _)); [lia|].
          cbn [bind]. do 2 eexists. split; [reflexivity|].
          pose proof (len_nonneg (chars prev)). lia.
        + do 2 eexists. split; [exact Hid|]. lia.
      - do 2 eexists. split; [reflexivity|]. lia. }
    destruct (key =? KEY_ARROW_RIGHT).
    { destruct o as [r|].
      - destruct (Z.ltb_spec (cx E) (size r)).
        + do 2 eexists. split; [reflexivity|]. lia.
        + destruct (Z.eqb_spec (cx E) (size r)).
          * do 2 eexists. split; [reflexivity|]. lia.
          * do 2 eexists. split; [exact Hid|]. lia.
      - do 2 eexists. split; [exact Hid|]. lia. }
    destruct (key =? KEY_ARROW_UP).
    { destruct (Z.eqb_spec (cy E) 0); cbn [negb].
      - do 2 eexists. split; [exact Hid|]. lia.
      - do 2 eexists. split; [reflexivity|]. lia. }
    destruct (key =? KEY_ARROW_DOWN).
    { destruct (Z.ltb_spec (cy E) (numrows E)).
      - do 2 eexists. split; [reflexivity|]. lia.
      - do 2 eexists. split; [exact Hid|]. lia. }
    do 2 eexists. split; [exact Hid|]. lia. }
  destruct H1 as (x & y & -> & Hy & Hx). cbn [bind].
  destruct (clamp_ok (set_cursor E x y)) as (E' & HE' & Hok & Hl & Hn); auto.
  exists E'. split; [exact HE'|]. auto.
Qed.

Lemma move_times_ok n : forall E key,
  ed_ok E -> exists E', move_times n E key = Ok E' /\ ed_ok E' /\
                        lines E' = lines E /\ numrows E' = numrows E.
Proof.
  induction n as [|n IH]; intros E key HE; cbn [move_times].
  - eauto.
  - destruct HE as (Hb & (Hcy & Hcx) & Hv).
    destruct (editorMoveCursor_ok E key) as (E1 & -> & H1 & Hl1 & Hn1); auto; [lia|].
    cbn [bind]. destruct (IH E1 key H1) as (E2 & -> & H2 & Hl2 & Hn2).
    exists E2. split; [reflexivity|]. split; [auto|]. split; congruence.
Qed.

Lemma editorScroll_ok E :
  ed_ok E -> exists E', editorScroll E = Ok E' /\ ed_ok E' /\
    rowoff E' <= cy E' /\ lines E' = lines E /\ numrows E' = numrows E /\
    cx E' = cx E /\ cy E' = cy E /\ dirty E' = dirty E /\
    filename E' = filename E /\ row E' = row E.
Proof.
  intros (Hb & (Hcy & Hcx) & (Hro & Hsr)). unfold editorScroll.
  assert (H1 : exists v, (if cy E <? numrows E
            then r <- row_at E (cy E) ;; Ok (rowCxToRx r (cx E)) else Ok 0) = Ok v).
  { destruct (Z.ltb_spec (cy E) (numrows E)); [|eauto].
    destruct (buf_ok_row E (cy E) Hb) as (r & -> & _); [lia|]. cbn [bind]. eauto. }
  destruct H1 as (v & ->). cbn [bind].
  eexists. split; [reflexivity|].
  split; [|split; [|repeat split]].
  - split; [exact Hb|]. split; [split; assumption|].
    unfold view_ok. cbn [rowoff screenrows set_view].
    destruct (cy E <? rowoff E) eqn:A;
    match goal with |- context [?a >=? ?b] => destruct (Z.geb_spec a b) end; lia.
  - cbn [rowoff cy set_view].
    destruct (cy E <? rowoff E) eqn:A;
    match goal with |- context [?a >=? ?b] => destruct (Z.geb_spec a b) end; lia.
Qed.

Lemma rowRxToCx_loop_range cs rx n : forall cx cur,
  cx <= rowRxToCx_loop cs rx n cx cur <= cx + Z.of_nat n.
Proof.
  induction n as [|n IH]; intros cx cur; cbn [rowRxToCx_loop].
  - lia.
  - destruct (_ >? _); [lia|]. specialize (IH (cx + 1) (tab_advance (char_at cs cx) cur)). lia.
Qed.

Lemma rowRxToCx_range r rx : 0 <= size r -> 0 <= rowRxToCx r rx <= size r.
Proof.
  intros H. unfold rowRxToCx.
  pose proof (rowRxToCx_loop_range (chars r) rx (Z.to_nat (size r)) 0 0). lia.
Qed.

Lemma is_prefix_length p : forall s, is_prefix p s = true -> (length p <= length s)%nat.
Proof.
  induction p as [|a p IH]; intros [|b s] H; simpl in *; try lia; try discriminate.
  apply andb_true_iff in H as [_ H]. apply IH in H. lia.
Qed.

Lemma strstr_from_bound needle : forall hay o off,
  strstr_from hay needle o = Some off ->
  o <= off /\ off - o + len needle <= len hay.
Proof.
  induction hay as [|c hay IH]; intros o off H; cbn [strstr_from] in H.
  - destruct (is_prefix needle []) eqn:P; [|discriminate].
    inversion H; subst. apply is_prefix_length in P. unfold len. lia.
  - destruct (is_prefix needle (c :: hay)) eqn:P.
    + inversion H; subst. apply is_prefix_length in P. unfold len. lia.
    + apply IH in H. rewrite len_cons. lia.
Qed.

Lemma cstr_length s : (length (cstr s) <= length s)%nat.
Proof.
  induction s as [|c s IH]; cbn [cstr]; [lia|].
  destruct (Ascii.eqb c NUL); simpl; lia.
Qed.

Lemma strstr_bound hay needle off :
  strstr hay needle = Some off -> 0 <= off /\ off + strlen needle <= len hay.
Proof.
  unfold strstr, strlen. intros H. apply strstr_from_bound in H.
  pose proof (cstr_length hay). unfold len in *. lia.
Qed.

Lemma buf_ok_set_hl E p r h :
  buf_ok E -> nth_error (row E) (Z.to_nat p) = Some r -> 0 <= p ->
  len h = rsize r ->
  buf_ok (set_row E p (set_hl r h)) /\
  lines (set_row E p (set_hl r h)) = lines E.
Proof.
  intros (Hsy & Hn & Hok) Hnth Hp Hh.
  assert (Hlt : (Z.to_nat p < length (row E))%nat) by (apply nth_error_Some; congruence).
  split.
  - split; [exact Hsy|]. split.
    + rewrite set_row_len; [exact Hn|unfold len; lia].
    + intros j x Hx. rewrite set_row_rows, upd_nth in Hx by auto.
      destruct (Nat.eqb_spec j (Z.to_nat p)) as [->|].
      * inversion Hx; subst x. destruct (Hok _ _ Hnth) as [Hi Hr].
        split; [exact Hi|]. eapply hl_upd_row_ok; [|exact Hr].
        split; [unfold row_sim; cbn; tauto|right; exact Hh].
      * apply Hok; auto.
  - unfold lines. rewrite set_row_rows. eapply map_upd_same; eauto.
Qed.

Lemma find_loop_ok query : forall n w current,
  ed_ok (ed w) -> (direction (find w) = 1 \/ direction (find w) = -1) ->
  -1 <= last_match (find w) < Z.max 0 (numrows (ed w)) ->
  saved_hl (find w) = None -> saved_hl_line (find w) = -1 ->
  Z.of_nat n <= numrows (ed w) ->
  -1 <= current < numrows (ed w) -> (current = -1 -> direction (find w) = 1) ->
  exists w', find_loop n query w current = Ok w' /\ ed_ok (ed w') /\
    find_ok w' /\ lines (ed w') = lines (ed w) /\
    numrows (ed w') = numrows (ed w) /\ dirty (ed w') = dirty (ed w) /\
    filename (ed w') = filename (ed w) /\ quit_times w' = quit_times w.
Proof.
  induction n as [|n IH]; intros w current HE Hd Hlm Hs Hsl Hn Hc Hc1;
    cbn [find_loop].
  - exists w. split; [reflexivity|]. split; [auto|]. split; [|tauto].
    split; [auto|]. split; [auto|]. rewrite Hs. auto.
  - set (c1 := current + direction (find w)).
    set (c2 := if c1 =? -1 then numrows (ed w) - 1 else c1).
    set (c3 := if c2 =? numrows (ed w) then 0 else c2).
    assert (Hc3 : 0 <= c3 < numrows (ed w)).
    { unfold c3, c2, c1.
      destruct (Z.eqb_spec (current + direction (find w)) (-1));
      match goal with |- context [?a =? ?b] => destruct (Z.eqb_spec a b) end; lia. }
    pose proof HE as (Hb & (Hcy & Hcx) & Hv).
    destruct (buf_ok_row (ed w) c3 Hb Hc3) as (r & -> & Hnth & Hidx & Hok).
    cbn [bind]. pose proof Hok as (Hsz & Hrs & Hhl & _).
    destruct (strstr (render r) query) as [off|] eqn:Hst.
    + apply strstr_bound in Hst. pose proof (strlen_nonneg query).
      pose proof (len_nonneg (render r)).
      replace ((0 <=? rsize r) && (rsize r <=? len (hl r))) with true
        by (symmetry; apply andb_true_iff; split; lia).
      cbn [bind].
      destruct (memset_ok (hl r) off HL_MATCH (strlen query)) as (h & -> & Hh);
        [lia|lia|lia|]. cbn [bind].
      eexists. split; [reflexivity|].
      cbn [ed find quit_times].
      set (E2 := set_view _ _ _ _).
      assert (Hb2 : buf_ok E2) by exact Hb.
      destruct (buf_ok_set_hl E2 c3 r h Hb2) as [Hb3 Hl3]; [exact Hnth|lia|lia|].
      pose proof (rowRxToCx_range r off ltac:(pose proof (len_nonneg (chars r)); lia)).
      split; [|split; [|split; [|split; [|split; [|split]]]]]; try reflexivity.
      * split; [exact Hb3|]. split.
        -- split; [change (0 <= c3 <= numrows (ed w)); lia|].
           change (cy (set_row E2 c3 (set_hl r h))) with c3.
           change (cx (set_row E2 c3 (set_hl r h))) with (rowRxToCx r off).
           unfold line_at. rewrite Hl3.
           change (lines E2) with (lines (ed w)).
           fold (line_at (ed w) c3). rewrite (line_at_row _ _ _ Hnth). lia.
        -- destruct Hv. split; [|assumption].
           change (0 <= numrows (ed w)). lia.
      * unfold find_ok. cbn [find last_match direction saved_hl saved_hl_line ed].
        split; [change (numrows (set_row E2 c3 (set_hl r h))) with (numrows (ed w)); lia|].
        split; [exact Hd|].
        exists (set_hl r h). split; [lia|]. split.
        -- apply set_row_nth_same. change (row E2) with (row (ed w)).
           destruct Hb as (_ & Hnn & _). lia.
        -- cbn. rewrite len_firstn; lia.
      * exact Hl3.
    + apply IH; auto; try lia.
Qed.

(* ----------------------------------------------------------------- *)
(** ** The search callback *)

Lemma ed_ok_set_hl E p r h :
  ed_ok E -> nth_error (row E) (Z.to_nat p) = Some r -> 0 <= p ->
  len h = rsize r ->
  ed_ok (set_row E p (set_hl r h)) /\
  lines (set_row E p (set_hl r h)) = lines E.
Proof.
  intros (Hb & Hc & Hv) Hnth Hp Hh.
  destruct (buf_ok_set_hl E p r h Hb Hnth Hp Hh) as [Hb' Hl'].
  split; [|exact Hl']. split; [exact Hb'|]. split; [|exact Hv].
  destruct Hc as [Hcy Hcx]. split; [exact Hcy|].
  unfold line_at. rewrite Hl'. exact Hcx.
Qed.

Lemma same_text_refl E : same_text E E.
Proof. unfold same_text; tauto. Qed.

Lemma same_text_trans A B C : same_text A B -> same_text B C -> same_text A C.
Proof. unfold same_text; intuition congruence. Qed.

Lemma row_at_set_hl E p r h i :
  nth_error (row E) (Z.to_nat p) = Some r -> 0 <= p ->
  match row_at (set_row E p (set_hl r h)) i, row_at E i with
  | Ok a, Ok b => render a = render b
  | Ok _, _ | _, Ok _ => False
  | _, _ => True
  end.
Proof.
  intros Hnth Hp. unfold row_at, load.
  destruct (0 <=? i) eqn:Hi; [|exact I].
  assert (Hlt : (Z.to_nat p < length (row E))%nat) by (apply nth_error_Some; congruence).
  rewrite set_row_rows, upd_nth by auto.
  destruct (Nat.eqb_spec (Z.to_nat i) (Z.to_nat p)) as [e|ne].
  - rewrite e, Hnth. reflexivity.
  - destruct (nth_error (row E) (Z.to_nat i)); [reflexivity|exact I].
Qed.

Lemma find_restore_ok w :
  ed_ok (ed w) -> find_ok w ->
  exists w1, find_restore w = Ok w1 /\ ed_ok (ed w1) /\
    same_text (ed w) (ed w1) /\
    saved_hl (find w1) = None /\ saved_hl_line (find w1) = -1 /\
    last_match (find w1) = last_match (find w) /\
    direction (find w1) = direction (find w) /\
    quit_times w1 = quit_times w /\
    cy (ed w1) = cy (ed w) /\
    (forall i, match row_at (ed w1) i, row_at (ed w) i with
               | Ok a, Ok b => render a = render b
               | Ok _, _ | _, Ok _ => False
               | _, _ => True
               end).
Proof.
  intros HE (Hlm & Hd & Hsv). unfold find_restore.
  destruct (saved_hl (find w)) as [l|] eqn:Es.
  - destruct Hsv as (r & Hl0 & Hnth & Hlen).
    unfold row_at. destruct (load_ok (row (ed w)) (saved_hl_line (find w)))
      as (r' & -> & Hnth').
    { assert (Z.to_nat (saved_hl_line (find w)) < length (row (ed w)))%nat
        by (apply nth_error_Some; congruence). unfold len. lia. }
    rewrite Hnth in Hnth'. inversion Hnth'; subst r'. cbn [bind].
    pose proof HE as (Hb & Hc & Hv).
    destruct Hb as (Hsy & Hn & Hok). destruct (Hok _ _ Hnth) as [_ (_&Hrs&Hhl&_)].
    pose proof (len_nonneg (render r)).
    replace ((0 <=? rsize r) && (rsize r <=? len l) && (rsize r <=? len (hl r)))
      with true by (symmetry; rewrite !andb_true_iff; repeat split; lia).
    eexists. split; [reflexivity|]. cbn [ed find quit_times].
    destruct (ed_ok_set_hl (ed w) (saved_hl_line (find w)) r
                (firstn (Z.to_nat (rsize r)) l
                   ++ skipn (Z.to_nat (rsize r)) (hl r))) as [Hok' Hl'].
    + exact HE.
    + exact Hnth.
    + exact Hl0.
    + rewrite len_app, len_firstn, len_skipn; lia.
    + split; [exact Hok'|]. split; [split; [exact Hl'|repeat split]|].
      cbn [saved_hl saved_hl_line last_match direction].
      do 6 (split; [reflexivity|]).
      intros i. apply (row_at_set_hl (ed w)); auto.
  - exists w. split; [reflexivity|]. split; [exact HE|].
    split; [apply same_text_refl|]. rewrite Es.
    do 6 (split; [auto|]).
    intros i. destruct (row_at (ed w) i); auto.
Qed.

Lemma editorFindCallback_ok query key w :
  ed_ok (ed w) -> find_ok w ->
  exists w', editorFindCallback query key w = Ok w' /\ ed_ok (ed w') /\
    find_ok w' /\ same_text (ed w) (ed w') /\
    ((key = KEY_ENTER \/ key = KEY_ESC) -> find w' = find0).
Proof.
  intros HE Hfo. pose proof Hfo as (Hlm & Hd & Hsv). unfold editorFindCallback.
  destruct (find_restore_ok w HE Hfo)
    as (w1 & Hw1 & HE1 & Hst1 & Hs1 & Hsl1 & Hlm1 & Hd1 & _).
  assert (H1 : exists w1, find_restore w = Ok w1 /\ ed_ok (ed w1) /\
              same_text (ed w) (ed w1) /\
              saved_hl (find w1) = None /\ saved_hl_line (find w1) = -1 /\
              last_match (find w1) = last_match (find w) /\
              direction (find w1) = direction (find w)).
  { exists w1. tauto. }
  clear w1 Hw1 HE1 Hst1 Hs1 Hsl1 Hlm1 Hd1.
  destruct H1 as (w1 & -> & HE1 & Hst1 & Hs1 & Hsl1 & Hlm1 & Hd1). cbn [bind].
  pose proof Hst1 as (_ & Hn1 & _).
  destruct ((key =? KEY_ENTER) || (key =? KEY_ESC)) eqn:Hk.
  { eexists. split; [reflexivity|]. cbn [ed find].
    split; [exact HE1|]. split; [|split; [exact Hst1|]].
    - unfold find_ok. cbn. rewrite Hs1. lia.
    - intros _. unfold find0. rewrite Hs1, Hsl1. reflexivity. }
  set (f := find w1).
  set (reset := mkFind (-1) 1 (saved_hl_line f) (saved_hl f)).
  match goal with |- context [find_loop _ _ (mkWorld _ _ ?f2) _] => set (F2 := f2) end.
  assert (HF2 : (direction F2 = 1 \/ direction F2 = -1) /\
                -1 <= last_match F2 < Z.max 0 (numrows (ed w1)) /\
                saved_hl F2 = None /\ saved_hl_line F2 = -1 /\
                (last_match F2 = -1 -> direction F2 = 1)).
  { unfold F2, reset, f.
    destruct ((key =? KEY_ARROW_RIGHT) || (key =? KEY_ARROW_DOWN));
      [|destruct ((key =? KEY_ARROW_LEFT) || (key =? KEY_ARROW_UP))];
      cbn [last_match direction saved_hl saved_hl_line];
      match goal with |- context [?a =? -1] => destruct (Z.eqb_spec a (-1)) end;
      cbn [last_match direction saved_hl saved_hl_line];
      rewrite ?Hs1, ?Hsl1, ?Hlm1, ?Hn1; repeat split; auto; try lia. }
  destruct HF2 as (A & B & C & D & F).
  assert (Hnn : 0 <= numrows (ed w1)).
  { destruct HE1 as ((_ & Hq & _) & _). rewrite Hq. apply len_nonneg. }
  destruct (find_loop_ok query (Z.to_nat (numrows (ed w1)))
              (mkWorld (ed w1) (quit_times w1) F2) (last_match F2))
    as (w' & Hw' & HE' & Hf' & Hl' & Hn' & Hd' & Hfn' & _); cbn [ed find]; auto;
    try lia.
  exists w'. split; [exact Hw'|]. split; [exact HE'|]. split; [exact Hf'|].
  split.
  - eapply same_text_trans; [exact Hst1|]. cbn [ed] in *. repeat split; auto.
  - intros Hkk. exfalso. apply orb_false_iff in Hk as [K1 K2].
    destruct Hkk as [->| ->]; [rewrite Z.eqb_refl in K1|rewrite Z.eqb_refl in K2];
      discriminate.
Qed.

(* ----------------------------------------------------------------- *)
(** ** Filetype selection *)

Lemma HLDB_wf sy : In sy HLDB -> wf_syntax sy.
Proof.
  intros H. unfold wf_syntax.
  assert (Hb : forallb (fun s => forallb kw_okb (keywords s)) HLDB = true)
    by (vm_compute; reflexivity).
  rewrite forallb_forall in Hb. specialize (Hb _ H).
  rewrite forallb_forall in Hb. apply Forall_forall. intros kw Hk.
  specialize (Hb _ Hk). unfold kw_okb in Hb. lia.
Qed.

Lemma rows_ok_rel l l' : rows_rel hl_upd l l' -> rows_ok l -> rows_ok l'.
Proof.
  intros Hrel Hok j r' Hr'.
  destruct (rows_rel_nth _ _ _ _ Hrel Hr') as (r & Hr & Hu).
  destruct (Hok _ _ Hr) as [Hi Hro]. split.
  - destruct Hu as [(-> & _) _]. exact Hi.
  - eapply hl_upd_row_ok; eauto.
Qed.

Lemma ed_sim_ed_ok E E' : ed_sim E E' -> ed_ok E -> ed_ok E' /\ same_text E E'.
Proof.
  intros Hs ((Hsy & Hn & Hok) & (Hcy & Hcx) & (Hro & Hsr)).
  pose proof Hs as (A&B&C&D&F&G&H&I&J&K&L&Hrel).
  assert (Hl : lines E' = lines E) by (apply rows_rel_chars; exact Hrel).
  split; [|repeat split; auto].
  split; [|split].
  - split; [unfold syntax_ok; rewrite L; exact Hsy|]. split.
    + rewrite I, Hn. unfold len. destruct Hrel as [-> _]. reflexivity.
    + eapply rows_ok_rel; eauto.
  - split; [rewrite B, I; exact Hcy|]. unfold line_at. rewrite Hl, A, B. exact Hcx.
  - split; [rewrite D|rewrite G]; assumption.
Qed.

Lemma ed_ok_set_syntax E s :
  ed_ok E -> match s with Some sy => wf_syntax sy | None => True end ->
  ed_ok (set_syntax E s).
Proof.
  intros ((Hsy & Hn & Hok) & Hc & Hv) Hs.
  split; [|split]; auto. split; [|split]; auto.
Qed.

Lemma ed_ok_set_filename E f : ed_ok E -> ed_ok (set_filename E f).
Proof. intros H; exact H. Qed.

Lemma ed_ok_set_dirty E d : ed_ok E -> ed_ok (set_dirty E d).
Proof. intros H; exact H. Qed.

(* ----------------------------------------------------------------- *)
(** ** Loading and flattening *)

Lemma getlines_shape data : forall cur,
  noLF cur -> Forall line_shape (getlines data cur).
Proof.
  induction data as [|c data IH]; intros cur Hc; cbn [getlines].
  - destruct cur; constructor; [right; exact Hc|constructor].
  - destruct (Ascii.eqb_spec c LF) as [->|Hne].
    + constructor; [left; eauto|]. apply IH. constructor.
    + apply IH. apply noLF_app; [exact Hc|]. constructor; [exact Hne|constructor].
Qed.

Lemma strip_len_le line n : (strip_len line n <= n)%nat.
Proof.
  induction n as [|n IH]; cbn [strip_len]; [lia|].
  destruct (_ || _); lia.
Qed.

Lemma strip_noLF l : line_shape l -> noLF (strip l).
Proof.
  unfold strip. intros [(l0 & -> & H0)|H]; [|apply noLF_firstn; exact H].
  rewrite length_app. cbn [length]. rewrite Nat.add_1_r. cbn [strip_len].
  rewrite nth_middle. rewrite Ascii.eqb_refl. cbn [orb].
  pose proof (strip_len_le (l0 ++ [LF]) (length l0)).
  rewrite firstn_app.
  replace (strip_len (l0 ++ [LF]) (length l0) - length l0)%nat with 0%nat by lia.
  cbn [firstn]. rewrite app_nil_r. apply noLF_firstn. exact H0.
Qed.

Lemma last_firstn_S {A} (d : A) : forall n line,
  (n < length line)%nat -> last (firstn (S n) line) d = nth n line d.
Proof.
  induction n as [|n IH]; intros [|x t] H; cbn [length] in H; try lia.
  - reflexivity.
  - destruct t as [|y t']; [cbn [length] in H; lia|].
    change (firstn (S (S n)) (x :: y :: t')) with (x :: firstn (S n) (y :: t')).
    change (nth (S n) (x :: y :: t') d) with (nth n (y :: t') d).
    rewrite <- IH by (cbn [length] in *; lia).
    reflexivity.
Qed.

Lemma strip_len_last line : forall n,
  (n <= length line)%nat ->
  no_trailing_CR (firstn (strip_len line n) line) /\
  last (firstn (strip_len line n) line) NUL <> LF.
Proof.
  induction n as [|n IH]; intros Hn; cbn [strip_len].
  - cbn. split; [unfold no_trailing_CR; cbn|]; intros H; discriminate.
  - destruct (_ || _) eqn:Hc; [apply IH; lia|].
    apply orb_false_iff in Hc as [H1 H2].
    assert (Hl : last (firstn (S n) line) NUL = nth n line NUL)
      by (apply last_firstn_S; lia).
    unfold no_trailing_CR. rewrite Hl. split; intros H; rewrite H in *.
    + rewrite Ascii.eqb_refl in H2. discriminate.
    + rewrite Ascii.eqb_refl in H1. discriminate.
Qed.

Lemma strip_no_trailing_CR l : no_trailing_CR (strip l).
Proof. unfold strip. apply strip_len_last. lia. Qed.

Lemma editorRowsToString_lines E :
  buf_ok E -> fst (editorRowsToString E) = join_lines (lines E).
Proof.
  intros (_ & Hn & Hok). unfold editorRowsToString, join_lines, lines. cbn [fst].
  rewrite firstn_all2 by (unfold len in Hn; lia).
  assert (H : forall r, In r (row E) -> size r = len (chars r)).
  { intros r Hr. apply In_nth_error in Hr as [j Hj].
    destruct (Hok _ _ Hj) as [_ (Hs & _)]. exact Hs. }
  clear Hn Hok.
  induction (row E) as [|r rows IH]; cbn [flat_map map]; [reflexivity|].
  rewrite IH by (intros; apply H; right; auto).
  rewrite firstn_all2; [reflexivity|].
  specialize (H r (or_introl eq_refl)). unfold len in H. lia.
Qed.

Lemma getlines_line l : forall rest cur,
  noLF l -> getlines (l ++ LF :: rest) cur = (cur ++ l ++ [LF]) :: getlines rest [].
Proof.
  induction l as [|c l IH]; intros rest cur Hl; cbn [app getlines].
  - rewrite Ascii.eqb_refl. reflexivity.
  - inversion Hl as [|? ? Hc Hl']; subst.
    destruct (Ascii.eqb_spec c LF); [contradiction|].
    rewrite IH by exact Hl'. rewrite <- app_assoc. reflexivity.
Qed.

Lemma getlines_join ls :
  Forall noLF ls -> getlines (join_lines ls) [] = map (fun l => l ++ [LF]) ls.
Proof.
  induction ls as [|l ls IH]; intros H; cbn [join_lines flat_map map getlines].
  - reflexivity.
  - inversion H; subst. rewrite <- app_assoc. cbn [app].
    rewrite getlines_line by assumption. cbn [app].
    fold (join_lines ls). rewrite IH by assumption. reflexivity.
Qed.

Lemma strip_line l : noLF l -> no_trailing_CR l -> strip (l ++ [LF]) = l.
Proof.
  intros Hl Hcr. unfold strip. rewrite length_app. cbn [length].
  rewrite Nat.add_1_r. cbn [strip_len]. rewrite nth_middle, Ascii.eqb_refl.
  cbn [orb]. destruct l as [|x t] using rev_ind; [reflexivity|].
  clear IHt. rewrite length_app. cbn [length]. rewrite Nat.add_1_r.
  cbn [strip_len]. rewrite <- app_assoc. cbn [app]. rewrite nth_middle.
  unfold no_trailing_CR in Hcr. rewrite last_last in Hcr.
  apply Forall_app in Hl as [_ Hx]. inversion Hx as [|? ? Hx' _]; subst.
  destruct (Ascii.eqb_spec x LF); [contradiction|].
  destruct (Ascii.eqb_spec x CR); [contradiction|]. cbn [orb].
  change (t ++ x :: [LF]) with (t ++ [x] ++ [LF]).
  rewrite app_assoc. rewrite firstn_app.
  rewrite firstn_all2 by (rewrite length_app; cbn [length]; lia).
  rewrite length_app. cbn [length].
  replace (S (length t) - (length t + 1))%nat with 0%nat by lia.
  cbn [firstn]. rewrite app_nil_r. reflexivity.
Qed.

Lemma reload_lines ls :
  Forall noLF ls -> Forall no_trailing_CR ls ->
  map strip (getlines (join_lines ls) []) = ls.
Proof.
  intros H1 H2. rewrite getlines_join by exact H1. rewrite map_map.
  induction ls as [|l ls IH]; cbn [map]; [reflexivity|].
  inversion H1; inversion H2; subst.
  rewrite strip_line by assumption. f_equal. apply IH; assumption.
Qed.

Lemma buf_ok_noLF E : buf_ok E -> Forall noLF (lines E).
Proof.
  intros (_ & _ & Hok). apply Forall_forall. intros l Hl.
  unfold lines in Hl. apply in_map_iff in Hl as (r & <- & Hr).
  apply In_nth_error in Hr as [j Hj].
  destruct (Hok _ _ Hj) as [_ (_&_&_&_&H)]. exact H.
Qed.

(* ----------------------------------------------------------------- *)
(** ** The prompt *)

Lemma suffix_refl ks : suffix ks ks.
Proof. exists []. reflexivity. Qed.

Lemma suffix_cons k ks' ks : suffix ks' ks -> suffix ks' (k :: ks).
Proof. intros [pre ->]. exists (k :: pre). reflexivity. Qed.

Lemma suffix_trans a b c : suffix a b -> suffix b c -> suffix a c.
Proof. intros [p ->] [q ->]. exists (q ++ p). rewrite app_assoc. reflexivity. Qed.

Lemma suffix_Forall (P : Z -> Prop) ks' ks :
  suffix ks' ks -> Forall P ks -> Forall P ks'.
Proof. intros [pre ->] H. apply Forall_app in H. tauto. Qed.

Lemma suffix_length ks' ks : suffix ks' ks -> (length ks' <= length ks)%nat.
Proof. intros [pre ->]. rewrite length_app. lia. Qed.

Lemma safe_bind {A B} (P : A -> Prop) (Q : B -> Prop) m (k : A -> Res B) :
  safe P m -> (forall a, P a -> safe Q (k a)) -> safe Q (bind m k).
Proof. destruct m; cbn; auto. Qed.

Lemma safe_mono {A} (P Q : A -> Prop) m :
  safe P m -> (forall a, P a -> Q a) -> safe Q m.
Proof. destruct m; cbn; auto. Qed.

Lemma find_ok_find0 w : find w = find0 -> find_ok w.
Proof. intros H. unfold find_ok. rewrite H. cbn. lia. Qed.

Lemma normal_good w : normal w -> good w.
Proof. intros [H1 H2]. split; [auto|apply find_ok_find0; auto]. Qed.

Lemma find_ok_with_ed w E :
  find_ok w -> row E = row (ed w) -> numrows E = numrows (ed w) ->
  find_ok (with_ed w E).
Proof.
  unfold find_ok. cbn [find ed with_ed]. intros H Hr Hn. rewrite Hr, Hn. exact H.
Qed.

Section Prompt.
Variable cb : option Callback.
Variable Inv : World -> Prop.
Hypothesis Inv_good : forall w, Inv w -> good w.
Hypothesis Inv_scroll : forall w E,
  Inv w -> ed_ok E -> row E = row (ed w) -> numrows E = numrows (ed w) ->
  Inv (with_ed w E).
Hypothesis cb_ok : forall buf key w,
  Inv w ->
  exists w', call cb buf key w = Ok w' /\ Inv w' /\
    same_text (ed w) (ed w') /\
    ((key = KEY_ENTER \/ key = KEY_ESC) -> find w' = find0).

Lemma editorPrompt_ok : forall keys buf w,
  Inv w ->
  safe (fun '(ans, w', keys') =>
          normal w' /\ same_text (ed w) (ed w') /\ suffix keys' keys /\
          (length keys' < length keys)%nat)
       (editorPrompt cb keys buf w).
Proof.
  induction keys as [|c rest IH]; intros buf w HI; cbn [editorPrompt];
    unfold editorRefreshScreen;
    destruct (Inv_good w HI) as [HE Hf];
    destruct (editorScroll_ok (ed w) HE)
      as (E1 & -> & HE1 & _ & Hl1 & Hn1 & _ & _ & Hd1 & Hfn1 & Hr1);
    cbn [bind];
    assert (HI1 : Inv (with_ed w E1)) by (apply Inv_scroll; auto);
    assert (Ht1 : same_text (ed w) E1) by (unfold same_text; tauto).
  - cbn. apply Inv_good. exact HI1.
  - assert (Hrec : forall buf' w2, Inv w2 -> same_text (ed w) (ed w2) ->
              safe (fun '(ans, w', keys') =>
                normal w' /\ same_text (ed w) (ed w') /\
                suffix keys' (c :: rest) /\
                (length keys' < length (c :: rest))%nat)
                (editorPrompt cb rest buf' w2)).
    { intros buf' w2 H2 Ht2. eapply safe_mono; [apply IH; exact H2|].
      intros [[ans w'] keys'] (A & B & C & D).
      split; [auto|]. split; [eapply same_text_trans; eauto|].
      split; [apply suffix_cons; auto|]. cbn [length]. lia. }
    assert (Hret : forall ans w2, Inv w2 -> same_text (ed w) (ed w2) ->
              find w2 = find0 ->
              (fun '(ans, w', keys') =>
                normal w' /\ same_text (ed w) (ed w') /\
                suffix keys' (c :: rest) /\
                (length keys' < length (c :: rest))%nat)
                (ans : option (list ascii), w2, rest)).
    { intros ans w2 H2 Ht2 Hf2. split; [split; [apply Inv_good; auto|auto]|].
      split; [auto|]. split; [apply suffix_cons, suffix_refl|]. cbn [length]. lia. }
    assert (Hcall : forall b, exists w2, call cb b c (with_ed w E1) = Ok w2 /\
              Inv w2 /\ same_text (ed w) (ed w2) /\
              ((c = KEY_ENTER \/ c = KEY_ESC) -> find w2 = find0)).
    { intros b. destruct (cb_ok b c _ HI1) as (w2 & H2 & HI2 & Ht2 & Hk2).
      exists w2. split; [auto|]. split; [auto|].
      split; [eapply same_text_trans; [exact Ht1|exact Ht2]|auto]. }
    destruct (_ || _).
    + match goal with |- context [call cb ?b c _] =>
        destruct (Hcall b) as (w2 & -> & HI2 & Ht2 & _) end.
      cbn [bind]. apply Hrec; auto.
    + destruct (Z.eqb_spec c KEY_ESC).
      * destruct (Hcall buf) as (w2 & -> & HI2 & Ht2 & Hk2). cbn [bind safe].
        apply (Hret None w2 HI2 Ht2). apply Hk2; right; assumption.
      * destruct (Z.eqb_spec c KEY_ENTER).
        -- destruct (Hcall buf) as (w2 & Hw2 & HI2 & Ht2 & Hk2).
           destruct buf; rewrite Hw2; cbn [bind safe].
           ++ apply Hrec; auto.
           ++ apply (Hret (Some (a :: buf)) w2 HI2 Ht2).
              apply Hk2; left; assumption.
        -- destruct (_ && _).
           ++ match goal with |- context [call cb ?b c _] =>
                destruct (Hcall b) as (w2 & -> & HI2 & Ht2 & _) end.
              cbn [bind]. apply Hrec; auto.
           ++ destruct (Hcall buf) as (w2 & -> & HI2 & Ht2 & _).
              cbn [bind]. apply Hrec; auto.
Qed.
End Prompt.

Lemma editorPrompt_none_ok keys buf w :
  normal w ->
  safe (fun '(ans, w', keys') =>
          normal w' /\ same_text (ed w) (ed w') /\ suffix keys' keys /\
          (length keys' < length keys)%nat)
       (editorPrompt None keys buf w).
Proof.
  apply (editorPrompt_ok None normal).
  - apply normal_good.
  - intros w0 E [H1 H2] HE _ _. split; auto.
  - intros b key w0 H. exists w0. split; [reflexivity|]. split; [auto|].
    split; [apply same_text_refl|]. intros _. apply H.
Qed.

Lemma editorPrompt_find_ok keys buf w :
  good w ->
  safe (fun '(ans, w', keys') =>
          normal w' /\ same_text (ed w) (ed w') /\ suffix keys' keys /\
          (length keys' < length keys)%nat)
       (editorPrompt (Some editorFindCallback) keys buf w).
Proof.
  apply (editorPrompt_ok (Some editorFindCallback) good).
  - auto.
  - intros w0 E [H1 H2] HE Hr Hn. split; [exact HE|].
    apply find_ok_with_ed; auto.
  - intros b key w0 [H1 H2]. cbn [call].
    destruct (editorFindCallback_ok b key w0 H1 H2) as (w' & Hw & A & B & C & D).
    exists w'. split; [auto|]. split; [split; auto|]. auto.
Qed.

(* ----------------------------------------------------------------- *)
(** ** Key presses and the main loop *)

Lemma int_to_char_not_LF c :
  -128 <= c -> iscntrl c = false -> c < 128 -> int_to_char c <> LF.
Proof.
  intros Hlo Hc Hhi H. unfold int_to_char in H.
  assert (Hm : 0 <= c mod 256 < 256) by (apply Z.mod_pos_bound; lia).
  apply (f_equal N_of_ascii) in H.
  rewrite N_ascii_embedding in H by lia.
  assert (H10 : N_of_ascii LF = 10%N) by reflexivity.
  rewrite H10 in H.
  pose proof (Z.div_mod c 256 ltac:(lia)) as Hdm.
  assert (c = 10) by lia. subst c. discriminate.
Qed.

Lemma ed_ok_restore E E1 r co :
  ed_ok E -> ed_ok E1 -> lines E1 = lines E -> numrows E1 = numrows E ->
  ed_ok (set_view (set_cursor E1 (cx E) (cy E)) r (rowoff E) co).
Proof.
  intros (Hb & (Hcy & Hcx) & (Hro & _)) (Hb1 & _ & (_ & Hsr1)) Hl Hn.
  split; [exact Hb1|]. split.
  - split.
    + change (0 <= cy E <= numrows E1). rewrite Hn. exact Hcy.
    + change (0 <= cx E <= len (nth_line (lines E1) (cy E))).
      rewrite Hl. exact Hcx.
  - split; [exact Hro|exact Hsr1].
Qed.

Lemma editorFind_ok keys w :
  normal w ->
  safe (fun '(w', keys') => normal w' /\ suffix keys' keys) (editorFind keys w).
Proof.
  intros HN. unfold editorFind.
  eapply safe_bind; [apply editorPrompt_find_ok; apply normal_good; exact HN|].
  intros [[query w1] keys1] ([HE1 Hf1] & (Hl & Hn & _) & Hs & _).
  destruct query; cbn [safe].
  - split; [split|]; auto.
  - split; [|exact Hs]. split; [|exact Hf1].
    apply ed_ok_restore; auto. apply HN.
Qed.

Lemma initEditor_ok rows cols : 3 <= rows -> normal (initEditor rows cols).
Proof.
  intros H. split; [|reflexivity]. cbn. split; [|split].
  - split; [exact I|]. split; [reflexivity|]. intros [|j] r Hr; discriminate.
  - split; cbn; [lia|]. unfold line_at, nth_line. cbn. lia.
  - split; cbn; lia.
Qed.

(* ----------------------------------------------------------------- *)
(** ** Column mapping *)

Lemma tab_advance_gt c rx : 0 <= rx -> rx < tab_advance c rx.
Proof.
  intros H. unfold tab_advance, TAB_STOP.
  destruct (Ascii.eqb c TAB); [|lia].
  pose proof (Z.rem_bound_pos rx 8 H ltac:(lia)). lia.
Qed.

Lemma rowCxToRx_loop_snoc cs : forall n j rx,
  rowCxToRx_loop cs (S n) j rx =
  tab_advance (char_at cs (j + Z.of_nat n)) (rowCxToRx_loop cs n j rx).
Proof.
  induction n as [|n IH]; intros j rx.
  - cbn [rowCxToRx_loop]. rewrite Z.add_0_r. reflexivity.
  - change (rowCxToRx_loop cs (S (S n)) j rx)
      with (rowCxToRx_loop cs (S n) (j + 1) (tab_advance (char_at cs j) rx)).
    rewrite IH. cbn [rowCxToRx_loop].
    replace (j + 1 + Z.of_nat n) with (j + Z.of_nat (S n)) by lia. reflexivity.
Qed.

Lemma width_S cs k :
  width cs (S k) = tab_advance (char_at cs (Z.of_nat k)) (width cs k).
Proof. unfold width. rewrite rowCxToRx_loop_snoc. reflexivity. Qed.

Lemma width_nonneg cs k : 0 <= width cs k.
Proof.
  induction k as [|k IH]; [unfold width; cbn; lia|].
  rewrite width_S. pose proof (tab_advance_gt (char_at cs (Z.of_nat k)) _ IH). lia.
Qed.

Lemma width_lt_S cs k : width cs k < width cs (S k).
Proof. rewrite width_S. apply tab_advance_gt, width_nonneg. Qed.

Lemma width_mono cs k1 k2 : (k1 <= k2)%nat -> width cs k1 <= width cs k2.
Proof.
  induction 1 as [|k2 _ IH]; [lia|]. pose proof (width_lt_S cs k2). lia.
Qed.

Lemma width_strict cs k1 k2 : (k1 < k2)%nat -> width cs k1 < width cs k2.
Proof.
  intros H. pose proof (width_mono cs (S k1) k2 H).
  pose proof (width_lt_S cs k1). lia.
Qed.

Lemma rowRxToCx_loop_width cs k : forall n m,
  (m <= k <= m + n)%nat ->
  rowRxToCx_loop cs (width cs k) n (Z.of_nat m) (width cs m) = Z.of_nat k.
Proof.
  induction n as [|n IH]; intros m Hm; cbn [rowRxToCx_loop].
  - f_equal. lia.
  - rewrite <- width_S.
    destruct (Z.gtb_spec (width cs (S m)) (width cs k)) as [Hgt|Hle].
    + destruct (Nat.eq_dec m k) as [->|Hne]; [reflexivity|].
      pose proof (width_mono cs (S m) k ltac:(lia)). lia.
    + assert (S m <= k)%nat.
      { destruct (Nat.le_gt_cases (S m) k); [assumption|].
        pose proof (width_mono cs k m ltac:(lia)).
        pose proof (width_lt_S cs m). lia. }
      replace (Z.of_nat m + 1) with (Z.of_nat (S m)) by lia.
      apply IH. lia.
Qed.

(** C2.  With tab stops every 8 columns, [rowCxToRx] maps column 0 to 0, is
    monotonically non-decreasing in the character column, and [rowRxToCx]
    inverts it on every character column [c] with [0 <= c <= row.size]. *)
Theorem rowCxToRx_rowRxToCx_inverse (r : Row) :
  rowCxToRx r 0 = 0 /\
  (forall c1 c2, c1 <= c2 -> rowCxToRx r c1 <= rowCxToRx r c2) /\
  (forall c, 0 <= c <= size r -> rowRxToCx r (rowCxToRx r c) = c).
Proof.
  split; [reflexivity|]. split.
  - intros c1 c2 H. unfold rowCxToRx. apply (width_mono (chars r)). lia.
  - intros c Hc. unfold rowCxToRx, rowRxToCx.
    change (rowRxToCx_loop (chars r) (rowCxToRx_loop (chars r) (Z.to_nat c) 0 0)
              (Z.to_nat (size r)) 0 0)
      with (rowRxToCx_loop (chars r) (width (chars r) (Z.to_nat c))
              (Z.to_nat (size r)) (Z.of_nat 0) (width (chars r) 0)).
    rewrite rowRxToCx_loop_width by lia. lia.
Qed.

Lemma rowCxToRx_rowRxToCx_inverse_witness :
  let r := mkRow 0 3 10 (str "a" ++ [TAB] ++ str "b") [] [] false in
  rowCxToRx r 2 = 8 /\ rowRxToCx r (rowCxToRx r 2) = 2 /\
  rowCxToRx r 1 <= rowCxToRx r 2.
Proof.
  intros r. split; [reflexivity|]. split.
  - apply (proj2 (proj2 (rowCxToRx_rowRxToCx_inverse r))). cbn. lia.
  - apply (proj1 (proj2 (rowCxToRx_rowRxToCx_inverse r))). lia.
Defined.

(* ----------------------------------------------------------------- *)
(** ** The key decoder *)

Lemma read1_suffix inp o rest :
  read1 inp = (o, rest) ->
  exists pre, inp = pre ++ rest /\ (length pre <= 1)%nat /\
    match o with Some c => inp = RByte c :: rest | None => True end.
Proof.
  destruct inp as [|[c| |e] t]; cbn; intros H; inversion H; subst.
  - exists []. auto.
  - exists [RByte c]. auto.
  - exists [RTimeout]. auto.
  - exists [RError e]. auto.
Qed.

Lemma editorReadKey_escape_recognized bytes k rest :
  escape_seq bytes k ->
  editorReadKey_escape (map RByte bytes ++ rest) = (k, rest).
Proof. intros H; destruct H; reflexivity. Qed.

Ltac escape_cases seq1 :=
  repeat match goal with
  | |- context [if Ascii.eqb seq1 ?c then _ else _] =>
      destruct (Ascii.eqb_spec seq1 c) as [->|]
  end.

Ltac escape_done :=
  intros H; inversion H; subst;
  (split;
   [ first [ exists []; split; [reflexivity|cbn; lia]
           | eexists [_]; split; [reflexivity|cbn; lia]
           | eexists [_; _]; split; [reflexivity|cbn; lia]
           | eexists [_; _; _]; split; [reflexivity|cbn; lia] ]
   | first [ left; reflexivity
           | right; eexists; split; [constructor|reflexivity] ] ]).

Lemma editorReadKey_escape_spec inp k rest :
  editorReadKey_escape inp = (k, rest) ->
  (exists pre, inp = pre ++ rest /\ (length pre <= 3)%nat) /\
  (k = KEY_ESC \/ exists bytes, escape_seq bytes k /\ inp = map RByte bytes ++ rest).
Proof.
  unfold editorReadKey_escape.
  destruct inp as [|[seq0| |e0] inp1]; cbn [read1]; try escape_done.
  destruct inp1 as [|[seq1| |e1] inp2]; cbn [read1]; try escape_done.
  destruct (Ascii.eqb_spec seq0 (chr "[")) as [->|N0].
  - destruct (_ && _) eqn:Dg.
    + destruct inp2 as [|[seq2| |e2] inp3]; cbn [read1]; try escape_done.
      destruct (Ascii.eqb_spec seq2 (chr "~")) as [->|]; [|escape_done].
      escape_cases seq1; escape_done.
    + escape_cases seq1; escape_done.
  - destruct (Ascii.eqb_spec seq0 (chr "O")) as [->|N1]; [|escape_done].
    escape_cases seq1; escape_done.
Qed.

Lemma char_to_int_range c : -128 <= char_to_int c <= 127.
Proof.
  unfold char_to_int, uchar.
  pose proof (N_ascii_bounded c).
  destruct (_ <? 128) eqn:E; lia.
Qed.

Lemma editorReadKey_range inp k rest :
  editorReadKey inp = GotKey k rest -> key_ok k.
Proof.
  induction inp as [|[c| |[|]] t IH]; cbn [editorReadKey]; try discriminate; auto.
  destruct (Ascii.eqb c ESC).
  - destruct (editorReadKey_escape t) as [k0 r0] eqn:E. intros H; inversion H; subst.
    apply editorReadKey_escape_spec in E as [_ [->|(bytes & Hs & _)]].
    + left. split; apply Z.leb_le; reflexivity.
    + destruct Hs; right; split; apply Z.leb_le; reflexivity.
  - intros H; inversion H; subst. left. apply char_to_int_range.
Qed.

(* ----------------------------------------------------------------- *)
(** ** The order in which the search visits lines *)


Section Scan.
Variables (n last dir : Z).
Hypothesis Hn : 1 <= n.
Hypothesis Hlast : -1 <= last < n.
Hypothesis Hdir : dir = 1 \/ dir = -1.
Hypothesis Hfirst : last = -1 -> dir = 1.

End Scan.






Lemma strncmp0_firstn n : forall s1 s2,
  strncmp0 s1 s2 n = true -> (n <= length (cstr s2))%nat ->
  firstn n s1 = firstn n s2.
Proof.
  induction n as [|n IH]; intros s1 s2 H Hn; [reflexivity|].
  destruct s2 as [|b t2]; [cbn in Hn; lia|].
  cbn [cstr] in Hn. destruct (Ascii.eqb b NUL) eqn:Hb; [cbn in Hn; lia|].
  cbn [length] in Hn.
  destruct s1 as [|a t1]; cbn [strncmp0 hd tl] in H.
  - rewrite Ascii.eqb_sym in H. rewrite Hb in H. discriminate.
  - destruct (Ascii.eqb a b) eqn:Hab; [|discriminate].
    apply Ascii.eqb_eq in Hab; subst a. rewrite Hb in H.
    cbn [firstn]. f_equal. apply IH; [exact H|lia].
Qed.

Lemma match_keyword_sound rnd i kws klen kw2 :
  match_keyword rnd i kws = Some (klen, kw2) ->
  exists kw, In kw kws /\ klen = kw_len kw /\ kw2 = is_kw2 kw /\
    firstn (Z.to_nat klen) (skipn (Z.to_nat i) rnd) = kw_chars kw /\
    isSeparator (char_to_int (char_at rnd (i + klen))) = true.
Proof.
  induction kws as [|kw rest IH]; cbn [match_keyword]; [discriminate|].
  destruct (_ && _) eqn:Hm.
  - intros H; inversion H; subst; clear H.
    apply andb_true_iff in Hm as [Hm Hs].
    exists kw. split; [left; reflexivity|]. split; [reflexivity|].
    split; [reflexivity|]. split; [|exact Hs].
    unfold kw_chars, kw_len. unfold match_at in Hm.
    apply strncmp0_firstn; [exact Hm|].
    unfold strlen. destruct (Ascii.eqb _ _); lia.
  - intros H. destruct (IH H) as (kw' & Hin & Hrest).
    exists kw'. split; [right; exact Hin|exact Hrest].
Qed.

(* ----------------------------------------------------------------- *)
(** ** Derived row state and row indices *)

Lemma buf_ok_derived E : buf_ok E -> Forall row_derived (row E).
Proof.
  intros (_ & _ & Hok). apply Forall_forall. intros r Hr.
  apply In_nth_error in Hr as [j Hj].
  destruct (Hok _ _ Hj) as [_ (_ & A & B & C & _)]. split; [|split]; auto.
Qed.

Lemma buf_ok_idx_inv E : buf_ok E -> idx_inv E.
Proof.
  intros (_ & Hn & Hok). split; [exact Hn|]. intros i r H. apply (Hok _ _ H).
Qed.

Ltac from_ok H lemma :=
  let E0 := fresh "E0" in let H0 := fresh "H0" in let Hb := fresh "Hb" in
  destruct lemma as (E0 & H0 & Hb & _);
  rewrite H0 in H; inversion H; subst; apply buf_ok_derived; exact Hb.

Lemma kw_len_nonneg kw : 0 <= kw_len kw.
Proof.
  unfold kw_len. pose proof (strlen_nonneg (str kw)).
  destruct (Ascii.eqb_spec (char_at (str kw) (strlen (str kw) - 1)) (chr "|")) as [e|];
    [|lia].
  destruct (Z.eq_dec (strlen (str kw)) 0) as [z|]; [|lia].
  rewrite z in e. discriminate.
Qed.

Lemma match_keyword_shift pre s kws :
  match_keyword (pre ++ s) (len pre) kws = match_keyword s 0 kws.
Proof.
  induction kws as [|kw rest IH]; cbn [match_keyword]; [reflexivity|].
  fold (kw_len kw). pose proof (kw_len_nonneg kw).
  rewrite IH. unfold match_at.
  replace (skipn (Z.to_nat (len pre)) (pre ++ s)) with s.
  2:{ unfold len. rewrite Nat2Z.id, skipn_app, skipn_all, Nat.sub_diag. reflexivity. }
  replace (char_at (pre ++ s) (len pre + kw_len kw)) with (char_at s (0 + kw_len kw)).
  2:{ unfold char_at. pose proof (len_nonneg pre).
      replace (len pre + kw_len kw <? 0) with false by (symmetry; lia).
      replace (0 + kw_len kw <? 0) with false by (symmetry; lia).
      rewrite app_nth2 by (unfold len; lia). f_equal. unfold len. lia. }
  reflexivity.
Qed.




(** Three bytes are read after the escape byte for [ESC [ 5 ~]. *)
Lemma escape_reads_three_bytes_counterexample :
  editorReadKey_escape (map RByte (str "[5~x")) = (KEY_PAGE_UP, [RByte (chr "x")])
  /\ reads_after_escape (map RByte (str "[5~x")) = 3%nat
  /\ ~ (forall inp, (reads_after_escape inp <= 2)%nat).
Proof.
  split; [reflexivity|]. split; [reflexivity|].
  intros H. specialize (H (map RByte (str "[5~x"))).
  vm_compute in H. lia.
Qed.

(** C8.  After the escape byte the decoder makes at most
    three further reads.  The sequences of the table (bracket and letter,
    bracket digit and tilde, O and letter) yield their key and consume
    exactly their bytes; every other sequence, and every sequence cut short
    by a timeout or a read error, yields the bare escape key.  The decoder
    is a total function of the results of at most three reads, so it cannot
    block.  Keys returned are a [char] value or one of the named keys. *)
Theorem escape_sequences_decode_or_degrade :
  (forall bytes k rest,
     escape_seq bytes k ->
     editorReadKey_escape (map RByte bytes ++ rest) = (k, rest)) /\
  (forall inp k rest,
     editorReadKey_escape inp = (k, rest) ->
     (exists pre, inp = pre ++ rest /\ (length pre <= 3)%nat) /\
     (k = KEY_ESC \/
      exists bytes, escape_seq bytes k /\ inp = map RByte bytes ++ rest)) /\
  (forall inp k rest, editorReadKey inp = GotKey k rest -> key_ok k).
Proof.
  split; [exact editorReadKey_escape_recognized|].
  split; [exact editorReadKey_escape_spec|exact editorReadKey_range].
Qed.

Lemma escape_sequences_decode_or_degrade_witness :
  editorReadKey_escape (map RByte (str "[3~") ++ [RTimeout]) = (KEY_DEL, [RTimeout]) /\
  ((exists pre, [RByte (chr "["); RByte (chr "9"); RTimeout; RByte (chr "x")]
                = pre ++ [RByte (chr "x")] /\ (length pre <= 3)%nat) /\
   (KEY_ESC = KEY_ESC \/
    exists bytes, escape_seq bytes KEY_ESC /\
      [RByte (chr "["); RByte (chr "9"); RTimeout; RByte (chr "x")]
      = map RByte bytes ++ [RByte (chr "x")])) /\
  key_ok KEY_ARROW_UP.
Proof.
  split; [|split].
  - apply (proj1 escape_sequences_decode_or_degrade). constructor.
  - apply (proj1 (proj2 escape_sequences_decode_or_degrade)). reflexivity.
  - apply (proj2 (proj2 escape_sequences_decode_or_degrade)
             [RByte ESC; RByte (chr "["); RByte (chr "A")] KEY_ARROW_UP []).
    reflexivity.
Defined.

(* ----------------------------------------------------------------- *)
(** ** Runs of the editor: bounds and the cursor *)

Lemma cursor_rx_nonneg E : 0 <= cursor_rx E.
Proof.
  unfold cursor_rx. destruct (nth_error _ _); [|lia].
  unfold rowCxToRx. apply (width_nonneg (chars r)).
Qed.

Lemma editorScroll_rx E :
  buf_ok E -> 0 <= cy E <= numrows E ->
  (if cy E <? numrows E
   then r <- row_at E (cy E) ;; Ok (rowCxToRx r (cx E)) else Ok 0)
  = Ok (cursor_rx E).
Proof.
  intros Hb Hcy. unfold cursor_rx.
  destruct (Z.ltb_spec (cy E) (numrows E)).
  - destruct (buf_ok_row E (cy E) Hb) as (r & -> & -> & _); [lia|]. reflexivity.
  - destruct (nth_error (row E) (Z.to_nat (cy E))) eqn:Hn; [|reflexivity].
    assert (Z.to_nat (cy E) < length (row E))%nat
      by (apply nth_error_Some; congruence).
    destruct Hb as (_ & Hnr & _). unfold len in Hnr. lia.
Qed.

Lemma editorScroll_into_view E :
  ed_ok E -> 0 <= coloff E -> 1 <= screencols E ->
  exists E', editorScroll E = Ok E' /\
    in_view E' /\ rx E' = cursor_rx E /\
    cx E' = cx E /\ cy E' = cy E /\ row E' = row E /\ dirty E' = dirty E /\
    0 <= rowoff E' /\ 0 <= coloff E' /\
    (rowoff E <= cy E < rowoff E + screenrows E -> rowoff E' = rowoff E) /\
    (coloff E <= cursor_rx E < coloff E + screencols E ->
     coloff E' = coloff E) /\
    editorScroll E' = Ok E'.
Proof.
  intros (Hb & (Hcy & Hcx) & (Hro & Hsr)) Hco Hsc.
  pose proof (cursor_rx_nonneg E) as Hrx.
  unfold editorScroll at 1. rewrite (editorScroll_rx E Hb Hcy). cbn [bind].
  eexists. split; [reflexivity|].
  set (ro1 := if cy E <? rowoff E then cy E else rowoff E).
  set (ro := if cy E >=? ro1 + screenrows E then cy E - screenrows E + 1 else ro1).
  set (co1 := if cursor_rx E <? coloff E then cursor_rx E else coloff E).
  set (co := if cursor_rx E >=? co1 + screencols E
             then cursor_rx E - screencols E + 1 else co1).
  assert (Hro' : ro <= cy E < ro + screenrows E /\ 0 <= ro /\
                 (rowoff E <= cy E < rowoff E + screenrows E -> ro = rowoff E)).
  { subst ro ro1. destruct (Z.ltb_spec (cy E) (rowoff E));
      match goal with |- context [?a >=? ?b] => destruct (Z.geb_spec a b) end; lia. }
  assert (Hco' : co <= cursor_rx E < co + screencols E /\ 0 <= co /\
                 (coloff E <= cursor_rx E < coloff E + screencols E ->
                  co = coloff E)).
  { subst co co1. destruct (Z.ltb_spec (cursor_rx E) (coloff E));
      match goal with |- context [?a >=? ?b] => destruct (Z.geb_spec a b) end; lia. }
  unfold in_view. cbn [rowoff coloff cx cy rx row dirty screenrows screencols set_view].
  split; [split; tauto|]. split; [reflexivity|].
  do 4 (split; [reflexivity|]). split; [tauto|]. split; [tauto|].
  split; [tauto|]. split; [tauto|].
  unfold editorScroll.
  assert (Hb' : buf_ok (set_view E (cursor_rx E) ro co)) by exact Hb.
  rewrite (editorScroll_rx _ Hb' Hcy).
  change (cursor_rx (set_view E (cursor_rx E) ro co)) with (cursor_rx E).
  cbn [bind rowoff coloff cx cy rx row dirty screenrows screencols set_view].
  destruct (Z.ltb_spec (cy E) ro); [lia|].
  destruct (Z.geb_spec (cy E) (ro + screenrows E)); [lia|].
  destruct (Z.ltb_spec (cursor_rx E) co); [lia|].
  destruct (Z.geb_spec (cursor_rx E) (co + screencols E)); [lia|].
  reflexivity.
Qed.

(** X3.  [editorScroll] on a consistent editor state with a window of at
    least one column and a column offset that is not negative: it returns
    with the cursor inside the window, [rx] being the render column of the
    cursor; it changes neither the cursor nor the rows nor the modification
    counter; the offsets stay non-negative; an offset under which the
    cursor was visible already is kept; and scrolling again changes
    nothing. *)
Theorem editorScroll_brings_cursor_into_view E :
  ed_ok E -> 0 <= coloff E -> 1 <= screencols E ->
  exists E', editorScroll E = Ok E' /\
    in_view E' /\ rx E' = cursor_rx E /\
    cx E' = cx E /\ cy E' = cy E /\ row E' = row E /\ dirty E' = dirty E /\
    0 <= rowoff E' /\ 0 <= coloff E' /\
    (rowoff E <= cy E < rowoff E + screenrows E -> rowoff E' = rowoff E) /\
    (coloff E <= cursor_rx E < coloff E + screencols E ->
     coloff E' = coloff E) /\
    editorScroll E' = Ok E'.
Proof. apply editorScroll_into_view. Qed.

(* ----------------------------------------------------------------- *)
(** ** Render columns and the render buffer *)

Lemma rowCxToRx_width r c : rowCxToRx r c = width (chars r) (Z.to_nat c).
Proof. reflexivity. Qed.

Lemma rowRxToCx_loop_char cs rx : forall n m,
  let k := rowRxToCx_loop cs rx n (Z.of_nat m) (width cs m) in
  Z.of_nat m <= k <= Z.of_nat (m + n) /\
  (k < Z.of_nat (m + n) -> rx < width cs (S (Z.to_nat k))) /\
  (Z.of_nat m < k -> width cs (Z.to_nat k) <= rx) /\
  (k = Z.of_nat (m + n) -> (0 < n)%nat -> width cs (m + n) <= rx).
Proof.
  induction n as [|n IH]; intros m; cbn [rowRxToCx_loop]; cbv zeta.
  - split; [lia|]. split; [lia|]. split; lia.
  - rewrite <- width_S.
    destruct (Z.gtb_spec (width cs (S m)) rx) as [Hgt|Hle].
    + split; [lia|]. split; [|split; lia].
      intros _. rewrite Nat2Z.id. lia.
    + replace (Z.of_nat m + 1) with (Z.of_nat (S m)) by lia.
      specialize (IH (S m)). cbv zeta in IH.
      set (k := rowRxToCx_loop cs rx n (Z.of_nat (S m)) (width cs (S m))) in *.
      destruct IH as (I1 & I2 & I3 & I4).
      replace (S m + n)%nat with (m + S n)%nat in * by lia.
      split; [lia|]. split; [exact I2|]. split.
      * intros _. destruct (Z.eq_dec k (Z.of_nat (S m))) as [e|ne].
        -- rewrite e, Nat2Z.id. exact Hle.
        -- apply I3. lia.
      * intros e _. destruct n as [|n].
        -- replace (m + 1)%nat with (S m) by lia. exact Hle.
        -- apply I4; [exact e|lia].
Qed.

(** X4.  [rowRxToCx] returns a column between 0 and the size of the row: 0
    for a negative render column, the size of the row for a render column
    at or past the rendered width of the row, and otherwise the one
    character whose rendered span holds the render column (so a column
    inside the blanks of a tab maps to the tab). *)
Theorem rowRxToCx_finds_the_character (r : Row) (rx : Z) :
  0 <= size r ->
  0 <= rowRxToCx r rx <= size r /\
  (rx < 0 -> rowRxToCx r rx = 0) /\
  (rowCxToRx r (size r) <= rx -> rowRxToCx r rx = size r) /\
  (0 <= rx < rowCxToRx r (size r) ->
   rowRxToCx r rx < size r /\
   rowCxToRx r (rowRxToCx r rx) <= rx < rowCxToRx r (rowRxToCx r rx + 1)).
Proof.
  intros Hs. rewrite !rowCxToRx_width.
  pose proof (rowRxToCx_loop_char (chars r) rx (Z.to_nat (size r)) 0) as H.
  cbv zeta in H. change (width (chars r) 0) with 0 in H.
  change (Z.of_nat 0) with 0 in H. fold (rowRxToCx r rx) in H.
  cbn [Nat.add] in H. rewrite Z2Nat.id in H by lia.
  set (k := rowRxToCx r rx) in *.
  destruct H as (H1 & H2 & H3 & H4).
  pose proof (width_nonneg (chars r) (Z.to_nat k)) as Hk0.
  split; [lia|]. split; [|split].
  - intros Hneg. destruct (Z.eq_dec k 0); [assumption|].
    specialize (H3 ltac:(lia)). lia.
  - intros Hw. destruct (Z.eq_dec k (size r)); [assumption|].
    specialize (H2 ltac:(lia)).
    pose proof (width_mono (chars r) (S (Z.to_nat k)) (Z.to_nat (size r))
                  ltac:(lia)). lia.
  - intros Hrx.
    assert (Hlt : k < size r).
    { destruct (Z.eq_dec k (size r)) as [e|]; [|lia].
      destruct (Z.eq_dec (size r) 0) as [z|nz].
      - rewrite z in Hrx. change (width (chars r) (Z.to_nat 0)) with 0 in Hrx. lia.
      - specialize (H4 e ltac:(lia)). lia. }
    split; [exact Hlt|]. rewrite ?rowCxToRx_width.
    replace (Z.to_nat (k + 1)) with (S (Z.to_nat k)) by lia.
    split; [|apply H2; exact Hlt].
    destruct (Z.eq_dec k 0) as [e|ne].
    + rewrite e. change (width (chars r) (Z.to_nat 0)) with 0. lia.
    + apply H3. lia.
Qed.

Lemma rowRxToCx_finds_the_character_witness :
  let r := mkRow 0 3 10 (str "a" ++ [TAB] ++ str "b") [] [] false in
  0 <= rowRxToCx r 5 <= size r /\
  (5 < 0 -> rowRxToCx r 5 = 0) /\
  (rowCxToRx r (size r) <= 5 -> rowRxToCx r 5 = size r) /\
  (0 <= 5 < rowCxToRx r (size r) ->
   rowRxToCx r 5 < size r /\
   rowCxToRx r (rowRxToCx r 5) <= 5 < rowCxToRx r (rowRxToCx r 5 + 1)).
Proof.
  intros r. apply (rowRxToCx_finds_the_character r 5). cbn. lia.
Defined.

(* ----------------------------------------------------------------- *)

Lemma tab_fill_repeat : forall f o d,
  0 <= d < Z.of_nat f -> (len o + d) mod TAB_STOP = 0 ->
  (forall e, 0 <= e < d -> (len o + e) mod TAB_STOP <> 0) ->
  tab_fill f o = o ++ repeat (chr " ") (Z.to_nat d).
Proof.
  induction f as [|f IH]; intros o d Hd Hz Hnz; [lia|].
  cbn [tab_fill]. pose proof (len_nonneg o) as Ho.
  rewrite Z.rem_mod_nonneg by (unfold TAB_STOP; lia).
  destruct (Z.eqb_spec (len o mod TAB_STOP) 0) as [e|ne].
  - destruct (Z.eq_dec d 0) as [->|Hd0].
    + cbn. rewrite app_nil_r. reflexivity.
    + exfalso. apply (Hnz 0); [lia|]. rewrite Z.add_0_r. exact e.
  - assert (Hd1 : 1 <= d).
    { destruct (Z.eq_dec d 0) as [->|]; [|lia]. rewrite Z.add_0_r in Hz. lia. }
    rewrite (IH (o ++ [chr " "]) (d - 1)).
    + rewrite <- app_assoc. f_equal.
      replace (Z.to_nat d) with (S (Z.to_nat (d - 1))) by lia. reflexivity.
    + lia.
    + rewrite len_app. change (len [chr " "]) with 1.
      replace (len o + 1 + (d - 1)) with (len o + d) by lia. exact Hz.
    + intros e He. rewrite len_app. change (len [chr " "]) with 1.
      replace (len o + 1 + e) with (len o + (e + 1)) by lia. apply Hnz. lia.
Qed.

Lemma render_step_tab out :
  let k := TAB_STOP - len out mod TAB_STOP in
  render_step TAB out = out ++ repeat (chr " ") (Z.to_nat k) /\
  1 <= k <= TAB_STOP /\ len out + k = tab_advance TAB (len out) /\
  (len out + k) mod TAB_STOP = 0.
Proof.
  cbv zeta. pose proof (len_nonneg out) as Ho.
  pose proof (Z.mod_pos_bound (len out) TAB_STOP ltac:(unfold TAB_STOP; lia)) as Hm.
  pose proof (Z.div_mod (len out) TAB_STOP ltac:(unfold TAB_STOP; lia)) as Hdm.
  assert (Hz : (len out + (TAB_STOP - len out mod TAB_STOP)) mod TAB_STOP = 0).
  { replace (len out + (TAB_STOP - len out mod TAB_STOP))
      with ((len out / TAB_STOP + 1) * TAB_STOP) by lia.
    apply Z.mod_mul. unfold TAB_STOP; lia. }
  split; [|split; [lia|split; [|exact Hz]]].
  - unfold render_step. rewrite Ascii.eqb_refl.
    rewrite (tab_fill_repeat _ _ (TAB_STOP - len out mod TAB_STOP - 1)).
    + rewrite <- app_assoc. f_equal.
      replace (Z.to_nat (TAB_STOP - len out mod TAB_STOP))
        with (S (Z.to_nat (TAB_STOP - len out mod TAB_STOP - 1))) by lia.
      reflexivity.
    + change (Z.of_nat (Z.to_nat TAB_STOP)) with TAB_STOP. lia.
    + rewrite len_app. change (len [chr " "]) with 1.
      replace (len out + 1 + (TAB_STOP - len out mod TAB_STOP - 1))
        with (len out + (TAB_STOP - len out mod TAB_STOP)) by lia. exact Hz.
    + intros e He. rewrite len_app. change (len [chr " "]) with 1.
      replace (len out + 1 + e)
        with ((len out / TAB_STOP) * TAB_STOP + (len out mod TAB_STOP + 1 + e))
        by lia.
      rewrite Z.add_comm, Z.mod_add by (unfold TAB_STOP; lia).
      rewrite Z.mod_small by lia. lia.
  - unfold tab_advance. rewrite Ascii.eqb_refl.
    rewrite Z.rem_mod_nonneg by (unfold TAB_STOP; lia). unfold TAB_STOP. lia.
Qed.

Lemma render_step_other c out :
  c <> TAB ->
  render_step c out = out ++ [c] /\ len out + 1 = tab_advance c (len out).
Proof.
  intros Hc. unfold render_step, tab_advance.
  destruct (Ascii.eqb_spec c TAB); [contradiction|]. split; reflexivity.
Qed.

Lemma render_step_len c out : len (render_step c out) = tab_advance c (len out).
Proof.
  destruct (Ascii.eqb_spec c TAB) as [->|Hc].
  - destruct (render_step_tab out) as (-> & Hk & <- & _).
    rewrite len_app, len_repeat; lia.
  - destruct (render_step_other c out Hc) as (-> & <-).
    rewrite len_app. reflexivity.
Qed.

Lemma render_loop_step cs : forall n j out,
  render_loop cs (S n) j out =
  render_step (char_at cs (j + Z.of_nat n)) (render_loop cs n j out).
Proof.
  induction n as [|n IH]; intros j out.
  - cbn [render_loop]. rewrite Z.add_0_r. reflexivity.
  - change (render_loop cs (S (S n)) j out)
      with (render_loop cs (S n) (j + 1) (render_step (char_at cs j) out)).
    rewrite IH. cbn [render_loop]. fold (render_step (char_at cs j) out).
    do 2 f_equal. lia.
Qed.

Lemma render_loop_len cs n : len (render_loop cs n 0 []) = width cs n.
Proof.
  induction n as [|n IH]; [reflexivity|].
  rewrite render_loop_step, render_step_len, IH, width_S. reflexivity.
Qed.

Lemma render_step_prefix c out : exists suf, render_step c out = out ++ suf.
Proof.
  destruct (Ascii.eqb_spec c TAB) as [->|Hc].
  - destruct (render_step_tab out) as (-> & _). eauto.
  - destruct (render_step_other c out Hc) as (-> & _). eauto.
Qed.

Lemma render_loop_prefix cs n m :
  (n <= m)%nat ->
  exists suf, render_loop cs m 0 [] = render_loop cs n 0 [] ++ suf.
Proof.
  induction 1 as [|m Hle (suf & IH)].
  - exists []. rewrite app_nil_r. reflexivity.
  - rewrite render_loop_step, IH.
    destruct (render_step_prefix (char_at cs (0 + Z.of_nat m))
                (render_loop cs n 0 [] ++ suf)) as (s2 & ->).
    exists (suf ++ s2). rewrite app_assoc. reflexivity.
Qed.

Lemma render_loop_no_tab cs n : Forall (fun x => x <> TAB) (render_loop cs n 0 []).
Proof.
  induction n as [|n IH]; [constructor|].
  rewrite render_loop_step.
  destruct (Ascii.eqb_spec (char_at cs (0 + Z.of_nat n)) TAB) as [e|Hc].
  - rewrite e. destruct (render_step_tab (render_loop cs n 0 [])) as (-> & _).
    apply Forall_app. split; [exact IH|].
    apply Forall_forall. intros x Hx. apply repeat_spec in Hx. subst x.
    discriminate.
  - destruct (render_step_other _ (render_loop cs n 0 []) Hc) as (-> & _).
    apply Forall_app. split; [exact IH|]. constructor; [exact Hc|constructor].
Qed.

Lemma char_at_app_r (a b : list ascii) k :
  0 <= k -> char_at (a ++ b) (len a + k) = char_at b k.
Proof.
  intros Hk. unfold char_at. pose proof (len_nonneg a).
  destruct (Z.ltb_spec (len a + k) 0); [lia|].
  destruct (Z.ltb_spec k 0); [lia|].
  rewrite app_nth2 by (unfold len; lia). f_equal. unfold len. lia.
Qed.

Lemma char_at_app_l (a b : list ascii) k :
  0 <= k < len a -> char_at (a ++ b) k = char_at a k.
Proof.
  intros Hk. unfold char_at. destruct (Z.ltb_spec k 0); [lia|].
  apply app_nth1. unfold len in Hk. lia.
Qed.

Lemma char_at_repeat (x : ascii) n k :
  0 <= k < Z.of_nat n -> char_at (repeat x n) k = x.
Proof.
  intros Hk. unfold char_at. destruct (Z.ltb_spec k 0); [lia|].
  apply nth_repeat_lt. lia.
Qed.

(** X5.  The render buffer that [editorUpdateRow] fills agrees with
    [rowCxToRx]: the rendered width of the whole row is [rsize]; the buffer
    holds no tab; a character other than a tab takes one column and stands
    in the buffer at its render column; a tab takes the columns up to the
    next multiple of 8, between one and eight of them, all blank. *)
Theorem render_agrees_with_rowCxToRx (r : Row) :
  row_derived r ->
  rowCxToRx r (size r) = rsize r /\
  Forall (fun x => x <> TAB) (render r) /\
  forall c, 0 <= c < size r ->
    let x := rowCxToRx r c in
    (char_at (chars r) c <> TAB ->
       rowCxToRx r (c + 1) = x + 1 /\
       char_at (render r) x = char_at (chars r) c) /\
    (char_at (chars r) c = TAB ->
       x < rowCxToRx r (c + 1) <= x + 8 /\
       rowCxToRx r (c + 1) mod 8 = 0 /\
       forall k, x <= k < rowCxToRx r (c + 1) ->
                 char_at (render r) k = chr " ").
Proof.
  intros (_ & Hrs & Hr). split; [|split].
  - rewrite Hrs, Hr, render_loop_len. reflexivity.
  - rewrite Hr. apply render_loop_no_tab.
  - intros c Hc. cbv zeta. rewrite !rowCxToRx_width.
    replace (Z.to_nat (c + 1)) with (S (Z.to_nat c)) by lia.
    destruct (render_loop_prefix (chars r) (S (Z.to_nat c)) (Z.to_nat (size r))
                ltac:(lia)) as (suf & Hsuf).
    rewrite <- Hr in Hsuf. rewrite render_loop_step in Hsuf.
    replace (0 + Z.of_nat (Z.to_nat c)) with c in Hsuf by lia.
    pose proof (render_loop_len (chars r) (Z.to_nat c)) as Hlen.
    set (P := render_loop (chars r) (Z.to_nat c) 0 []) in *.
    rewrite width_S. replace (Z.of_nat (Z.to_nat c)) with c by lia.
    rewrite <- Hlen. split.
    + intros Hnt. destruct (render_step_other _ P Hnt) as (Hst & Hadv).
      split; [lia|]. rewrite Hsuf, Hst, <- app_assoc.
      rewrite <- (Z.add_0_r (len P)), char_at_app_r by lia. reflexivity.
    + intros Ht. rewrite Ht in *.
      destruct (render_step_tab P) as (Hst & Hk & Hadv & Hmod).
      rewrite <- Hadv. unfold TAB_STOP in *. split; [lia|]. split; [exact Hmod|].
      intros k Hk'. rewrite Hsuf, Hst, <- app_assoc.
      replace k with (len P + (k - len P)) by lia.
      rewrite char_at_app_r by lia. rewrite char_at_app_l.
      * apply char_at_repeat. lia.
      * rewrite len_repeat by lia. lia.
Qed.

Lemma count_tabs_step cs : forall n j t,
  count_tabs cs (S n) j t =
  (if Ascii.eqb (char_at cs (j + Z.of_nat n)) TAB then 1 else 0)
  + count_tabs cs n j t.
Proof.
  induction n as [|n IH]; intros j t.
  - cbn [count_tabs]. rewrite Z.add_0_r. destruct (Ascii.eqb _ _); lia.
  - change (count_tabs cs (S (S n)) j t)
      with (count_tabs cs (S n) (j + 1)
              (if Ascii.eqb (char_at cs j) TAB then t + 1 else t)).
    rewrite IH. cbn [count_tabs].
    replace (j + 1 + Z.of_nat n) with (j + Z.of_nat (S n)) by lia. reflexivity.
Qed.

Lemma render_loop_bound cs n :
  Z.of_nat n <= len (render_loop cs n 0 []) <=
  Z.of_nat n + count_tabs cs n 0 0 * (TAB_STOP - 1).
Proof.
  induction n as [|n IH].
  - cbn. lia.
  - rewrite render_loop_step, render_step_len, count_tabs_step.
    pose proof (len_nonneg (render_loop cs n 0 [])) as HL.
    set (L := len (render_loop cs n 0 [])) in *.
    unfold tab_advance. rewrite Z.rem_mod_nonneg by (unfold TAB_STOP; lia).
    pose proof (Z.mod_pos_bound L TAB_STOP ltac:(unfold TAB_STOP; lia)).
    destruct (Ascii.eqb _ _); unfold TAB_STOP in *; lia.
Qed.

(** X6.  [editorUpdateRow] never writes past the buffer it allocates: the
    rendered size of a row plus one, for the terminator, is at most the
    [size + tabs * 7 + 1] bytes allocated for it; and the rendered size is
    at least the size of the row. *)
Theorem render_fits_its_allocation (r : Row) :
  row_derived r -> 0 <= size r ->
  size r <= rsize r /\ rsize r + 1 <= render_alloc r.
Proof.
  intros (_ & Hrs & Hr) Hs. rewrite Hrs, Hr. unfold render_alloc.
  pose proof (render_loop_bound (chars r) (Z.to_nat (size r))). lia.
Qed.

(* ----------------------------------------------------------------- *)
(** ** What the editing operations do to the lines *)

Lemma same_window_frame E E' : same_frame E E' -> same_window E E'.
Proof. unfold same_frame, same_window. tauto. Qed.

Lemma same_window_refl E : same_window E E.
Proof. unfold same_window. tauto. Qed.

Lemma same_window_trans A B C :
  same_window A B -> same_window B C -> same_window A C.
Proof. unfold same_window. intuition congruence. Qed.

Lemma same_window_set_cursor E x y : same_window E (set_cursor E x y).
Proof. unfold same_window. cbn. tauto. Qed.

Lemma nth_line_nth_error ls y :
  0 <= y < len ls -> nth_error ls (Z.to_nat y) = Some (nth_line ls y).
Proof.
  intros H. unfold nth_line.
  destruct (nth_error ls (Z.to_nat y)) eqn:E; [reflexivity|].
  apply nth_error_None in E. unfold len in H. lia.
Qed.

Lemma upd_same {A} (l : list A) p x : nth_error l p = Some x -> upd l p x = l.
Proof.
  revert p. induction l as [|a l IH]; intros [|p] H; cbn in *; try discriminate.
  - inversion H. reflexivity.
  - unfold upd in *. cbn. f_equal. apply IH. exact H.
Qed.

Lemma upd_upd {A} (l : list A) p x y :
  (p < length l)%nat -> upd (upd l p x) p y = upd l p y.
Proof.
  revert p. induction l as [|a l IH]; intros [|p] H; cbn in *; try lia.
  - reflexivity.
  - unfold upd in *. cbn. f_equal. apply IH. lia.
Qed.

Lemma upd_app_last {A} (l : list A) x y :
  upd (l ++ [x]) (length l) y = l ++ [y].
Proof.
  unfold upd. rewrite firstn_app, firstn_all, Nat.sub_diag. cbn [firstn].
  rewrite app_nil_r. f_equal.
  rewrite skipn_all2 by (rewrite length_app; cbn; lia). reflexivity.
Qed.

Lemma insert_at_end {A} (l : list A) x n :
  n = length l -> firstn n l ++ x :: skipn n l = l ++ [x].
Proof. intros ->. rewrite firstn_all, skipn_all. reflexivity. Qed.

Lemma ins_char_line l x c :
  0 <= x <= len l -> ins_char l x c = line_with l x (int_to_char c).
Proof.
  intros H. unfold ins_char, line_with.
  destruct (Z.ltb_spec x 0); [lia|]. destruct (Z.gtb_spec x (len l)); [lia|].
  reflexivity.
Qed.

Lemma skipn_nth_error {A} (l : list A) n x :
  nth_error l n = Some x -> skipn n l = x :: skipn (S n) l.
Proof.
  revert n. induction l as [|a l IH]; intros [|n] H; cbn in *; try discriminate.
  - inversion H. reflexivity.
  - apply IH. exact H.
Qed.

Lemma firstn_S_nth_error {A} (l : list A) n x :
  nth_error l n = Some x -> firstn (S n) l = firstn n l ++ [x].
Proof.
  revert n. induction l as [|a l IH]; intros [|n] H; cbn in *; try discriminate.
  - inversion H. reflexivity.
  - f_equal. apply IH. exact H.
Qed.

Lemma upd_after_insert {A} (l : list A) n x t old :
  nth_error l n = Some old ->
  upd (firstn (S n) l ++ t :: skipn (S n) l) n x
  = firstn n l ++ x :: t :: skipn (S n) l.
Proof.
  intros H. assert (Hn : (n < length l)%nat) by (apply nth_error_Some; congruence).
  rewrite (firstn_S_nth_error l n old H). unfold upd.
  rewrite <- app_assoc. cbn [app].
  assert (Hlen : length (firstn n l) = n) by (rewrite length_firstn; lia).
  rewrite firstn_app, Hlen, Nat.sub_diag, firstn_all2 by lia.
  cbn [firstn]. rewrite app_nil_r. f_equal.
  rewrite skipn_app, Hlen.
  replace (S n - n)%nat with 1%nat by lia.
  rewrite skipn_all2 by lia. reflexivity.
Qed.

Lemma delete_after_upd {A} (l : list A) n x :
  (S n < length l)%nat ->
  firstn (S n) (upd l n x) ++ skipn (S (S n)) (upd l n x)
  = firstn n l ++ x :: skipn (S (S n)) l.
Proof.
  intros Hn. unfold upd.
  assert (Hlen : length (firstn n l) = n) by (rewrite length_firstn; lia).
  rewrite firstn_app, Hlen, firstn_all2 by lia.
  replace (S n - n)%nat with 1%nat by lia. cbn [firstn].
  rewrite skipn_app, Hlen, skipn_all2 by lia.
  replace (S (S n) - n)%nat with 2%nat by lia.
  change (skipn 2 (x :: skipn (S n) l)) with (skipn 1 (skipn (S n) l)).
  rewrite skipn_skipn. cbn [app Nat.add]. rewrite <- app_assoc. reflexivity.
Qed.

Lemma del_char_line l x : del_char l x = line_without l x.
Proof. reflexivity. Qed.

(* ----------------------------------------------------------------- *)
(** ** Where the arrow keys take the cursor *)

Lemma set_cursor_same E : set_cursor E (cx E) (cy E) = E.
Proof. destruct E; reflexivity. Qed.

Lemma set_cursor_twice E a b x y :
  set_cursor (set_cursor E a b) x y = set_cursor E x y.
Proof. reflexivity. Qed.

Lemma editorMoveCursor_target E key :
  ed_ok E ->
  let '(x, y) := move_target E key in
  editorMoveCursor E key
  = Ok (set_cursor E (Z.min x (len (line_at E y))) y) /\
  0 <= y <= numrows E /\ 0 <= x.
Proof.
  intros (Hb & (Hcy & Hcx) & Hv).
  pose proof (buf_ok_lines_len E Hb) as HL.
  pose proof (len_nonneg (line_at E (cy E))) as Hln.
  assert (Hfin : forall x y, 0 <= y <= numrows E -> 0 <= x ->
            (orow1 <- cursor_row (set_cursor E x y) ;;
             let rowlen := match orow1 with Some r => size r | None => 0 end in
             Ok (if cx (set_cursor E x y) >? rowlen
                 then set_cursor (set_cursor E x y) rowlen (cy (set_cursor E x y))
                 else set_cursor E x y))
            = Ok (set_cursor E (Z.min x (len (line_at E y))) y)).
  { intros x y Hy Hx.
    destruct (cursor_row_ok (set_cursor E x y) Hb Hy) as (o1 & -> & Hlen1 & _).
    cbn [bind]. change (line_at (set_cursor E x y) (cy (set_cursor E x y)))
      with (line_at E y) in Hlen1. rewrite <- Hlen1.
    cbn [cx cy set_cursor]. f_equal.
    destruct (Z.gtb_spec x (len (line_at E y))).
    - rewrite Z.min_r by lia. reflexivity.
    - rewrite Z.min_l by lia. reflexivity. }
  pose proof (Hfin (cx E) (cy E) ltac:(lia) ltac:(lia)) as Hstay.
  rewrite !set_cursor_same in Hstay.
  unfold move_target, editorMoveCursor.
  destruct (cursor_row_ok E Hb Hcy) as (o & -> & Hlen & Ho). cbn [bind].
  destruct (key =? KEY_ARROW_LEFT).
  { destruct (Z.eqb_spec (cx E) 0) as [e|ne]; cbn [negb].
    - destruct (Z.ltb_spec 0 (cx E)); [lia|].
      destruct (Z.gtb_spec (cy E) 0); destruct (Z.ltb_spec 0 (cy E)); try lia.
      + destruct (buf_ok_row E (cy E - 1) Hb) as (prev & -> & Hn & _ & (Hsz & _)); [lia|].
        cbn [bind]. rewrite Hsz, <- (line_at_row _ _ _ Hn).
        pose proof (len_nonneg (line_at E (cy E - 1))).
        split; [apply Hfin; lia|lia].
      + cbn [bind]. split; [exact Hstay|lia].
    - destruct (Z.ltb_spec 0 (cx E)); [|lia]. cbn [bind].
      split; [apply Hfin; lia|lia]. }
  destruct (key =? KEY_ARROW_RIGHT).
  { destruct o as [r|].
    - destruct (Z.ltb_spec (cy E) (numrows E)); [|lia]. rewrite <- Hlen.
      destruct (Z.ltb_spec (cx E) (len (line_at E (cy E)))).
      + cbn [bind]. split; [apply Hfin; lia|lia].
      + destruct (Z.eqb_spec (cx E) (len (line_at E (cy E)))); [|lia].
        cbn [bind]. split; [apply Hfin; lia|lia].
    - destruct (Z.ltb_spec (cy E) (numrows E)); [lia|].
      cbn [bind]. split; [exact Hstay|lia]. }
  destruct (key =? KEY_ARROW_UP).
  { destruct (Z.eqb_spec (cy E) 0); destruct (Z.ltb_spec 0 (cy E)); try lia;
      cbn [negb bind].
    - split; [exact Hstay|lia].
    - split; [apply Hfin; lia|lia]. }
  destruct (key =? KEY_ARROW_DOWN).
  { destruct (Z.ltb_spec (cy E) (numrows E)); cbn [bind].
    - split; [apply Hfin; lia|lia].
    - split; [exact Hstay|lia]. }
  cbn [bind]. split; [exact Hstay|lia].
Qed.

(* ----------------------------------------------------------------- *)
(** ** Editing and moving, and their round trips *)

Lemma line_without_with l x c :
  0 <= x <= len l -> line_without (line_with l x c) x = l.
Proof.
  intros H. unfold line_without, line_with.
  assert (Hlen : length (firstn (Z.to_nat x) l) = Z.to_nat x)
    by (rewrite length_firstn; unfold len in H; lia).
  rewrite firstn_app, Hlen, Nat.sub_diag, firstn_all2 by lia.
  cbn [firstn]. rewrite app_nil_r.
  rewrite skipn_app, Hlen, skipn_all2 by lia.
  replace (S (Z.to_nat x) - Z.to_nat x)%nat with 1%nat by lia.
  cbn [skipn app]. apply firstn_skipn.
Qed.

Lemma nth_line_split ls y x :
  0 <= y < len ls -> 0 <= x <= len (nth_line ls y) ->
  nth_line (split_line ls y x) y = firstn (Z.to_nat x) (nth_line ls y) /\
  nth_line (split_line ls y x) (y + 1) = skipn (Z.to_nat x) (nth_line ls y) /\
  join_line (split_line ls y x) (y + 1) = ls.
Proof.
  intros Hy Hx.
  assert (Hlen : length (firstn (Z.to_nat y) ls) = Z.to_nat y)
    by (rewrite length_firstn; unfold len in Hy; lia).
  assert (N0 : nth_line (split_line ls y x) y = firstn (Z.to_nat x) (nth_line ls y)).
  { unfold nth_line at 1. unfold split_line.
    rewrite nth_error_app2 by lia. rewrite Hlen, Nat.sub_diag. reflexivity. }
  assert (N1 : nth_line (split_line ls y x) (y + 1)
               = skipn (Z.to_nat x) (nth_line ls y)).
  { unfold nth_line at 1. unfold split_line.
    rewrite nth_error_app2 by lia. rewrite Hlen.
    replace (Z.to_nat (y + 1) - Z.to_nat y)%nat with 1%nat by lia. reflexivity. }
  split; [exact N0|]. split; [exact N1|].
  unfold join_line. replace (y + 1 - 1) with y by lia. rewrite N0, N1.
  rewrite firstn_skipn. unfold split_line.
  rewrite firstn_app, Hlen, Nat.sub_diag, firstn_all2 by lia.
  cbn [firstn]. rewrite app_nil_r.
  rewrite skipn_app, Hlen, skipn_all2 by lia.
  replace (S (Z.to_nat (y + 1)) - Z.to_nat y)%nat with 2%nat by lia.
  cbn [app].
  change (skipn 2 (?a :: ?b :: ?r)) with r.
  rewrite <- (skipn_nth_error ls (Z.to_nat y) (nth_line ls y))
    by (apply nth_line_nth_error; lia).
  apply firstn_skipn.
Qed.

(** X12.  The arrow keys on a consistent state change the cursor only.
    Left at column 0 goes to the end of the previous line, Right at the end
    of a line to column 0 of the next one; Up and Down keep the column but
    cut it to the length of the line reached; at the borders (Left at the
    very start, Right and Down on the line past the end, Up on line 0) the
    state stays as it is. *)
Theorem editorMoveCursor_wraps_and_snaps E key :
  ed_ok E ->
  exists E', editorMoveCursor E key = Ok E' /\ ed_ok E' /\
    E' = set_cursor E (cx E') (cy E') /\
    (key = KEY_ARROW_LEFT ->
       (0 < cx E -> cx E' = cx E - 1 /\ cy E' = cy E) /\
       (cx E = 0 -> 0 < cy E ->
          cx E' = len (line_at E (cy E - 1)) /\ cy E' = cy E - 1) /\
       (cx E = 0 -> cy E = 0 -> E' = E)) /\
    (key = KEY_ARROW_RIGHT ->
       (cx E < len (line_at E (cy E)) -> cx E' = cx E + 1 /\ cy E' = cy E) /\
       (cy E < numrows E -> cx E = len (line_at E (cy E)) ->
          cx E' = 0 /\ cy E' = cy E + 1) /\
       (cy E = numrows E -> E' = E)) /\
    (key = KEY_ARROW_UP ->
       (0 < cy E -> cy E' = cy E - 1 /\
                    cx E' = Z.min (cx E) (len (line_at E (cy E - 1)))) /\
       (cy E = 0 -> E' = E)) /\
    (key = KEY_ARROW_DOWN ->
       (cy E < numrows E -> cy E' = cy E + 1 /\
                    cx E' = Z.min (cx E) (len (line_at E (cy E + 1)))) /\
       (cy E = numrows E -> E' = E)).
Proof.
  intros HE. pose proof HE as (Hb & (Hcy & Hcx) & Hv).
  pose proof (buf_ok_lines_len E Hb) as HL.
  pose proof (editorMoveCursor_target E key HE) as HT.
  destruct (editorMoveCursor_ok E key Hb Hv Hcy (proj1 Hcx)) as (E' & HE' & Hok' & _).
  exists E'. split; [exact HE'|]. split; [exact Hok'|].
  assert (Hstay : Z.min (cx E) (len (line_at E (cy E))) = cx E) by lia.
  unfold move_target in HT.
  pose proof (len_nonneg (line_at E (cy E - 1))) as Hp.
  pose proof (len_nonneg (line_at E (cy E + 1))) as Hq.
  split; [|split; [|split; [|split]]].
  - destruct (move_target E key) as [x y] eqn:Hm. clear HT.
    pose proof (editorMoveCursor_target E key HE) as HT. rewrite Hm in HT.
    destruct HT as (HT & _). rewrite HT in HE'. inversion HE'. reflexivity.
  - intros ->. change (KEY_ARROW_LEFT =? KEY_ARROW_LEFT) with true in HT.
    cbv iota in HT.
    destruct (Z.ltb_spec 0 (cx E)); [|destruct (Z.ltb_spec 0 (cy E))];
      destruct HT as (HT & _); rewrite HT in HE'; inversion HE'; subst E';
      cbn [cx cy set_cursor].
    + split; [intros _; lia|]. split; intros; lia.
    + split; [intros; lia|]. split; [intros _ _; lia|intros; lia].
    + split; [intros; lia|]. split; [intros; lia|]. intros _ _.
      rewrite Hstay. apply set_cursor_same.
  - intros ->. change (KEY_ARROW_RIGHT =? KEY_ARROW_LEFT) with false in HT.
    change (KEY_ARROW_RIGHT =? KEY_ARROW_RIGHT) with true in HT. cbv iota in HT.
    destruct (Z.ltb_spec (cy E) (numrows E));
      [destruct (Z.ltb_spec (cx E) (len (line_at E (cy E))))|];
      destruct HT as (HT & _); rewrite HT in HE'; inversion HE'; subst E';
      cbn [cx cy set_cursor].
    + split; [intros _; lia|]. split; intros; lia.
    + split; [intros; lia|]. split; [intros _ _; lia|intros; lia].
    + split; [intros Hlt|split; [intros; lia|]].
      * unfold line_at in Hlt. rewrite nth_line_out in Hlt by lia.
        unfold line_at in Hcx. rewrite nth_line_out in Hcx by lia.
        change (len (@nil ascii)) with 0 in *. lia.
      * intros _. rewrite Hstay. apply set_cursor_same.
  - intros ->. change (KEY_ARROW_UP =? KEY_ARROW_LEFT) with false in HT.
    change (KEY_ARROW_UP =? KEY_ARROW_RIGHT) with false in HT.
    change (KEY_ARROW_UP =? KEY_ARROW_UP) with true in HT. cbv iota in HT.
    destruct (Z.ltb_spec 0 (cy E));
      destruct HT as (HT & _); rewrite HT in HE'; inversion HE'; subst E';
      cbn [cx cy set_cursor].
    + split; [intros _; split; reflexivity|intros; lia].
    + split; [intros; lia|]. intros _. rewrite Hstay. apply set_cursor_same.
  - intros ->. change (KEY_ARROW_DOWN =? KEY_ARROW_LEFT) with false in HT.
    change (KEY_ARROW_DOWN =? KEY_ARROW_RIGHT) with false in HT.
    change (KEY_ARROW_DOWN =? KEY_ARROW_UP) with false in HT.
    change (KEY_ARROW_DOWN =? KEY_ARROW_DOWN) with true in HT. cbv iota in HT.
    destruct (Z.ltb_spec (cy E) (numrows E));
      destruct HT as (HT & _); rewrite HT in HE'; inversion HE'; subst E';
      cbn [cx cy set_cursor].
    + split; [intros _; split; reflexivity|intros; lia].
    + split; [intros; lia|]. intros _. rewrite Hstay. apply set_cursor_same.
Qed.

Lemma move_right E :
  ed_ok E -> cy E < numrows E ->
  editorMoveCursor E KEY_ARROW_RIGHT
  = Ok (if cx E <? len (line_at E (cy E))
        then set_cursor E (cx E + 1) (cy E)
        else set_cursor E 0 (cy E + 1)).
Proof.
  intros HE Hlt. pose proof HE as (Hb & (Hcy & Hcx) & Hv).
  pose proof (editorMoveCursor_target E KEY_ARROW_RIGHT HE) as HT.
  unfold move_target in HT.
  change (KEY_ARROW_RIGHT =? KEY_ARROW_LEFT) with false in HT.
  change (KEY_ARROW_RIGHT =? KEY_ARROW_RIGHT) with true in HT. cbv iota in HT.
  destruct (Z.ltb_spec (cy E) (numrows E)); [|lia].
  pose proof (len_nonneg (line_at E (cy E + 1))).
  destruct (Z.ltb_spec (cx E) (len (line_at E (cy E))));
    destruct HT as (HT & _); rewrite HT; rewrite Z.min_l by lia; reflexivity.
Qed.

Lemma move_left E :
  ed_ok E ->
  editorMoveCursor E KEY_ARROW_LEFT
  = Ok (if 0 <? cx E then set_cursor E (cx E - 1) (cy E)
        else if 0 <? cy E
             then set_cursor E (len (line_at E (cy E - 1))) (cy E - 1)
             else E).
Proof.
  intros HE. pose proof HE as (Hb & (Hcy & Hcx) & Hv).
  pose proof (editorMoveCursor_target E KEY_ARROW_LEFT HE) as HT.
  unfold move_target in HT.
  change (KEY_ARROW_LEFT =? KEY_ARROW_LEFT) with true in HT. cbv iota in HT.
  destruct (Z.ltb_spec 0 (cx E)); [|destruct (Z.ltb_spec 0 (cy E))];
    destruct HT as (HT & _); rewrite HT.
  - rewrite Z.min_l by lia. reflexivity.
  - rewrite Z.min_id. reflexivity.
  - rewrite Z.min_l by lia. rewrite set_cursor_same. reflexivity.
Qed.

Lemma ed_ok_of_move E key E1 :
  ed_ok E -> editorMoveCursor E key = Ok E1 -> ed_ok E1.
Proof.
  intros HE H. pose proof HE as (Hb & (Hcy & Hcx) & Hv).
  destruct (editorMoveCursor_ok E key Hb Hv Hcy (proj1 Hcx)) as (E' & HE' & Hok' & _).
  congruence.
Qed.

(** X13.  Right and then Left brings the cursor back, wherever it is on a
    line of the buffer; Left and then Right brings it back from everywhere
    but the very start of the buffer. *)
Theorem arrow_left_right_round_trip E :
  ed_ok E ->
  (cy E < numrows E ->
   exists E1, editorMoveCursor E KEY_ARROW_RIGHT = Ok E1 /\
              editorMoveCursor E1 KEY_ARROW_LEFT = Ok E) /\
  (0 < cx E \/ 0 < cy E ->
   exists E1, editorMoveCursor E KEY_ARROW_LEFT = Ok E1 /\
              editorMoveCursor E1 KEY_ARROW_RIGHT = Ok E).
Proof.
  intros HE. pose proof HE as (Hb & (Hcy & Hcx) & Hv).
  pose proof (buf_ok_lines_len E Hb) as HL.
  pose proof (len_nonneg (line_at E (cy E - 1))) as Hp.
  split.
  - intros Hlt. eexists. split; [apply move_right; assumption|].
    pose proof (move_right E HE Hlt) as HR.
    destruct (Z.ltb_spec (cx E) (len (line_at E (cy E)))).
    + rewrite move_left by (eapply ed_ok_of_move; eassumption).
      cbn [cx cy set_cursor]. destruct (Z.ltb_spec 0 (cx E + 1)); [|lia].
      replace (cx E + 1 - 1) with (cx E) by lia.
      rewrite set_cursor_twice, set_cursor_same. reflexivity.
    + rewrite move_left by (eapply ed_ok_of_move; eassumption).
      cbn [cx cy set_cursor]. destruct (Z.ltb_spec 0 0); [lia|].
      destruct (Z.ltb_spec 0 (cy E + 1)); [|lia].
      replace (cy E + 1 - 1) with (cy E) by lia.
      change (line_at (set_cursor E 0 (cy E + 1)) (cy E)) with (line_at E (cy E)).
      rewrite set_cursor_twice.
      replace (len (line_at E (cy E))) with (cx E) by lia.
      rewrite set_cursor_same. reflexivity.
  - intros Hnz. eexists. split; [apply move_left; assumption|].
    pose proof (move_left E HE) as HLft.
    destruct (Z.ltb_spec 0 (cx E)); [|destruct (Z.ltb_spec 0 (cy E)); [|lia]].
    + assert (Hlt : cy E < numrows E).
      { destruct (Z.eq_dec (cy E) (numrows E)) as [e|]; [|lia].
        unfold line_at in Hcx. rewrite nth_line_out in Hcx by lia.
        change (len (@nil ascii)) with 0 in Hcx. lia. }
      rewrite move_right; [|eapply ed_ok_of_move; eassumption|exact Hlt].
      cbn [cx cy set_cursor].
      change (line_at (set_cursor E (cx E - 1) (cy E)) (cy E)) with (line_at E (cy E)).
      destruct (Z.ltb_spec (cx E - 1) (len (line_at E (cy E)))); [|lia].
      replace (cx E - 1 + 1) with (cx E) by lia.
      rewrite set_cursor_twice, set_cursor_same. reflexivity.
    + rewrite move_right; [|eapply ed_ok_of_move; eassumption|cbn; lia].
      cbn [cx cy set_cursor].
      change (line_at (set_cursor E ?a ?b) ?c) with (line_at E c).
      destruct (Z.ltb_spec (len (line_at E (cy E - 1))) (len (line_at E (cy E - 1))));
        [lia|].
      replace (cy E - 1 + 1) with (cy E) by lia.
      rewrite set_cursor_twice.
      replace 0 with (cx E) by lia. rewrite set_cursor_same. reflexivity.
Qed.

(* ----------------------------------------------------------------- *)
(** ** What leaves the window alone *)

Ltac inv_bind H :=
  match type of H with
  | bind ?m _ = Ok _ =>
      let x := fresh "x" in
      let Hx := fresh "Hx" in
      destruct m as [x| | | |] eqn:Hx; cbn [bind] in H; [|discriminate H..]
  end.

Lemma same_view_refl E : same_view E E.
Proof. unfold same_view. tauto. Qed.

Lemma same_view_trans A B C : same_view A B -> same_view B C -> same_view A C.
Proof. unfold same_view. intuition congruence. Qed.

Lemma same_view_frame E E' : same_frame E E' -> same_view E E'.
Proof. unfold same_frame, same_view. tauto. Qed.

Lemma same_view_window E E' : same_window E E' -> same_view E E'.
Proof. unfold same_window, same_view. tauto. Qed.

Lemma same_view_sim E E' : ed_sim E E' -> same_view E E'.
Proof. unfold ed_sim, same_view. tauto. Qed.

Ltac view_fields :=
  unfold same_view, set_row, set_rows, set_cursor, set_dirty, set_numrows,
    set_filename, set_syntax;
  cbn [rowoff coloff screenrows screencols syntax]; tauto.

Lemma editorDelRow_view E at_ E' :
  editorDelRow E at_ = Ok E' -> same_view E E'.
Proof.
  unfold editorDelRow. intros H.
  destruct (_ || _); inversion H; view_fields.
Qed.

Lemma editorMoveCursor_view E key E' :
  editorMoveCursor E key = Ok E' -> same_view E E'.
Proof.
  unfold editorMoveCursor. intros H. inv_bind H. inv_bind H. inv_bind H.
  cbv zeta in H.
  assert (Hv : same_view E x0).
  { repeat match type of Hx0 with
           | (if ?b then _ else _) = _ => destruct b
           | match ?o with Some _ => _ | None => _ end = _ => destruct o
           | bind _ _ = _ => inv_bind Hx0
           end; inversion Hx0; view_fields. }
  match type of H with Ok (if ?b then _ else _) = _ => destruct b end;
    inversion H; subst E'; (eapply same_view_trans; [exact Hv|]); view_fields.
Qed.

Lemma move_times_view n : forall E key E',
  move_times n E key = Ok E' -> same_view E E'.
Proof.
  induction n as [|n IH]; intros E key E' H; cbn [move_times] in H.
  - inversion H. apply same_view_refl.
  - inv_bind H. apply editorMoveCursor_view in Hx. apply IH in H.
    eapply same_view_trans; eassumption.
Qed.

Lemma same_cols_refl E : same_cols E E.
Proof. unfold same_cols. tauto. Qed.

Lemma same_cols_trans A B C : same_cols A B -> same_cols B C -> same_cols A C.
Proof. unfold same_cols. intuition congruence. Qed.

Lemma same_cols_view E E' : same_view E E' -> same_cols E E'.
Proof. unfold same_view, same_cols. tauto. Qed.

Lemma window_ok_cols rows cols E E' :
  same_cols E E' -> window_ok rows cols E -> window_ok rows cols E'.
Proof. unfold same_cols, window_ok. intros (-> & -> & -> & ->). tauto. Qed.

Ltac cols_fields :=
  unfold same_cols, set_row, set_rows, set_cursor, set_view, set_dirty,
    set_numrows, set_filename, set_syntax;
  cbn [ed coloff screenrows screencols syntax]; tauto.

Lemma find_restore_cols w w' :
  find_restore w = Ok w' -> same_cols (ed w) (ed w').
Proof.
  unfold find_restore. intros H. destruct (saved_hl (find w)).
  - inv_bind H. destruct (_ && _); [|discriminate]. inversion H. cols_fields.
  - inversion H. apply same_cols_refl.
Qed.

Lemma find_loop_cols query : forall n w current w',
  find_loop n query w current = Ok w' -> same_cols (ed w) (ed w').
Proof.
  induction n as [|n IH]; intros w current w' H; cbn [find_loop] in H.
  - inversion H. apply same_cols_refl.
  - cbv zeta in H. inv_bind H. destruct (strstr _ _).
    + inv_bind H. inv_bind H. inversion H. cols_fields.
    + apply IH in H. exact H.
Qed.

Lemma editorFindCallback_cols query key w w' :
  editorFindCallback query key w = Ok w' -> same_cols (ed w) (ed w').
Proof.
  unfold editorFindCallback. intros H. inv_bind H. cbv zeta in H.
  apply find_restore_cols in Hx.
  destruct (_ || _).
  - inversion H. exact Hx.
  - apply find_loop_cols in H. eapply same_cols_trans; [exact Hx|exact H].
Qed.

(* ----------------------------------------------------------------- *)
(** ** Flattening and loading *)

Lemma In_firstn {A} (x : A) n l : In x (firstn n l) -> In x l.
Proof.
  intros H. rewrite <- (firstn_skipn n l). apply in_or_app. left. exact H.
Qed.

Lemma last_app_nonempty {A} (a b : list A) d :
  b <> [] -> last (a ++ b) d = last b d.
Proof.
  intros Hb. destruct (exists_last Hb) as (b' & x & ->).
  rewrite app_assoc, !last_last. reflexivity.
Qed.

Lemma rows_total rows : forall tot,
  (forall r, In r rows -> size r = len (chars r)) ->
  fold_left (fun tot r => tot + (size r + 1)) rows tot
  = tot + len (flat_map (fun r => firstn (Z.to_nat (size r)) (chars r) ++ [LF]) rows).
Proof.
  induction rows as [|r rows IH]; intros tot H; cbn [fold_left flat_map].
  - change (len (@nil ascii)) with 0. lia.
  - rewrite IH by (intros; apply H; right; assumption).
    rewrite !len_app. change (len [LF]) with 1.
    pose proof (H r (or_introl eq_refl)) as Hr.
    rewrite len_firstn by (pose proof (len_nonneg (chars r)); lia). lia.
Qed.

Lemma len_join_lines ls :
  len (join_lines ls) = fold_right (fun l tot => len l + 1 + tot) 0 ls.
Proof.
  unfold join_lines.
  induction ls as [|l ls IH]; cbn [flat_map fold_right]; [reflexivity|].
  rewrite !len_app, IH. change (len [LF]) with 1. lia.
Qed.

(** X14.  [editorRowsToString] on a consistent buffer returns every line
    followed by one newline, in order, and the length it reports through
    [buflen] is the length of that buffer: the sum of the line sizes plus
    one per line. *)
Theorem editorRowsToString_length_and_content E :
  buf_ok E ->
  fst (editorRowsToString E) = join_lines (lines E) /\
  snd (editorRowsToString E) = len (fst (editorRowsToString E)) /\
  snd (editorRowsToString E)
  = fold_right (fun l tot => len l + 1 + tot) 0 (lines E).
Proof.
  intros Hb. pose proof (editorRowsToString_lines E Hb) as Hl.
  split; [exact Hl|].
  assert (Hlen : snd (editorRowsToString E) = len (fst (editorRowsToString E))).
  { destruct Hb as (_ & Hn & Hok). unfold editorRowsToString. cbn [fst snd].
    rewrite rows_total; [lia|].
    intros r Hr. apply In_firstn in Hr. apply In_nth_error in Hr as [j Hj].
    destruct (Hok _ _ Hj) as [_ (Hs & _)]. exact Hs. }
  split; [exact Hlen|]. rewrite Hlen, Hl. apply len_join_lines.
Qed.

Lemma strip_id l : noLF l -> no_trailing_CR l -> strip l = l.
Proof.
  intros Hl Hcr. unfold strip.
  destruct l as [|x t] using rev_ind; [reflexivity|]. clear IHt.
  rewrite length_app. cbn [length]. rewrite Nat.add_1_r. cbn [strip_len].
  rewrite nth_middle. unfold no_trailing_CR in Hcr. rewrite last_last in Hcr.
  apply Forall_app in Hl as [_ Hx]. inversion Hx as [|? ? Hx' _]; subst.
  destruct (Ascii.eqb_spec x LF); [contradiction|].
  destruct (Ascii.eqb_spec x CR); [contradiction|]. cbn [orb].
  apply firstn_all2. rewrite length_app. cbn [length]. lia.
Qed.

Lemma no_CR_no_trailing l : ~ In CR l -> no_trailing_CR l.
Proof.
  intros H. unfold no_trailing_CR.
  destruct l as [|x t] using rev_ind; [cbn; discriminate|].
  rewrite last_last. intros ->. apply H. apply in_or_app. right. left. reflexivity.
Qed.

Lemma with_final_newline_LF a rest :
  with_final_newline (a ++ LF :: rest) = a ++ LF :: with_final_newline rest.
Proof.
  unfold with_final_newline.
  destruct (a ++ LF :: rest) as [|y t] eqn:Hy; [destruct a; discriminate|].
  rewrite <- Hy. clear Hy y t.
  destruct rest as [|z rest'].
  - change (a ++ [LF]) with (a ++ [LF]). rewrite last_last, Ascii.eqb_refl.
    reflexivity.
  - assert (Hlast : last (a ++ LF :: z :: rest') NUL = last (z :: rest') NUL).
    { change (a ++ LF :: z :: rest') with (a ++ [LF] ++ (z :: rest')).
      rewrite app_assoc. apply last_app_nonempty. discriminate. }
    rewrite Hlast. destruct (Ascii.eqb _ _); [reflexivity|].
    rewrite <- app_assoc. reflexivity.
Qed.

Lemma flatten_loaded data : forall cur,
  noLF cur -> ~ In CR cur -> ~ In CR data ->
  join_lines (map strip (getlines data cur)) = with_final_newline (cur ++ data).
Proof.
  induction data as [|c data IH]; intros cur Hlf Hcr Hd; cbn [getlines].
  - rewrite app_nil_r. destruct cur as [|x t]; [reflexivity|].
    cbn [map join_lines flat_map]. rewrite app_nil_r.
    rewrite strip_id by (auto using no_CR_no_trailing).
    unfold with_final_newline.
    destruct (Ascii.eqb_spec (last (x :: t) NUL) LF) as [e|]; [|reflexivity].
    exfalso. assert (Hin : In (last (x :: t) NUL) (x :: t)).
    { destruct (exists_last (l := x :: t) ltac:(discriminate)) as (l' & a & ->).
      rewrite last_last. apply in_or_app. right. left. reflexivity. }
    rewrite e in Hin. unfold noLF in Hlf. rewrite Forall_forall in Hlf.
    exact (Hlf _ Hin eq_refl).
  - destruct (Ascii.eqb_spec c LF) as [->|Hne].
    + cbn [map join_lines flat_map]. fold (join_lines (map strip (getlines data []))).
      rewrite strip_line by (auto using no_CR_no_trailing).
      rewrite (IH []); [|constructor|intros []|intros H; apply Hd; right; exact H].
      cbn [app]. rewrite with_final_newline_LF, <- app_assoc. reflexivity.
    + rewrite (IH (cur ++ [c])).
      * rewrite <- app_assoc. reflexivity.
      * apply noLF_app; [exact Hlf|]. constructor; [exact Hne|constructor].
      * intros H. apply in_app_or in H as [H|[H|[]]]; [auto|].
        apply Hd. left. exact H.
      * intros H. apply Hd. right. exact H.
Qed.

Lemma count_lines data : forall cur,
  noLF cur ->
  len (getlines data cur)
  = Z.of_nat (count_occ ascii_dec data LF)
    + match cur ++ data with
      | [] => 0
      | _ :: _ => if Ascii.eqb (last (cur ++ data) NUL) LF then 0 else 1
      end.
Proof.
  induction data as [|c data IH]; intros cur Hlf; cbn [getlines].
  - rewrite app_nil_r. destruct cur as [|x t]; [reflexivity|].
    destruct (Ascii.eqb_spec (last (x :: t) NUL) LF) as [e|]; [|reflexivity].
    exfalso. assert (Hin : In (last (x :: t) NUL) (x :: t)).
    { destruct (exists_last (l := x :: t) ltac:(discriminate)) as (l' & a & ->).
      rewrite last_last. apply in_or_app. right. left. reflexivity. }
    rewrite e in Hin. unfold noLF in Hlf. rewrite Forall_forall in Hlf.
    exact (Hlf _ Hin eq_refl).
  - destruct (Ascii.eqb_spec c LF) as [->|Hne].
    + rewrite len_cons, (IH []) by constructor. cbn [app].
      rewrite count_occ_cons_eq by reflexivity.
      destruct (cur ++ LF :: data) as [|y t] eqn:Hy; [destruct cur; discriminate|].
      rewrite <- Hy. clear Hy y t.
      destruct data as [|z data'].
      * rewrite last_last, Ascii.eqb_refl. cbn. lia.
      * assert (Hlast : last (cur ++ LF :: z :: data') NUL = last (z :: data') NUL).
        { change (cur ++ LF :: z :: data') with (cur ++ [LF] ++ (z :: data')).
          rewrite app_assoc. apply last_app_nonempty. discriminate. }
        rewrite Hlast. lia.
    + rewrite (IH (cur ++ [c])).
      * rewrite count_occ_cons_neq by congruence.
        rewrite <- app_assoc. reflexivity.
      * apply noLF_app; [exact Hlf|]. constructor; [exact Hne|constructor].
Qed.

Lemma initEditor_lines rows cols : lines (ed (initEditor rows cols)) = [].
Proof. reflexivity. Qed.

(* ----------------------------------------------------------------- *)
(** ** The cursor is inside the window whenever the editor waits *)

Lemma pass_bind {A B} (W : World -> Prop) (Q : A -> Prop) (R : B -> Prop)
  (m : Res A) (k : A -> Res B) :
  pass W Q m -> (forall a, m = Ok a -> Q a -> pass W R (k a)) ->
  pass W R (bind m k).
Proof. destruct m; cbn; auto. Qed.

Lemma safe_Ok {A} (P : A -> Prop) m a : safe P m -> m = Ok a -> P a.
Proof. intros H ->. exact H. Qed.

Lemma editorScroll_shown rows cols E :
  ed_ok E -> window_ok rows cols E -> 1 <= cols ->
  exists E', editorScroll E = Ok E' /\ ed_ok E' /\ window_ok rows cols E' /\
    in_view E' /\ rx E' = cursor_rx E' /\
    row E' = row E /\ numrows E' = numrows E /\ rowoff E' <= cy E'.
Proof.
  intros HE (Hsr & Hsc & Hco & Hsy) Hc.
  destruct (editorScroll_ok E HE) as (E' & H & HE' & Hrc & _ & Hn & _).
  destruct (editorScroll_into_view E HE Hco ltac:(lia))
    as (E2 & H2 & Hv & Hrx & Hx & Hy & Hr & _ & _ & Hco' & _).
  rewrite H in H2. inversion H2; subst E2.
  exists E'. split; [exact H|]. split; [exact HE'|].
  assert (Hs : screenrows E' = screenrows E /\ screencols E' = screencols E /\
               syntax E' = syntax E).
  { unfold editorScroll in H. inv_bind H. inversion H. cbn. auto. }
  split; [unfold window_ok; destruct Hs as (-> & -> & ->); auto|].
  split; [exact Hv|]. split.
  - rewrite Hrx. unfold cursor_rx. rewrite Hr, Hx, Hy. reflexivity.
  - auto.
Qed.

Section PromptShown.
Variable cb : option Callback.
Variable Inv : World -> Prop.
Variables rows cols : Z.
Hypothesis Hcols : 1 <= cols.
Hypothesis Inv_good : forall w, Inv w -> good w.
Hypothesis Inv_scroll : forall w E,
  Inv w -> ed_ok E -> row E = row (ed w) -> numrows E = numrows (ed w) ->
  Inv (with_ed w E).
Hypothesis cb_ok : forall buf key w,
  Inv w ->
  exists w', call cb buf key w = Ok w' /\ Inv w' /\
    same_cols (ed w) (ed w').

Lemma editorPrompt_shown : forall keys buf w,
  Inv w -> window_ok rows cols (ed w) ->
  pass (shown rows cols)
       (fun '(ans, w', keys') => window_ok rows cols (ed w'))
       (editorPrompt cb keys buf w).
Proof.
  induction keys as [|c rest IH]; intros buf w HI HW; cbn [editorPrompt];
    unfold editorRefreshScreen;
    destruct (Inv_good w HI) as [HE Hf];
    destruct (editorScroll_shown rows cols (ed w) HE HW Hcols)
      as (E1 & -> & HE1 & HW1 & Hv1 & Hrx1 & Hr1 & Hn1 & _);
    cbn [bind];
    assert (HI1 : Inv (with_ed w E1)) by (apply Inv_scroll; auto).
  - cbn. split; [exact HW1|]. split; assumption.
  - assert (Hcall : forall b, exists w2, call cb b c (with_ed w E1) = Ok w2 /\
              Inv w2 /\ window_ok rows cols (ed w2)).
    { intros b. destruct (cb_ok b c _ HI1) as (w2 & H2 & HI2 & Hc2).
      exists w2. split; [exact H2|]. split; [exact HI2|].
      eapply window_ok_cols; [exact Hc2|exact HW1]. }
    destruct (_ || _).
    + match goal with |- context [call cb ?b c _] =>
        destruct (Hcall b) as (w2 & -> & HI2 & HW2) end.
      cbn [bind]. apply IH; auto.
    + destruct (c =? KEY_ESC).
      * destruct (Hcall buf) as (w2 & -> & HI2 & HW2). cbn. exact HW2.
      * destruct (c =? KEY_ENTER).
        -- destruct (Hcall buf) as (w2 & Hw2 & HI2 & HW2).
           destruct buf; rewrite Hw2; cbn [bind pass].
           ++ apply IH; auto.
           ++ exact HW2.
        -- destruct (_ && _).
           ++ match goal with |- context [call cb ?b c _] =>
                destruct (Hcall b) as (w2 & -> & HI2 & HW2) end.
              cbn [bind]. apply IH; auto.
           ++ destruct (Hcall buf) as (w2 & -> & HI2 & HW2).
              cbn [bind]. apply IH; auto.
Qed.
End PromptShown.

Lemma editorPrompt_none_shown rows cols keys buf w :
  1 <= cols -> normal w -> window_ok rows cols (ed w) ->
  pass (shown rows cols)
       (fun '(ans, w', keys') => window_ok rows cols (ed w'))
       (editorPrompt None keys buf w).
Proof.
  intros Hc. apply (editorPrompt_shown None normal rows cols Hc).
  - apply normal_good.
  - intros w0 E [H1 H2] HE _ _. split; auto.
  - intros b key w0 H. exists w0. split; [reflexivity|]. split; [auto|].
    apply same_cols_refl.
Qed.

Lemma editorPrompt_find_shown rows cols keys buf w :
  1 <= cols -> good w -> window_ok rows cols (ed w) ->
  pass (shown rows cols)
       (fun '(ans, w', keys') => window_ok rows cols (ed w'))
       (editorPrompt (Some editorFindCallback) keys buf w).
Proof.
  intros Hc. apply (editorPrompt_shown (Some editorFindCallback) good rows cols Hc).
  - auto.
  - intros w0 E [H1 H2] HE Hr Hn. split; [exact HE|].
    apply find_ok_with_ed; auto.
  - intros b key w0 [H1 H2]. cbn [call].
    destruct (editorFindCallback_ok b key w0 H1 H2) as (w' & Hw & A & B & _).
    exists w'. split; [exact Hw|]. split; [split; auto|].
    eapply editorFindCallback_cols; exact Hw.
Qed.

Lemma editorFind_shown rows cols keys w :
  1 <= cols -> normal w -> window_ok rows cols (ed w) ->
  pass (shown rows cols)
       (fun '(w', _) => window_ok rows cols (ed w'))
       (editorFind keys w).
Proof.
  intros Hc HN HW. unfold editorFind.
  eapply pass_bind;
    [apply editorPrompt_find_shown; [assumption|apply normal_good; exact HN|exact HW]|].
  intros [[query w1] keys1] _ HW1. destruct query; cbn [pass]; [exact HW1|].
  destruct HW as (A & B & C & D). destruct HW1 as (A1 & B1 & C1 & D1).
  unfold window_ok. cbn. auto.
Qed.

(* ----------------------------------------------------------------- *)
(** ** The prompt and the key reader *)

Lemma printable_key c :
  printable c ->
  let k := char_to_int c in
  k = uchar c /\ int_to_char k = c /\ iscntrl k = false /\ k < 128 /\
  k <> KEY_ESC /\ k <> KEY_ENTER /\ k <> KEY_DEL /\ k <> CTRL_KEY "h" /\
  k <> KEY_BACKSPACE.
Proof.
  unfold printable. intros H. cbv zeta.
  assert (Hk : char_to_int c = uchar c).
  { unfold char_to_int. destruct (Z.ltb_spec (uchar c) 128); lia. }
  rewrite Hk. split; [reflexivity|]. split.
  - unfold int_to_char, uchar. rewrite Z.mod_small by (unfold uchar in H; lia).
    rewrite N2Z.id. apply ascii_N_embedding.
  - unfold iscntrl, KEY_ESC, KEY_ENTER, KEY_DEL, KEY_BACKSPACE.
    change (CTRL_KEY "h") with 8.
    split; [|lia].
    destruct (Z.leb_spec 0 (uchar c)); destruct (Z.ltb_spec (uchar c) 32);
      destruct (Z.eqb_spec (uchar c) 127); cbn; try reflexivity; lia.
Qed.

Lemma same_buffer_refl E : same_buffer E E.
Proof. unfold same_buffer. tauto. Qed.

Lemma same_buffer_trans A B C :
  same_buffer A B -> same_buffer B C -> same_buffer A C.
Proof. unfold same_buffer. intuition congruence. Qed.

Lemma ed_ok_same_buffer E E' :
  ed_ok E -> same_buffer E E' -> 0 <= rowoff E' -> 1 <= screenrows E' ->
  ed_ok E'.
Proof.
  intros (Hb & Hc & Hv) (Hx & Hy & Hr & Hn & _ & _ & Hs) H1 H2.
  unfold ed_ok, buf_ok, syntax_ok, cursor_ok, view_ok, line_at, lines in *.
  rewrite Hx, Hy, Hr, Hn, Hs. tauto.
Qed.

Lemma editorScroll_same_buffer E :
  ed_ok E -> exists E', editorScroll E = Ok E' /\ ed_ok E' /\ same_buffer E E'.
Proof.
  intros HE. destruct (editorScroll_ok E HE)
    as (E' & H & HE' & _ & _ & Hn & Hx & Hy & Hd & Hf & Hr).
  exists E'. split; [exact H|]. split; [exact HE'|].
  unfold editorScroll in H. inv_bind H. inversion H.
  unfold same_buffer. cbn. tauto.
Qed.

(** The prompt without a callback takes text: each printable byte is
    appended to the answer. *)
Lemma editorPrompt_types : forall s buf w rest,
  ed_ok (ed w) -> Forall printable s ->
  exists w1, ed_ok (ed w1) /\ same_buffer (ed w) (ed w1) /\
    quit_times w1 = quit_times w /\ find w1 = find w /\
    editorPrompt None (map char_to_int s ++ rest) buf w
    = editorPrompt None rest (buf ++ s) w1.
Proof.
  induction s as [|c s IH]; intros buf w rest HE Hs.
  - exists w. rewrite app_nil_r. cbn [map app].
    split; [exact HE|]. split; [apply same_buffer_refl|]. auto.
  - inversion Hs as [|? ? Hc Hs']; subst.
    destruct (printable_key c Hc) as (_ & Hi & Hctl & Hlt & N1 & N2 & N3 & N4 & N5).
    destruct (editorScroll_same_buffer (ed w) HE) as (E1 & H1 & HE1 & Hb1).
    destruct (IH (buf ++ [c]) (with_ed w E1) rest HE1 Hs')
      as (w1 & Hw1 & Hb & Hq & Hf & Heq).
    exists w1. split; [exact Hw1|].
    split; [eapply same_buffer_trans; [exact Hb1|exact Hb]|].
    split; [exact Hq|]. split; [exact Hf|].
    cbn [map app editorPrompt]. unfold editorRefreshScreen. rewrite H1.
    cbn [bind].
    destruct (Z.eqb_spec (char_to_int c) KEY_DEL); [contradiction|].
    destruct (Z.eqb_spec (char_to_int c) (CTRL_KEY "h")); [contradiction|].
    destruct (Z.eqb_spec (char_to_int c) KEY_BACKSPACE); [contradiction|].
    cbn [orb].
    destruct (Z.eqb_spec (char_to_int c) KEY_ESC); [contradiction|].
    destruct (Z.eqb_spec (char_to_int c) KEY_ENTER); [contradiction|].
    rewrite Hctl. destruct (Z.ltb_spec (char_to_int c) 128); [|lia].
    cbn [negb andb call bind]. rewrite Hi, <- app_assoc in *. exact Heq.
Qed.

(** Each backspace takes the last byte of the answer away. *)
Lemma editorPrompt_erases : forall n buf w rest,
  ed_ok (ed w) ->
  exists w1, ed_ok (ed w1) /\ same_buffer (ed w) (ed w1) /\
    quit_times w1 = quit_times w /\ find w1 = find w /\
    editorPrompt None (repeat KEY_BACKSPACE n ++ rest) buf w
    = editorPrompt None rest (firstn (length buf - n) buf) w1.
Proof.
  induction n as [|n IH]; intros buf w rest HE.
  - exists w. rewrite Nat.sub_0_r, firstn_all. cbn [repeat app].
    split; [exact HE|]. split; [apply same_buffer_refl|]. auto.
  - destruct (editorScroll_same_buffer (ed w) HE) as (E1 & H1 & HE1 & Hb1).
    set (buf1 := match buf with [] => buf | _ :: _ => removelast buf end).
    destruct (IH buf1 (with_ed w E1) rest HE1) as (w1 & Hw1 & Hb & Hq & Hf & Heq).
    exists w1. split; [exact Hw1|].
    split; [eapply same_buffer_trans; [exact Hb1|exact Hb]|].
    split; [exact Hq|]. split; [exact Hf|].
    cbn [repeat app editorPrompt]. unfold editorRefreshScreen. rewrite H1.
    cbn [bind]. change (KEY_BACKSPACE =? KEY_DEL) with false.
    change (KEY_BACKSPACE =? CTRL_KEY "h") with false.
    change (KEY_BACKSPACE =? KEY_BACKSPACE) with true.
    cbn [orb call bind]. fold buf1. rewrite Heq. f_equal.
    unfold buf1. destruct buf as [|x t]; [destruct n; reflexivity|].
    rewrite removelast_firstn_len.
    rewrite firstn_firstn, length_firstn. f_equal. cbn [length]. lia.
Qed.

(** X17.  The prompt without a callback, on a consistent state: the
    printable bytes typed, less the ones taken back by as many backspaces,
    are the answer that Enter returns; ESC returns no answer, whatever was
    typed.  The keys after the closing key are left for the caller, and
    cursor, rows and modification counter are what they were. *)
Theorem editorPrompt_returns_what_was_typed s n rest w :
  ed_ok (ed w) -> Forall printable s ->
  (exists w', same_buffer (ed w) (ed w') /\
     editorPrompt None
       (map char_to_int s ++ repeat KEY_BACKSPACE n ++ KEY_ESC :: rest) [] w
     = Ok (None, w', rest)) /\
  ((n < length s)%nat ->
   exists w', same_buffer (ed w) (ed w') /\
     editorPrompt None
       (map char_to_int s ++ repeat KEY_BACKSPACE n ++ KEY_ENTER :: rest) [] w
     = Ok (Some (firstn (length s - n) s), w', rest)).
Proof.
  intros HE Hs.
  assert (Hgen : forall last,
            exists w2 E3, ed_ok (ed w2) /\ same_buffer (ed w) (ed w2) /\
              editorScroll (ed w2) = Ok E3 /\ same_buffer (ed w2) E3 /\
              editorPrompt None
                (map char_to_int s ++ repeat KEY_BACKSPACE n ++ last :: rest) [] w
              = editorPrompt None (last :: rest) (firstn (length s - n) s) w2).
  { intros last.
    destruct (editorPrompt_types s [] w (repeat KEY_BACKSPACE n ++ last :: rest)
                HE Hs) as (w1 & Hw1 & Hb1 & _ & _ & Heq1).
    destruct (editorPrompt_erases n ([] ++ s) w1 (last :: rest) Hw1)
      as (w2 & Hw2 & Hb2 & _ & _ & Heq2).
    destruct (editorScroll_same_buffer (ed w2) Hw2) as (E3 & H3 & _ & Hb3).
    exists w2, E3. split; [exact Hw2|].
    split; [eapply same_buffer_trans; eassumption|].
    split; [exact H3|]. split; [exact Hb3|].
    rewrite Heq1, Heq2. reflexivity. }
  split.
  - destruct (Hgen KEY_ESC) as (w2 & E3 & Hw2 & Hb2 & H3 & Hb3 & Heq).
    exists (with_ed w2 E3).
    split; [eapply same_buffer_trans; [exact Hb2|exact Hb3]|].
    rewrite Heq. cbn [editorPrompt]. unfold editorRefreshScreen. rewrite H3.
    reflexivity.
  - intros Hn. destruct (Hgen KEY_ENTER) as (w2 & E3 & Hw2 & Hb2 & H3 & Hb3 & Heq).
    exists (with_ed w2 E3).
    split; [eapply same_buffer_trans; [exact Hb2|exact Hb3]|].
    rewrite Heq. cbn [editorPrompt]. unfold editorRefreshScreen. rewrite H3.
    cbn [bind]. change (KEY_ENTER =? KEY_DEL) with false.
    change (KEY_ENTER =? CTRL_KEY "h") with false.
    change (KEY_ENTER =? KEY_BACKSPACE) with false.
    change (KEY_ENTER =? KEY_ESC) with false.
    change (KEY_ENTER =? KEY_ENTER) with true. cbn [orb].
    destruct (firstn (length s - n) s) as [|x t] eqn:Hb; [|reflexivity].
    exfalso. apply (f_equal (@length ascii)) in Hb.
    rewrite length_firstn in Hb. cbn [length] in Hb. lia.
Qed.

(** X18.  [editorReadKey] waits for a byte: reads that time out and reads
    that fail with EAGAIN are tried again; the first byte that arrives, if
    it is not the escape byte, is the key returned, as the value of a
    [char]; a read that fails otherwise ends the program through [die];
    and input that never delivers a byte leaves the editor waiting. *)
Theorem editorReadKey_waits_for_a_byte pre :
  Forall retried pre ->
  (forall c rest, c <> ESC ->
     editorReadKey (pre ++ RByte c :: rest) = GotKey (char_to_int c) rest) /\
  (forall rest, editorReadKey (pre ++ RError false :: rest) = Died) /\
  editorReadKey pre = NoInput.
Proof.
  induction 1 as [|r pre Hr Hpre (IH1 & IH2 & IH3)].
  - split; [|split; reflexivity]. intros c rest Hc. cbn [app editorReadKey].
    destruct (Ascii.eqb_spec c ESC); [contradiction|reflexivity].
  - destruct Hr as [-> | ->]; cbn [app editorReadKey]; auto.
Qed.

Lemma editorReadKey_waits_for_a_byte_witness :
  editorReadKey ([RTimeout; RError true] ++ RByte (chr "a") :: [])
  = GotKey (char_to_int (chr "a")) [].
Proof.
  apply (proj1 (editorReadKey_waits_for_a_byte [RTimeout; RError true]
                  ltac:(constructor; [left; reflexivity|];
                        constructor; [right; reflexivity|constructor]))).
  discriminate.
Defined.

(* ----------------------------------------------------------------- *)
(** ** Saving *)

Lemma editorPrompt_answer s rest w :
  ed_ok (ed w) -> Forall printable s -> s <> [] ->
  exists w', ed_ok (ed w') /\ same_buffer (ed w) (ed w') /\
    quit_times w' = quit_times w /\ find w' = find w /\
    editorPrompt None (map char_to_int s ++ KEY_ENTER :: rest) [] w
    = Ok (Some s, w', rest).
Proof.
  intros HE Hs Hne.
  destruct (editorPrompt_types s [] w (KEY_ENTER :: rest) HE Hs)
    as (w1 & Hw1 & Hb1 & Hq1 & Hf1 & Heq1).
  destruct (editorScroll_same_buffer (ed w1) Hw1) as (E2 & H2 & HE2 & Hb2).
  exists (with_ed w1 E2). split; [exact HE2|].
  split; [eapply same_buffer_trans; eassumption|].
  split; [exact Hq1|]. split; [exact Hf1|].
  rewrite Heq1. cbn [editorPrompt app]. unfold editorRefreshScreen. rewrite H2.
  cbn [bind]. change (KEY_ENTER =? KEY_DEL) with false.
  change (KEY_ENTER =? CTRL_KEY "h") with false.
  change (KEY_ENTER =? KEY_BACKSPACE) with false.
  change (KEY_ENTER =? KEY_ESC) with false.
  change (KEY_ENTER =? KEY_ENTER) with true. cbn [orb].
  destruct s; [contradiction|reflexivity].
Qed.

Lemma editorPrompt_cancel s rest w :
  ed_ok (ed w) -> Forall printable s ->
  exists w', ed_ok (ed w') /\ same_buffer (ed w) (ed w') /\
    quit_times w' = quit_times w /\ find w' = find w /\
    editorPrompt None (map char_to_int s ++ KEY_ESC :: rest) [] w
    = Ok (None, w', rest).
Proof.
  intros HE Hs.
  destruct (editorPrompt_types s [] w (KEY_ESC :: rest) HE Hs)
    as (w1 & Hw1 & Hb1 & Hq1 & Hf1 & Heq1).
  destruct (editorScroll_same_buffer (ed w1) Hw1) as (E2 & H2 & HE2 & Hb2).
  exists (with_ed w1 E2). split; [exact HE2|].
  split; [eapply same_buffer_trans; eassumption|].
  split; [exact Hq1|]. split; [exact Hf1|].
  rewrite Heq1. cbn [editorPrompt app]. unfold editorRefreshScreen. rewrite H2.
  reflexivity.
Qed.

(* ----------------------------------------------------------------- *)
(** ** A search leaves the buffer as it was *)

Lemma ends_bind {A B} (W : World -> Prop) (Q : A -> Prop) (R : B -> Prop)
  (m : Res A) (k : A -> Res B) :
  ends W Q m -> (forall a, m = Ok a -> Q a -> ends W R (k a)) ->
  ends W R (bind m k).
Proof. destruct m; cbn; auto. Qed.



Section PromptEnds.
Variable cb : option Callback.
Variable Inv : World -> Prop.
Variable Fin : World -> Prop.
Hypothesis Inv_good : forall w, Inv w -> good w.
Hypothesis Inv_scroll : forall w E,
  Inv w -> editorScroll (ed w) = Ok E -> Inv (with_ed w E).
Hypothesis cb_ok : forall buf key w,
  Inv w ->
  exists w', call cb buf key w = Ok w' /\ Inv w' /\
    ((key = KEY_ENTER \/ key = KEY_ESC) -> Fin w').

End PromptEnds.









(* ----------------------------------------------------------------- *)
(** ** The first match of a search *)




(* ----------------------------------------------------------------- *)
(** ** The append buffer and the visible text *)

Lemma abAppend_firstn ab s n :
  0 <= n <= len s -> abAppend ab s n = Ok (ab ++ firstn (Z.to_nat n) s).
Proof.
  intros H. unfold abAppend.
  destruct (Z.leb_spec 0 n); [|lia].
  destruct (Z.leb_spec n (len s + 1)); [|lia]. cbn [andb].
  rewrite firstn_app. unfold len in H.
  replace (Z.to_nat n - length s)%nat with 0%nat by lia.
  cbn [firstn]. rewrite app_nil_r. reflexivity.
Qed.

Lemma abAppend_all ab s : abAppend ab s (len s) = Ok (ab ++ s).
Proof.
  rewrite abAppend_firstn by (unfold len; lia).
  unfold len. rewrite Nat2Z.id, firstn_all. reflexivity.
Qed.

Lemma visible_from_app a : forall st b,
  visible_from st (a ++ b)
  = visible_from st a ++ visible_from (state_after st a) b.
Proof.
  induction a as [|c a IH]; intros st b; cbn [app visible_from state_after];
    [reflexivity|].
  rewrite IH, app_assoc. reflexivity.
Qed.

Lemma state_after_app a : forall st b,
  state_after st (a ++ b) = state_after (state_after st a) b.
Proof.
  induction a as [|c a IH]; intros st b; cbn [app state_after]; auto.
Qed.

Lemma shows_nil : shows [] [].
Proof. split; reflexivity. Qed.

Lemma shows_app a b ta tb : shows a ta -> shows b tb -> shows (a ++ b) (ta ++ tb).
Proof.
  intros [Ha Sa] [Hb Sb]. split.
  - rewrite visible_from_app, Sa, Ha, Hb. reflexivity.
  - rewrite state_after_app, Sa. exact Sb.
Qed.

Lemma shows_char c : c <> ESC -> shows [c] [c].
Proof.
  intros H. unfold shows, visible_from, state_after, esc_step.
  destruct (Ascii.eqb_spec c ESC); [contradiction|]. split; reflexivity.
Qed.

Lemma shows_text t : Forall (fun c => c <> ESC) t -> shows t t.
Proof.
  induction 1 as [|c t Hc Ht IH]; [apply shows_nil|].
  apply (shows_app [c] t [c] t); [apply shows_char; exact Hc|exact IH].
Qed.

Lemma show_char_not_ESC c : show_char c <> ESC.
Proof.
  destruct c as [[] [] [] [] [] [] [] []]; vm_compute; discriminate.
Qed.

Lemma show_char_plain c : iscntrl (uchar c) = false -> show_char c = c.
Proof. unfold show_char. intros ->. reflexivity. Qed.

Lemma color_escape_shows h :
  exists buf, color_escape (syntaxToColor h) = (buf, len buf) /\ shows buf [].
Proof.
  destruct h; eexists; (split; [reflexivity|split; reflexivity]).
Qed.

(* ----------------------------------------------------------------- *)
(** ** Drawing the rows *)

(** An [abAppend] of a whole buffer. *)
Ltac ab_all :=
  match goal with
  | |- context [abAppend ?ab ?s ?n] =>
      change (abAppend ab s n) with (abAppend ab s (len s));
      rewrite (abAppend_all ab s); cbn [bind]
  end.

Lemma shows_esc_rev : shows (ESC :: str "[7m") [].
Proof. split; reflexivity. Qed.

Lemma shows_esc_off : shows (ESC :: str "[m") [].
Proof. split; reflexivity. Qed.

Lemma shows_esc_fg : shows (ESC :: str "[39m") [].
Proof. split; reflexivity. Qed.

Lemma shows_esc_clear : shows (ESC :: str "[K") [].
Proof. split; reflexivity. Qed.

Lemma shows_crlf : shows [CR; LF] [CR; LF].
Proof. split; reflexivity. Qed.

Lemma shows_repeat_space n : shows (repeat (chr " ") n) (repeat (chr " ") n).
Proof.
  apply shows_text. apply Forall_forall. intros c Hc.
  apply repeat_spec in Hc. subst c. discriminate.
Qed.

Lemma pad_loop_spaces n : forall ab,
  pad_loop n ab = Ok (ab ++ repeat (chr " ") n).
Proof.
  induction n as [|n IH]; intros ab; cbn [pad_loop repeat].
  - rewrite app_nil_r. reflexivity.
  - ab_all. rewrite IH.
    rewrite <- app_assoc. reflexivity.
Qed.

Lemma syntaxToColor_not_m1 h : (syntaxToColor h =? -1) = false.
Proof. destruct h; reflexivity. Qed.

Lemma draw_row_loop_shows r co :
  0 <= co -> len (hl r) = len (render r) ->
  forall n j color ab,
    0 <= j -> ((0 < n)%nat -> co + j + Z.of_nat n <= len (render r)) ->
    color_inv color ->
    exists out,
      draw_row_loop r co n j color ab = Ok (ab ++ out) /\
      shows out (map show_char
                   (firstn n (skipn (Z.to_nat (co + j)) (render r)))).
Proof.
  intros Hco Hhl. induction n as [|n IH]; intros j color ab Hj Hn Hc.
  - exists []. cbn [draw_row_loop firstn map]. rewrite app_nil_r.
    split; [reflexivity|apply shows_nil].
  - cbn [draw_row_loop].
    specialize (Hn ltac:(lia)).
    assert (Hlt : (Z.to_nat (co + j) < length (render r))%nat)
      by (unfold len in Hn; lia).
    destruct (nth_error (render r) (Z.to_nat (co + j))) as [c|] eqn:Hc0;
      [|apply nth_error_None in Hc0; lia].
    unfold load at 1. destruct (Z.leb_spec 0 (co + j)); [|lia].
    rewrite Hc0. cbn [bind].
    rewrite (skipn_nth_error _ _ _ Hc0). cbn [firstn map].
    replace (S (Z.to_nat (co + j))) with (Z.to_nat (co + (j + 1))) by lia.
    assert (Hstep : forall ab1 color1 chunk,
              color_inv color1 -> shows chunk [show_char c] ->
              ab1 = ab ++ chunk ->
              exists out,
                draw_row_loop r co n (j + 1) color1 ab1 = Ok (ab ++ out) /\
                shows out
                  (show_char c
                   :: map show_char
                        (firstn n (skipn (Z.to_nat (co + (j + 1)))
                                         (render r))))).
    { intros ab1 color1 chunk Hc1 Hs ->.
      destruct (IH (j + 1) color1 (ab ++ chunk)) as (out & -> & Ho);
        [lia|lia|exact Hc1|].
      exists (chunk ++ out). rewrite app_assoc. split; [reflexivity|].
      apply (shows_app chunk out [show_char c]); assumption. }
    destruct (iscntrl (uchar c)) eqn:Hctl.
    + ab_all.
      ab_all.
      ab_all.
      set (sym := if char_to_int c <=? 26
                  then int_to_char (char_to_int (chr "@") + char_to_int c)
                  else chr "?").
      assert (Hsym : sym = show_char c).
      { unfold sym, show_char. rewrite Hctl. reflexivity. }
      assert (Hs3 : shows ((ESC :: str "[7m") ++ [sym] ++ (ESC :: str "[m"))
                          [show_char c]).
      { apply (shows_app _ _ [] [show_char c]); [apply shows_esc_rev|].
        apply (shows_app _ _ [show_char c] []); [|apply shows_esc_off].
        rewrite Hsym. apply shows_char, show_char_not_ESC. }
      destruct Hc as [->|[h ->]].
      * cbn [Z.eqb bind]. change (-1 =? -1) with true. cbv iota. cbn [bind].
        eapply Hstep; [left; reflexivity|exact Hs3|].
        rewrite <- !app_assoc. reflexivity.
      * rewrite syntaxToColor_not_m1.
        destruct (color_escape_shows h) as (buf & -> & Hb).
        ab_all.
        eapply Hstep; [right; eexists; reflexivity| |].
        2: { rewrite <- !app_assoc. reflexivity. }
        rewrite !app_assoc.
        apply (shows_app _ buf [show_char c] []); [|exact Hb].
        rewrite <- !app_assoc. exact Hs3.
    + assert (Hh : exists h, load (hl r) (co + j) = Ok h).
      { unfold load. destruct (Z.leb_spec 0 (co + j)); [|lia].
        destruct (nth_error (hl r) (Z.to_nat (co + j))) as [h|] eqn:Hh0;
          [eauto|].
        apply nth_error_None in Hh0. unfold len in Hhl. lia. }
      destruct Hh as (h & ->). cbn [bind].
      assert (Hcc : shows [c] [show_char c]).
      { rewrite show_char_plain by exact Hctl. apply shows_char.
        intros ->. discriminate. }
      destruct (Highlight_eqb h HL_NORMAL) eqn:Hn0.
      * destruct Hc as [->|[h0 ->]].
        -- change (-1 =? -1) with true. cbv iota. cbn [bind].
           ab_all.
           eapply Hstep; [left; reflexivity|exact Hcc|reflexivity].
        -- rewrite syntaxToColor_not_m1.
           ab_all.
           ab_all.
           eapply Hstep; [left; reflexivity| |rewrite <- app_assoc; reflexivity].
           apply (shows_app _ _ [] [show_char c]);
             [apply shows_esc_fg|exact Hcc].
      * cbv zeta.
        destruct (syntaxToColor h =? color) eqn:Hsame; cbn [bind].
        -- ab_all.
           eapply Hstep; [right; eexists; reflexivity|exact Hcc|reflexivity].
        -- destruct (color_escape_shows h) as (buf & -> & Hb).
           ab_all.
           ab_all.
           eapply Hstep; [right; eexists; reflexivity|
                          |rewrite <- app_assoc; reflexivity].
           apply (shows_app _ _ [] [show_char c]); [exact Hb|exact Hcc].
Qed.

Lemma shows_welcome_firstn n :
  shows (firstn n welcome_text) (firstn n welcome_text).
Proof.
  apply shows_text. apply Forall_forall. intros c Hc.
  apply In_firstn in Hc. intros ->. revert Hc. vm_compute. intuition discriminate.
Qed.

Lemma draw_welcome_shows E ab :
  0 <= screencols E ->
  exists out, draw_welcome E ab = Ok (ab ++ out) /\
              shows out (welcome_line (screencols E)).
Proof.
  intros Hc. unfold draw_welcome, welcome_line.
  change (snprintf 80 (str "Kilo -- v" ++ cstr (str KILO_VERSION)))
    with (welcome_text, 12).
  change (len welcome_text) with 12. cbv zeta.
  revert Hc. generalize (screencols E). intros cols Hc.
  destruct (Z.gtb_spec 12 cols) as [Hs|Hs].
  - replace (cols - cols) with 0 by lia. change (Z.quot 0 2) with 0.
    cbn [Z.eqb bind Z.ltb Z.compare Z.to_nat pad_loop].
    destruct (Z.ltb_spec cols (12 + 2)); [|lia].
    rewrite abAppend_firstn by (change (len welcome_text) with 12; lia).
    eexists. split; [reflexivity|]. apply shows_welcome_firstn.
  - rewrite Z.quot_div_nonneg by lia.
    destruct (Z.ltb_spec cols (12 + 2)) as [Hw|Hw].
    + replace ((cols - 12) / 2) with 0
        by (symmetry; apply Z.div_small; lia).
      cbn [Z.eqb bind Z.ltb Z.compare Z.to_nat pad_loop].
      change 12 with (len welcome_text) at 1. rewrite abAppend_all.
      replace (firstn (Z.to_nat cols) welcome_text) with welcome_text
        by (symmetry; apply firstn_all2; change (length welcome_text) with 12%nat; lia).
      eexists. split; [reflexivity|].
      apply (shows_welcome_firstn 12).
    + assert (Hp : 1 <= (cols - 12) / 2)
        by (apply Z.div_le_lower_bound; lia).
      destruct (Z.eqb_spec ((cols - 12) / 2) 0); [lia|].
      ab_all.
      destruct (Z.ltb_spec ((cols - 12) / 2 - 1) 0); [lia|].
      rewrite pad_loop_spaces. cbn [bind].
      change 12 with (len welcome_text) at 3. rewrite abAppend_all.
      rewrite <- !app_assoc. eexists. split; [reflexivity|].
      apply (shows_app (str "~") _ (str "~"));
        [apply shows_char; discriminate|].
      apply shows_app; [apply shows_repeat_space|].
      apply (shows_welcome_firstn 12).
Qed.

Lemma draw_line_shows E y ab :
  buf_ok E -> 0 <= rowoff E -> 0 <= coloff E -> 0 <= screencols E ->
  0 <= y ->
  exists out, draw_line E y ab = Ok (ab ++ out) /\
              shows out (screen_line E y ++ [CR; LF]).
Proof.
  intros Hb Hro Hco Hsc Hy. unfold draw_line, screen_line. cbv zeta.
  assert (Hend : forall ab1 chunk t,
            shows chunk t -> ab1 = ab ++ chunk ->
            exists out,
              (ab2 <- abAppend ab1 (ESC :: str "[K") 3 ;;
               abAppend ab2 [CR; LF] 2) = Ok (ab ++ out) /\
              shows out (t ++ [CR; LF])).
  { intros ab1 chunk t Hs ->. do 2 ab_all.
    rewrite <- !app_assoc. eexists. split; [reflexivity|].
    apply shows_app; [exact Hs|].
    apply (shows_app _ _ [] [CR; LF]); [apply shows_esc_clear|apply shows_crlf]. }
  destruct (Z.geb_spec (y + rowoff E) (numrows E)) as [Hge|Hlt].
  - assert (Hnone : nth_error (row E) (Z.to_nat (y + rowoff E)) = None).
    { apply nth_error_None. destruct Hb as (_ & Hn & _). unfold len in Hn. lia. }
    rewrite Hnone.
    destruct ((numrows E =? 0) && (y =? Z.quot (screenrows E) 3)).
    + destruct (draw_welcome_shows E ab Hsc) as (out & -> & Ho). cbn [bind].
      eapply Hend; [exact Ho|reflexivity].
    + ab_all. eapply Hend; [|reflexivity]. apply shows_char. discriminate.
  - destruct (buf_ok_row E (y + rowoff E) Hb) as (r & -> & -> & _ & Hr);
      [lia|].
    cbn [bind]. destruct Hr as (_ & Hrs & Hhl & _).
    set (len1 := if rsize r - coloff E <? 0 then 0 else rsize r - coloff E).
    set (len2 := if len1 >? screencols E then screencols E else len1).
    assert (Hl2 : (0 <= len2) /\
                  (0 < len2 -> coloff E + len2 <= len (render r)) /\
                  (len2 = Z.min (screencols E)
                                (Z.max 0 (len (render r) - coloff E)))).
    { subst len2 len1. rewrite <- Hrs.
      destruct (Z.ltb_spec (rsize r - coloff E) 0);
        match goal with |- context [?a >? ?b] => destruct (Z.gtb_spec a b) end;
        lia. }
    destruct (draw_row_loop_shows r (coloff E) Hco ltac:(congruence)
                (Z.to_nat len2) 0 (-1) ab)
      as (out & -> & Ho); [lia|lia|left; reflexivity|].
    cbn [bind]. ab_all. rewrite <- app_assoc.
    eapply Hend; [|reflexivity].
    rewrite <- (app_nil_r (map show_char _)).
    apply shows_app; [|apply shows_esc_fg].
    replace (firstn (Z.to_nat (screencols E))
               (skipn (Z.to_nat (coloff E)) (render r)))
      with (firstn (Z.to_nat len2)
              (skipn (Z.to_nat (coloff E + 0)) (render r))); [exact Ho|].
    rewrite Z.add_0_r.
    destruct Hl2 as (_ & _ & ->).
    set (tl := skipn (Z.to_nat (coloff E)) (render r)).
    assert (Htl : Z.of_nat (length tl) = Z.max 0 (len (render r) - coloff E)).
    { subst tl. rewrite length_skipn. unfold len. lia. }
    rewrite <- Htl.
    destruct (Z.le_gt_cases (screencols E) (Z.of_nat (length tl))).
    + rewrite Z.min_l by lia. reflexivity.
    + rewrite Z.min_r by lia. rewrite Nat2Z.id.
      rewrite !firstn_all2 by lia. reflexivity.
Qed.

Lemma editorDrawRows_loop_shows E :
  buf_ok E -> 0 <= rowoff E -> 0 <= coloff E -> 0 <= screencols E ->
  forall n y ab, 0 <= y ->
    exists out, editorDrawRows_loop E n y ab = Ok (ab ++ out) /\
                shows out (screen_lines E n y).
Proof.
  intros Hb Hro Hco Hsc. induction n as [|n IH]; intros y ab Hy;
    cbn [editorDrawRows_loop screen_lines].
  - exists []. rewrite app_nil_r. split; [reflexivity|apply shows_nil].
  - destruct (draw_line_shows E y ab Hb Hro Hco Hsc Hy) as (o1 & -> & H1).
    cbn [bind].
    destruct (IH (y + 1) (ab ++ o1)) as (o2 & -> & H2); [lia|].
    exists (o1 ++ o2). rewrite app_assoc. split; [reflexivity|].
    rewrite app_assoc. apply shows_app; assumption.
Qed.

Lemma screen_line_fits E y :
  1 <= screencols E -> len (screen_line E y) <= screencols E.
Proof.
  intros Hc. unfold screen_line, len.
  destruct (nth_error _ _) as [r|].
  - rewrite length_map, length_firstn. lia.
  - destruct (_ && _); [|cbn; lia].
    unfold welcome_line. change (len welcome_text) with 12.
    destruct (Z.ltb_spec (screencols E) (12 + 2)).
    + rewrite length_firstn. lia.
    + rewrite !length_app, repeat_length.
      change (length (str "~")) with 1%nat.
      change (length welcome_text) with 12%nat.
      assert (1 <= (screencols E - 12) / 2)
        by (apply Z.div_le_lower_bound; lia).
      assert ((screencols E - 12) / 2 <= screencols E - 12)
        by (apply Z.div_le_upper_bound; lia).
      lia.
Qed.

(** X22.  [editorDrawRows] on a consistent buffer, with offsets and a
    width that are not negative: it performs no access out of bounds and
    appends to the buffer a run of bytes that, control sequences apart, is
    the window line by line, each line ended by CR LF: a line of the file
    shows the bytes of its render from column [coloff] on, at most
    [screencols] of them, a control character as [@] plus its code or as
    [?]; a line past the end of the file shows a tilde, or the welcome
    line.  No line is longer than the window is wide. *)
Theorem editorDrawRows_shows_the_window E ab :
  buf_ok E -> 0 <= rowoff E -> 0 <= coloff E -> 1 <= screencols E ->
  exists out,
    editorDrawRows E ab = Ok (ab ++ out) /\
    visible out = screen_lines E (Z.to_nat (screenrows E)) 0 /\
    forall y, len (screen_line E y) <= screencols E.
Proof.
  intros Hb Hro Hco Hsc.
  destruct (editorDrawRows_loop_shows E Hb Hro Hco ltac:(lia)
              (Z.to_nat (screenrows E)) 0 ab ltac:(lia)) as (out & H & Hs & _).
  exists out. split; [exact H|]. split; [exact Hs|].
  intros y. apply screen_line_fits. exact Hsc.
Qed.

(* ----------------------------------------------------------------- *)
(** ** The status bar and the message bar *)

Lemma digits_length : forall fuel k n acc,
  (1 <= k)%nat -> 0 <= n < 10 ^ Z.of_nat k ->
  (length (digits fuel n acc) <= length acc + k)%nat.
Proof.
  induction fuel as [|fuel IH]; intros k n acc Hk Hn; cbn [digits]; [lia|].
  destruct (Z.ltb_spec n 10); [cbn [length]; lia|].
  destruct k as [|[|k]]; [lia|cbn in Hn; lia|].
  etransitivity; [apply (IH (S k))|cbn [length]; lia]; [lia|].
  replace (Z.of_nat (S (S k))) with (Z.succ (Z.of_nat (S k))) in Hn by lia.
  rewrite Z.pow_succ_r in Hn by lia.
  split; [apply Z.div_pos; lia|apply Z.div_lt_upper_bound; lia].
Qed.

Lemma digit_not_special n :
  0 <= n ->
  let c := int_to_char (char_to_int (chr "0") + n mod 10) in
  c <> NUL /\ c <> ESC.
Proof.
  intros Hn c. subst c.
  pose proof (Z.mod_pos_bound n 10 ltac:(lia)) as Hm.
  assert (Hd : n mod 10 = 0 \/ n mod 10 = 1 \/ n mod 10 = 2 \/ n mod 10 = 3 \/
               n mod 10 = 4 \/ n mod 10 = 5 \/ n mod 10 = 6 \/ n mod 10 = 7 \/
               n mod 10 = 8 \/ n mod 10 = 9) by lia.
  repeat (destruct Hd as [->|Hd]; [split; discriminate|]).
  rewrite Hd. split; discriminate.
Qed.

Lemma digits_plain : forall fuel n acc,
  0 <= n -> plain_text acc -> plain_text (digits fuel n acc).
Proof.
  induction fuel as [|fuel IH]; intros n acc Hn Ha; cbn [digits]; [exact Ha|].
  assert (Ha' : plain_text
                  (int_to_char (char_to_int (chr "0") + n mod 10) :: acc)).
  { constructor; [apply digit_not_special; exact Hn|exact Ha]. }
  destruct (n <? 10); [exact Ha'|].
  apply IH; [apply Z.div_pos; lia|exact Ha'].
Qed.

Lemma fmt_d_plain n : plain_text (fmt_d n).
Proof.
  unfold fmt_d. destruct (Z.ltb_spec n 0).
  - constructor; [split; discriminate|].
    apply digits_plain; [lia|constructor].
  - apply digits_plain; [lia|constructor].
Qed.

Lemma fmt_d_length n : int_range n -> len (fmt_d n) <= 11.
Proof.
  unfold int_range, fmt_d, len. intros Hn.
  assert (H10 : 2 ^ 31 < 10 ^ Z.of_nat 10) by (vm_compute; reflexivity).
  destruct (Z.ltb_spec n 0).
  - cbn [length].
    pose proof (digits_length (S (Z.to_nat (Z.log2 (- n)))) 10 (- n) []
                  ltac:(lia) ltac:(lia)) as Hd.
    cbn [length] in Hd. lia.
  - pose proof (digits_length (S (Z.to_nat (Z.log2 n))) 10 n []
                  ltac:(lia) ltac:(lia)) as Hd.
    cbn [length] in Hd. lia.
Qed.

Lemma fmt_d_length_nonneg n : 0 <= n < 2 ^ 31 -> len (fmt_d n) <= 10.
Proof.
  unfold fmt_d, len. intros Hn.
  assert (H10 : 2 ^ 31 < 10 ^ Z.of_nat 10) by (vm_compute; reflexivity).
  destruct (Z.ltb_spec n 0); [lia|].
  pose proof (digits_length (S (Z.to_nat (Z.log2 n))) 10 n []
                ltac:(lia) ltac:(lia)) as Hd.
  cbn [length] in Hd. lia.
Qed.

Lemma cstr_plain s : Forall (fun c => c <> NUL) s -> cstr s = s.
Proof.
  induction 1 as [|c s Hc Hs IH]; cbn [cstr]; [reflexivity|].
  destruct (Ascii.eqb_spec c NUL); [contradiction|]. rewrite IH. reflexivity.
Qed.

Lemma cstr_firstn n : forall s, cstr (firstn n s) = firstn n (cstr s).
Proof.
  induction n as [|n IH]; intros [|c s]; cbn [firstn cstr]; try reflexivity.
  destruct (Ascii.eqb c NUL); [reflexivity|]. cbn [firstn]. rewrite IH.
  reflexivity.
Qed.

Lemma cstr_idem s : cstr (cstr s) = cstr s.
Proof.
  induction s as [|c s IH]; cbn [cstr]; [reflexivity|].
  destruct (Ascii.eqb c NUL) eqn:Hc; [reflexivity|].
  cbn [cstr]. rewrite Hc, IH. reflexivity.
Qed.

Lemma status_text_length E :
  int_range (numrows E) -> len (status_text E) <= 51.
Proof.
  intros Hn. unfold status_text, len. rewrite !length_app.
  pose proof (fmt_d_length _ Hn) as Hd. unfold len in Hd.
  rewrite length_firstn.
  assert (Hm : (length (cstr (if (dirty E =? 0)%Z then []
                              else str "(modified)")) <= 10)%nat)
    by (destruct (dirty E =? 0); cbn; lia).
  change (length (str " - ")) with 3%nat.
  change (length (str " lines ")) with 7%nat. lia.
Qed.

Lemma rstatus_text_length E :
  syntax_known E -> int_range (cy E + 1) -> int_range (numrows E) ->
  1 <= len (rstatus_text E) <= 31.
Proof.
  intros Hs Hc Hn. unfold rstatus_text, len. rewrite !length_app.
  pose proof (fmt_d_length _ Hn) as Hd1. pose proof (fmt_d_length _ Hc) as Hd2.
  unfold len in Hd1, Hd2.
  change (length (str " | ")) with 3%nat.
  change (length (str "/")) with 1%nat.
  assert (Hf : (length (cstr (str match syntax E with
                                  | Some sy => filetype sy
                                  | None => "no ft"%string
                                  end)) <= 5)%nat).
  { unfold syntax_known in Hs. destruct (syntax E) as [sy|]; [|cbn; lia].
    destruct Hs as [<-|[]]. cbn. lia. }
  lia.
Qed.

Lemma status_fill_spec E rstatus :
  1 <= len rstatus ->
  forall n len_ ab, n = Z.to_nat (screencols E - len_) ->
    status_fill E rstatus (len rstatus) n len_ ab
    = Ok (ab ++ (if len rstatus <=? screencols E - len_
                 then repeat (chr " ")
                        (Z.to_nat (screencols E - len_ - len rstatus))
                      ++ rstatus
                 else repeat (chr " ") (Z.to_nat (screencols E - len_)))).
Proof.
  intros Hr. induction n as [|n IH]; intros len_ ab Hn.
  - cbn [status_fill]. destruct (Z.ltb_spec len_ (screencols E)); [lia|].
    destruct (Z.leb_spec (len rstatus) (screencols E - len_)); [lia|].
    replace (Z.to_nat (screencols E - len_)) with 0%nat by lia.
    cbn [repeat]. rewrite app_nil_r. reflexivity.
  - cbn [status_fill]. destruct (Z.ltb_spec len_ (screencols E)); [|lia].
    destruct (Z.eqb_spec (screencols E - len_) (len rstatus)) as [He|He].
    + rewrite abAppend_all. rewrite He, Z.leb_refl, Z.sub_diag.
      reflexivity.
    + ab_all. rewrite IH by lia.
      replace (screencols E - (len_ + 1)) with (screencols E - len_ - 1) by lia.
      destruct (Z.leb_spec (len rstatus) (screencols E - len_ - 1));
        destruct (Z.leb_spec (len rstatus) (screencols E - len_)); try lia.
      * replace (Z.to_nat (screencols E - len_ - len rstatus))
          with (S (Z.to_nat (screencols E - len_ - 1 - len rstatus))) by lia.
        cbn [repeat]. rewrite <- !app_assoc. reflexivity.
      * replace (Z.to_nat (screencols E - len_))
          with (S (Z.to_nat (screencols E - len_ - 1))) by lia.
        cbn [repeat]. rewrite <- !app_assoc. reflexivity.
Qed.

Lemma snprintf_fits size s :
  len s <= size - 1 -> snprintf size s = (s, len s).
Proof.
  intros H. unfold snprintf. rewrite firstn_all2; [reflexivity|].
  unfold len in H. lia.
Qed.

Lemma status_bar_length E cols :
  0 <= cols -> 1 <= len (rstatus_text E) -> len (status_bar E cols) = cols.
Proof.
  intros Hc Hr. unfold status_bar. cbv zeta. unfold len in *.
  rewrite length_app.
  set (left := firstn (Z.to_nat cols) (status_text E)).
  assert (Hl : (length left <= Z.to_nat cols)%nat)
    by (subst left; rewrite length_firstn; lia).
  destruct (Z.leb_spec (Z.of_nat (length (rstatus_text E)))
                       (cols - Z.of_nat (length left)));
    rewrite ?length_app, repeat_length; lia.
Qed.

Lemma editorDrawStatusBar_spec E ab :
  0 <= screencols E -> len (status_text E) <= 79 ->
  1 <= len (rstatus_text E) <= 79 ->
  editorDrawStatusBar E ab
  = Ok (ab ++ (ESC :: str "[7m") ++ status_bar E (screencols E)
           ++ (ESC :: str "[m") ++ [CR; LF]).
Proof.
  intros Hc Hs Hr. unfold editorDrawStatusBar. ab_all.
  rewrite (snprintf_fits 80 (status_text E)) by lia.
  rewrite (snprintf_fits 80 (rstatus_text E)) by lia.
  cbv zeta.
  set (len1 := if len (status_text E) >? screencols E then screencols E
               else len (status_text E)).
  assert (H1 : 0 <= len1 <= len (status_text E) /\
               firstn (Z.to_nat len1) (status_text E)
               = firstn (Z.to_nat (screencols E)) (status_text E)).
  { subst len1. unfold len.
    destruct (Z.gtb_spec (Z.of_nat (length (status_text E))) (screencols E)).
    - split; [lia|reflexivity].
    - split; [lia|]. rewrite Nat2Z.id, firstn_all.
      rewrite firstn_all2 by lia. reflexivity. }
  destruct H1 as (H1 & H2).
  rewrite abAppend_firstn by exact H1. cbn [bind]. rewrite H2.
  assert (Hl : len1 = len (firstn (Z.to_nat (screencols E)) (status_text E))).
  { rewrite <- H2. unfold len. rewrite length_firstn. unfold len in H1. lia. }
  rewrite (status_fill_spec E (rstatus_text E) ltac:(lia)
             (Z.to_nat (screencols E - len1)) len1 _ eq_refl).
  cbn [bind]. do 2 ab_all. unfold status_bar. cbv zeta. rewrite <- Hl.
  rewrite <- !app_assoc. reflexivity.
Qed.

(** X23.  [editorDrawStatusBar] on a window that is not of negative width,
    with a line count and a cursor line in the range of [int] and a syntax
    profile of the table: the two texts fit their 80-byte buffers, nothing
    is read out of bounds, and the bar, written between the sequences for
    inverse video and for normal video and followed by CR LF, is exactly
    [screencols] bytes: the left text cut to the width, then blanks, and
    the right text flush with the right margin when there is room for it
    after the left one, blanks alone otherwise. *)
Theorem editorDrawStatusBar_fills_the_width E ab :
  0 <= screencols E -> int_range (numrows E) -> int_range (cy E + 1) ->
  syntax_known E ->
  editorDrawStatusBar E ab
  = Ok (ab ++ (ESC :: str "[7m") ++ status_bar E (screencols E)
           ++ (ESC :: str "[m") ++ [CR; LF]) /\
  len (status_bar E (screencols E)) = screencols E /\
  len (status_text E) < 80 /\ len (rstatus_text E) < 80.
Proof.
  intros Hc Hn Hy Hs.
  pose proof (status_text_length E Hn).
  pose proof (rstatus_text_length E Hs Hy Hn).
  split; [apply editorDrawStatusBar_spec; lia|].
  split; [apply status_bar_length; lia|lia].
Qed.

Lemma editorDrawMessageBar_spec E S now ab :
  0 <= screencols E ->
  editorDrawMessageBar E S now ab
  = Ok (ab ++ (ESC :: str "[K")
           ++ (if now - statusmsg_time S <? 5
               then firstn (Z.to_nat (screencols E)) (cstr (statusmsg S))
               else [])).
Proof.
  intros Hc. unfold editorDrawMessageBar. ab_all. cbv zeta.
  unfold strlen.
  set (m := cstr (statusmsg S)).
  set (msglen := if Z.of_nat (length m) >? screencols E then screencols E
                 else Z.of_nat (length m)).
  assert (H1 : 0 <= msglen <= len m /\
               firstn (Z.to_nat msglen) m
               = firstn (Z.to_nat (screencols E)) m).
  { subst msglen. unfold len.
    destruct (Z.gtb_spec (Z.of_nat (length m)) (screencols E)).
    - split; [lia|reflexivity].
    - split; [lia|]. rewrite Nat2Z.id, firstn_all.
      rewrite firstn_all2 by lia. reflexivity. }
  destruct H1 as (H1 & H2).
  destruct (Z.eqb_spec msglen 0) as [H0|H0]; cbn [negb andb].
  - rewrite <- H2, H0. cbn [Z.to_nat firstn].
    destruct (_ <? 5); reflexivity.
  - destruct (now - statusmsg_time S <? 5).
    + rewrite abAppend_firstn by exact H1.
      rewrite H2, <- app_assoc. reflexivity.
    + rewrite app_nil_r. reflexivity.
Qed.

(** X24.  A status message set at time [t] and drawn at time [now] on a
    window that is not of negative width: [editorDrawMessageBar] clears the
    line and, if fewer than five seconds have passed, writes the message,
    cut to 79 bytes when it was set and to the width of the window when it
    is drawn; after five seconds it writes nothing more. *)
Theorem status_message_is_shown_for_five_seconds E text t now ab :
  0 <= screencols E ->
  editorDrawMessageBar E (editorSetStatusMessage text t) now ab
  = Ok (ab ++ (ESC :: str "[K")
           ++ (if now - t <? 5
               then firstn (Z.to_nat (Z.min 79 (screencols E))) (cstr text)
               else [])).
Proof.
  intros Hc. rewrite editorDrawMessageBar_spec by exact Hc.
  unfold editorSetStatusMessage, snprintf.
  cbn [statusmsg statusmsg_time fst].
  rewrite cstr_idem, cstr_firstn, firstn_firstn.
  replace (Init.Nat.min (Z.to_nat (screencols E)) (Z.to_nat (80 - 1)))
    with (Z.to_nat (Z.min 79 (screencols E))) by lia.
  reflexivity.
Qed.

(* ----------------------------------------------------------------- *)
(** ** The frame *)

Lemma editorScroll_fixed E :
  ed_ok E -> in_view E -> rx E = cursor_rx E -> editorScroll E = Ok E.
Proof.
  intros (Hb & (Hcy & Hcx) & Hv) ((Hr1 & Hr2) & (Hc1 & Hc2)) Hrx.
  unfold editorScroll. rewrite (editorScroll_rx E Hb Hcy). cbn [bind].
  rewrite <- Hrx.
  destruct (Z.ltb_spec (cy E) (rowoff E)); [lia|].
  destruct (Z.geb_spec (cy E) (rowoff E + screenrows E)); [lia|].
  destruct (Z.ltb_spec (rx E) (coloff E)); [lia|].
  destruct (Z.geb_spec (rx E) (coloff E + screencols E)); [lia|].
  destruct E; reflexivity.
Qed.

Lemma plain_no_NUL s : plain_text s -> Forall (fun c => c <> NUL) s.
Proof. apply Forall_impl. intros c [H _]. exact H. Qed.

Lemma cursor_escape_fits E :
  int_range (cy E - rowoff E + 1) -> int_range (rx E - coloff E + 1) ->
  snprintf 32 (cursor_escape E) = (cursor_escape E, len (cursor_escape E)) /\
  strlen (cursor_escape E) = len (cursor_escape E).
Proof.
  intros Hy Hx. split.
  - apply snprintf_fits. unfold cursor_escape, len. cbn [length].
    rewrite !length_app.
    pose proof (fmt_d_length _ Hy) as H1. pose proof (fmt_d_length _ Hx) as H2.
    unfold len in H1, H2. cbn [length str list_ascii_of_string]. lia.
  - unfold strlen. rewrite cstr_plain; [reflexivity|].
    unfold cursor_escape. constructor; [discriminate|].
    repeat (apply Forall_app; split);
      try (apply plain_no_NUL, fmt_d_plain);
      repeat constructor; discriminate.
Qed.

Lemma frame_spec E S now :
  ed_ok E -> in_view E -> rx E = cursor_rx E -> 0 <= coloff E ->
  1 <= screencols E < 2 ^ 31 -> screenrows E < 2 ^ 31 ->
  numrows E < 2 ^ 31 - 1 -> syntax_known E ->
  exists rows_out,
    editorRefreshScreen_frame E S now
    = Ok (E, (ESC :: str "[?25l") ++ (ESC :: str "[H") ++ rows_out
             ++ bars E S now ++ cursor_escape E ++ (ESC :: str "[?25h")) /\
    visible rows_out = screen_lines E (Z.to_nat (screenrows E)) 0.
Proof.
  intros HE Hv Hrx Hco Hsc Hsr Hn Hsy.
  pose proof HE as (Hb & (Hcy & Hcx) & (Hro & Hsr1)).
  pose proof Hv as ((Hr1 & Hr2) & (Hc1 & Hc2)).
  assert (Hn0 : 0 <= numrows E).
  { destruct Hb as (_ & -> & _). unfold len. lia. }
  unfold editorRefreshScreen_frame.
  rewrite (editorScroll_fixed E HE Hv Hrx). cbn [bind].
  do 2 ab_all.
  destruct (editorDrawRows_loop_shows E Hb Hro Hco ltac:(lia)
              (Z.to_nat (screenrows E)) 0
              (([] ++ ESC :: str "[?25l") ++ ESC :: str "[H") ltac:(lia))
    as (rows_out & Hd & Hs & _).
  unfold editorDrawRows. rewrite Hd. cbn [bind].
  pose proof (status_text_length E) as Hst.
  pose proof (rstatus_text_length E Hsy) as Hrt.
  rewrite editorDrawStatusBar_spec;
    [|lia|unfold int_range in *; lia|unfold int_range in *; lia].
  cbn [bind].
  rewrite editorDrawMessageBar_spec by lia. cbn [bind].
  destruct (cursor_escape_fits E) as (-> & Hlen);
    [unfold int_range; lia|unfold int_range; lia|].
  rewrite Hlen, abAppend_all. cbn [bind]. ab_all.
  exists rows_out. split; [|exact Hs].
  unfold bars. repeat (progress (cbn [app]) || rewrite <- app_assoc).
  reflexivity.
Qed.

(* ----------------------------------------------------------------- *)
(** ** Choosing the syntax profile *)

Lemma is_prefix_same_length : forall a b,
  length a = length b -> is_prefix a b = true -> a = b.
Proof.
  induction a as [|x a IH]; intros [|y b] Hl Hp; cbn in *;
    try discriminate; [reflexivity|].
  apply andb_true_iff in Hp as [Hx Hp]. apply Ascii.eqb_eq in Hx.
  f_equal; [exact Hx|apply IH; [lia|exact Hp]].
Qed.

Lemma is_prefix_refl a : is_prefix a a = true.
Proof.
  induction a as [|x a IH]; cbn; [reflexivity|].
  rewrite Ascii.eqb_refl. exact IH.
Qed.

Lemma list_ascii_eqb_eq a b : list_ascii_eqb a b = true <-> a = b.
Proof.
  unfold list_ascii_eqb. split.
  - intros H. apply andb_true_iff in H as [Hl Hp].
    apply Nat.eqb_eq in Hl. apply is_prefix_same_length; assumption.
  - intros ->. rewrite Nat.eqb_refl, is_prefix_refl. reflexivity.
Qed.

Lemma strrchr_dot_none e :
  ~ In (chr ".") e -> strrchr_dot e = None.
Proof.
  induction e as [|c e IH]; intros Hn; cbn [strrchr_dot]; [reflexivity|].
  rewrite IH by (intros H; apply Hn; right; exact H).
  destruct (Ascii.eqb_spec c (chr ".")); [|reflexivity].
  exfalso. apply Hn. left. exact e0.
Qed.

Lemma strrchr_dot_last base e :
  ~ In (chr ".") e ->
  strrchr_dot (base ++ chr "." :: e) = Some (chr "." :: e).
Proof.
  intros Hn. induction base as [|c base IH]; cbn [app strrchr_dot].
  - rewrite (strrchr_dot_none e Hn). reflexivity.
  - cbn [app] in IH. rewrite IH. reflexivity.
Qed.

Lemma filematch_hit_dot f fm :
  Ascii.eqb (char_at (str fm) 0) (chr ".") = true ->
  filematch_hit f fm
  = match strrchr_dot (cstr f) with
    | Some ext => list_ascii_eqb ext (cstr (str fm))
    | None => false
    end.
Proof.
  unfold filematch_hit. intros ->. cbn [andb negb].
  apply orb_false_r.
Qed.

Lemma filematch_hit_ext f :
  existsb (filematch_hit f) C_EXTS
  = match strrchr_dot (cstr f) with
    | Some ext => existsb (fun m => list_ascii_eqb ext (str m)) C_EXTS
    | None => false
    end.
Proof.
  unfold C_EXTS. cbn [existsb].
  rewrite !filematch_hit_dot by reflexivity.
  destruct (strrchr_dot (cstr f)) as [ext|]; reflexivity.
Qed.

Lemma ext_hit e :
  existsb (fun m => list_ascii_eqb (chr "." :: e) (str m)) C_EXTS
  = existsb (list_ascii_eqb e) c_extensions.
Proof. reflexivity. Qed.

(* ----------------------------------------------------------------- *)
(** ** The page keys *)

(** Up and Down from a state whose column may be past the end of its
    line, as the page keys leave it. *)
Lemma move_vertical E key :
  buf_ok E -> 0 <= cy E <= numrows E ->
  key = KEY_ARROW_UP \/ key = KEY_ARROW_DOWN ->
  let y := if key =? KEY_ARROW_UP
           then (if cy E =? 0 then cy E else cy E - 1)
           else (if cy E <? numrows E then cy E + 1 else cy E) in
  editorMoveCursor E key
  = Ok (set_cursor E (Z.min (cx E) (len (line_at E y))) y) /\
  0 <= y <= numrows E.
Proof.
  intros Hb Hcy Hk.
  assert (Hfin : forall y, 0 <= y <= numrows E ->
            (orow1 <- cursor_row (set_cursor E (cx E) y) ;;
             let rowlen := match orow1 with Some r => size r | None => 0 end in
             Ok (if cx (set_cursor E (cx E) y) >? rowlen
                 then set_cursor (set_cursor E (cx E) y) rowlen
                                 (cy (set_cursor E (cx E) y))
                 else set_cursor E (cx E) y))
            = Ok (set_cursor E (Z.min (cx E) (len (line_at E y))) y)).
  { intros y Hy.
    destruct (cursor_row_ok (set_cursor E (cx E) y) Hb Hy) as (o1 & -> & Hlen1 & _).
    cbn [bind]. change (line_at (set_cursor E (cx E) y) (cy (set_cursor E (cx E) y)))
      with (line_at E y) in Hlen1. rewrite <- Hlen1.
    cbn [cx cy set_cursor]. f_equal.
    destruct (Z.gtb_spec (cx E) (len (line_at E y))).
    - rewrite Z.min_r by lia. reflexivity.
    - rewrite Z.min_l by lia. reflexivity. }
  pose proof (Hfin (cy E) Hcy) as Hstay. rewrite set_cursor_same in Hstay.
  unfold editorMoveCursor.
  destruct (cursor_row_ok E Hb Hcy) as (o & -> & _ & _). cbn [bind].
  destruct Hk as [-> | ->].
  - change (KEY_ARROW_UP =? KEY_ARROW_LEFT) with false.
    change (KEY_ARROW_UP =? KEY_ARROW_RIGHT) with false.
    change (KEY_ARROW_UP =? KEY_ARROW_UP) with true. cbv iota zeta.
    destruct (Z.eqb_spec (cy E) 0); cbn [negb bind].
    + split; [exact Hstay|lia].
    + split; [apply Hfin; lia|lia].
  - change (KEY_ARROW_DOWN =? KEY_ARROW_LEFT) with false.
    change (KEY_ARROW_DOWN =? KEY_ARROW_RIGHT) with false.
    change (KEY_ARROW_DOWN =? KEY_ARROW_UP) with false.
    change (KEY_ARROW_DOWN =? KEY_ARROW_DOWN) with true. cbv iota zeta.
    destruct (Z.ltb_spec (cy E) (numrows E)); cbn [bind].
    + split; [apply Hfin; lia|lia].
    + split; [exact Hstay|lia].
Qed.

Lemma move_times_vertical key :
  key = KEY_ARROW_UP \/ key = KEY_ARROW_DOWN ->
  forall n E, buf_ok E -> 0 <= cy E <= numrows E -> 0 <= cx E ->
    let y := if key =? KEY_ARROW_UP then Z.max 0 (cy E - Z.of_nat n)
             else Z.min (numrows E) (cy E + Z.of_nat n) in
    exists x, move_times n E key = Ok (set_cursor E x y) /\
              0 <= x <= cx E /\
              ((0 < n)%nat -> x <= len (line_at E y)).
Proof.
  intros Hk. induction n as [|n IH]; intros E Hb Hcy Hcx; cbv zeta.
  - exists (cx E). cbn [move_times].
    replace (if key =? KEY_ARROW_UP then Z.max 0 (cy E - Z.of_nat 0)
             else Z.min (numrows E) (cy E + Z.of_nat 0)) with (cy E)
      by (destruct (key =? KEY_ARROW_UP); lia).
    rewrite set_cursor_same. split; [reflexivity|]. split; [lia|lia].
  - cbn [move_times].
    destruct (move_vertical E key Hb Hcy Hk) as [-> Hy]. cbn [bind].
    set (y1 := if key =? KEY_ARROW_UP
               then (if cy E =? 0 then cy E else cy E - 1)
               else (if cy E <? numrows E then cy E + 1 else cy E)) in *.
    set (x1 := Z.min (cx E) (len (line_at E y1))).
    pose proof (len_nonneg (line_at E y1)) as Hl1.
    destruct (IH (set_cursor E x1 y1)) as (x & Hm & Hx & Hxl);
      [exact Hb|exact Hy|cbn [cx set_cursor]; subst x1; lia|].
    cbn [cx cy numrows set_cursor] in Hm, Hx, Hxl.
    change (line_at (set_cursor E x1 y1)) with (line_at E) in Hxl.
    rewrite set_cursor_twice in Hm.
    assert (Hyy : (if key =? KEY_ARROW_UP then Z.max 0 (y1 - Z.of_nat n)
                   else Z.min (numrows E) (y1 + Z.of_nat n))
                  = (if key =? KEY_ARROW_UP
                     then Z.max 0 (cy E - Z.of_nat (S n))
                     else Z.min (numrows E) (cy E + Z.of_nat (S n)))).
    { subst y1. destruct (key =? KEY_ARROW_UP).
      - destruct (Z.eqb_spec (cy E) 0); lia.
      - destruct (Z.ltb_spec (cy E) (numrows E)); lia. }
    rewrite Hyy in Hm, Hxl.
    exists x. split; [exact Hm|]. split; [subst x1; lia|].
    intros _. destruct n as [|n].
    + cbn [move_times] in Hm. rewrite <- Hyy in Hm |- *.
      replace (if key =? KEY_ARROW_UP then Z.max 0 (y1 - Z.of_nat 0)
               else Z.min (numrows E) (y1 + Z.of_nat 0)) with y1 in *
        by (destruct (key =? KEY_ARROW_UP); lia).
      assert (Hxx : x = x1) by (inversion Hm; congruence).
      rewrite Hxx. subst x1. lia.
    + apply Hxl. lia.
Qed.

(* ================================================================= *)
(** * The program that never exits in [xrealloc] *)

Module IdealProofs.
Import Ideal.

(* ----------------------------------------------------------------- *)
(** ** Highlighting a row changes highlight classes only *)

Lemma editorUpdateSyntax_rec_eq fuel E p :
  editorUpdateSyntax_rec fuel E p =
  (r <- row_at E p ;;
   let h0 := repeat HL_NORMAL (Z.to_nat (rsize r)) in
   match syntax E with
   | None => Ok (set_row E p (set_hl r h0))
   | Some sy =>
      in_comment0 <-
        (if 0 <? idx r
         then prev <- row_at E (idx r - 1) ;; Ok (hl_open_comment prev)
         else Ok false) ;;
      s <- scan_loop sy (render r) (rsize r) (Z.to_nat (rsize r))
             (mkScan 0 h0 true 0 in_comment0) ;;
      let changed := negb (Bool.eqb (hl_open_comment r) (sc_in_comment s)) in
      let E' := set_row E p (set_open (set_hl r (sc_hl s)) (sc_in_comment s)) in
      if changed && (idx r + 1 <? numrows E)
      then match fuel with
           | O => NoFuel
           | S fuel' => editorUpdateSyntax_rec fuel' E' (idx r + 1)
           end
      else Ok E'
   end).
Proof. destruct fuel; reflexivity. Qed.

Lemma editorUpdateSyntax_rec_ok : forall fuel E p,
  syntax_ok E -> 0 <= p < len (row E) -> numrows E <= len (row E) ->
  tail_ok E p -> numrows E - p - 1 <= Z.of_nat fuel ->
  exists E', editorUpdateSyntax_rec fuel E p = Ok E' /\ ed_sim E E' /\
    forall r', nth_error (row E') (Z.to_nat p) = Some r' ->
               len (hl r') = rsize r'.
Proof.
  induction fuel as [|fuel IH]; intros E p Hsy Hp Hn Ht Hf.
  all: rewrite editorUpdateSyntax_rec_eq; unfold row_at.
  all: destruct (load_ok (row E) p Hp) as (r & Hr & Hnth); rewrite Hr; cbn [bind].
  all: destruct (Ht (Z.to_nat p) r ltac:(lia) Hnth) as [Hidx Hrs].
  all: rewrite Z2Nat.id in Hidx by lia.
  all: pose proof (len_nonneg (render r)) as Hrn.
  all: assert (Hh0 : len (repeat HL_NORMAL (Z.to_nat (rsize r))) = rsize r)
         by (apply len_repeat; lia).
  all: cbv zeta.
  all: unfold syntax_ok in Hsy; destruct (syntax E) as [sy|] eqn:Esy.
  2,4: eexists; split; [reflexivity|]; split;
       [ eapply ed_sim_set_row; eauto; split; [unfold row_sim; cbn; tauto|right; exact Hh0]
       | intros r'; rewrite set_row_nth_same by auto;
         intros Q; inversion Q; subst; exact Hh0 ].
  all: assert (Hic : exists ic, (if 0 <? idx r
            then bind (load (row E) (idx r - 1)) (fun prev => Ok (hl_open_comment prev))
            else Ok false) = Ok ic)
        by (destruct (0 <? idx r) eqn:E0; [|eauto];
       destruct (load_ok (row E) (idx r - 1)) as (x & Hx & _); [lia|];
       rewrite Hx; cbn [bind]; eauto).
  all: destruct Hic as (ic & ->); cbn [bind].
  all: destruct (scan_loop_ok sy (render r) Hsy (Z.to_nat (rsize r))
         (mkScan 0 (repeat HL_NORMAL (Z.to_nat (rsize r))) true 0 ic))
         as (s & Hs & Hls);
       [cbn; lia | cbn; rewrite <- Hrs; exact Hh0 | cbn; lia |].
  all: rewrite <- Hrs in Hs; rewrite Hs; cbn [bind].
  all: set (r1 := set_open (set_hl r (sc_hl s)) (sc_in_comment s)).
  all: assert (Hu : hl_upd r r1)
         by (split; [unfold row_sim; cbn; tauto|right; cbn; congruence]).
  all: assert (Hsim : ed_sim E (set_row E p r1)) by (eapply ed_sim_set_row; eauto).
  all: assert (Hp1 : forall r', nth_error (row (set_row E p r1)) (Z.to_nat p) = Some r' ->
                 len (hl r') = rsize r')
         by (intros r'; rewrite set_row_nth_same by auto;
             intros Q; inversion Q; subst; cbn; congruence).
  all: destruct (_ && _) eqn:Hc; [|eauto].
  all: apply andb_true_iff in Hc as [_ Hc]; apply Z.ltb_lt in Hc.
  - lia.
  - destruct (IH (set_row E p r1) (idx r + 1)) as (E' & HE' & Hsim' & _).
    + unfold syntax_ok. cbn. rewrite Esy. exact Hsy.
    + rewrite set_row_len by auto. cbn in Hc. lia.
    + rewrite set_row_len by auto. exact Hn.
    + eapply tail_ok_sim; [exact Hsim|]. intros j x Hj Hx. apply Ht; [lia|auto].
    + cbn. lia.
    + exists E'. split; [exact HE'|]. split; [eapply ed_sim_trans; eauto|].
      intros r' Hr'.
      destruct Hsim' as (_&_&_&_&_&_&_&_&_&_&_&HL&HR).
      destruct (nth_error (row (set_row E p r1)) (Z.to_nat p)) as [x|] eqn:Ex.
      * destruct (HR _ _ _ Ex Hr') as [(?&?&?&?&?) [->|Q]]; auto.
      * apply nth_error_None in Ex.
        assert (Z.to_nat p < length (row E'))%nat by (apply nth_error_Some; congruence).
        lia.
Qed.

(* ----------------------------------------------------------------- *)
(** ** Rows derived from their characters *)

Lemma editorUpdateSyntax_ok E p :
  syntax_ok E -> 0 <= p < len (row E) -> numrows E <= len (row E) ->
  tail_ok E p -> 
  exists E', editorUpdateSyntax E p = Ok E' /\ ed_sim E E' /\
    forall r', nth_error (row E') (Z.to_nat p) = Some r' ->
               len (hl r') = rsize r'.
Proof.
  intros. unfold editorUpdateSyntax. apply editorUpdateSyntax_rec_ok; auto. lia.
Qed.

Lemma editorUpdateRow_ok E p :
  syntax_ok E -> 0 <= p < len (row E) -> numrows E <= len (row E) ->
  rows_pre (row E) p ->
  exists E', editorUpdateRow E p = Ok E' /\ E' = set_rows E (row E') /\
    lines E' = lines E /\ rows_ok (row E').
Proof.
  intros Hsy Hp Hn Hpre. unfold editorUpdateRow, row_at.
  destruct (load_ok (row E) p Hp) as (r & Hr & Hnth). rewrite Hr. cbn [bind].
  set (out := render_loop (chars r) (Z.to_nat (size r)) 0 []).
  set (r1 := set_render r (len out) out).
  destruct (Hpre _ _ Hnth) as (Hidx & _ & Hraw).
  rewrite Z2Nat.id in Hidx, Hraw by lia. destruct (Hraw eq_refl) as [Hsz Hlf].
  destruct (editorUpdateSyntax_ok (set_row E p r1) p) as (E' & HE' & Hsim & Hpp).
  - exact Hsy.
  - rewrite set_row_len; auto.
  - rewrite set_row_len; auto.
  - intros j x Hj Hx. rewrite set_row_rows, upd_nth in Hx by (unfold len in Hp; lia).
    destruct (Nat.eqb_spec j (Z.to_nat p)).
    + inversion Hx; subst x. cbn. split; [lia|reflexivity].
    + destruct (Hpre _ _ Hx) as (Hi & Hok & _). split; [auto|].
      apply Hok; lia.
  - exists E'. split; [exact HE'|].
    pose proof (ed_sim_eq _ _ Hsim) as Heq.
    destruct Hsim as (_&_&_&_&_&_&_&_&_&_&_&Hrel).
    split; [exact Heq|]. split.
    + unfold lines. rewrite (rows_rel_chars _ _ Hrel).
      rewrite set_row_rows. eapply map_upd_same; eauto.
    + intros j r' Hr'.
      destruct (rows_rel_nth _ _ _ _ Hrel Hr') as (x & Hx & Hu).
      rewrite set_row_rows, upd_nth in Hx by (unfold len in Hp; lia).
      destruct (Nat.eqb_spec j (Z.to_nat p)) as [->|Hne].
      * inversion Hx; subst x. specialize (Hpp _ Hr').
        destruct Hu as [(Hi&Hs&Hrz&Hc&Hrn) _]. cbn in *.
        split; [lia|]. unfold row_ok. rewrite Hs, Hrz, Hc, Hrn.
        repeat split; auto. congruence.
      * destruct (Hpre _ _ Hx) as (Hi & Hok & _).
        split; [destruct Hu as [(->&_) _]; auto|].
        eapply hl_upd_row_ok; eauto. apply Hok. lia.
Qed.

(* ----------------------------------------------------------------- *)
(** ** Inserting and deleting rows *)

(** Replacing the characters of row [p] and calling [editorUpdateRow]. *)
Lemma row_edit_ok E p r cs n :
  buf_ok E -> 0 <= p < numrows E ->
  nth_error (row E) (Z.to_nat p) = Some r -> noLF cs -> n = len cs ->
  exists E', editorUpdateRow (set_row E p (set_chars r n cs)) p = Ok E' /\
    buf_ok E' /\ lines E' = upd (lines E) (Z.to_nat p) cs /\
    E' = set_rows E (row E').
Proof.
  intros (Hsy & Hn & Hok) Hp Hnth Hlf ->.
  assert (Hp' : 0 <= p < len (row E)) by lia.
  destruct (editorUpdateRow_ok (set_row E p (set_chars r (len cs) cs)) p)
    as (E' & HE' & Heq & Hl & Hrows).
  - exact Hsy.
  - rewrite set_row_len; auto.
  - rewrite set_row_len; auto. cbn. lia.
  - intros j x Hx. rewrite set_row_rows, upd_nth in Hx by (unfold len in Hp'; lia).
    destruct (Nat.eqb_spec j (Z.to_nat p)) as [->|Hne].
    + inversion Hx; subst x. cbn. destruct (Hok _ _ Hnth) as [Hi _].
      split; [auto|]. split; [intros; lia|]. intros _. split; auto.
    + destruct (Hok _ _ Hx). split; [auto|]. split; [auto|]. intros; lia.
  - exists E'. split; [exact HE'|]. split; [|split].
    + rewrite Heq. split; [exact Hsy|]. split; [|exact Hrows]. cbn.
      assert (len (lines E') = len (row E)).
      { rewrite Hl. unfold lines. rewrite set_row_rows. rewrite len_map.
        unfold len. rewrite upd_length; [reflexivity|unfold len in Hp'; lia]. }
      unfold lines in H. rewrite len_map in H. lia.
    + rewrite Hl. unfold lines. rewrite set_row_rows, upd_map. reflexivity.
    + rewrite Heq. cbn. destruct E; reflexivity.
Qed.

Lemma editorInsertRow_ok E at_ s :
  buf_ok E -> 0 <= at_ <= numrows E -> noLF s ->
  exists E', editorInsertRow E at_ s = Ok E' /\ buf_ok E' /\
    lines E' = firstn (Z.to_nat at_) (lines E) ++ s
                 :: skipn (Z.to_nat at_) (lines E) /\
    numrows E' = numrows E + 1 /\ dirty E' = dirty E + 1 /\
    same_frame E E'.
Proof.
  intros (Hsy & Hn & Hok) Hat Hlf. unfold editorInsertRow.
  replace ((at_ <? 0) || (at_ >? numrows E)) with false
    by (symmetry; apply orb_false_iff; split; lia).
  set (fresh := mkRow at_ (len s) 0 s [] [] false).
  set (rows := firstn (Z.to_nat at_) (row E) ++ fresh
                 :: map (add_idx 1) (skipn (Z.to_nat at_) (row E))).
  assert (Hlen : len rows = len (row E) + 1).
  { unfold rows. rewrite len_app, len_cons, len_map, len_firstn, len_skipn; lia. }
  destruct (editorUpdateRow_ok (set_rows E rows) at_)
    as (E' & HE' & Heq & Hl & Hrows).
  - exact Hsy.
  - cbn. lia.
  - cbn. lia.
  - intros j x Hx. cbn [row set_rows] in Hx. unfold rows in Hx.
    rewrite nth_error_insert in Hx by (unfold len in *; lia).
    destruct (Nat.ltb_spec j (Z.to_nat at_)).
    + destruct (Hok _ _ Hx). split; [auto|]. split; [auto|]. intros; lia.
    + destruct (Nat.eqb_spec j (Z.to_nat at_)) as [->|].
      * inversion Hx; subst x. cbn. split; [lia|]. split; [intros; lia|].
        intros _; split; auto.
      * destruct (nth_error (row E) (j - 1)) as [y|] eqn:Ey; [|discriminate].
        inversion Hx; subst x. destruct (Hok _ _ Ey) as [Hi Hr]. cbn.
        split; [lia|]. split; [intros _; exact Hr|]. intros; lia.
  - rewrite HE'. cbn [bind]. eexists. split; [reflexivity|].
    assert (Hl' : len (row E') = len rows).
    { unfold lines in Hl. cbn in Hl.
      rewrite <- (len_map chars), Hl, len_map. reflexivity. }
    split; [|split; [|split; [|split]]].
    + split; [rewrite Heq; exact Hsy|]. split; [|exact Hrows].
      rewrite Heq. cbn. lia.
    + change (lines E' = firstn (Z.to_nat at_) (lines E) ++ s
                 :: skipn (Z.to_nat at_) (lines E)).
      rewrite Hl. unfold lines. cbn [row set_rows]. unfold rows.
      rewrite map_app. cbn [map]. rewrite map_chars_add_idx.
      rewrite firstn_map, skipn_map. reflexivity.
    + rewrite Heq. reflexivity.
    + rewrite Heq. reflexivity.
    + rewrite Heq. unfold same_frame. cbn. tauto.
Qed.

(* ----------------------------------------------------------------- *)
(** ** Editing the characters of a row *)

Lemma rowInsertChar_ok E p at_ c :
  buf_ok E -> 0 <= p < numrows E -> int_to_char c <> LF ->
  exists E', rowInsertChar E p at_ c = Ok E' /\ buf_ok E' /\
    lines E' = upd (lines E) (Z.to_nat p) (ins_char (line_at E p) at_ c) /\
    numrows E' = numrows E /\ dirty E' = dirty E + 1 /\ same_frame E E'.
Proof.
  intros Hb Hp Hc. unfold rowInsertChar.
  destruct (buf_ok_row E p Hb Hp) as (r & Hr & Hnth & Hidx & Hok).
  rewrite Hr. cbn [bind].
  destruct Hok as (Hsz & _ & _ & _ & Hlf).
  rewrite (line_at_row _ _ _ Hnth).
  destruct (row_edit_ok E p r (ins_char (chars r) at_ c) (size r + 1))
    as (E' & HE' & Hb' & Hl & Heq); auto.
  - unfold ins_char. apply noLF_app; [apply noLF_firstn; auto|].
    apply noLF_cons; [auto|apply noLF_skipn; auto].
  - rewrite len_ins_char. lia.
  - unfold ins_char in HE'. rewrite <- Hsz in HE'. rewrite HE'. cbn [bind].
    eexists. split; [reflexivity|]. split; [|split; [|split; [|split]]].
    + destruct Hb' as (?&?&?). split; [|split]; auto.
    + exact Hl.
    + rewrite Heq. reflexivity.
    + rewrite Heq. reflexivity.
    + rewrite Heq. unfold same_frame. cbn. tauto.
Qed.

Lemma rowAppendString_ok E p s :
  buf_ok E -> 0 <= p < numrows E -> noLF s ->
  exists E', rowAppendString E p s = Ok E' /\ buf_ok E' /\
    lines E' = upd (lines E) (Z.to_nat p) (line_at E p ++ s) /\
    numrows E' = numrows E /\ dirty E' = dirty E + 1 /\ same_frame E E'.
Proof.
  intros Hb Hp Hc. unfold rowAppendString.
  destruct (buf_ok_row E p Hb Hp) as (r & Hr & Hnth & Hidx & Hok).
  rewrite Hr. cbn [bind].
  destruct Hok as (Hsz & _ & _ & _ & Hlf).
  rewrite (line_at_row _ _ _ Hnth).
  assert (Hfn : firstn (Z.to_nat (size r)) (chars r) = chars r).
  { apply firstn_all2. unfold len in Hsz. lia. }
  rewrite Hfn.
  destruct (row_edit_ok E p r (chars r ++ s) (size r + len s))
    as (E' & HE' & Hb' & Hl & Heq); auto.
  - apply noLF_app; auto.
  - rewrite len_app. lia.
  - rewrite HE'. cbn [bind].
    eexists. split; [reflexivity|]. split; [|split; [|split; [|split]]].
    + destruct Hb' as (?&?&?). split; [|split]; auto.
    + exact Hl.
    + rewrite Heq. reflexivity.
    + rewrite Heq. reflexivity.
    + rewrite Heq. unfold same_frame. cbn. tauto.
Qed.

Lemma rowDelChar_ok E p at_ :
  buf_ok E -> 0 <= p < numrows E -> 0 <= at_ < len (line_at E p) ->
  exists E', rowDelChar E p at_ = Ok E' /\ buf_ok E' /\
    lines E' = upd (lines E) (Z.to_nat p) (del_char (line_at E p) at_) /\
    numrows E' = numrows E /\ dirty E' = dirty E + 1 /\ same_frame E E'.
Proof.
  intros Hb Hp Hat. unfold rowDelChar.
  destruct (buf_ok_row E p Hb Hp) as (r & Hr & Hnth & Hidx & Hok).
  rewrite Hr. cbn [bind].
  destruct Hok as (Hsz & _ & _ & _ & Hlf).
  rewrite (line_at_row _ _ _ Hnth) in *.
  replace ((at_ <? 0) || (at_ >=? size r)) with false
    by (symmetry; apply orb_false_iff; split; lia).
  destruct (row_edit_ok E p r (del_char (chars r) at_) (size r - 1))
    as (E' & HE' & Hb' & Hl & Heq); auto.
  - unfold del_char. apply noLF_app; [apply noLF_firstn|apply noLF_skipn]; auto.
  - rewrite len_del_char; lia.
  - unfold del_char in HE'. rewrite HE'. cbn [bind].
    eexists. split; [reflexivity|]. split; [|split; [|split; [|split]]].
    + destruct Hb' as (?&?&?). split; [|split]; auto.
    + exact Hl.
    + rewrite Heq. reflexivity.
    + rewrite Heq. reflexivity.
    + rewrite Heq. unfold same_frame. cbn. tauto.
Qed.

(* ----------------------------------------------------------------- *)
(** ** Editor operations keep the editor invariant *)

Lemma editorInsertChar_ok E c :
  ed_ok E -> int_to_char c <> LF ->
  exists E', editorInsertChar E c = Ok E' /\ ed_ok E'.
Proof.
  intros (Hb & (Hcy & Hcx) & Hv) Hc. unfold editorInsertChar.
  assert (H1 : exists E1, (if cy E =? numrows E then editorInsertRow E (numrows E) []
                           else Ok E) = Ok E1 /\ buf_ok E1 /\ same_frame E E1 /\
                 cy E < numrows E1 /\ cx E <= len (line_at E1 (cy E))).
  { destruct (Z.eqb_spec (cy E) (numrows E)) as [He|Hne].
    - destruct (editorInsertRow_ok E (numrows E) []) as (E1 & H1 & Hb1 & Hl1 & Hn1 & _ & Hf1);
        auto; [lia|constructor|].
      exists E1. split; [exact H1|]. split; [exact Hb1|].
      split; [exact Hf1|]. split; [lia|].
      unfold line_at in *. rewrite Hl1.
      pose proof (buf_ok_lines_len E Hb) as HL.
      rewrite nth_line_insert by lia.
      rewrite nth_line_out in Hcx by lia.
      rewrite He, Z.ltb_irrefl, Z.eqb_refl. exact (proj2 Hcx).
    - exists E. split; [reflexivity|]. split; [exact Hb|].
      split; [apply same_frame_refl|]. split; lia. }
  destruct H1 as (E1 & -> & Hb1 & Hf1 & Hcy1 & Hcx1). cbn [bind].
  pose proof Hf1 as (Fx & Fy & _).
  destruct (rowInsertChar_ok E1 (cy E1) (cx E1) c) as (E2 & -> & Hb2 & Hl2 & Hn2 & _ & Hf2);
    auto; [lia|]. cbn [bind].
  pose proof Hf2 as (Gx & Gy & _).
  eexists. split; [reflexivity|]. apply ed_ok_intro; auto.
  - eapply view_ok_frame; [exact Hf2|]. eapply view_ok_frame; eauto.
  - lia.
  - rewrite Hl2, Gy, Gx, Fy, Fx.
    rewrite nth_line_upd_same by (rewrite buf_ok_lines_len; auto; lia).
    rewrite len_ins_char. unfold line_at in *. lia.
Qed.

Lemma editorInsertNewline_ok E :
  ed_ok E -> exists E', editorInsertNewline E = Ok E' /\ ed_ok E'.
Proof.
  intros (Hb & (Hcy & Hcx) & Hv). unfold editorInsertNewline.
  pose proof (buf_ok_lines_len E Hb) as HL.
  destruct (Z.eqb_spec (cx E) 0) as [Hx0|Hx0].
  - destruct (editorInsertRow_ok E (cy E) []) as (E1 & -> & Hb1 & Hl1 & Hn1 & _ & Hf1);
      auto; [constructor|]. cbn [bind].
    pose proof Hf1 as (Fx & Fy & _).
    eexists. split; [reflexivity|]. apply ed_ok_intro; auto.
    + eapply view_ok_frame; eauto.
    + lia.
    + pose proof (len_nonneg (nth_line (lines E1) (cy E1 + 1))). lia.
  - assert (Hlt : cy E < numrows E).
    { destruct (Z.eq_dec (cy E) (numrows E)) as [He|]; [|lia].
      unfold line_at in Hcx. rewrite nth_line_out in Hcx by lia.
      change (len (@nil ascii)) with 0 in Hcx. lia. }
    destruct (buf_ok_row E (cy E) Hb) as (r & -> & Hnth & Hidx & Hok); [lia|].
    cbn [bind]. pose proof Hok as (Hsz & _ & _ & _ & Hlf).
    rewrite (line_at_row _ _ _ Hnth) in Hcx.
    rewrite (sub_chars_ok r (cx E) (size r - cx E)) by lia. cbn [bind].
    destruct (editorInsertRow_ok E (cy E + 1) (skipn (Z.to_nat (cx E)) (chars r)))
      as (E1 & -> & Hb1 & Hl1 & Hn1 & _ & Hf1); auto; [lia|apply noLF_skipn; auto|].
    cbn [bind]. pose proof Hf1 as (Fx & Fy & _).
    assert (Hline : line_at E1 (cy E1) = chars r).
    { unfold line_at. rewrite Hl1, Fy, nth_line_insert by lia.
      replace (cy E <? cy E + 1) with true by (symmetry; lia).
      apply (line_at_row _ _ _ Hnth). }
    destruct (buf_ok_row E1 (cy E1) Hb1) as (r1 & -> & Hnth1 & Hidx1 & Hok1); [lia|].
    cbn [bind]. rewrite (line_at_row _ _ _ Hnth1) in Hline.
    destruct (row_edit_ok E1 (cy E1) r1 (firstn (Z.to_nat (cx E1)) (chars r1)) (cx E1))
      as (E2 & HE2 & Hb2 & Hl2 & Heq2); auto; [lia| | |].
    + apply noLF_firstn. rewrite Hline. auto.
    + rewrite len_firstn; [lia|]. rewrite Hline, Fx. lia.
    + rewrite HE2. cbn [bind]. eexists. split; [reflexivity|].
      assert (Hn2 : numrows E2 = numrows E1) by (rewrite Heq2; reflexivity).
      assert (Hy2 : cy E2 = cy E1) by (rewrite Heq2; reflexivity).
      apply ed_ok_intro; auto.
      * rewrite Heq2. eapply view_ok_frame; eauto.
      * lia.
      * pose proof (len_nonneg (nth_line (lines E2) (cy E2 + 1))). lia.
Qed.

Lemma editorDelChar_ok E :
  ed_ok E -> exists E', editorDelChar E = Ok E' /\ ed_ok E'.
Proof.
  intros HE. pose proof HE as (Hb & (Hcy & Hcx) & Hv). unfold editorDelChar.
  pose proof (buf_ok_lines_len E Hb) as HL.
  destruct (Z.eqb_spec (cy E) (numrows E)); [eauto|].
  destruct (_ && _) eqn:H0; [eauto|].
  destruct (buf_ok_row E (cy E) Hb) as (r & -> & Hnth & Hidx & Hok); [lia|].
  cbn [bind]. pose proof Hok as (Hsz & _ & _ & _ & Hlf).
  pose proof (line_at_row _ _ _ Hnth) as Hline.
  destruct (Z.gtb_spec (cx E) 0) as [Hx|Hx].
  - destruct (rowDelChar_ok E (cy E) (cx E - 1)) as (E1 & -> & Hb1 & Hl1 & Hn1 & _ & Hf1);
      auto; [lia|lia|]. cbn [bind]. pose proof Hf1 as (Fx & Fy & _).
    eexists. split; [reflexivity|]. apply ed_ok_intro; auto.
    + eapply view_ok_frame; eauto.
    + lia.
    + rewrite Hl1, Fy, Fx, nth_line_upd_same by lia.
      rewrite len_del_char by lia. lia.
  - assert (Hy : 1 <= cy E).
    { apply andb_false_iff in H0. destruct H0 as [H0|H0]; lia. }
    destruct (buf_ok_row E (cy E - 1) Hb) as (prev & -> & Hnthp & Hidxp & Hokp); [lia|].
    cbn [bind]. pose proof Hokp as (Hszp & _).
    pose proof (line_at_row _ _ _ Hnthp) as Hlinep.
    pose proof (len_nonneg (chars r)) as Hrn.
    rewrite (sub_chars_ok r 0 (size r)) by lia. cbn [skipn Z.to_nat bind].
    destruct (rowAppendString_ok (set_cursor E (size prev) (cy E)) (cy E - 1) (chars r))
      as (E1 & HE1 & Hb1 & Hl1 & Hn1 & _ & Hf1); auto; [cbn; lia|].
    change (cy (set_cursor E (size prev) (cy E))) with (cy E).
    rewrite HE1. cbn [bind]. pose proof Hf1 as (Fx & Fy & _). cbn in Fx, Fy.
    change (numrows (set_cursor E (size prev) (cy E))) with (numrows E) in Hn1.
    change (lines (set_cursor E (size prev) (cy E))) with (lines E) in Hl1.
    change (line_at (set_cursor E (size prev) (cy E)) (cy E - 1))
      with (line_at E (cy E - 1)) in Hl1.
    pose proof (buf_ok_lines_len E1 Hb1) as HL1.
    destruct (editorDelRow_ok E1 (cy E1)) as (E2 & -> & Hb2 & Hl2 & Hn2 & _ & Hf2);
      auto; [lia|]. cbn [bind]. pose proof Hf2 as (Gx & Gy & _).
    eexists. split; [reflexivity|]. apply ed_ok_intro; auto.
    + eapply view_ok_frame; [exact Hf2|]. eapply view_ok_frame; [exact Hf1|]. exact Hv.
    + lia.
    + rewrite Hl2, Gy, Gx, Fy, Fx. rewrite nth_line_delete by lia.
      rewrite Hl1, nth_line_upd_same by lia.
      rewrite len_app, Hlinep. pose proof (len_nonneg (chars prev)). lia.
Qed.

(* ----------------------------------------------------------------- *)
(** ** Filetype selection *)

Lemma editorUpdateSyntax_ed_ok E p :
  ed_ok E -> 0 <= p < numrows E ->
  exists E', editorUpdateSyntax E p = Ok E' /\ ed_ok E' /\ same_text E E' /\
             syntax E' = syntax E.
Proof.
  intros HE Hp. pose proof HE as ((Hsy & Hn & Hok) & _).
  destruct (editorUpdateSyntax_ok E p) as (E' & HE' & Hsim & _); auto; try lia.
  - intros j r Hj Hr. destruct (Hok _ _ Hr) as [Hi (_&Hrs&_)]. auto.
  - exists E'. split; [exact HE'|].
    destruct (ed_sim_ed_ok _ _ Hsim HE). split; [auto|]. split; [auto|].
    destruct Hsim as (_&_&_&_&_&_&_&_&_&_&L&_). exact L.
Qed.

Lemma update_all_syntax_ok n : forall E r,
  ed_ok E -> 0 <= r -> r + Z.of_nat n <= numrows E ->
  exists E', update_all_syntax n E r = Ok E' /\ ed_ok E' /\ same_text E E' /\
             syntax E' = syntax E.
Proof.
  induction n as [|n IH]; intros E r HE Hr Hn; cbn [update_all_syntax].
  - exists E. split; [reflexivity|]. split; [auto|].
    split; [apply same_text_refl|reflexivity].
  - destruct (editorUpdateSyntax_ed_ok E r HE) as (E1 & -> & H1 & Ht1 & Hs1); [lia|].
    cbn [bind]. pose proof Ht1 as (_ & Hn1 & _).
    destruct (IH E1 (r + 1) H1) as (E2 & -> & H2 & Ht2 & Hs2); [lia|lia|].
    exists E2. split; [reflexivity|]. split; [auto|].
    split; [eapply same_text_trans; eauto|congruence].
Qed.

Lemma editorSelectSyntax_ok E :
  ed_ok E ->
  exists E', editorSelectSyntax E = Ok E' /\ ed_ok E' /\ same_text E E'.
Proof.
  intros HE. unfold editorSelectSyntax.
  assert (H0 : ed_ok (set_syntax E None)) by (apply ed_ok_set_syntax; auto).
  destruct (filename (set_syntax E None)) as [fname|].
  - destruct (List.find _ HLDB) as [s|] eqn:Hf.
    + apply find_some in Hf as [Hin _].
      assert (H1 : ed_ok (set_syntax (set_syntax E None) (Some s))).
      { apply ed_ok_set_syntax; auto. apply HLDB_wf; auto. }
      destruct (update_all_syntax_ok
                  (Z.to_nat (numrows (set_syntax (set_syntax E None) (Some s))))
                  _ 0 H1) as (E' & -> & H' & Ht & _); [lia| |].
      * destruct H1 as ((_ & Hn & _) & _). rewrite Hn. pose proof (len_nonneg (row (set_syntax (set_syntax E None) (Some s)))). lia.
      * exists E'. split; [reflexivity|]. split; [auto|].
        eapply same_text_trans; [|exact Ht]. unfold same_text. tauto.
    + exists (set_syntax E None). split; [reflexivity|]. split; [auto|].
      unfold same_text. tauto.
  - exists (set_syntax E None). split; [reflexivity|]. split; [auto|].
    unfold same_text. tauto.
Qed.

Lemma editorInsertRow_end_ok E s :
  ed_ok E -> noLF s ->
  exists E', editorInsertRow E (numrows E) s = Ok E' /\ ed_ok E' /\
    lines E' = lines E ++ [s] /\ filename E' = filename E.
Proof.
  intros (Hb & (Hcy & Hcx) & Hv) Hs.
  pose proof (buf_ok_lines_len E Hb) as HL. pose proof (len_nonneg (lines E)).
  destruct (editorInsertRow_ok E (numrows E) s) as (E' & HE' & Hb' & Hl & Hn & _ & Hf);
    auto; [lia|].
  assert (Hl' : lines E' = lines E ++ [s]).
  { rewrite Hl. rewrite firstn_all2, skipn_all2 by (unfold len in HL; lia).
    reflexivity. }
  exists E'. split; [exact HE'|]. pose proof Hf as (Fx & Fy & _ & _ & _ & _ & _ & Ffn & _).
  split; [|split; auto].
  split; [exact Hb'|]. split; [|eapply view_ok_frame; eauto].
  split; [lia|]. rewrite Fx, Fy. unfold line_at in *. rewrite Hl.
  rewrite nth_line_insert by lia.
  destruct (Z.ltb_spec (cy E) (numrows E)); [exact Hcx|].
  replace (cy E =? numrows E) with true by (symmetry; lia).
  rewrite nth_line_out in Hcx by lia. change (len (@nil ascii)) with 0 in Hcx.
  pose proof (len_nonneg s). lia.
Qed.

(* ----------------------------------------------------------------- *)
(** ** Loading and flattening *)

Lemma open_fold_ok ls : forall E,
  ed_ok E -> Forall line_shape ls ->
  exists E', fold_left open_step ls (Ok E) = Ok E' /\ ed_ok E' /\
    lines E' = lines E ++ map strip ls /\ filename E' = filename E.
Proof.
  induction ls as [|l ls IH]; intros E HE Hs; cbn [fold_left map].
  - exists E. rewrite app_nil_r. auto.
  - inversion Hs as [|? ? Hl Hrest]; subst.
    destruct (editorInsertRow_end_ok E (strip l) HE) as (E1 & H1 & HE1 & Hl1 & Hf1);
      [apply strip_noLF; auto|].
    unfold open_step at 2. cbn [bind]. fold (strip l). rewrite H1.
    destruct (IH E1 HE1 Hrest) as (E2 & -> & HE2 & Hl2 & Hf2).
    exists E2. split; [reflexivity|]. split; [auto|].
    rewrite Hl2, Hl1, <- app_assoc. split; [reflexivity|congruence].
Qed.

Lemma editorOpen_ok E fname file :
  ed_ok E ->
  match editorOpen E fname file with
  | Ok E' => ed_ok E' /\ dirty E' = 0 /\ filename E' = Some fname /\
             exists data, file = Some data /\
               lines E' = lines E ++ map strip (getlines data [])
  | Exited _ => file = None
  | _ => False
  end.
Proof.
  intros HE. unfold editorOpen.
  destruct (editorSelectSyntax_ok (set_filename E (Some fname)))
    as (E1 & -> & HE1 & Ht1); [exact HE|]. cbn [bind].
  destruct file as [data|]; [|reflexivity].
  destruct (open_fold_ok (getlines data []) E1 HE1) as (E2 & H2 & HE2 & Hl2 & Hf2).
  { apply getlines_shape. constructor. }
  change (fold_left _ (getlines data []) (Ok E1))
    with (fold_left open_step (getlines data []) (Ok E1)).
  rewrite H2. cbn [bind]. split; [exact HE2|]. split; [reflexivity|].
  destruct Ht1 as (Hl1 & _ & _ & Hfn1). split.
  - change (filename E2 = Some fname). rewrite Hf2, Hfn1. reflexivity.
  - exists data. split; [reflexivity|].
    change (lines E2 = lines E ++ map strip (getlines data [])).
    rewrite Hl2, Hl1. reflexivity.
Qed.

(* ----------------------------------------------------------------- *)
(** ** Key presses and the main loop *)

Lemma editorSave_ok keys writes w :
  normal w -> safe (step_post keys) (editorSave keys writes w).
Proof.
  intros HN. unfold editorSave.
  eapply safe_bind with
    (P := fun '(go, w1, keys1) => normal w1 /\ suffix keys1 keys).
  - destruct (filename (ed w)).
    + cbn. split; [auto|apply suffix_refl].
    + eapply safe_bind; [apply editorPrompt_none_ok; exact HN|].
      intros [[name w'] keys'] ([HE' Hf'] & _ & Hs & _).
      destruct name as [n|]; [|cbn; split; [split|]; auto].
      destruct (editorSelectSyntax_ok (set_filename (ed w') (Some n)))
        as (E' & -> & HE2 & _); [exact HE'|].
      cbn. split; [split|]; auto.
  - intros [[go w1] keys1] [[HE1 Hf1] Hs]. destruct go; [|cbn; split; [split|]; auto].
    destruct writes as [|[|] writes']; cbn; split; auto; split; auto.
Qed.

Lemma editorProcessKeypress_ok c keys writes w :
  normal w -> rowoff (ed w) <= cy (ed w) -> key_ok c ->
  safe (step_post keys) (editorProcessKeypress c keys writes w).
Proof.
  intros HN Hrc Hk. pose proof HN as [HE Hf].
  pose proof HE as (Hb & (Hcy & Hcx) & (Hro & Hsr)).
  unfold editorProcessKeypress.
  set (done := fun r : Res Editor =>
         E' <- r ;; Ok (mkWorld E' QUIT_TIMES (find w), keys, writes)).
  assert (Hdone : forall r, (exists E', r = Ok E' /\ ed_ok E') ->
            safe (step_post keys) (done r)).
  { intros r (E' & -> & HE'). cbn. split; [split; auto|apply suffix_refl]. }
  destruct (c =? KEY_ENTER). { apply Hdone, editorInsertNewline_ok, HE. }
  destruct (c =? CTRL_KEY "q").
  { destruct (_ && _); cbn; [|exact I]. split; [split; auto|apply suffix_refl]. }
  destruct (c =? CTRL_KEY "s").
  { eapply safe_bind; [apply editorSave_ok; exact HN|].
    intros [[w1 k1] wr1] [[H1 H2] H3]. cbn. split; [split|]; auto. }
  destruct (c =? CTRL_KEY "f").
  { eapply safe_bind; [apply editorFind_ok; exact HN|].
    intros [w1 k1] [[H1 H2] H3]. cbn. split; [split|]; auto. }
  destruct (c =? KEY_HOME).
  { apply Hdone. eexists. split; [reflexivity|]. apply ed_ok_intro; auto.
    - split; auto.
    - pose proof (len_nonneg (nth_line (lines (ed w)) (cy (ed w)))). lia. }
  destruct (c =? KEY_END).
  { apply Hdone. destruct (Z.ltb_spec (cy (ed w)) (numrows (ed w))); [|eauto].
    destruct (buf_ok_row (ed w) (cy (ed w)) Hb) as (r & -> & Hnth & _ & (Hsz & _));
      [lia|]. cbn [bind]. eexists. split; [reflexivity|].
    apply ed_ok_intro; auto; [split; auto|].
    fold (line_at (ed w) (cy (ed w))). rewrite (line_at_row _ _ _ Hnth).
    pose proof (len_nonneg (chars r)). lia. }
  destruct (_ || _).
  { apply Hdone.
    assert (H1 : exists E1, (if c =? KEY_DEL then editorMoveCursor (ed w) KEY_ARROW_RIGHT
                              else Ok (ed w)) = Ok E1 /\ ed_ok E1).
    { destruct (c =? KEY_DEL); [|eauto].
      destruct (editorMoveCursor_ok (ed w) KEY_ARROW_RIGHT) as (E1 & -> & H1 & _);
        auto; [split; auto|lia|eauto]. }
    destruct H1 as (E1 & -> & HE1). cbn [bind]. apply editorDelChar_ok, HE1. }
  destruct (_ || _).
  { match goal with |- context [move_times _ ?E _] => set (E1 := E) end.
    assert (Hs1 : screenrows E1 = screenrows (ed w))
      by (unfold E1; destruct (c =? KEY_PAGE_UP); reflexivity).
    rewrite Hs1.
    replace (screenrows (ed w) <? 0) with false by (symmetry; lia).
    apply Hdone.
    destruct (Z.to_nat (screenrows (ed w))) as [|n] eqn:En; [lia|].
    cbn [move_times].
    assert (Hy : 0 <= cy E1 <= numrows (ed w)).
    { unfold E1. destruct (c =? KEY_PAGE_UP); cbn [cy set_cursor]; [lia|].
      destruct (_ >? _) eqn:G; lia. }
    assert (Hx : cx E1 = cx (ed w)) by (unfold E1; destruct (c =? KEY_PAGE_UP); reflexivity).
    assert (Hb1 : buf_ok E1) by (unfold E1; destruct (c =? KEY_PAGE_UP); exact Hb).
    assert (Hv1 : view_ok E1)
      by (unfold E1; destruct (c =? KEY_PAGE_UP); split; assumption).
    assert (Hn1 : numrows E1 = numrows (ed w))
      by (unfold E1; destruct (c =? KEY_PAGE_UP); reflexivity).
    destruct (editorMoveCursor_ok E1
                (if c =? KEY_PAGE_UP then KEY_ARROW_UP else KEY_ARROW_DOWN))
      as (E2 & -> & H2 & _); auto; [lia|lia|]. cbn [bind].
    destruct (move_times_ok n E2
                (if c =? KEY_PAGE_UP then KEY_ARROW_UP else KEY_ARROW_DOWN) H2)
      as (E3 & -> & H3 & _). eauto. }
  destruct (_ || _).
  { apply Hdone.
    destruct (editorMoveCursor_ok (ed w) c) as (E1 & -> & H1 & _); auto;
      [split; auto|lia|eauto]. }
  destruct (_ || _). { apply Hdone. eauto. }
  apply Hdone. destruct (_ && _) eqn:Hp; [|eauto].
  apply andb_true_iff in Hp as [Hp1 Hp2].
  apply negb_true_iff in Hp1. apply Z.ltb_lt in Hp2.
  apply editorInsertChar_ok; [exact HE|].
  apply int_to_char_not_LF; auto. destruct Hk; lia.
Qed.

Lemma main_loop_ok : forall fuel keys writes w,
  normal w -> Forall key_ok keys -> (length keys < fuel)%nat ->
  safe (fun _ => False) (main_loop fuel keys writes w).
Proof.
  induction fuel as [|fuel IH]; intros keys writes w HN Hk Hf; [lia|].
  cbn [main_loop]. unfold editorRefreshScreen.
  destruct HN as [HE Hfd].
  destruct (editorScroll_ok (ed w) HE)
    as (E1 & -> & HE1 & Hrc & _). cbn [bind].
  assert (HN1 : normal (with_ed w E1)) by (split; auto).
  destruct keys as [|c rest]; [cbn; apply normal_good; exact HN1|].
  inversion Hk as [|? ? Hc Hrest]; subst.
  eapply safe_bind; [apply editorProcessKeypress_ok; auto|].
  intros [[w2 keys2] writes2] [H2 Hs]. apply IH; auto.
  - eapply suffix_Forall; eauto.
  - apply suffix_length in Hs. cbn [length] in Hf. lia.
Qed.

Lemma main_ok rows cols arg keys writes :
  3 <= rows -> Forall key_ok keys ->
  safe (fun _ => False) (main rows cols arg keys writes).
Proof.
  intros Hr Hk. unfold main.
  destruct (initEditor_ok rows cols Hr) as [H0 Hf0].
  eapply safe_bind with (P := normal).
  - destruct arg as [[fname file]|]; [|split; auto].
    pose proof (editorOpen_ok (ed (initEditor rows cols)) fname file H0) as Ho.
    destruct (editorOpen _ fname file); cbn; try contradiction; auto.
    split; [apply Ho|reflexivity].
  - intros w1 H1. apply main_loop_ok; auto.
Qed.

Lemma reachable_good w : reachable w -> good w.
Proof.
  intros (rows & cols & arg & keys & writes & Hr & Hk & Hm).
  pose proof (main_ok rows cols arg keys writes Hr Hk) as H.
  rewrite Hm in H. exact H.
Qed.

(* ----------------------------------------------------------------- *)
(** ** Column mapping *)

Lemma other_key_resets c keys writes w w' keys' writes' :
  c <> quit_key ->
  editorProcessKeypress c keys writes w = Ok (w', keys', writes') ->
  quit_times w' = QUIT_TIMES.
Proof.
  intros Hc. unfold editorProcessKeypress.
  assert (Hdone : forall r : Res Editor,
    (E' <- r ;; Ok (mkWorld E' QUIT_TIMES (find w), keys, writes))
      = Ok (w', keys', writes') -> quit_times w' = QUIT_TIMES).
  { intros [E'| | | |]; cbn; try discriminate.
    intros H; inversion H; subst; reflexivity. }
  destruct (c =? KEY_ENTER); [apply Hdone|].
  destruct (Z.eqb_spec c (CTRL_KEY "q")); [contradiction|].
  destruct (c =? CTRL_KEY "s").
  { destruct (editorSave keys writes w) as [[[w1 k1] wr1]| | | |]; cbn;
      try discriminate. intros H; inversion H; subst; reflexivity. }
  destruct (c =? CTRL_KEY "f").
  { destruct (editorFind keys w) as [[w1 k1]| | | |]; cbn;
      try discriminate. intros H; inversion H; subst; reflexivity. }
  destruct (c =? KEY_HOME); [apply Hdone|].
  destruct (c =? KEY_END); [apply Hdone|].
  destruct (_ || _); [apply Hdone|].
  destruct (_ || _).
  { destruct (_ <? 0); [discriminate|apply Hdone]. }
  destruct (_ || _); [apply Hdone|].
  destruct (_ || _); [apply Hdone|].
  apply Hdone.
Qed.

(* ----------------------------------------------------------------- *)
(** ** Derived row state and row indices *)

Lemma reload_ok E rows cols fname :
  buf_ok E -> Forall no_trailing_CR (lines E) -> 3 <= rows ->
  exists E', editorOpen (ed (initEditor rows cols)) fname
               (Some (fst (editorRowsToString E))) = Ok E' /\
             lines E' = lines E.
Proof.
  intros Hb Hcr Hr.
  pose proof (editorOpen_ok (ed (initEditor rows cols)) fname
                (Some (fst (editorRowsToString E)))
                (proj1 (initEditor_ok rows cols Hr))) as Ho.
  destruct (editorOpen _ _ _) as [E'| | | |]; try contradiction; try discriminate.
  exists E'. split; [reflexivity|].
  destruct Ho as (_ & _ & _ & data & Hd & Hl).
  assert (Hdd : data = fst (editorRowsToString E)) by congruence.
  rewrite Hdd in Hl. rewrite Hl.
  rewrite editorRowsToString_lines by exact Hb.
  change (lines (ed (initEditor rows cols))) with (@nil (list ascii)).
  cbn [app]. apply reload_lines; [apply buf_ok_noLF|]; auto.
Qed.

Lemma loaded_no_trailing_CR rows cols fname data w :
  3 <= rows ->
  main rows cols (Some (fname, Some data)) [] [] = Waiting w ->
  Forall no_trailing_CR (lines (ed w)) /\ dirty (ed w) = 0.
Proof.
  intros Hr Hm. unfold main in Hm.
  pose proof (editorOpen_ok (ed (initEditor rows cols)) fname (Some data)
                (proj1 (initEditor_ok rows cols Hr))) as Ho.
  destruct (editorOpen _ _ _) as [E1| | | |]; try contradiction; try discriminate.
  cbn [bind length main_loop] in Hm. unfold editorRefreshScreen in Hm.
  destruct Ho as (HE1 & Hd1 & _ & d & Hd & Hl). inversion Hd; subst d.
  destruct (editorScroll_ok E1 HE1) as (E2 & HE2 & _ & _ & Hl2 & _ & _ & _ & Hd2 & _).
  cbn [ed with_ed] in Hm. rewrite HE2 in Hm. cbn [bind] in Hm.
  inversion Hm; subst w. cbn [ed with_ed]. split; [|congruence].
  rewrite Hl2, Hl. cbn [app]. apply Forall_forall. intros l Hin.
  apply in_map_iff in Hin as (x & <- & _). apply strip_no_trailing_CR.
Qed.

(* ----------------------------------------------------------------- *)
(** ** What the editing operations do to the lines *)

(** The text and the cursor after [editorInsertChar]. *)
Lemma editorInsertChar_lines E c :
  ed_ok E -> int_to_char c <> LF ->
  exists E', editorInsertChar E c = Ok E' /\ ed_ok E' /\ same_window E E' /\
    cx E' = cx E + 1 /\ cy E' = cy E /\
    (cy E < numrows E ->
       lines E' = upd (lines E) (Z.to_nat (cy E))
                    (line_with (line_at E (cy E)) (cx E) (int_to_char c)) /\
       numrows E' = numrows E /\ dirty E' = dirty E + 1) /\
    (cy E = numrows E ->
       lines E' = lines E ++ [[int_to_char c]] /\
       numrows E' = numrows E + 1 /\ dirty E' = dirty E + 2).
Proof.
  intros HE Hc. pose proof HE as (Hb & (Hcy & Hcx) & Hv).
  pose proof (buf_ok_lines_len E Hb) as HL.
  destruct (editorInsertChar_ok E c HE Hc) as (E' & HE' & Hok').
  exists E'. split; [exact HE'|]. split; [exact Hok'|].
  unfold editorInsertChar in HE'.
  destruct (Z.eqb_spec (cy E) (numrows E)) as [He|Hne].
  - destruct (editorInsertRow_ok E (numrows E) [])
      as (E1 & H1 & Hb1 & Hl1 & Hn1 & Hd1 & Hf1); auto; [lia|constructor|].
    rewrite H1 in HE'. cbn [bind] in HE'.
    pose proof Hf1 as (Fx & Fy & _).
    rewrite insert_at_end in Hl1 by (unfold len in HL; lia).
    unfold line_at in Hcx. rewrite nth_line_out in Hcx by lia.
    change (len (@nil ascii)) with 0 in Hcx.
    destruct (rowInsertChar_ok E1 (cy E1) (cx E1) c)
      as (E2 & H2 & Hb2 & Hl2 & Hn2 & Hd2 & Hf2); auto; [lia|].
    rewrite H2 in HE'. cbn [bind] in HE'. inversion HE'; subst E'.
    pose proof Hf2 as (Gx & Gy & _).
    split.
    { eapply same_window_trans; [|apply same_window_set_cursor].
      eapply same_window_trans; apply same_window_frame; eassumption. }
    cbn [cx cy set_cursor]. split; [lia|]. split; [lia|].
    split; [lia|]. intros _.
    change (lines (set_cursor E2 (cx E2 + 1) (cy E2))) with (lines E2).
    change (numrows (set_cursor E2 (cx E2 + 1) (cy E2))) with (numrows E2).
    change (dirty (set_cursor E2 (cx E2 + 1) (cy E2))) with (dirty E2).
    split; [|lia].
    rewrite Hl2. unfold line_at, nth_line. rewrite Hl1, Fy, He.
    replace (Z.to_nat (numrows E)) with (length (lines E)) by (unfold len in HL; lia).
    rewrite nth_error_app2 by lia. rewrite Nat.sub_diag. cbn [nth_error].
    rewrite upd_app_last. do 2 f_equal.
    rewrite ins_char_line by (cbn; lia).
    unfold line_with. rewrite Fx. replace (cx E) with 0 by lia. reflexivity.
  - cbn [bind] in HE'.
    destruct (rowInsertChar_ok E (cy E) (cx E) c)
      as (E2 & H2 & Hb2 & Hl2 & Hn2 & Hd2 & Hf2); auto; [lia|].
    rewrite H2 in HE'. cbn [bind] in HE'. inversion HE'; subst E'.
    pose proof Hf2 as (Gx & Gy & _).
    split.
    { eapply same_window_trans; [|apply same_window_set_cursor].
      apply same_window_frame; eassumption. }
    cbn [cx cy set_cursor]. split; [lia|]. split; [lia|].
    split; [|lia]. intros _.
    change (lines (set_cursor E2 (cx E2 + 1) (cy E2))) with (lines E2).
    change (numrows (set_cursor E2 (cx E2 + 1) (cy E2))) with (numrows E2).
    change (dirty (set_cursor E2 (cx E2 + 1) (cy E2))) with (dirty E2).
    split; [|lia]. rewrite Hl2, ins_char_line by lia. reflexivity.
Qed.

(** The text and the cursor after [editorInsertNewline]. *)
Lemma editorInsertNewline_lines E :
  ed_ok E ->
  exists E', editorInsertNewline E = Ok E' /\ ed_ok E' /\ same_window E E' /\
    cx E' = 0 /\ cy E' = cy E + 1 /\
    numrows E' = numrows E + 1 /\ dirty E' = dirty E + 1 /\
    (cy E < numrows E -> lines E' = split_line (lines E) (cy E) (cx E)) /\
    (cy E = numrows E -> lines E' = lines E ++ [[]]).
Proof.
  intros HE. pose proof HE as (Hb & (Hcy & Hcx) & Hv).
  pose proof (buf_ok_lines_len E Hb) as HL.
  destruct (editorInsertNewline_ok E HE) as (E' & HE' & Hok').
  exists E'. split; [exact HE'|]. split; [exact Hok'|].
  unfold editorInsertNewline in HE'.
  destruct (Z.eqb_spec (cx E) 0) as [Hx0|Hx0].
  - destruct (editorInsertRow_ok E (cy E) [])
      as (E1 & H1 & Hb1 & Hl1 & Hn1 & Hd1 & Hf1); auto; [constructor|].
    rewrite H1 in HE'. cbn [bind] in HE'. inversion HE'; subst E'.
    pose proof Hf1 as (Fx & Fy & _).
    split.
    { eapply same_window_trans; [|apply same_window_set_cursor].
      apply same_window_frame; eassumption. }
    cbn [cx cy set_cursor]. split; [reflexivity|]. split; [lia|].
    change (lines (set_cursor E1 0 (cy E1 + 1))) with (lines E1).
    change (numrows (set_cursor E1 0 (cy E1 + 1))) with (numrows E1).
    change (dirty (set_cursor E1 0 (cy E1 + 1))) with (dirty E1).
    split; [lia|]. split; [lia|]. rewrite Hl1. split.
    + intros Hlt. unfold split_line. rewrite Hx0. cbn [Z.to_nat firstn skipn].
      f_equal. f_equal. apply skipn_nth_error. apply nth_line_nth_error. lia.
    + intros He. apply insert_at_end. unfold len in HL. lia.
  - assert (Hlt : cy E < numrows E).
    { destruct (Z.eq_dec (cy E) (numrows E)) as [He|]; [|lia].
      unfold line_at in Hcx. rewrite nth_line_out in Hcx by lia.
      change (len (@nil ascii)) with 0 in Hcx. lia. }
    destruct (buf_ok_row E (cy E) Hb) as (r & Hr & Hnth & Hidx & Hok); [lia|].
    rewrite Hr in HE'. cbn [bind] in HE'.
    pose proof Hok as (Hsz & _ & _ & _ & Hlf).
    pose proof (line_at_row _ _ _ Hnth) as Hlr. rewrite Hlr in Hcx.
    rewrite (sub_chars_ok r (cx E) (size r - cx E)) in HE' by lia.
    cbn [bind] in HE'.
    destruct (editorInsertRow_ok E (cy E + 1) (skipn (Z.to_nat (cx E)) (chars r)))
      as (E1 & H1 & Hb1 & Hl1 & Hn1 & Hd1 & Hf1); auto;
      [lia|apply noLF_skipn; auto|].
    rewrite H1 in HE'. cbn [bind] in HE'. pose proof Hf1 as (Fx & Fy & _).
    assert (Hline : line_at E1 (cy E1) = chars r).
    { unfold line_at. rewrite Hl1, Fy, nth_line_insert by lia.
      replace (cy E <? cy E + 1) with true by (symmetry; lia).
      apply (line_at_row _ _ _ Hnth). }
    destruct (buf_ok_row E1 (cy E1) Hb1) as (r1 & Hr1 & Hnth1 & Hidx1 & Hok1); [lia|].
    rewrite Hr1 in HE'. cbn [bind] in HE'.
    rewrite (line_at_row _ _ _ Hnth1) in Hline.
    destruct (row_edit_ok E1 (cy E1) r1 (firstn (Z.to_nat (cx E1)) (chars r1)) (cx E1))
      as (E2 & HE2 & Hb2 & Hl2 & Heq2); auto; [lia| | |].
    + apply noLF_firstn. rewrite Hline. auto.
    + rewrite len_firstn; [lia|]. rewrite Hline, Fx. lia.
    + rewrite HE2 in HE'. cbn [bind] in HE'. inversion HE'; subst E'.
      assert (Hn2 : numrows E2 = numrows E1) by (rewrite Heq2; reflexivity).
      assert (Hy2 : cy E2 = cy E1) by (rewrite Heq2; reflexivity).
      assert (Hd2 : dirty E2 = dirty E1) by (rewrite Heq2; reflexivity).
      split.
      { eapply same_window_trans; [|apply same_window_set_cursor].
        eapply same_window_trans; [apply same_window_frame; eassumption|].
        rewrite Heq2. unfold same_window. cbn. tauto. }
      cbn [cx cy set_cursor]. split; [reflexivity|]. split; [lia|].
      change (lines (set_cursor E2 0 (cy E2 + 1))) with (lines E2).
      change (numrows (set_cursor E2 0 (cy E2 + 1))) with (numrows E2).
      change (dirty (set_cursor E2 0 (cy E2 + 1))) with (dirty E2).
      split; [lia|]. split; [lia|]. split; [|lia]. intros _.
      rewrite Hl2, Hl1, Hline, Fx, Fy. unfold split_line.
      pose proof (nth_line_nth_error (lines E) (cy E) ltac:(lia)) as Hnl.
      fold (line_at E (cy E)) in *. rewrite Hlr in *.
      replace (Z.to_nat (cy E + 1)) with (S (Z.to_nat (cy E))) by lia.
      apply (upd_after_insert _ _ _ _ _ Hnl).
Qed.

(** The text and the cursor after [editorDelChar]. *)
Lemma editorDelChar_lines E :
  ed_ok E ->
  exists E', editorDelChar E = Ok E' /\ ed_ok E' /\ same_window E E' /\
    (cy E = numrows E \/ (cx E = 0 /\ cy E = 0) -> E' = E) /\
    (cy E < numrows E -> 0 < cx E ->
       lines E' = upd (lines E) (Z.to_nat (cy E))
                    (line_without (line_at E (cy E)) (cx E - 1)) /\
       cx E' = cx E - 1 /\ cy E' = cy E /\
       numrows E' = numrows E /\ dirty E' = dirty E + 1) /\
    (cy E < numrows E -> cx E = 0 -> 0 < cy E ->
       lines E' = join_line (lines E) (cy E) /\
       cx E' = len (line_at E (cy E - 1)) /\ cy E' = cy E - 1 /\
       numrows E' = numrows E - 1 /\ dirty E' = dirty E + 2).
Proof.
  intros HE. pose proof HE as (Hb & (Hcy & Hcx) & Hv).
  pose proof (buf_ok_lines_len E Hb) as HL.
  destruct (editorDelChar_ok E HE) as (E' & HE' & Hok').
  exists E'. split; [exact HE'|]. split; [exact Hok'|].
  unfold editorDelChar in HE'.
  destruct (Z.eqb_spec (cy E) (numrows E)) as [He|Hne].
  { inversion HE'; subst E'. split; [apply same_window_refl|].
    split; [reflexivity|]. split; lia. }
  destruct (Z.eqb_spec (cx E) 0) as [Hx0|Hx0];
    destruct (Z.eqb_spec (cy E) 0) as [Hy0|Hy0]; cbn [andb] in HE'.
  { inversion HE'; subst E'. split; [apply same_window_refl|].
    split; [reflexivity|]. split; lia. }
  all: destruct (buf_ok_row E (cy E) Hb) as (r & Hr & Hnth & Hidx & Hok); [lia|];
    rewrite Hr in HE'; cbn [bind] in HE';
    pose proof Hok as (Hsz & _ & _ & _ & Hlf);
    pose proof (line_at_row _ _ _ Hnth) as Hline.
  - (* join with the previous line *)
    destruct (Z.gtb_spec (cx E) 0) as [Hx|Hx]; [lia|].
    destruct (buf_ok_row E (cy E - 1) Hb) as (prev & Hp & Hnthp & Hidxp & Hokp); [lia|].
    rewrite Hp in HE'. cbn [bind] in HE'.
    pose proof Hokp as (Hszp & _).
    pose proof (line_at_row _ _ _ Hnthp) as Hlinep.
    pose proof (len_nonneg (chars r)) as Hrn.
    rewrite (sub_chars_ok r 0 (size r)) in HE' by lia.
    cbn [skipn Z.to_nat bind] in HE'.
    destruct (rowAppendString_ok (set_cursor E (size prev) (cy E)) (cy E - 1) (chars r))
      as (E1 & HE1 & Hb1 & Hl1 & Hn1 & Hd1 & Hf1); auto; [cbn; lia|].
    change (cy (set_cursor E (size prev) (cy E))) with (cy E) in HE'.
    rewrite HE1 in HE'. cbn [bind] in HE'.
    pose proof Hf1 as (Fx & Fy & _). cbn in Fx, Fy.
    change (numrows (set_cursor E (size prev) (cy E))) with (numrows E) in Hn1.
    change (dirty (set_cursor E (size prev) (cy E))) with (dirty E) in Hd1.
    change (lines (set_cursor E (size prev) (cy E))) with (lines E) in Hl1.
    change (line_at (set_cursor E (size prev) (cy E)) (cy E - 1))
      with (line_at E (cy E - 1)) in Hl1.
    pose proof (buf_ok_lines_len E1 Hb1) as HL1.
    destruct (editorDelRow_ok E1 (cy E1)) as (E2 & H2 & Hb2 & Hl2 & Hn2 & Hd2 & Hf2);
      auto; [lia|].
    rewrite H2 in HE'. cbn [bind] in HE'. inversion HE'; subst E'.
    pose proof Hf2 as (Gx & Gy & _).
    split.
    { eapply same_window_trans; [|apply same_window_set_cursor].
      eapply same_window_trans; [|apply same_window_frame; eassumption].
      eapply same_window_trans; [apply (same_window_set_cursor E (size prev) (cy E))|].
      apply same_window_frame; eassumption. }
    split; [intros [?|[? ?]]; lia|]. split; [intros; lia|]. intros _ _ _.
    cbn [cx cy set_cursor].
    change (lines (set_cursor E2 (cx E2) (cy E2 - 1))) with (lines E2).
    change (numrows (set_cursor E2 (cx E2) (cy E2 - 1))) with (numrows E2).
    change (dirty (set_cursor E2 (cx E2) (cy E2 - 1))) with (dirty E2).
    split; [|rewrite Hlinep; lia].
    rewrite Hl2, Hl1, Fy. unfold join_line.
    fold (line_at E (cy E - 1)). fold (line_at E (cy E)). rewrite Hline.
    replace (Z.to_nat (cy E)) with (S (Z.to_nat (cy E - 1))) by lia.
    apply delete_after_upd. unfold len in HL. lia.
  - (* delete the character before the cursor, on line 0 *)
    destruct (Z.gtb_spec (cx E) 0) as [Hx|Hx]; [|lia].
    destruct (rowDelChar_ok E (cy E) (cx E - 1))
      as (E1 & H1 & Hb1 & Hl1 & Hn1 & Hd1 & Hf1); auto; [lia|lia|].
    rewrite H1 in HE'. cbn [bind] in HE'. inversion HE'; subst E'.
    pose proof Hf1 as (Fx & Fy & _).
    split.
    { eapply same_window_trans; [|apply same_window_set_cursor].
      apply same_window_frame; eassumption. }
    split; [intros [?|[? ?]]; lia|]. split; [|intros; lia]. intros _ _.
    cbn [cx cy set_cursor].
    change (lines (set_cursor E1 (cx E1 - 1) (cy E1))) with (lines E1).
    change (numrows (set_cursor E1 (cx E1 - 1) (cy E1))) with (numrows E1).
    change (dirty (set_cursor E1 (cx E1 - 1) (cy E1))) with (dirty E1).
    split; [|lia]. rewrite Hl1. reflexivity.
  - destruct (Z.gtb_spec (cx E) 0) as [Hx|Hx]; [|lia].
    destruct (rowDelChar_ok E (cy E) (cx E - 1))
      as (E1 & H1 & Hb1 & Hl1 & Hn1 & Hd1 & Hf1); auto; [lia|lia|].
    rewrite H1 in HE'. cbn [bind] in HE'. inversion HE'; subst E'.
    pose proof Hf1 as (Fx & Fy & _).
    split.
    { eapply same_window_trans; [|apply same_window_set_cursor].
      apply same_window_frame; eassumption. }
    split; [intros [?|[? ?]]; lia|]. split; [|intros; lia]. intros _ _.
    cbn [cx cy set_cursor].
    change (lines (set_cursor E1 (cx E1 - 1) (cy E1))) with (lines E1).
    change (numrows (set_cursor E1 (cx E1 - 1) (cy E1))) with (numrows E1).
    change (dirty (set_cursor E1 (cx E1 - 1) (cy E1))) with (dirty E1).
    split; [|lia]. rewrite Hl1. reflexivity.
Qed.

(* ----------------------------------------------------------------- *)
(** ** Editing and moving, and their round trips *)

(** [editorInsertChar] with a byte the key handler lets through (not a
    control character, below 128): the byte is put into the cursor line at
    the cursor column and the cursor moves one column to the right; the
    modification counter goes up by one.  With the cursor on the line past
    the end, a line holding just the byte is appended first, and the
    counter goes up by two. *)
Lemma editorInsertChar_inserts_at_cursor_ideal E c :
  ed_ok E -> -128 <= c < 128 -> iscntrl c = false ->
  exists E', editorInsertChar E c = Ok E' /\ ed_ok E' /\
    cx E' = cx E + 1 /\ cy E' = cy E /\
    (cy E < numrows E ->
       lines E' = upd (lines E) (Z.to_nat (cy E))
                    (line_with (line_at E (cy E)) (cx E) (int_to_char c)) /\
       numrows E' = numrows E /\ dirty E' = dirty E + 1) /\
    (cy E = numrows E ->
       lines E' = lines E ++ [[int_to_char c]] /\
       numrows E' = numrows E + 1 /\ dirty E' = dirty E + 2).
Proof.
  intros HE Hc Hctl.
  destruct (editorInsertChar_lines E c HE) as (E' & H & Hok & _ & Hx & Hy & A & B).
  { apply int_to_char_not_LF; [lia|exact Hctl|lia]. }
  exists E'. tauto.
Qed.

(** [editorInsertNewline] splits the cursor line at the cursor column:
    the part before the cursor stays, the part from the cursor on becomes
    the next line, and the cursor goes to column 0 of that line.  With the
    cursor on the line past the end an empty line is appended.  The
    modification counter goes up by one and the number of lines by one. *)
Lemma editorInsertNewline_splits_line_ideal E :
  ed_ok E ->
  exists E', editorInsertNewline E = Ok E' /\ ed_ok E' /\
    cx E' = 0 /\ cy E' = cy E + 1 /\
    numrows E' = numrows E + 1 /\ dirty E' = dirty E + 1 /\
    (cy E < numrows E -> lines E' = split_line (lines E) (cy E) (cx E)) /\
    (cy E = numrows E -> lines E' = lines E ++ [[]]).
Proof.
  intros HE.
  destruct (editorInsertNewline_lines E HE) as (E' & H & Hok & _ & R).
  exists E'. tauto.
Qed.

(** [editorDelChar]: on the line past the end, and at column 0 of
    line 0, it returns the state as it was.  With the cursor after a
    character it deletes that character and moves the cursor one column to
    the left (counter plus one).  At column 0 of a later line it appends
    the line to the previous one, deletes it, and puts the cursor at the
    junction (counter plus two). *)
Lemma editorDelChar_deletes_or_joins_ideal E :
  ed_ok E ->
  exists E', editorDelChar E = Ok E' /\ ed_ok E' /\
    (cy E = numrows E \/ (cx E = 0 /\ cy E = 0) -> E' = E) /\
    (cy E < numrows E -> 0 < cx E ->
       lines E' = upd (lines E) (Z.to_nat (cy E))
                    (line_without (line_at E (cy E)) (cx E - 1)) /\
       cx E' = cx E - 1 /\ cy E' = cy E /\
       numrows E' = numrows E /\ dirty E' = dirty E + 1) /\
    (cy E < numrows E -> cx E = 0 -> 0 < cy E ->
       lines E' = join_line (lines E) (cy E) /\
       cx E' = len (line_at E (cy E - 1)) /\ cy E' = cy E - 1 /\
       numrows E' = numrows E - 1 /\ dirty E' = dirty E + 2).
Proof.
  intros HE.
  destruct (editorDelChar_lines E HE) as (E' & H & Hok & _ & R).
  exists E'. tauto.
Qed.

(** Typing a character and then pressing backspace, with the cursor
    on a line of the buffer, gives back the same lines and the same cursor;
    the modification counter is two higher than before.  With the cursor on
    the line past the end the two steps leave one more (empty) line. *)
Lemma insert_then_backspace_ideal E c :
  ed_ok E -> -128 <= c < 128 -> iscntrl c = false ->
  exists E1 E2,
    editorInsertChar E c = Ok E1 /\ editorDelChar E1 = Ok E2 /\
    cx E2 = cx E /\ cy E2 = cy E /\ dirty E2 = dirty E + (if cy E =? numrows E then 3 else 2) /\
    lines E2 = (if cy E =? numrows E then lines E ++ [[]] else lines E).
Proof.
  intros HE Hc Hctl. pose proof HE as (Hb & (Hcy & Hcx) & Hv).
  pose proof (buf_ok_lines_len E Hb) as HL.
  destruct (editorInsertChar_lines E c HE)
    as (E1 & H1 & Hok1 & _ & Hx1 & Hy1 & A1 & B1).
  { apply int_to_char_not_LF; [lia|exact Hctl|lia]. }
  destruct (editorDelChar_lines E1 Hok1) as (E2 & H2 & Hok2 & _ & _ & A2 & _).
  exists E1, E2. split; [exact H1|]. split; [exact H2|].
  destruct (Z.eqb_spec (cy E) (numrows E)) as [He|Hne].
  - destruct (B1 He) as (Hl1 & Hn1 & Hd1).
    destruct A2 as (Hl2 & Hx2 & Hy2 & Hn2 & Hd2); [lia|lia|].
    split; [lia|]. split; [lia|]. split; [lia|].
    rewrite Hl2, Hl1, Hy1, He.
    replace (Z.to_nat (numrows E)) with (length (lines E))
      by (unfold len in HL; lia).
    rewrite upd_app_last. f_equal. f_equal.
    unfold line_at, nth_line. rewrite ?Hl1, ?Hy1, ?He.
    replace (Z.to_nat (numrows E)) with (length (lines E))
      by (unfold len in HL; lia).
    rewrite nth_error_app2 by lia. rewrite Nat.sub_diag. cbn [nth_error].
    unfold line_at in Hcx. rewrite nth_line_out in Hcx by lia.
    change (len (@nil ascii)) with 0 in Hcx.
    replace (cx E1 - 1) with 0 by lia. reflexivity.
  - destruct A1 as (Hl1 & Hn1 & Hd1); [lia|].
    destruct A2 as (Hl2 & Hx2 & Hy2 & Hn2 & Hd2); [lia|lia|].
    split; [lia|]. split; [lia|]. split; [lia|].
    rewrite Hl2. unfold line_at at 1. rewrite Hl1, Hy1.
    rewrite nth_line_upd_same by lia.
    replace (cx E1 - 1) with (cx E) by lia.
    rewrite line_without_with by exact Hcx.
    rewrite upd_upd by (unfold len in HL; lia).
    apply upd_same. apply nth_line_nth_error. lia.
Qed.

(** Pressing Enter and then backspace, with the cursor on a line of
    the buffer, gives back the same lines and the same cursor; the
    modification counter is three higher than before.  With the cursor on
    the line past the end, Enter appends an empty line and backspace, now
    past the end again, does nothing. *)
Lemma newline_then_backspace_ideal E :
  ed_ok E ->
  exists E1 E2,
    editorInsertNewline E = Ok E1 /\ editorDelChar E1 = Ok E2 /\
    (cy E < numrows E ->
       lines E2 = lines E /\ cx E2 = cx E /\ cy E2 = cy E /\
       dirty E2 = dirty E + 3) /\
    (cy E = numrows E ->
       E2 = E1 /\ lines E2 = lines E ++ [[]] /\ cy E2 = cy E + 1).
Proof.
  intros HE. pose proof HE as (Hb & (Hcy & Hcx) & Hv).
  pose proof (buf_ok_lines_len E Hb) as HL.
  destruct (editorInsertNewline_lines E HE)
    as (E1 & H1 & Hok1 & _ & Hx1 & Hy1 & Hn1 & Hd1 & A1 & B1).
  destruct (editorDelChar_lines E1 Hok1) as (E2 & H2 & Hok2 & _ & S2 & _ & J2).
  exists E1, E2. split; [exact H1|]. split; [exact H2|]. split.
  - intros Hlt. specialize (A1 Hlt).
    destruct J2 as (Hl2 & Hx2 & Hy2 & Hn2 & Hd2); [lia|lia|lia|].
    unfold line_at in Hcx.
    destruct (nth_line_split (lines E) (cy E) (cx E)) as (N0 & _ & J); [lia|lia|].
    split; [|split; [|split; lia]].
    + rewrite Hl2, A1, Hy1. exact J.
    + rewrite Hx2. unfold line_at. rewrite A1, Hy1.
      replace (cy E + 1 - 1) with (cy E) by lia. rewrite N0.
      rewrite len_firstn; lia.
  - intros He. specialize (B1 He).
    assert (HE2 : E2 = E1) by (apply S2; left; lia).
    split; [exact HE2|]. rewrite HE2. split; [exact B1|lia].
Qed.

(* ----------------------------------------------------------------- *)
(** ** What leaves the window alone *)

Lemma editorUpdateSyntax_rec_view : forall fuel E p E',
  editorUpdateSyntax_rec fuel E p = Ok E' -> same_view E E'.
Proof.
  induction fuel as [|fuel IH]; intros E p E' H;
    rewrite editorUpdateSyntax_rec_eq in H; inv_bind H; cbv zeta in H;
    (destruct (syntax E); [|inversion H; view_fields]);
    inv_bind H; inv_bind H; destruct (_ && _).
  - discriminate.
  - inversion H. view_fields.
  - apply IH in H. eapply same_view_trans; [|exact H]. view_fields.
  - inversion H. view_fields.
Qed.

Lemma editorUpdateRow_view E p E' :
  editorUpdateRow E p = Ok E' -> same_view E E'.
Proof.
  unfold editorUpdateRow, editorUpdateSyntax. intros H. inv_bind H.
  apply editorUpdateSyntax_rec_view in H.
  eapply same_view_trans; [|exact H]. view_fields.
Qed.

Lemma editorInsertRow_view E at_ s E' :
  editorInsertRow E at_ s = Ok E' -> same_view E E'.
Proof.
  unfold editorInsertRow. intros H.
  destruct (_ || _); [inversion H; apply same_view_refl|].
  inv_bind H. inversion H. apply editorUpdateRow_view in Hx.
  eapply same_view_trans; [|eapply same_view_trans; [exact Hx|]]; view_fields.
Qed.

Lemma update_all_syntax_view n : forall E r E',
  update_all_syntax n E r = Ok E' -> same_view E E'.
Proof.
  induction n as [|n IH]; intros E r E' H; cbn [update_all_syntax] in H.
  - inversion H. apply same_view_refl.
  - inv_bind H. apply editorUpdateSyntax_rec_view in Hx. apply IH in H.
    eapply same_view_trans; eassumption.
Qed.

Lemma update_all_syntax_cursor n : forall E0 r E1,
  update_all_syntax n E0 r = Ok E1 -> cx E1 = cx E0 /\ cy E1 = cy E0.
Proof.
  induction n as [|n IH]; intros E0 r E1 H1; cbn [update_all_syntax] in H1.
  - inversion H1. auto.
  - inv_bind H1. apply IH in H1. destruct H1 as [-> ->].
    clear - Hx. unfold editorUpdateSyntax in Hx.
    revert Hx. generalize (Z.to_nat (numrows E0)). intros fuel. revert E0 r x.
    induction fuel as [|fuel IH]; intros E0 r x H;
      rewrite editorUpdateSyntax_rec_eq in H; inv_bind H; cbv zeta in H;
      (destruct (syntax E0); [|inversion H; auto]);
      inv_bind H; inv_bind H; destruct (_ && _).
    + discriminate.
    + inversion H. auto.
    + apply IH in H. destruct H as [-> ->]. auto.
    + inversion H. auto.
Qed.

Lemma editorSelectSyntax_view E E' :
  editorSelectSyntax E = Ok E' ->
  (rowoff E' = rowoff E /\ coloff E' = coloff E /\
   screenrows E' = screenrows E /\ screencols E' = screencols E) /\
  cx E' = cx E /\ cy E' = cy E /\
  match syntax E' with Some sy => In sy HLDB | None => True end.
Proof.
  unfold editorSelectSyntax. intros H.
  destruct (filename (set_syntax E None));
    [|inversion H; cbn; tauto].
  destruct (List.find _ _) as [sy|] eqn:Hfind; [|inversion H; cbn; tauto].
  pose proof (update_all_syntax_view _ _ _ _ H) as (A & B & C & D & F).
  apply update_all_syntax_cursor in H. destruct H as [Hx Hy].
  cbn in A, B, C, D, F, Hx, Hy. split; [tauto|]. split; [exact Hx|].
  split; [exact Hy|]. rewrite F. apply find_some in Hfind. apply Hfind.
Qed.

Lemma editorSelectSyntax_window rows cols E E' :
  editorSelectSyntax E = Ok E' -> window_ok rows cols E ->
  window_ok rows cols E'.
Proof.
  intros H (A & B & C & _). apply editorSelectSyntax_view in H.
  destruct H as ((_ & H2 & H3 & H4) & _ & _ & H5).
  unfold window_ok. rewrite H2, H3, H4. tauto.
Qed.

Lemma rowInsertChar_view E p at_ c E' :
  rowInsertChar E p at_ c = Ok E' -> same_view E E'.
Proof.
  unfold rowInsertChar. intros H. inv_bind H. cbv zeta in H. inv_bind H.
  inversion H. apply editorUpdateRow_view in Hx0.
  eapply same_view_trans; [|eapply same_view_trans; [exact Hx0|]]; view_fields.
Qed.

Lemma rowAppendString_view E p s E' :
  rowAppendString E p s = Ok E' -> same_view E E'.
Proof.
  unfold rowAppendString. intros H. inv_bind H. cbv zeta in H. inv_bind H.
  inversion H. apply editorUpdateRow_view in Hx0.
  eapply same_view_trans; [|eapply same_view_trans; [exact Hx0|]]; view_fields.
Qed.

Lemma rowDelChar_view E p at_ E' :
  rowDelChar E p at_ = Ok E' -> same_view E E'.
Proof.
  unfold rowDelChar. intros H. inv_bind H.
  destruct (_ || _); [inversion H; apply same_view_refl|].
  cbv zeta in H. inv_bind H.
  inversion H. apply editorUpdateRow_view in Hx0.
  eapply same_view_trans; [|eapply same_view_trans; [exact Hx0|]]; view_fields.
Qed.

Lemma editorInsertChar_view E c E' :
  editorInsertChar E c = Ok E' -> same_view E E'.
Proof.
  unfold editorInsertChar. intros H. inv_bind H. inv_bind H. inversion H.
  apply rowInsertChar_view in Hx0.
  assert (same_view E x).
  { destruct (_ =? _); [eapply editorInsertRow_view; eassumption|].
    inversion Hx. apply same_view_refl. }
  eapply same_view_trans; [eassumption|].
  eapply same_view_trans; [eassumption|]. view_fields.
Qed.

Lemma editorInsertNewline_view E E' :
  editorInsertNewline E = Ok E' -> same_view E E'.
Proof.
  unfold editorInsertNewline. intros H. inv_bind H. inversion H.
  assert (same_view E x).
  { destruct (_ =? _); [eapply editorInsertRow_view; eassumption|].
    inv_bind Hx. inv_bind Hx. inv_bind Hx. inv_bind Hx. cbv zeta in Hx.
    apply editorUpdateRow_view in Hx.
    match goal with
    | Hi : editorInsertRow E _ _ = Ok ?E1 |- _ =>
        apply editorInsertRow_view in Hi;
        apply (same_view_trans E E1 x Hi)
    end.
    eapply same_view_trans; [|exact Hx]. view_fields. }
  eapply same_view_trans; [eassumption|]. view_fields.
Qed.

Lemma editorDelChar_view E E' :
  editorDelChar E = Ok E' -> same_view E E'.
Proof.
  unfold editorDelChar. intros H.
  destruct (_ =? _); [inversion H; apply same_view_refl|].
  destruct (_ && _); [inversion H; apply same_view_refl|].
  inv_bind H. destruct (_ >? _).
  - inv_bind H. inversion H. apply rowDelChar_view in Hx0.
    eapply same_view_trans; [eassumption|]. view_fields.
  - inv_bind H. cbv zeta in H. inv_bind H. inv_bind H. inv_bind H.
    inversion H. apply rowAppendString_view in Hx2.
    apply editorDelRow_view in Hx3.
    eapply same_view_trans; [|eapply same_view_trans; [exact Hx2|]];
      [view_fields|].
    eapply same_view_trans; [eassumption|]. view_fields.
Qed.

(* ----------------------------------------------------------------- *)
(** ** Flattening and loading *)

Lemma open_fold_frame ls : forall E,
  buf_ok E -> Forall line_shape ls ->
  exists E', fold_left open_step ls (Ok E) = Ok E' /\ same_frame E E'.
Proof.
  induction ls as [|l ls IH]; intros E Hb Hs; cbn [fold_left].
  - exists E. split; [reflexivity|apply same_frame_refl].
  - inversion Hs as [|? ? Hl Hrest]; subst.
    pose proof (len_nonneg (row E)) as Hn. destruct Hb as (Hsy & Hnr & Hrows).
    destruct (editorInsertRow_ok E (numrows E) (strip l))
      as (E1 & H1 & Hb1 & _ & _ & _ & Hf1);
      [split; [|split]; assumption|lia|apply strip_noLF; exact Hl|].
    unfold open_step at 2. cbn [bind]. fold (strip l). rewrite H1.
    destruct (IH E1 Hb1 Hrest) as (E2 & -> & Hf2).
    exists E2. split; [reflexivity|]. eapply same_frame_trans; eassumption.
Qed.

(** Loading a file that holds no carriage return and flattening the
    buffer again gives back the bytes of the file, with a newline added at
    the end if the last line had none: what a save writes right after a
    load is the file itself. *)
Lemma load_then_flatten_ideal rows cols fname data :
  3 <= rows -> ~ In CR data ->
  exists E', editorOpen (ed (initEditor rows cols)) fname (Some data) = Ok E' /\
    fst (editorRowsToString E') = with_final_newline data.
Proof.
  intros Hr Hcr.
  pose proof (editorOpen_ok (ed (initEditor rows cols)) fname (Some data)
                (proj1 (initEditor_ok rows cols Hr))) as H.
  destruct (editorOpen _ _ _) as [E'| | | |]; try contradiction; [|discriminate].
  destruct H as (HE' & _ & _ & d & Hd & Hl). inversion Hd; subst d.
  exists E'. split; [reflexivity|].
  rewrite editorRowsToString_lines by apply HE'.
  rewrite Hl, initEditor_lines. cbn [app].
  apply (flatten_loaded data []); [constructor|intros []|exact Hcr].
Qed.

(** [editorOpen] at start-up: when the file cannot be opened the
    editor exits with status 1; otherwise the buffer gets one row per line
    of the file, no row holds a newline or ends in a carriage return, the
    modification counter is 0, the file name is recorded and the cursor is
    at the start. *)
Lemma editorOpen_loads_lines_ideal rows cols fname file :
  3 <= rows ->
  match editorOpen (ed (initEditor rows cols)) fname file with
  | Exited status => file = None /\ status = 1
  | Ok E' =>
      exists data, file = Some data /\
        numrows E' = line_count data /\
        Forall (fun l => ~ In LF l /\ last l NUL <> CR) (lines E') /\
        dirty E' = 0 /\ filename E' = Some fname /\ cx E' = 0 /\ cy E' = 0
  | _ => False
  end.
Proof.
  intros Hr.
  pose proof (editorOpen_ok (ed (initEditor rows cols)) fname file
                (proj1 (initEditor_ok rows cols Hr))) as H.
  destruct (editorOpen _ _ _) as [E'| | |s|] eqn:Ho; try contradiction.
  - destruct H as (HE' & Hd & Hf & data & Hfile & Hl).
    exists data. split; [exact Hfile|].
    rewrite initEditor_lines in Hl. cbn [app] in Hl.
    split; [|split; [|split; [exact Hd|split; [exact Hf|]]]].
    + rewrite <- (buf_ok_lines_len E') by apply HE'. rewrite Hl, len_map.
      rewrite (count_lines data []) by constructor. reflexivity.
    + rewrite Hl. apply Forall_forall. intros l Hin.
      apply in_map_iff in Hin as (x & <- & Hx). split.
      * assert (Hs : noLF (strip x)).
        { apply strip_noLF.
          pose proof (getlines_shape data [] ltac:(constructor)) as Hsh.
          rewrite Forall_forall in Hsh. apply Hsh. exact Hx. }
        unfold noLF in Hs. rewrite Forall_forall in Hs.
        intros Hin. exact (Hs _ Hin eq_refl).
      * apply strip_no_trailing_CR.
    + subst file. unfold editorOpen in Ho. inv_bind Ho. inv_bind Ho.
      inversion Ho; subst E'. cbn [cx cy set_dirty].
      destruct (editorSelectSyntax_ok
                  (set_filename (ed (initEditor rows cols)) (Some fname))
                  (proj1 (initEditor_ok rows cols Hr))) as (E1 & Hs & HE1 & _).
      rewrite Hs in Hx. inversion Hx; subst x.
      apply editorSelectSyntax_view in Hs. destruct Hs as (_ & Hcx & Hcy & _).
      destruct (open_fold_frame (getlines data []) E1 (proj1 HE1))
        as (E2 & H2 & Hf2).
      { apply getlines_shape. constructor. }
      change (fold_left _ (getlines data []) (Ok E1))
        with (fold_left open_step (getlines data []) (Ok E1)) in Hx0.
      rewrite H2 in Hx0. inversion Hx0; subst x0.
      destruct Hf2 as (Fx & Fy & _). rewrite Fx, Fy, Hcx, Hcy. split; reflexivity.
  - split; [exact H|]. subst file. unfold editorOpen in Ho.
    destruct (editorSelectSyntax_ok
                (set_filename (ed (initEditor rows cols)) (Some fname))
                (proj1 (initEditor_ok rows cols Hr))) as (E1 & Hs & _).
    rewrite Hs in Ho. cbn [bind] in Ho. inversion Ho. reflexivity.
Qed.

(* ----------------------------------------------------------------- *)
(** ** The cursor is inside the window whenever the editor waits *)

Lemma editorSave_shown rows cols keys writes w :
  1 <= cols -> normal w -> window_ok rows cols (ed w) ->
  pass (shown rows cols)
       (fun '(w', _, _) => window_ok rows cols (ed w'))
       (editorSave keys writes w).
Proof.
  intros Hc HN HW. unfold editorSave.
  eapply pass_bind with (Q := fun '(go, w1, keys1) => window_ok rows cols (ed w1)).
  - destruct (filename (ed w)); [exact HW|].
    eapply pass_bind; [apply editorPrompt_none_shown; assumption|].
    intros [[name w'] keys'] Hm HW'. destruct name as [n|]; [|exact HW'].
    pose proof (safe_Ok _ _ _ (editorPrompt_none_ok keys [] w HN) Hm)
      as ([HE' _] & _).
    destruct (editorSelectSyntax_ok (set_filename (ed w') (Some n)))
      as (E' & Hs & _); [exact HE'|].
    rewrite Hs. cbn. eapply editorSelectSyntax_window; [exact Hs|exact HW'].
  - intros [[go w1] keys1] _ HW1. destruct go; [|exact HW1].
    destruct writes as [|[|] writes']; cbn; exact HW1.
Qed.

Lemma editorProcessKeypress_shown rows cols c keys writes w :
  1 <= cols -> normal w -> rowoff (ed w) <= cy (ed w) -> key_ok c ->
  window_ok rows cols (ed w) ->
  pass (shown rows cols)
       (fun '(w', _, _) => window_ok rows cols (ed w'))
       (editorProcessKeypress c keys writes w).
Proof.
  intros Hc HN Hrc Hk HW. pose proof HN as [HE Hf].
  pose proof HE as (Hb & (Hcy & Hcx) & (Hro & Hsr)).
  unfold editorProcessKeypress.
  set (done := fun r : Res Editor =>
         E' <- r ;; Ok (mkWorld E' QUIT_TIMES (find w), keys, writes)).
  assert (Hdone : forall r, (exists E', r = Ok E' /\ same_cols (ed w) E') ->
            pass (shown rows cols)
              (fun '(w', _, _) => window_ok rows cols (ed w')) (done r)).
  { intros r (E' & -> & HE'). cbn. eapply window_ok_cols; eassumption. }
  destruct (c =? KEY_ENTER).
  { apply Hdone. destruct (editorInsertNewline_ok _ HE) as (E' & H & _).
    exists E'. split; [exact H|].
    apply same_cols_view. eapply editorInsertNewline_view; exact H. }
  destruct (c =? CTRL_KEY "q"). { destruct (_ && _); cbn; auto. }
  destruct (c =? CTRL_KEY "s").
  { eapply pass_bind; [apply editorSave_shown; assumption|].
    intros [[w1 k1] wr1] _ H1. exact H1. }
  destruct (c =? CTRL_KEY "f").
  { eapply pass_bind; [apply editorFind_shown; assumption|].
    intros [w1 k1] _ H1. exact H1. }
  destruct (c =? KEY_HOME).
  { apply Hdone. eexists. split; [reflexivity|]. cols_fields. }
  destruct (c =? KEY_END).
  { apply Hdone. destruct (Z.ltb_spec (cy (ed w)) (numrows (ed w)));
      [|eexists; split; [reflexivity|apply same_cols_refl]].
    destruct (buf_ok_row (ed w) (cy (ed w)) Hb) as (r & -> & _); [lia|].
    cbn [bind]. eexists. split; [reflexivity|]. cols_fields. }
  destruct (_ || _).
  { apply Hdone.
    assert (H1 : exists E1, (if c =? KEY_DEL then editorMoveCursor (ed w) KEY_ARROW_RIGHT
                              else Ok (ed w)) = Ok E1 /\ ed_ok E1 /\
                            same_view (ed w) E1).
    { destruct (c =? KEY_DEL); [|eauto using same_view_refl].
      destruct (editorMoveCursor_ok (ed w) KEY_ARROW_RIGHT) as (E1 & H1 & H2 & _);
        auto; [split; auto|lia|].
      exists E1. split; [exact H1|]. split; [exact H2|].
      eapply editorMoveCursor_view; exact H1. }
    destruct H1 as (E1 & -> & HE1 & Hv1). cbn [bind].
    destruct (editorDelChar_ok E1 HE1) as (E2 & H2 & _).
    exists E2. split; [exact H2|]. apply same_cols_view.
    eapply same_view_trans; [exact Hv1|]. eapply editorDelChar_view; exact H2. }
  destruct (_ || _).
  { match goal with |- context [move_times _ ?E _] => set (E1 := E) end.
    assert (Hs1 : screenrows E1 = screenrows (ed w))
      by (unfold E1; destruct (c =? KEY_PAGE_UP); reflexivity).
    rewrite Hs1.
    replace (screenrows (ed w) <? 0) with false by (symmetry; lia).
    apply Hdone.
    assert (Hy : 0 <= cy E1 <= numrows (ed w)).
    { unfold E1. destruct (c =? KEY_PAGE_UP); cbn [cy set_cursor]; [lia|].
      destruct (_ >? _) eqn:G; lia. }
    assert (Hx : cx E1 = cx (ed w)) by (unfold E1; destruct (c =? KEY_PAGE_UP); reflexivity).
    assert (Hb1 : buf_ok E1) by (unfold E1; destruct (c =? KEY_PAGE_UP); exact Hb).
    assert (Hv1 : view_ok E1)
      by (unfold E1; destruct (c =? KEY_PAGE_UP); split; assumption).
    assert (Hn1 : numrows E1 = numrows (ed w))
      by (unfold E1; destruct (c =? KEY_PAGE_UP); reflexivity).
    assert (Hc1 : same_view (ed w) E1)
      by (unfold E1; destruct (c =? KEY_PAGE_UP); view_fields).
    destruct (Z.to_nat (screenrows (ed w))) as [|n] eqn:En; [lia|].
    cbn [move_times].
    destruct (editorMoveCursor_ok E1
                (if c =? KEY_PAGE_UP then KEY_ARROW_UP else KEY_ARROW_DOWN))
      as (E2 & H2 & HE2 & _); auto; [lia|lia|]. rewrite H2. cbn [bind].
    destruct (move_times_ok n E2
                (if c =? KEY_PAGE_UP then KEY_ARROW_UP else KEY_ARROW_DOWN) HE2)
      as (E3 & H3 & _).
    exists E3. split; [exact H3|]. apply same_cols_view.
    eapply same_view_trans; [exact Hc1|].
    eapply same_view_trans; [eapply editorMoveCursor_view; exact H2|].
    eapply move_times_view; exact H3. }
  destruct (_ || _).
  { apply Hdone.
    destruct (editorMoveCursor_ok (ed w) c) as (E1 & H1 & _); auto;
      [split; auto|lia|].
    exists E1. split; [exact H1|]. apply same_cols_view.
    eapply editorMoveCursor_view; exact H1. }
  destruct (_ || _).
  { apply Hdone. eexists. split; [reflexivity|apply same_cols_refl]. }
  apply Hdone. destruct (_ && _) eqn:Hp;
    [|eexists; split; [reflexivity|apply same_cols_refl]].
  apply andb_true_iff in Hp as [Hp1 Hp2].
  apply negb_true_iff in Hp1. apply Z.ltb_lt in Hp2.
  destruct (editorInsertChar_ok (ed w) c HE) as (E' & H & _).
  { apply int_to_char_not_LF; auto. destruct Hk; lia. }
  exists E'. split; [exact H|]. apply same_cols_view.
  eapply editorInsertChar_view; exact H.
Qed.

Lemma main_loop_shown rows cols : 1 <= cols -> forall fuel keys writes w,
  normal w -> Forall key_ok keys -> window_ok rows cols (ed w) ->
  pass (shown rows cols) (fun _ => True) (main_loop fuel keys writes w).
Proof.
  intros Hc. induction fuel as [|fuel IH]; intros keys writes w HN Hk HW;
    [exact I|].
  cbn [main_loop]. unfold editorRefreshScreen.
  destruct HN as [HE Hfd].
  destruct (editorScroll_shown rows cols (ed w) HE HW Hc)
    as (E1 & -> & HE1 & HW1 & Hv1 & Hrx1 & Hr1 & Hn1 & Hrc). cbn [bind].
  assert (HN1 : normal (with_ed w E1)) by (split; auto).
  destruct keys as [|c rest]; [cbn; split; [exact HW1|split; assumption]|].
  inversion Hk as [|? ? Hkc Hrest]; subst.
  eapply pass_bind;
    [apply (editorProcessKeypress_shown rows cols); auto|].
  intros [[w2 keys2] writes2] Hm HW2.
  pose proof (safe_Ok _ _ _
    (editorProcessKeypress_ok c rest writes (with_ed w E1) HN1 Hrc Hkc) Hm)
    as [HN2 Hs].
  apply IH; auto. eapply suffix_Forall; eauto.
Qed.

Lemma main_shown rows cols arg keys writes w :
  3 <= rows -> 1 <= cols -> Forall key_ok keys ->
  main rows cols arg keys writes = Waiting w ->
  shown rows cols w.
Proof.
  intros Hr Hc Hk Hm.
  assert (H : pass (shown rows cols) (fun _ : World => True)
                (main rows cols arg keys writes)).
  { unfold main.
    eapply pass_bind with
      (Q := fun w1 => normal w1 /\ window_ok rows cols (ed w1)).
    - destruct arg as [[fname file]|].
      + pose proof (editorOpen_ok (ed (initEditor rows cols)) fname file
                      (proj1 (initEditor_ok rows cols Hr))) as Ho.
        destruct (editorOpen _ fname file) as [E1| | | |] eqn:He; cbn;
          try contradiction; auto.
        split; [split; [apply Ho|reflexivity]|].
        unfold editorOpen in He. inv_bind He.
        destruct file as [data|]; [|discriminate].
        inv_bind He. inversion He; subst E1.
        apply (editorSelectSyntax_window rows cols) in Hx;
          [|unfold window_ok; cbn; split; [|split; [|split]]; auto; lia].
        assert (Hf : forall ls E0 E3,
                  fold_left open_step ls (Ok E0) = Ok E3 -> same_view E0 E3).
        { induction ls as [|l ls IHl]; intros E0 E3 Hf3; cbn [fold_left] in Hf3.
          - inversion Hf3. apply same_view_refl.
          - unfold open_step at 2 in Hf3. cbn [bind] in Hf3.
            destruct (editorInsertRow E0 (numrows E0) _) as [E4| | | |] eqn:H4.
            + apply editorInsertRow_view in H4. apply IHl in Hf3.
              eapply same_view_trans; eassumption.
            + exfalso. clear - Hf3. induction ls; cbn in Hf3; [discriminate|auto].
            + exfalso. clear - Hf3. induction ls; cbn in Hf3; [discriminate|auto].
            + exfalso. clear - Hf3. induction ls; cbn in Hf3; [discriminate|auto].
            + exfalso. clear - Hf3. induction ls; cbn in Hf3; [discriminate|auto]. }
        apply Hf in Hx0.
        eapply window_ok_cols; [apply same_cols_view|exact Hx].
        eapply same_view_trans; [exact Hx0|]. view_fields.
      + cbn. split; [apply initEditor_ok; exact Hr|].
        unfold window_ok. cbn. split; [|split; [|split]]; auto; lia.
    - intros w1 _ [HN1 HW1]. apply main_loop_shown; auto. }
  rewrite Hm in H. exact H.
Qed.

(* ----------------------------------------------------------------- *)
(** ** The frame *)

(** The frame on the screen while the editor waits for a key, on a
    terminal of at least three rows and one column (sizes and line count
    in the range of [int]): [editorRefreshScreen] reads nothing out of
    bounds and leaves the state as it is (the window was scrolled when the
    frame was drawn); what it writes is: hide the cursor, go home, the
    [rows - 2] lines of the window, the status bar, the message bar, the
    cursor address, show the cursor.  The address is that of the cursor
    relative to the window, and it lies inside the text area: its row is
    between 1 and [rows - 2], its column between 1 and [cols]. *)
Lemma frame_while_waiting_ideal rows cols arg keys writes w S now :
  3 <= rows < 2 ^ 31 -> 1 <= cols < 2 ^ 31 -> Forall key_ok keys ->
  main rows cols arg keys writes = Waiting w ->
  numrows (ed w) < 2 ^ 31 - 1 ->
  exists rows_out,
    editorRefreshScreen_frame (ed w) S now
    = Ok (ed w, (ESC :: str "[?25l") ++ (ESC :: str "[H") ++ rows_out
                ++ bars (ed w) S now ++ cursor_escape (ed w)
                ++ (ESC :: str "[?25h")) /\
    visible rows_out = screen_lines (ed w) (Z.to_nat (rows - 2)) 0 /\
    screencols (ed w) = cols /\
    1 <= cy (ed w) - rowoff (ed w) + 1 <= rows - 2 /\
    1 <= rx (ed w) - coloff (ed w) + 1 <= cols /\
    rx (ed w) = cursor_rx (ed w).
Proof.
  intros Hr Hc Hk Hm Hn.
  destruct (main_shown rows cols arg keys writes w ltac:(lia) ltac:(lia) Hk Hm)
    as ((Hsr & Hsc & Hco & Hsy) & Hv & Hrx).
  assert (Hg : good w).
  { apply reachable_good. exists rows, cols, arg, keys, writes.
    split; [lia|]. split; assumption. }
  destruct Hg as [HE _].
  destruct (frame_spec (ed w) S now HE Hv Hrx Hco ltac:(lia) ltac:(lia) Hn Hsy)
    as (rows_out & Hf & Hs).
  exists rows_out. rewrite Hsr in Hs. split; [exact Hf|].
  split; [exact Hs|]. split; [exact Hsc|].
  destruct Hv as ((Hr1 & Hr2) & (Hc1 & Hc2)).
  split; [lia|]. split; [lia|exact Hrx].
Qed.

(* ----------------------------------------------------------------- *)
(** ** Choosing the syntax profile *)

Lemma editorSelectSyntax_syntax E E' :
  editorSelectSyntax E = Ok E' ->
  syntax E'
  = match filename E with
    | Some f => if existsb (filematch_hit f) C_EXTS then Some c_profile
                else None
    | None => None
    end.
Proof.
  unfold editorSelectSyntax. cbv zeta.
  change (filename (set_syntax E None)) with (filename E).
  destruct (filename E) as [f|]; [|intros H; inversion H; reflexivity].
  change HLDB with [c_profile]. cbn [List.find filematch c_profile].
  destruct (existsb (filematch_hit f) C_EXTS).
  - intros H. apply update_all_syntax_view in H.
    destruct H as (_ & _ & _ & _ & ->). reflexivity.
  - intros H. inversion H. reflexivity.
Qed.

(** [editorSelectSyntax] chooses the profile by the file name: no
    name, or a name without a dot, gives no profile; otherwise what stands
    after the last dot decides: [c], [h], [cpp] or [hpp] gives the C
    profile, anything else gives none.  The text, the number of lines, the
    modification counter and the name stay as they are. *)
Lemma editorSelectSyntax_by_extension_ideal E :
  ed_ok E ->
  exists E', editorSelectSyntax E = Ok E' /\ same_text E E' /\
    (filename E = None -> syntax E' = None) /\
    (forall f, filename E = Some f -> ~ In NUL f -> ~ In (chr ".") f ->
       syntax E' = None) /\
    (forall base e,
       filename E = Some (base ++ chr "." :: e) ->
       ~ In NUL (base ++ chr "." :: e) -> ~ In (chr ".") e ->
       (In e c_extensions -> syntax E' = Some c_profile) /\
       (~ In e c_extensions -> syntax E' = None)).
Proof.
  intros HE. destruct (editorSelectSyntax_ok E HE) as (E' & H & _ & Ht).
  exists E'. split; [exact H|]. split; [exact Ht|].
  apply editorSelectSyntax_syntax in H. rewrite H.
  assert (Hc : forall s, ~ In NUL s -> cstr s = s).
  { intros s Hs. apply cstr_plain. apply Forall_forall.
    intros c Hin ->. apply Hs. exact Hin. }
  split; [intros ->; reflexivity|]. split.
  - intros f -> Hn Hd. rewrite filematch_hit_ext, (Hc f Hn).
    rewrite (strrchr_dot_none f Hd). reflexivity.
  - intros base e -> Hn Hd.
    rewrite filematch_hit_ext, (Hc _ Hn), (strrchr_dot_last base e Hd), ext_hit.
    destruct (existsb (list_ascii_eqb e) c_extensions) eqn:Hx.
    + split; [reflexivity|]. intros Hni. exfalso. apply Hni.
      apply existsb_exists in Hx. destruct Hx as (x & Hin & Heq).
      apply list_ascii_eqb_eq in Heq. subst x. exact Hin.
    + split; [|reflexivity]. intros Hin. exfalso.
      assert (Ht' : existsb (list_ascii_eqb e) c_extensions = true).
      { apply existsb_exists. exists e. split; [exact Hin|].
        apply list_ascii_eqb_eq. reflexivity. }
      congruence.
Qed.

End IdealProofs.

(* ================================================================= *)
(** * The program as it is

    Every call of the program gives what the same call gives over a
    library whose [realloc(p, 0)] returns a block, or it has ended the
    program with status 1 ([sim]).  So what was proved above of results
    and of waiting states holds of the program, and what was proved to
    return may instead have exited; the lemmas after the simulation say
    when it has and when it has not. *)

Import IdealProofs.

(* ----------------------------------------------------------------- *)
(** ** Simulation *)

Lemma sim_refl {A} (r : Res A) : sim r r.
Proof. left. reflexivity. Qed.

Lemma sim_bind {A B} (m m' : Res A) (k k' : A -> Res B) :
  sim m m' -> (forall a, sim (k a) (k' a)) -> sim (bind m k) (bind m' k').
Proof.
  intros [->| ->] Hk; [|right; reflexivity].
  destruct m'; cbn [bind]; auto using sim_refl.
Qed.

Lemma sim_Ok {A} (r r' : Res A) a : sim r r' -> r = Ok a -> r' = Ok a.
Proof. intros [->| ->] H; [exact H|discriminate]. Qed.

Lemma sim_Waiting {A} (r r' : Res A) w :
  sim r r' -> r = Waiting w -> r' = Waiting w.
Proof. intros [->| ->] H; [exact H|discriminate]. Qed.

Lemma sim_returns {A} (P : A -> Prop) (r r' : Res A) :
  sim r r' -> (exists a, r' = Ok a /\ P a) ->
  r = Exited 1 \/ exists a, r = Ok a /\ P a.
Proof.
  intros [->| ->] H; [right; exact H|left; reflexivity].
Qed.

Lemma sim_editorUpdateSyntax_rec : forall fuel E p hl_null,
  sim (editorUpdateSyntax_rec fuel E p hl_null)
      (Ideal.editorUpdateSyntax_rec fuel E p).
Proof.
  induction fuel as [|fuel IH]; intros E p hl_null;
    cbn [editorUpdateSyntax_rec Ideal.editorUpdateSyntax_rec];
    (destruct (row_at E p) as [r| | | |]; cbn [bind]; try apply sim_refl);
    (unfold xrealloc_hl; destruct (negb hl_null && (rsize r =? 0));
       [right; reflexivity|cbn [bind]]);
    (destruct (syntax E) as [sy|]; [|apply sim_refl]);
    (apply sim_bind; [apply sim_refl|intros ic]);
    (apply sim_bind; [apply sim_refl|intros s]); cbv zeta;
    (destruct (_ && _); [|apply sim_refl]).
  - apply sim_refl.
  - apply IH.
Qed.

Lemma sim_editorUpdateSyntax E p hl_null :
  sim (editorUpdateSyntax E p hl_null) (Ideal.editorUpdateSyntax E p).
Proof. apply sim_editorUpdateSyntax_rec. Qed.

Lemma sim_editorUpdateRow E p hl_null :
  sim (editorUpdateRow E p hl_null) (Ideal.editorUpdateRow E p).
Proof.
  unfold editorUpdateRow, Ideal.editorUpdateRow.
  apply sim_bind; [apply sim_refl|intros r]. apply sim_editorUpdateSyntax.
Qed.

Lemma sim_editorInsertRow E at_ s :
  sim (editorInsertRow E at_ s) (Ideal.editorInsertRow E at_ s).
Proof.
  unfold editorInsertRow, Ideal.editorInsertRow.
  destruct (_ || _); [apply sim_refl|]. cbv zeta.
  apply sim_bind; [apply sim_editorUpdateRow|intros E1; apply sim_refl].
Qed.

Lemma sim_rowInsertChar E p at_ c :
  sim (rowInsertChar E p at_ c) (Ideal.rowInsertChar E p at_ c).
Proof.
  unfold rowInsertChar, Ideal.rowInsertChar.
  apply sim_bind; [apply sim_refl|intros r]. cbv zeta.
  apply sim_bind; [apply sim_editorUpdateRow|intros E1; apply sim_refl].
Qed.

Lemma sim_rowAppendString E p s :
  sim (rowAppendString E p s) (Ideal.rowAppendString E p s).
Proof.
  unfold rowAppendString, Ideal.rowAppendString.
  apply sim_bind; [apply sim_refl|intros r]. cbv zeta.
  apply sim_bind; [apply sim_editorUpdateRow|intros E1; apply sim_refl].
Qed.

Lemma sim_rowDelChar E p at_ :
  sim (rowDelChar E p at_) (Ideal.rowDelChar E p at_).
Proof.
  unfold rowDelChar, Ideal.rowDelChar.
  apply sim_bind; [apply sim_refl|intros r].
  destruct (_ || _); [apply sim_refl|]. cbv zeta.
  apply sim_bind; [apply sim_editorUpdateRow|intros E1; apply sim_refl].
Qed.

Lemma sim_editorInsertChar E c :
  sim (editorInsertChar E c) (Ideal.editorInsertChar E c).
Proof.
  unfold editorInsertChar, Ideal.editorInsertChar.
  apply sim_bind.
  - destruct (_ =? _); [apply sim_editorInsertRow|apply sim_refl].
  - intros E1. apply sim_bind; [apply sim_rowInsertChar|intros E2; apply sim_refl].
Qed.

Lemma sim_editorInsertNewline E :
  sim (editorInsertNewline E) (Ideal.editorInsertNewline E).
Proof.
  unfold editorInsertNewline, Ideal.editorInsertNewline.
  apply sim_bind; [|intros E3; apply sim_refl].
  destruct (_ =? _); [apply sim_editorInsertRow|].
  apply sim_bind; [apply sim_refl|intros r].
  apply sim_bind; [apply sim_refl|intros s].
  apply sim_bind; [apply sim_editorInsertRow|intros E1].
  apply sim_bind; [apply sim_refl|intros r1]. cbv zeta.
  apply sim_editorUpdateRow.
Qed.

Lemma sim_editorDelChar E :
  sim (editorDelChar E) (Ideal.editorDelChar E).
Proof.
  unfold editorDelChar, Ideal.editorDelChar.
  destruct (_ =? _); [apply sim_refl|].
  destruct (_ && _); [apply sim_refl|].
  apply sim_bind; [apply sim_refl|intros r].
  destruct (_ >? _).
  - apply sim_bind; [apply sim_rowDelChar|intros E1; apply sim_refl].
  - apply sim_bind; [apply sim_refl|intros prev]. cbv zeta.
    apply sim_bind; [apply sim_refl|intros s].
    apply sim_bind; [apply sim_rowAppendString|intros E1; apply sim_refl].
Qed.

Lemma sim_update_all_syntax : forall n E r,
  sim (update_all_syntax n E r) (Ideal.update_all_syntax n E r).
Proof.
  induction n as [|n IH]; intros E r;
    cbn [update_all_syntax Ideal.update_all_syntax]; [apply sim_refl|].
  apply sim_bind; [apply sim_editorUpdateSyntax|intros E1; apply IH].
Qed.

Lemma sim_editorSelectSyntax E :
  sim (editorSelectSyntax E) (Ideal.editorSelectSyntax E).
Proof.
  unfold editorSelectSyntax, Ideal.editorSelectSyntax. cbv zeta.
  destruct (filename _); [|apply sim_refl].
  destruct (List.find _ _); [|apply sim_refl].
  apply sim_update_all_syntax.
Qed.

Lemma sim_open_fold : forall ls acc acc',
  sim acc acc' ->
  sim (fold_left
         (fun acc line =>
            E' <- acc ;;
            editorInsertRow E' (numrows E')
              (firstn (strip_len line (length line)) line)) ls acc)
      (fold_left
         (fun acc line =>
            E' <- acc ;;
            Ideal.editorInsertRow E' (numrows E')
              (firstn (strip_len line (length line)) line)) ls acc').
Proof.
  induction ls as [|l ls IH]; intros acc acc' H; cbn [fold_left]; [exact H|].
  apply IH. apply sim_bind; [exact H|intros E'; apply sim_editorInsertRow].
Qed.

Lemma sim_editorOpen E fname file :
  sim (editorOpen E fname file) (Ideal.editorOpen E fname file).
Proof.
  unfold editorOpen, Ideal.editorOpen.
  apply sim_bind; [apply sim_editorSelectSyntax|intros E1].
  destruct file as [data|]; [|apply sim_refl].
  apply sim_bind; [|intros E2; apply sim_refl].
  apply sim_open_fold. apply sim_refl.
Qed.

Lemma sim_editorSave keys writes w :
  sim (editorSave keys writes w) (Ideal.editorSave keys writes w).
Proof.
  unfold editorSave, Ideal.editorSave.
  apply sim_bind; [|intros [[go w1] keys1]; apply sim_refl].
  destruct (filename (ed w)); [apply sim_refl|].
  apply sim_bind; [apply sim_refl|intros [[name w'] keys']].
  destruct name as [n|]; [|apply sim_refl].
  apply sim_bind; [apply sim_editorSelectSyntax|intros E'; apply sim_refl].
Qed.

Lemma sim_editorProcessKeypress c keys writes w :
  sim (editorProcessKeypress c keys writes w)
      (Ideal.editorProcessKeypress c keys writes w).
Proof.
  unfold editorProcessKeypress, Ideal.editorProcessKeypress. cbv zeta.
  destruct (c =? KEY_ENTER);
    [apply sim_bind; [apply sim_editorInsertNewline|intros; apply sim_refl]|].
  destruct (c =? CTRL_KEY "q"); [apply sim_refl|].
  destruct (c =? CTRL_KEY "s");
    [apply sim_bind; [apply sim_editorSave|intros [[? ?] ?]; apply sim_refl]|].
  destruct (c =? CTRL_KEY "f"); [apply sim_refl|].
  destruct (c =? KEY_HOME); [apply sim_refl|].
  destruct (c =? KEY_END); [apply sim_refl|].
  destruct ((c =? KEY_BACKSPACE) || (c =? CTRL_KEY "h") || (c =? KEY_DEL)).
  { apply sim_bind; [|intros; apply sim_refl].
    apply sim_bind; [apply sim_refl|intros E1; apply sim_editorDelChar]. }
  destruct ((c =? KEY_PAGE_UP) || (c =? KEY_PAGE_DOWN)); [apply sim_refl|].
  destruct ((c =? KEY_ARROW_UP) || (c =? KEY_ARROW_DOWN)
            || (c =? KEY_ARROW_LEFT) || (c =? KEY_ARROW_RIGHT));
    [apply sim_refl|].
  destruct ((c =? CTRL_KEY "l") || (c =? KEY_ESC)); [apply sim_refl|].
  apply sim_bind; [|intros; apply sim_refl].
  destruct (_ && _); [apply sim_editorInsertChar|apply sim_refl].
Qed.

Lemma sim_main_loop : forall fuel keys writes w,
  sim (main_loop fuel keys writes w) (Ideal.main_loop fuel keys writes w).
Proof.
  induction fuel as [|fuel IH]; intros keys writes w;
    cbn [main_loop Ideal.main_loop]; [apply sim_refl|].
  apply sim_bind; [apply sim_refl|intros E1]. cbv zeta.
  destruct keys as [|c rest]; [apply sim_refl|].
  apply sim_bind; [apply sim_editorProcessKeypress|].
  intros [[w2 keys2] writes2]. apply IH.
Qed.

Lemma sim_main rows cols arg keys writes :
  sim (main rows cols arg keys writes) (Ideal.main rows cols arg keys writes).
Proof.
  unfold main, Ideal.main. cbv zeta.
  apply sim_bind; [|intros w1; apply sim_main_loop].
  destruct arg as [[fname file]|]; [|apply sim_refl].
  apply sim_bind; [apply sim_editorOpen|intros E1; apply sim_refl].
Qed.

(** What holds of the states the ideal program waits in holds of the
    states the program waits in. *)
Lemma reachable_ideal w : reachable w -> Ideal.reachable w.
Proof.
  intros (rows & cols & arg & keys & writes & Hr & Hk & Hm).
  exists rows, cols, arg, keys, writes. split; [exact Hr|]. split; [exact Hk|].
  exact (sim_Waiting _ _ _ (sim_main rows cols arg keys writes) Hm).
Qed.

Lemma reachable_is_good w : reachable w -> good w.
Proof. intros H. apply reachable_good, reachable_ideal, H. Qed.

(* ----------------------------------------------------------------- *)
(** ** When the highlighter exits and when it does not *)

Lemma xrealloc_hl_ok hl_null n :
  hl_null = true \/ n <> 0 -> xrealloc_hl hl_null n = Ok tt.
Proof.
  unfold xrealloc_hl. intros [->|Hn]; [reflexivity|].
  destruct (Z.eqb_spec n 0); [contradiction|]. rewrite andb_false_r.
  reflexivity.
Qed.

Lemma editorUpdateSyntax_rec_dies fuel E p r :
  row_at E p = Ok r -> rsize r = 0 ->
  editorUpdateSyntax_rec fuel E p false = Exited 1.
Proof.
  intros Hr Hz. destruct fuel; cbn [editorUpdateSyntax_rec];
    rewrite Hr; cbn [bind]; unfold xrealloc_hl; rewrite Hz; reflexivity.
Qed.

Lemma editorUpdateSyntax_rec_same : forall fuel E p hl_null,
  tail_ok E p -> 0 <= p -> solid E (p + 1) ->
  (hl_null = true \/
   forall r, nth_error (row E) (Z.to_nat p) = Some r -> rsize r <> 0) ->
  editorUpdateSyntax_rec fuel E p hl_null
  = Ideal.editorUpdateSyntax_rec fuel E p.
Proof.
  induction fuel as [|fuel IH]; intros E p hl_null Ht Hp Hs Hn;
    cbn [editorUpdateSyntax_rec Ideal.editorUpdateSyntax_rec];
    (destruct (row_at E p) as [r| | | |] eqn:Hr; cbn [bind];
       try reflexivity);
    apply load_inv in Hr; destruct Hr as [Hpl Hnth];
    (rewrite xrealloc_hl_ok
       by (destruct Hn as [Hn|Hn]; [left; exact Hn|right; apply Hn, Hnth]));
    cbn [bind]; (destruct (syntax E) as [sy|] eqn:Hsy; [|reflexivity]);
    (destruct (if 0 <? idx r then _ else _) as [ic| | | |]; cbn [bind];
       try reflexivity);
    (destruct (scan_loop _ _ _ _ _) as [s| | | |]; cbn [bind];
       try reflexivity);
    cbv zeta; (destruct (_ && _); [|reflexivity]); try reflexivity.
  destruct (Ht (Z.to_nat p) r ltac:(lia) Hnth) as [Hidx _].
  rewrite Z2Nat.id in Hidx by lia. rewrite Hidx.
  set (r' := set_open (set_hl r (sc_hl s)) (sc_in_comment s)).
  assert (Hrows : forall j x, p + 1 <= Z.of_nat j ->
            nth_error (row (set_row E p r')) j = Some x ->
            nth_error (row E) j = Some x).
  { intros j x Hj Hx. rewrite set_row_rows, upd_nth in Hx
      by (unfold len in Hpl; lia).
    destruct (Nat.eqb_spec j (Z.to_nat p)); [lia|exact Hx]. }
  destruct Hs as [Hs|Hs]; [congruence|].
  apply IH.
  - intros j x Hj Hx. apply (Ht j x); [lia|apply Hrows; auto].
  - lia.
  - right. intros j x Hj Hx. apply (Hs j x); [lia|apply Hrows; auto; lia].
  - right. intros x Hx. apply (Hs (Z.to_nat (p + 1)) x); [lia|].
    apply Hrows; [lia|exact Hx].
Qed.

Lemma editorUpdateRow_same E p hl_null :
  0 <= p < len (row E) -> rows_pre (row E) p -> solid E (p + 1) ->
  (hl_null = true \/
   forall r, nth_error (row E) (Z.to_nat p) = Some r -> chars r <> []) ->
  editorUpdateRow E p hl_null = Ideal.editorUpdateRow E p.
Proof.
  intros Hp Hpre Hs Hn. unfold editorUpdateRow, Ideal.editorUpdateRow, row_at.
  destruct (load_ok (row E) p Hp) as (r & Hr & Hnth). rewrite Hr. cbn [bind].
  set (out := render_loop (chars r) (Z.to_nat (size r)) 0 []).
  set (r1 := set_render r (len out) out).
  destruct (Hpre _ _ Hnth) as (Hidx & _ & Hraw).
  rewrite Z2Nat.id in Hidx, Hraw by lia. destruct (Hraw eq_refl) as [Hsz Hlf].
  assert (Hrows : forall j x, nth_error (row (set_row E p r1)) j = Some x ->
            if Nat.eqb j (Z.to_nat p) then x = r1
            else nth_error (row E) j = Some x).
  { intros j x Hx. rewrite set_row_rows, upd_nth in Hx
      by (unfold len in Hp; lia).
    destruct (Nat.eqb_spec j (Z.to_nat p)); [congruence|exact Hx]. }
  apply editorUpdateSyntax_rec_same.
  - intros j x Hj Hx. apply Hrows in Hx.
    destruct (Nat.eqb_spec j (Z.to_nat p)).
    + subst x. cbn. split; [lia|reflexivity].
    + destruct (Hpre _ _ Hx) as (Hi & Hok & _). split; [auto|].
      apply Hok; lia.
  - lia.
  - destruct Hs as [Hs|Hs]; [left; exact Hs|right].
    intros j x Hj Hx. apply Hrows in Hx.
    destruct (Nat.eqb_spec j (Z.to_nat p)); [lia|]. apply (Hs j x); auto.
  - destruct Hn as [Hn|Hn]; [left; exact Hn|right].
    intros x Hx. apply Hrows in Hx. rewrite Nat.eqb_refl in Hx. subst x.
    cbn [rsize r1 set_render]. specialize (Hn r Hnth).
    pose proof (render_loop_bound (chars r) (Z.to_nat (size r))) as Hb.
    fold out in Hb. destruct (chars r) as [|c cs]; [contradiction|].
    unfold len in Hsz. cbn [length] in Hsz. lia.
Qed.

(** An edit of the characters of row [p]. *)
Lemma row_edit_same E p r cs n hl_null :
  buf_ok E -> 0 <= p < numrows E ->
  nth_error (row E) (Z.to_nat p) = Some r -> noLF cs -> n = len cs ->
  solid E (p + 1) -> hl_null = true \/ cs <> [] ->
  editorUpdateRow (set_row E p (set_chars r n cs)) p hl_null
  = Ideal.editorUpdateRow (set_row E p (set_chars r n cs)) p.
Proof.
  intros (Hsy & Hn & Hok) Hp Hnth Hlf -> Hs Hne.
  assert (Hp' : 0 <= p < len (row E)) by lia.
  assert (Hrows : forall j x,
            nth_error (row (set_row E p (set_chars r (len cs) cs))) j = Some x ->
            if Nat.eqb j (Z.to_nat p) then x = set_chars r (len cs) cs
            else nth_error (row E) j = Some x).
  { intros j x Hx. rewrite set_row_rows, upd_nth in Hx
      by (unfold len in Hp'; lia).
    destruct (Nat.eqb_spec j (Z.to_nat p)); [congruence|exact Hx]. }
  apply editorUpdateRow_same.
  - rewrite set_row_len; auto.
  - intros j x Hx. apply Hrows in Hx.
    destruct (Nat.eqb_spec j (Z.to_nat p)) as [->|Hne'].
    + subst x. cbn. destruct (Hok _ _ Hnth) as [Hi _].
      split; [auto|]. split; [intros; lia|]. intros _. split; auto.
    + destruct (Hok _ _ Hx). split; [auto|]. split; [auto|]. intros; lia.
  - destruct Hs as [Hs|Hs]; [left; exact Hs|right].
    intros j x Hj Hx. apply Hrows in Hx.
    destruct (Nat.eqb_spec j (Z.to_nat p)); [lia|]. apply (Hs j x); auto.
  - destruct Hne as [Hne|Hne]; [left; exact Hne|right].
    intros x Hx. apply Hrows in Hx. rewrite Nat.eqb_refl in Hx. subst x.
    exact Hne.
Qed.

Lemma editorInsertRow_same E at_ s :
  buf_ok E -> noLF s -> solid E at_ ->
  editorInsertRow E at_ s = Ideal.editorInsertRow E at_ s.
Proof.
  intros (Hsy & Hn & Hok) Hlf Hs. unfold editorInsertRow, Ideal.editorInsertRow.
  destruct ((at_ <? 0) || (at_ >? numrows E)) eqn:Hat; [reflexivity|].
  apply orb_false_iff in Hat. destruct Hat as [Ha1 Ha2].
  assert (Hat : 0 <= at_ <= numrows E) by lia. cbv zeta.
  set (fresh := mkRow at_ (len s) 0 s [] [] false).
  set (rows := firstn (Z.to_nat at_) (row E) ++ fresh
                 :: map (add_idx 1) (skipn (Z.to_nat at_) (row E))).
  assert (Hlen : len rows = len (row E) + 1).
  { unfold rows. rewrite len_app, len_cons, len_map, len_firstn, len_skipn; lia. }
  rewrite editorUpdateRow_same; [reflexivity| | | |].
  - cbn. lia.
  - intros j x Hx. cbn [row set_rows] in Hx. unfold rows in Hx.
    rewrite nth_error_insert in Hx by (unfold len in *; lia).
    destruct (Nat.ltb_spec j (Z.to_nat at_)).
    + destruct (Hok _ _ Hx). split; [auto|]. split; [auto|]. intros; lia.
    + destruct (Nat.eqb_spec j (Z.to_nat at_)) as [->|].
      * inversion Hx; subst x. cbn. split; [lia|]. split; [intros; lia|].
        intros _; split; auto.
      * destruct (nth_error (row E) (j - 1)) as [y|] eqn:Ey; [|discriminate].
        inversion Hx; subst x. destruct (Hok _ _ Ey) as [Hi Hr]. cbn.
        split; [lia|]. split; [intros _; exact Hr|]. intros; lia.
  - destruct Hs as [Hs|Hs]; [left; exact Hs|right].
    intros j x Hj Hx. cbn [row set_rows] in Hx. unfold rows in Hx.
    rewrite nth_error_insert in Hx by (unfold len in *; lia).
    destruct (Nat.ltb_spec j (Z.to_nat at_)); [lia|].
    destruct (Nat.eqb_spec j (Z.to_nat at_)); [lia|].
    destruct (nth_error (row E) (j - 1)) as [y|] eqn:Ey; [|discriminate].
    inversion Hx; subst x. cbn. apply (Hs (j - 1)%nat y); [lia|exact Ey].
  - left. reflexivity.
Qed.

Lemma solid_of_calm E y : buf_ok E -> calm E y -> solid E y.
Proof.
  intros (_ & Hn & Hok) [Hc|Hc]; [left; exact Hc|right].
  intros j r Hj Hr Hz.
  assert (Hlt : (j < length (row E))%nat) by (apply nth_error_Some; congruence).
  apply (Hc (Z.of_nat j)); [lia|unfold len in Hn; lia|].
  rewrite (line_at_row E (Z.of_nat j) r) by (rewrite Nat2Z.id; exact Hr).
  destruct (Hok _ _ Hr) as (_ & Hsz & Hrs & _ & Hrn & _).
    pose proof (render_loop_bound (chars r) (Z.to_nat (size r))) as Hb.
  rewrite <- Hrn in Hb. destruct (chars r) as [|c cs]; [reflexivity|].
  unfold len in *. cbn [length] in Hsz. lia.
Qed.

Lemma solid_mono E y y' : y <= y' -> solid E y -> solid E y'.
Proof.
  intros Hy [Hs|Hs]; [left; exact Hs|right].
  intros j r Hj. apply Hs. lia.
Qed.

Lemma calm_mono E y y' : y <= y' -> calm E y -> calm E y'.
Proof.
  intros Hy [Hs|Hs]; [left; exact Hs|right].
  intros j Hj0 Hj. apply Hs; lia.
Qed.

Lemma solid_end E y : buf_ok E -> numrows E <= y -> solid E y.
Proof.
  intros (_ & Hn & _) Hy. right. intros j r Hj Hr.
  assert (j < length (row E))%nat by (apply nth_error_Some; congruence).
  unfold len in Hn. lia.
Qed.

(** The condition looks at the profile and the lines only. *)
Lemma calm_lines E E' y y' :
  syntax E' = syntax E -> numrows E' - y' = numrows E - y ->
  (forall j, 0 <= j -> y <= j < numrows E ->
     line_at E' (j + (y' - y)) = line_at E j) ->
  0 <= y -> calm E y -> calm E' y'.
Proof.
  intros Hs Hn Hl Hy [Hc|Hc]; [left; congruence|right].
  intros j Hj0 Hj. replace j with ((j - (y' - y)) + (y' - y)) by lia.
  rewrite Hl by lia. apply Hc; lia.
Qed.

Lemma rowInsertChar_same E p at_ c :
  buf_ok E -> 0 <= p < numrows E -> int_to_char c <> LF -> solid E (p + 1) ->
  rowInsertChar E p at_ c = Ideal.rowInsertChar E p at_ c.
Proof.
  intros Hb Hp Hc Hs. unfold rowInsertChar, Ideal.rowInsertChar.
  destruct (buf_ok_row E p Hb Hp) as (r & -> & Hnth & _ & Hr). cbn [bind].
  cbv zeta.
  set (at' := if (at_ <? 0) || (at_ >? size r) then size r else at_).
  set (cs := firstn (Z.to_nat at') (chars r) ++ int_to_char c
               :: skipn (Z.to_nat at') (chars r)).
  destruct Hr as (Hsz & _ & _ & _ & Hlf).
  rewrite (row_edit_same E p r cs (size r + 1) false Hb Hp Hnth);
    [reflexivity| | |exact Hs|].
  - unfold cs. apply noLF_app; [apply noLF_firstn; exact Hlf|].
    apply noLF_cons; [exact Hc|apply noLF_skipn; exact Hlf].
  - assert (0 <= at' <= size r).
    { subst at'. destruct (_ || _) eqn:Ho; [pose proof (len_nonneg (chars r)); lia|].
      apply orb_false_iff in Ho. lia. }
    unfold cs. rewrite len_app, len_cons, len_firstn, len_skipn; lia.
  - right. unfold cs. intros H. apply app_eq_nil in H. destruct H as [_ H].
    discriminate.
Qed.

Lemma rowAppendString_same E p s :
  buf_ok E -> 0 <= p < numrows E -> noLF s -> solid E (p + 1) ->
  line_at E p ++ s <> [] ->
  rowAppendString E p s = Ideal.rowAppendString E p s.
Proof.
  intros Hb Hp Hlfs Hs Hne. unfold rowAppendString, Ideal.rowAppendString.
  destruct (buf_ok_row E p Hb Hp) as (r & -> & Hnth & _ & Hr). cbn [bind].
  cbv zeta. destruct Hr as (Hsz & _ & _ & _ & Hlf).
  assert (Hfull : firstn (Z.to_nat (size r)) (chars r) = chars r).
  { apply firstn_all2. unfold len in Hsz. lia. }
  rewrite (row_edit_same E p r _ (size r + len s) false Hb Hp Hnth);
    [reflexivity| | |exact Hs|].
  - rewrite Hfull. apply noLF_app; assumption.
  - rewrite Hfull, len_app. lia.
  - right. rewrite Hfull. rewrite (line_at_row _ _ _ Hnth) in Hne. exact Hne.
Qed.

Lemma rowDelChar_same E p at_ :
  buf_ok E -> 0 <= p < numrows E -> 0 <= at_ < len (line_at E p) ->
  solid E (p + 1) -> 2 <= len (line_at E p) ->
  rowDelChar E p at_ = Ideal.rowDelChar E p at_.
Proof.
  intros Hb Hp Hat Hs H2. unfold rowDelChar, Ideal.rowDelChar.
  destruct (buf_ok_row E p Hb Hp) as (r & -> & Hnth & _ & Hr). cbn [bind].
  destruct Hr as (Hsz & _ & _ & _ & Hlf).
  rewrite (line_at_row _ _ _ Hnth) in Hat, H2.
  destruct ((at_ <? 0) || (at_ >=? size r)); [reflexivity|]. cbv zeta.
  rewrite (row_edit_same E p r _ (size r - 1) false Hb Hp Hnth);
    [reflexivity| | |exact Hs|].
  - apply noLF_app; [apply noLF_firstn|apply noLF_skipn]; exact Hlf.
  - unfold len in *. rewrite length_app, length_firstn, length_skipn. lia.
  - right. intros H. apply (f_equal (@length ascii)) in H.
    rewrite length_app, length_firstn, length_skipn in H.
    unfold len in *. cbn [length] in H. lia.
Qed.

Lemma editorUpdateRow_dies E p r :
  row_at E p = Ok r -> size r = 0 ->
  editorUpdateRow E p false = Exited 1.
Proof.
  intros Hr Hz. unfold editorUpdateRow. rewrite Hr. cbn [bind].
  rewrite Hz. cbn [Z.to_nat render_loop]. unfold editorUpdateSyntax.
  apply load_inv in Hr. destruct Hr as [Hp _].
  apply editorUpdateSyntax_rec_dies with (r := set_render r (len (@nil ascii)) []);
    [|reflexivity].
  unfold row_at.
  destruct (load_ok (row (set_row E p (set_render r (len (@nil ascii)) []))) p)
    as (x & Hx & Hnth); [rewrite set_row_len; auto|].
  rewrite set_row_nth_same in Hnth by exact Hp. congruence.
Qed.

Lemma row_edit_dies E p r :
  0 <= p < len (row E) ->
  editorUpdateRow (set_row E p (set_chars r 0 [])) p false = Exited 1.
Proof.
  intros Hp. apply editorUpdateRow_dies with (r := set_chars r 0 []);
    [|reflexivity].
  unfold row_at.
  destruct (load_ok (row (set_row E p (set_chars r 0 []))) p)
    as (x & Hx & Hnth); [rewrite set_row_len; auto|].
  rewrite set_row_nth_same in Hnth by exact Hp. congruence.
Qed.

Lemma rowDelChar_dies E p at_ :
  buf_ok E -> 0 <= p < numrows E -> 0 <= at_ < len (line_at E p) ->
  len (line_at E p) = 1 -> rowDelChar E p at_ = Exited 1.
Proof.
  intros Hb Hp Hat H1. unfold rowDelChar.
  destruct (buf_ok_row E p Hb Hp) as (r & -> & Hnth & _ & Hr). cbn [bind].
  destruct Hr as (Hsz & _). rewrite (line_at_row _ _ _ Hnth) in Hat, H1.
  replace ((at_ <? 0) || (at_ >=? size r)) with false
    by (symmetry; apply orb_false_iff; split; lia).
  cbv zeta. destruct Hb as (_ & Hn & _).
  assert (Hcs : firstn (Z.to_nat at_) (chars r)
                  ++ skipn (S (Z.to_nat at_)) (chars r) = []).
  { destruct (chars r) as [|c [|d cs]]; unfold len in *; cbn [length] in *;
      try lia. replace (Z.to_nat at_) with 0%nat by lia. reflexivity. }
  rewrite Hcs. replace (size r - 1) with 0 by lia.
  rewrite row_edit_dies by lia. reflexivity.
Qed.

Lemma rowAppendString_dies E p :
  buf_ok E -> 0 <= p < numrows E -> line_at E p = [] ->
  rowAppendString E p [] = Exited 1.
Proof.
  intros Hb Hp H0. unfold rowAppendString.
  destruct (buf_ok_row E p Hb Hp) as (r & -> & Hnth & _ & Hr). cbn [bind].
  destruct Hr as (Hsz & _). rewrite (line_at_row _ _ _ Hnth) in H0.
  rewrite H0 in *. change (len (@nil ascii)) with 0 in *. rewrite Hsz.
  cbv zeta. cbn [Z.to_nat firstn app Z.add]. destruct Hb as (_ & Hn & _).
  rewrite row_edit_dies by lia. reflexivity.
Qed.

(* ----------------------------------------------------------------- *)

Lemma editorInsertChar_same E c :
  ed_ok E -> int_to_char c <> LF -> calm E (cy E + 1) ->
  editorInsertChar E c = Ideal.editorInsertChar E c.
Proof.
  intros (Hb & (Hcy & Hcx) & Hv) Hc Hcalm.
  unfold editorInsertChar, Ideal.editorInsertChar.
  destruct (Z.eqb_spec (cy E) (numrows E)) as [He|Hne].
  - rewrite editorInsertRow_same;
      [|exact Hb|constructor|apply solid_end; [exact Hb|lia]].
    destruct (editorInsertRow_ok E (numrows E) [])
      as (E1 & -> & Hb1 & Hl1 & Hn1 & _ & Hf1); auto; [lia|constructor|].
    cbn [bind]. pose proof Hf1 as (Fx & Fy & _).
    rewrite rowInsertChar_same; auto; [lia|].
    apply solid_end; [exact Hb1|lia].
  - cbn [bind]. rewrite rowInsertChar_same; auto; [lia|].
    apply solid_of_calm; auto.
Qed.

Lemma editorInsertNewline_same E :
  ed_ok E -> calm E (cy E) ->
  syntax E = None \/ cx E = 0 \/ cx E < len (line_at E (cy E)) ->
  editorInsertNewline E = Ideal.editorInsertNewline E.
Proof.
  intros (Hb & (Hcy & Hcx) & Hv) Hcalm Hin.
  unfold editorInsertNewline, Ideal.editorInsertNewline.
  pose proof (buf_ok_lines_len E Hb) as HL.
  destruct (Z.eqb_spec (cx E) 0) as [Hx0|Hx0].
  - rewrite editorInsertRow_same;
      [reflexivity|exact Hb|constructor|apply solid_of_calm; auto].
  - assert (Hlt : cy E < numrows E).
    { destruct (Z.eq_dec (cy E) (numrows E)) as [He|]; [|lia].
      unfold line_at in Hcx. rewrite nth_line_out in Hcx by lia.
      change (len (@nil ascii)) with 0 in Hcx. lia. }
    destruct (buf_ok_row E (cy E) Hb) as (r & -> & Hnth & Hidx & Hok); [lia|].
    cbn [bind]. pose proof Hok as (Hsz & _ & _ & _ & Hlf).
    rewrite (line_at_row _ _ _ Hnth) in Hcx, Hin.
    rewrite (sub_chars_ok r (cx E) (size r - cx E)) by lia. cbn [bind].
    set (tl_ := skipn (Z.to_nat (cx E)) (chars r)).
    rewrite editorInsertRow_same;
      [|exact Hb|apply noLF_skipn; auto
       |apply solid_of_calm; [exact Hb|apply (calm_mono E (cy E)); [lia|auto]]].
    destruct (editorInsertRow_ok E (cy E + 1) tl_)
      as (E1 & -> & Hb1 & Hl1 & Hn1 & _ & Hf1); auto;
      [lia|apply noLF_skipn; auto|].
    cbn [bind]. pose proof Hf1 as (Fx & Fy & _ & _ & _ & _ & _ & _ & Fs).
    assert (Hline : line_at E1 (cy E1) = chars r).
    { unfold line_at. rewrite Hl1, Fy, nth_line_insert by lia.
      replace (cy E <? cy E + 1) with true by (symmetry; lia).
      apply (line_at_row _ _ _ Hnth). }
    destruct (buf_ok_row E1 (cy E1) Hb1) as (r1 & -> & Hnth1 & Hidx1 & Hok1); [lia|].
    cbn [bind]. rewrite (line_at_row _ _ _ Hnth1) in Hline.
    rewrite (row_edit_same E1 (cy E1) r1 _ (cx E1) false Hb1); auto.
    + lia.
    + apply noLF_firstn. rewrite Hline. auto.
    + rewrite len_firstn; [lia|]. rewrite Hline, Fx. lia.
    + apply solid_of_calm; [exact Hb1|].
      destruct Hcalm as [Hs|Hne]; [left; congruence|].
      destruct Hin as [Hs|[H0|Hin]]; [left; congruence|contradiction|].
      right. intros j Hj0 Hj. unfold line_at. rewrite Hl1.
      rewrite nth_line_insert by lia. rewrite Fy in Hj.
      replace (j <? cy E + 1) with false by (symmetry; lia).
      destruct (Z.eqb_spec j (cy E + 1)).
      * unfold tl_. intros H. apply (f_equal (@length ascii)) in H.
        rewrite length_skipn in H. unfold len in *. cbn [length] in H. lia.
      * apply Hne; lia.
    + right. rewrite Hline, Fx. intros H. apply (f_equal (@length ascii)) in H.
      rewrite length_firstn in H. unfold len in *. cbn [length] in H. lia.
Qed.

Lemma editorDelChar_same E :
  ed_ok E ->
  (0 < cx E -> 2 <= len (line_at E (cy E)) /\ calm E (cy E + 1)) ->
  (cx E = 0 -> 0 < cy E ->
     line_at E (cy E - 1) ++ line_at E (cy E) <> [] /\ calm E (cy E)) ->
  editorDelChar E = Ideal.editorDelChar E.
Proof.
  intros HE Hdel Hjoin. pose proof HE as (Hb & (Hcy & Hcx) & Hv).
  unfold editorDelChar, Ideal.editorDelChar.
  pose proof (buf_ok_lines_len E Hb) as HL.
  destruct (Z.eqb_spec (cy E) (numrows E)); [reflexivity|].
  destruct (_ && _) eqn:H0; [reflexivity|].
  destruct (buf_ok_row E (cy E) Hb) as (r & -> & Hnth & Hidx & Hok); [lia|].
  cbn [bind]. pose proof Hok as (Hsz & _ & _ & _ & Hlf).
  pose proof (line_at_row _ _ _ Hnth) as Hline.
  destruct (Z.gtb_spec (cx E) 0) as [Hx|Hx].
  - destruct (Hdel ltac:(lia)) as [H2 Hc].
    rewrite rowDelChar_same; auto; [lia|lia|].
    apply solid_of_calm; auto.
  - assert (Hy : 1 <= cy E).
    { apply andb_false_iff in H0. destruct H0 as [H0|H0]; lia. }
    destruct (Hjoin ltac:(lia) ltac:(lia)) as [Hne Hc].
    destruct (buf_ok_row E (cy E - 1) Hb) as (prev & -> & Hnthp & Hidxp & Hokp); [lia|].
    cbn [bind]. pose proof Hokp as (Hszp & _).
    pose proof (len_nonneg (chars r)) as Hrn.
    rewrite (sub_chars_ok r 0 (size r)) by lia. cbn [skipn Z.to_nat bind].
    change (cy (set_cursor E (size prev) (cy E))) with (cy E).
    rewrite rowAppendString_same; [reflexivity| |cbn; lia|exact Hlf| |].
    + exact Hb.
    + replace (cy E - 1 + 1) with (cy E) by lia.
      apply (solid_of_calm E (cy E) Hb Hc).
    + change (line_at (set_cursor E (size prev) (cy E)) (cy E - 1))
        with (line_at E (cy E - 1)). rewrite <- Hline. exact Hne.
Qed.

(** Deleting the only character of a line: the program exits. *)
Lemma editorDelChar_dies_del E :
  ed_ok E -> cy E < numrows E -> 0 < cx E -> len (line_at E (cy E)) = 1 ->
  editorDelChar E = Exited 1.
Proof.
  intros (Hb & (Hcy & Hcx) & Hv) Hlt Hx H1. unfold editorDelChar.
  replace (cy E =? numrows E) with false by (symmetry; lia).
  replace (cx E =? 0) with false by (symmetry; lia). cbn [andb].
  destruct (buf_ok_row E (cy E) Hb) as (r & -> & _); [lia|]. cbn [bind].
  replace (cx E >? 0) with true by (symmetry; lia).
  rewrite rowDelChar_dies; auto; lia.
Qed.

(** Joining two empty lines: the program exits. *)
Lemma editorDelChar_dies_join E :
  ed_ok E -> cy E < numrows E -> cx E = 0 -> 0 < cy E ->
  line_at E (cy E - 1) = [] -> line_at E (cy E) = [] ->
  editorDelChar E = Exited 1.
Proof.
  intros (Hb & (Hcy & Hcx) & Hv) Hlt Hx Hy Hp Hc. unfold editorDelChar.
  replace (cy E =? numrows E) with false by (symmetry; lia).
  replace (cy E =? 0) with false by (symmetry; lia). rewrite andb_false_r.
  destruct (buf_ok_row E (cy E) Hb) as (r & -> & Hnth & _ & Hok); [lia|].
  cbn [bind]. replace (cx E >? 0) with false by (symmetry; lia).
  destruct (buf_ok_row E (cy E - 1) Hb) as (prev & -> & _); [lia|].
  cbn [bind]. destruct Hok as (Hsz & _).
  rewrite (line_at_row _ _ _ Hnth) in Hc. rewrite Hc in *.
  change (len (@nil ascii)) with 0 in Hsz.
  rewrite (sub_chars_ok r 0 (size r)) by (rewrite ?Hc; cbn; lia).
  cbn [skipn Z.to_nat bind]. rewrite Hc.
  change (cy (set_cursor E (size prev) (cy E))) with (cy E).
  rewrite rowAppendString_dies; [reflexivity|exact Hb|cbn; lia|exact Hp].
Qed.

Lemma tail_ok_of_buf E p : buf_ok E -> tail_ok E p.
Proof.
  intros (_ & _ & Hok) j r _ Hr. destruct (Hok _ _ Hr) as [Hi (_ & Hrs & _)].
  auto.
Qed.

Lemma empty_line_rsize E j r :
  buf_ok E -> nth_error (row E) (Z.to_nat j) = Some r ->
  (rsize r = 0 <-> line_at E j = []).
Proof.
  intros (_ & _ & Hok) Hr. rewrite (line_at_row _ _ _ Hr).
  destruct (Hok _ _ Hr) as (_ & Hsz & Hrs & _ & Hrn & _).
  pose proof (render_loop_bound (chars r) (Z.to_nat (size r))) as Hb.
  rewrite <- Hrn in Hb. split.
  - intros Hz. destruct (chars r) as [|c cs]; [reflexivity|].
    unfold len in *. cbn [length] in Hsz. lia.
  - intros Hc. rewrite Hc in *. change (len (@nil ascii)) with 0 in Hsz.
    rewrite Hrs, Hrn, Hsz. reflexivity.
Qed.

Lemma editorUpdateSyntax_same E p :
  buf_ok E -> 0 <= p < numrows E -> no_empty_line_from E p ->
  editorUpdateSyntax E p false = Ideal.editorUpdateSyntax E p.
Proof.
  intros Hb Hp Hne. unfold editorUpdateSyntax, Ideal.editorUpdateSyntax.
  apply editorUpdateSyntax_rec_same.
  - apply tail_ok_of_buf; exact Hb.
  - lia.
  - apply solid_of_calm; [exact Hb|]. right.
    intros j Hj0 Hj. apply Hne; lia.
  - right. intros r Hr Hz. apply (Hne p); [lia|lia|].
    apply (empty_line_rsize E p r Hb Hr). exact Hz.
Qed.

Lemma editorUpdateSyntax_dies E p :
  buf_ok E -> 0 <= p < numrows E -> line_at E p = [] ->
  editorUpdateSyntax E p false = Exited 1.
Proof.
  intros Hb Hp H0. unfold editorUpdateSyntax.
  destruct (buf_ok_row E p Hb Hp) as (r & Hr & Hnth & _).
  apply (editorUpdateSyntax_rec_dies _ E p r Hr).
  apply (empty_line_rsize E p r Hb Hnth). exact H0.
Qed.

Lemma update_all_syntax_same n : forall E r,
  ed_ok E -> 0 <= r -> r + Z.of_nat n <= numrows E ->
  no_empty_line_from E r ->
  update_all_syntax n E r = Ideal.update_all_syntax n E r.
Proof.
  induction n as [|n IH]; intros E r HE Hr Hn Hne;
    cbn [update_all_syntax Ideal.update_all_syntax]; [reflexivity|].
  rewrite editorUpdateSyntax_same; [|exact (proj1 HE)|lia|exact Hne].
  destruct (editorUpdateSyntax_ed_ok E r HE) as (E1 & -> & H1 & Ht1 & Hs1); [lia|].
  cbn [bind]. destruct Ht1 as (Hl1 & Hn1 & _).
  apply IH; [exact H1|lia|lia|].
  intros j Hj0 Hj. unfold line_at. rewrite Hl1. apply Hne; lia.
Qed.

Lemma update_all_syntax_dies n : forall E r,
  ed_ok E -> 0 <= r -> r + Z.of_nat n <= numrows E ->
  (exists j, r <= j < r + Z.of_nat n /\ line_at E j = []) ->
  update_all_syntax n E r = Exited 1.
Proof.
  induction n as [|n IH]; intros E r HE Hr Hn (j & Hj & H0);
    cbn [update_all_syntax]; [lia|].
  destruct (sim_editorUpdateSyntax E r false) as [Hs|Hs];
    [|rewrite Hs; reflexivity].
  destruct (Z.eq_dec j r) as [->|Hjr].
  - rewrite editorUpdateSyntax_dies; [reflexivity|exact (proj1 HE)|lia|exact H0].
  - rewrite Hs.
    destruct (editorUpdateSyntax_ed_ok E r HE) as (E1 & -> & H1 & Ht1 & Hs1); [lia|].
    cbn [bind]. destruct Ht1 as (Hl1 & Hn1 & _).
    apply IH; [exact H1|lia|lia|]. exists j. split; [lia|].
    unfold line_at. rewrite Hl1. exact H0.
Qed.

Lemma editorSelectSyntax_unfold E :
  editorSelectSyntax E
  = match filename E with
    | Some f =>
        if existsb (filematch_hit f) C_EXTS
        then update_all_syntax (Z.to_nat (numrows E))
               (set_syntax (set_syntax E None) (Some c_profile)) 0
        else Ok (set_syntax E None)
    | None => Ok (set_syntax E None)
    end.
Proof.
  unfold editorSelectSyntax. cbv zeta.
  change (filename (set_syntax E None)) with (filename E).
  destruct (filename E) as [f|]; [|reflexivity].
  change HLDB with [c_profile]. cbn [List.find filematch c_profile].
  destruct (existsb (filematch_hit f) C_EXTS); reflexivity.
Qed.

Lemma ed_ok_c_profile E :
  ed_ok E -> ed_ok (set_syntax (set_syntax E None) (Some c_profile)).
Proof.
  intros HE. apply ed_ok_set_syntax; [apply ed_ok_set_syntax; auto|].
  apply HLDB_wf. left. reflexivity.
Qed.

Lemma editorSelectSyntax_same E :
  ed_ok E -> no_empty_line_from E 0 ->
  editorSelectSyntax E = Ideal.editorSelectSyntax E.
Proof.
  intros HE Hne. unfold editorSelectSyntax, Ideal.editorSelectSyntax. cbv zeta.
  destruct (filename (set_syntax E None)) as [f|]; [|reflexivity].
  destruct (List.find _ HLDB) as [s|] eqn:Hf; [|reflexivity].
  apply find_some in Hf as [Hin _].
  apply update_all_syntax_same.
  - apply ed_ok_set_syntax; [apply ed_ok_set_syntax; auto|].
    apply HLDB_wf; auto.
  - lia.
  - destruct HE as ((_ & Hn & _) & _). cbn [numrows set_syntax].
    pose proof (len_nonneg (row E)). lia.
  - exact Hne.
Qed.

Lemma editorSelectSyntax_dies E f :
  ed_ok E -> filename E = Some f -> existsb (filematch_hit f) C_EXTS = true ->
  In [] (lines E) -> editorSelectSyntax E = Exited 1.
Proof.
  intros HE Hf Hx Hin. rewrite editorSelectSyntax_unfold, Hf, Hx.
  pose proof (buf_ok_lines_len E (proj1 HE)) as HL.
  apply update_all_syntax_dies.
  - apply ed_ok_c_profile; exact HE.
  - lia.
  - change (numrows (set_syntax (set_syntax E None) (Some c_profile)))
      with (numrows E). pose proof (len_nonneg (lines E)). lia.
  - apply In_nth_error in Hin. destruct Hin as [j Hj].
    assert (j < length (lines E))%nat by (apply nth_error_Some; congruence).
    exists (Z.of_nat j). split; [unfold len in HL; lia|].
    change (line_at (set_syntax (set_syntax E None) (Some c_profile)) (Z.of_nat j))
      with (line_at E (Z.of_nat j)).
    unfold line_at, nth_line. rewrite Nat2Z.id, Hj. reflexivity.
Qed.

Lemma ext_no_dot f :
  ~ In NUL f -> ~ In (chr ".") f -> existsb (filematch_hit f) C_EXTS = false.
Proof.
  intros Hn Hd. rewrite filematch_hit_ext.
  rewrite cstr_plain
    by (apply Forall_forall; intros c Hin ->; apply Hn; exact Hin).
  rewrite (strrchr_dot_none f Hd). reflexivity.
Qed.

Lemma ext_last base e :
  ~ In NUL (base ++ chr "." :: e) -> ~ In (chr ".") e ->
  existsb (filematch_hit (base ++ chr "." :: e)) C_EXTS = true
  <-> In e c_extensions.
Proof.
  intros Hn Hd. rewrite filematch_hit_ext.
  rewrite cstr_plain
    by (apply Forall_forall; intros c Hin ->; apply Hn; exact Hin).
  rewrite (strrchr_dot_last base e Hd), ext_hit. split.
  - intros Hx. apply existsb_exists in Hx. destruct Hx as (x & Hin & Heq).
    apply list_ascii_eqb_eq in Heq. subst x. exact Hin.
  - intros Hin. apply existsb_exists. exists e. split; [exact Hin|].
    apply list_ascii_eqb_eq. reflexivity.
Qed.

(** Loading never re-highlights a row: every row is new when it is
    highlighted, and it is the last one. *)
Lemma open_fold_same ls : forall E,
  ed_ok E -> Forall line_shape ls ->
  fold_left open_step ls (Ok E) = fold_left Ideal.open_step ls (Ok E).
Proof.
  induction ls as [|l ls IH]; intros E HE Hs; cbn [fold_left]; [reflexivity|].
  inversion Hs as [|? ? Hl Hrest]; subst.
  unfold open_step at 2, Ideal.open_step at 2. cbn [bind]. fold (strip l).
  rewrite editorInsertRow_same;
    [|exact (proj1 HE)|apply strip_noLF; auto
     |apply solid_end; [exact (proj1 HE)|lia]].
  destruct (editorInsertRow_end_ok E (strip l) HE) as (E1 & -> & HE1 & _);
    [apply strip_noLF; auto|].
  apply IH; assumption.
Qed.

Lemma editorOpen_same E fname file :
  ed_ok E -> no_empty_line_from E 0 ->
  editorOpen E fname file = Ideal.editorOpen E fname file.
Proof.
  intros HE Hne. unfold editorOpen, Ideal.editorOpen.
  rewrite editorSelectSyntax_same; [|exact HE|exact Hne].
  destruct (editorSelectSyntax_ok (set_filename E (Some fname)))
    as (E1 & -> & HE1 & Ht1); [exact HE|]. cbn [bind].
  destruct file as [data|]; [|reflexivity].
  change (fold_left _ (getlines data []) (Ok E1))
    with (fold_left open_step (getlines data []) (Ok E1)) at 1.
  rewrite open_fold_same; [reflexivity|exact HE1|].
  apply getlines_shape. constructor.
Qed.

(* ----------------------------------------------------------------- *)
(** ** The states of the examples *)

Lemma demo_reachable :
  reachable (final_state (main 24 80 (c_file comment_text) (close_in_line1 3) [])).
Proof.
  exists 24, 80, (c_file comment_text), (close_in_line1 3), [].
  split; [lia|]. split; [|vm_compute; reflexivity].
  repeat constructor; unfold key_ok; vm_compute; intuition discriminate.
Qed.


Lemma loaded_reachable : reachable loaded_state.
Proof.
  exists 24, 80, (c_file comment_text), [], [].
  split; [lia|]. split; [constructor|vm_compute; reflexivity].
Qed.

Lemma loaded_ok : ed_ok (ed loaded_state).
Proof. exact (proj1 (reachable_is_good _ loaded_reachable)). Qed.

Lemma four_rows_ok : ed_ok four_rows.
Proof.
  replace four_rows with (ed loaded_state) by (vm_compute; reflexivity).
  exact loaded_ok.
Qed.


Lemma tab_row_derived : row_derived tab_row.
Proof. vm_compute. repeat split; reflexivity. Qed.

(** Loading at start-up never resizes a highlight to 0 bytes. *)
Lemma initEditor_open_same rows cols fname file :
  3 <= rows ->
  editorOpen (ed (initEditor rows cols)) fname file
  = Ideal.editorOpen (ed (initEditor rows cols)) fname file.
Proof.
  intros Hr. apply editorOpen_same.
  - exact (proj1 (initEditor_ok rows cols Hr)).
  - intros j Hj0 Hj. cbn in Hj. lia.
Qed.

(* ----------------------------------------------------------------- *)
(** ** Rows and their highlight *)

(** C1.  In every reachable editor state every row is derived from its
    characters: its highlight sequence has exactly [rsize] entries, [rsize]
    is the length of its render sequence, and the render sequence is the
    tab expansion of its characters.  Each operation that changes the
    characters of a row ([editorInsertRow], [rowInsertChar],
    [rowAppendString], [rowDelChar], [editorInsertNewline]) returns with
    every row derived again: render and highlight are recomputed together
    before the operation returns. *)
Theorem hl_length_matches_render :
  (forall w, reachable w -> Forall row_derived (row (ed w))) /\
  (forall E, buf_ok E ->
     (forall at_ s E', 0 <= at_ <= numrows E -> noLF s ->
        editorInsertRow E at_ s = Ok E' -> Forall row_derived (row E')) /\
     (forall p at_ c E', 0 <= p < numrows E -> int_to_char c <> LF ->
        rowInsertChar E p at_ c = Ok E' -> Forall row_derived (row E')) /\
     (forall p s E', 0 <= p < numrows E -> noLF s ->
        rowAppendString E p s = Ok E' -> Forall row_derived (row E')) /\
     (forall p at_ E', 0 <= p < numrows E -> 0 <= at_ < len (line_at E p) ->
        rowDelChar E p at_ = Ok E' -> Forall row_derived (row E'))) /\
  (forall E E', ed_ok E -> editorInsertNewline E = Ok E' ->
     Forall row_derived (row E')).
Proof.
  split; [|split].
  - intros w Hw. apply buf_ok_derived. apply (reachable_is_good w Hw).
  - intros E Hb. split; [|split; [|split]].
    + intros at_ s E' Hat Hs H.
      apply (sim_Ok _ _ _ (sim_editorInsertRow E at_ s)) in H.
      from_ok H (editorInsertRow_ok E at_ s Hb Hat Hs).
    + intros p at_ c E' Hp Hc H.
      apply (sim_Ok _ _ _ (sim_rowInsertChar E p at_ c)) in H.
      from_ok H (rowInsertChar_ok E p at_ c Hb Hp Hc).
    + intros p s E' Hp Hs H.
      apply (sim_Ok _ _ _ (sim_rowAppendString E p s)) in H.
      from_ok H (rowAppendString_ok E p s Hb Hp Hs).
    + intros p at_ E' Hp Hat H.
      apply (sim_Ok _ _ _ (sim_rowDelChar E p at_)) in H.
      from_ok H (rowDelChar_ok E p at_ Hb Hp Hat).
  - intros E E' HE H.
    apply (sim_Ok _ _ _ (sim_editorInsertNewline E)) in H.
    destruct (editorInsertNewline_ok E HE) as (E0 & H0 & Hb & _).
    rewrite H0 in H; inversion H; subst. apply buf_ok_derived; exact Hb.
Qed.

Lemma hl_length_matches_render_witness :
  Forall row_derived
    (row (ed (final_state
       (main 24 80 (c_file comment_text) (close_in_line1 3) [])))).
Proof.
  apply (proj1 hl_length_matches_render).
  exists 24, 80, (c_file comment_text), (close_in_line1 3), [].
  split; [lia|]. split; [|vm_compute; reflexivity].
  repeat constructor; unfold key_ok; vm_compute; intuition discriminate.
Defined.

Lemma insert_del_out_of_range (E : Editor) (at_ : Z)
  (s : list ascii) :
  (at_ < 0 \/ at_ > numrows E -> editorInsertRow E at_ s = Ok E) /\
  (at_ < 0 \/ at_ >= numrows E -> editorDelRow E at_ = Ok E).
Proof.
  split; intros H.
  - unfold editorInsertRow.
    replace ((at_ <? 0) || (at_ >? numrows E)) with true; [reflexivity|].
    symmetry. apply orb_true_iff. destruct H; [left|right]; lia.
  - unfold editorDelRow.
    replace ((at_ <? 0) || (at_ >=? numrows E)) with true; [reflexivity|].
    symmetry. apply orb_true_iff. destruct H; [left|right]; lia.
Qed.

Lemma editorUpdateSyntax_by_position : forall fuel E p hl_null,
  (forall i r, nth_error (row E) i = Some r -> idx r = Z.of_nat i) ->
  editorUpdateSyntax_rec fuel E p hl_null
  = editorUpdateSyntax_pos fuel E p hl_null.
Proof.
  induction fuel as [|fuel IH]; intros E p hl_null Hidx;
    cbn [editorUpdateSyntax_rec editorUpdateSyntax_pos];
    unfold row_at at 1 3;
    destruct (load (row E) p) as [r| | | |] eqn:Hr; cbn [bind]; try reflexivity;
    apply load_inv in Hr as [Hp Hnth];
    pose proof (Hidx _ _ Hnth) as Hi; rewrite Z2Nat.id in Hi by lia;
    rewrite Hi; try reflexivity.
  destruct (xrealloc_hl hl_null (rsize r)); cbn [bind]; try reflexivity.
  destruct (syntax E) as [sy|]; [|reflexivity].
  destruct (if 0 <? p then _ else _) as [ic| | | |]; cbn [bind]; try reflexivity.
  destruct (scan_loop _ _ _ _ _) as [sc| | | |]; cbn [bind]; try reflexivity.
  destruct (_ && _); [|reflexivity].
  apply IH. intros i x Hx.
  rewrite set_row_rows, upd_nth in Hx by (unfold len in Hp; lia).
  destruct (Nat.eqb_spec i (Z.to_nat p)) as [->|].
  - inversion Hx; subst x. cbn. lia.
  - apply Hidx; auto.
Qed.

(** C9.  In every reachable editor state [numrows] is the number of rows
    and every row's stored [idx] is its position; [editorInsertRow] and
    [editorDelRow] keep this by renumbering the rows that follow; and under
    it the highlighter, which finds the previous and the next row through
    [idx], reads the rows at the neighbouring positions. *)
Theorem row_idx_is_position :
  (forall w, reachable w -> idx_inv (ed w)) /\
  (forall E at_ s E', buf_ok E -> noLF s ->
     editorInsertRow E at_ s = Ok E' -> idx_inv E') /\
  (forall E at_ E', buf_ok E -> editorDelRow E at_ = Ok E' -> idx_inv E') /\
  (forall E fuel p hl_null, idx_inv E ->
     editorUpdateSyntax_rec fuel E p hl_null
     = editorUpdateSyntax_pos fuel E p hl_null).
Proof.
  split; [|split; [|split]].
  - intros w Hw. apply buf_ok_idx_inv. apply (reachable_is_good w Hw).
  - intros E at_ s E' Hb Hs H.
    destruct (Z_lt_le_dec at_ 0) as [Hlo|Hlo];
      [|destruct (Z_lt_le_dec (numrows E) at_) as [Hhi|Hhi]].
    + rewrite (proj1 (insert_del_out_of_range E at_ s)) in H by lia.
      inversion H; subst. apply buf_ok_idx_inv, Hb.
    + rewrite (proj1 (insert_del_out_of_range E at_ s)) in H by lia.
      inversion H; subst. apply buf_ok_idx_inv, Hb.
    + apply (sim_Ok _ _ _ (sim_editorInsertRow E at_ s)) in H.
      destruct (editorInsertRow_ok E at_ s Hb ltac:(lia) Hs) as (E0 & H0 & Hb0 & _).
      rewrite H0 in H. inversion H; subst. apply buf_ok_idx_inv, Hb0.
  - intros E at_ E' Hb H.
    destruct (Z_lt_le_dec at_ 0) as [Hlo|Hlo];
      [|destruct (Z_lt_le_dec at_ (numrows E)) as [Hhi|Hhi]].
    + rewrite (proj2 (insert_del_out_of_range E at_ [])) in H by lia.
      inversion H; subst. apply buf_ok_idx_inv, Hb.
    + destruct (editorDelRow_ok E at_ Hb ltac:(lia)) as (E0 & H0 & Hb0 & _).
      rewrite H0 in H. inversion H; subst. apply buf_ok_idx_inv, Hb0.
    + rewrite (proj2 (insert_del_out_of_range E at_ [])) in H by lia.
      inversion H; subst. apply buf_ok_idx_inv, Hb.
  - intros E fuel p hl_null [_ Hi]. apply editorUpdateSyntax_by_position, Hi.
Qed.

Lemma row_idx_is_position_witness :
  idx_inv (ed (final_state
     (main 24 80 (c_file comment_text) (close_in_line1 3) []))).
Proof. apply (proj1 row_idx_is_position). apply demo_reachable. Defined.

(** C10.  [editorInsertRow] with an index outside [0, numrows], and
    [editorDelRow] with an index outside [0, numrows), return the editor
    state as it was: no row, no count and no modification counter
    changes. *)
Theorem editorInsertRow_editorDelRow_out_of_range (E : Editor) (at_ : Z)
  (s : list ascii) :
  (at_ < 0 \/ at_ > numrows E -> editorInsertRow E at_ s = Ok E) /\
  (at_ < 0 \/ at_ >= numrows E -> editorDelRow E at_ = Ok E).
Proof. apply insert_del_out_of_range. Qed.

Lemma editorInsertRow_editorDelRow_out_of_range_witness :
  editorInsertRow four_rows 5 (str "x") = Ok four_rows /\
  editorDelRow four_rows 4 = Ok four_rows /\
  editorInsertRow four_rows (-1) (str "x") = Ok four_rows /\
  editorDelRow four_rows (-1) = Ok four_rows.
Proof.
  split; [|split; [|split]].
  - apply (proj1 (editorInsertRow_editorDelRow_out_of_range four_rows 5 (str "x"))).
    right. vm_compute. reflexivity.
  - apply (proj2 (editorInsertRow_editorDelRow_out_of_range four_rows 4 [])).
    right. vm_compute. discriminate.
  - apply (proj1 (editorInsertRow_editorDelRow_out_of_range four_rows (-1) (str "x"))).
    left. lia.
  - apply (proj2 (editorInsertRow_editorDelRow_out_of_range four_rows (-1) [])).
    left. lia.
Defined.

(* ----------------------------------------------------------------- *)
(** ** Highlighting *)

(** C3.  With the C profile (markers [/*] and [*/]) the buffer
    ["/* start"; "middle"; "end */"; "after"] is highlighted as comment on
    lines 0 to 2, through the close marker, and as normal text on line 3,
    and typing a closing marker at any column of line 1 re-highlights
    line 2 as normal text in the same operation.  But a changed flag does
    not always reach the following line.  In the file of the lines
    [// /* x] and [y], Enter before the [/*] makes [/* x] a line of its
    own, which ends inside a block comment: [editorInsertRow] highlights
    it while [E.numrows] still counts the rows without it, the test
    [row->idx + 1 < E.numrows] fails, and [y] stays normal text.  And in
    the file of the lines [x], the empty line and [y], typing [/*] at the
    start goes on to the empty line, where [xrealloc(row->hl, 0)] ends the
    program. *)
Theorem block_comment_state_not_propagated :
  hl_rows (main 24 80 (c_file comment_text) [] [])
    = Some [ml 8; ml 6; ml 6; nm 5] /\
  Forall (fun k =>
            hl_rows (main 24 80 (c_file comment_text) (close_in_line1 k) [])
            = Some [ml 8; ml (k + 2) ++ nm (6 - k); nm 6; nm 5])
         (seq 0 7) /\
  (exists w,
     main 24 80 (c_file split_text)
       [KEY_ARROW_RIGHT; KEY_ARROW_RIGHT; KEY_ARROW_RIGHT; KEY_ENTER] []
     = Waiting w /\
     lines (ed w) = [str "// "; str "/* x"; str "y"] /\
     map hl_open_comment (row (ed w)) = [false; true; false] /\
     map hl (row (ed w)) = [repeat HL_COMMENT 3; ml 4; nm 1]) /\
  main 24 80 (c_file gap_text) [slash; star] [] = Exited 1.
Proof.
  split; [vm_compute; reflexivity|]. split; [|split].
  - repeat constructor; vm_compute; reflexivity.
  - eexists. split; [vm_compute; reflexivity|].
    split; [reflexivity|]. split; reflexivity.
  - vm_compute. reflexivity.
Qed.

(** C5.  With the C profile, whose table holds the keyword [if] with
    priority 1, the line ["ifdef"] is highlighted as normal text and the
    [if] of ["if("] as keyword 1; at a position where ["ifdef"] stands no
    keyword of the table matches, and where ["if("] stands [if] does.  In
    general a match of the keyword table at a position is a keyword of the
    table whose exact characters stand there, followed at once by a
    separator. *)
Theorem keyword_requires_separator :
  hl_rows (main 24 80 (c_file keyword_text) [] [])
    = Some [nm 5; [HL_KEYWORD1; HL_KEYWORD1; HL_NORMAL]] /\
  (forall pre post,
     match_keyword (pre ++ str "ifdef" ++ post) (len pre) C_KW = None) /\
  (forall pre post,
     match_keyword (pre ++ str "if(" ++ post) (len pre) C_KW = Some (2, false)) /\
  (forall rnd i kws klen kw2,
     match_keyword rnd i kws = Some (klen, kw2) ->
     exists kw, In kw kws /\ klen = kw_len kw /\ kw2 = is_kw2 kw /\
       firstn (Z.to_nat klen) (skipn (Z.to_nat i) rnd) = kw_chars kw /\
       isSeparator (char_to_int (char_at rnd (i + klen))) = true).
Proof.
  split; [vm_compute; reflexivity|]. split; [|split].
  - intros pre post. rewrite match_keyword_shift. vm_compute. reflexivity.
  - intros pre post. rewrite match_keyword_shift. vm_compute. reflexivity.
  - apply match_keyword_sound.
Qed.

Lemma keyword_requires_separator_witness :
  exists kw, In kw C_KW /\ 2 = kw_len kw /\ false = is_kw2 kw /\
    firstn (Z.to_nat 2) (skipn (Z.to_nat 0) (str "if(x)")) = kw_chars kw /\
    isSeparator (char_to_int (char_at (str "if(x)") (0 + 2))) = true.
Proof.
  apply (proj2 (proj2 (proj2 keyword_requires_separator))
           (str "if(x)") 0 C_KW 2 false).
  vm_compute. reflexivity.
Defined.

(* ----------------------------------------------------------------- *)
(** ** Search *)


(* ----------------------------------------------------------------- *)
(** ** Saving and loading again *)

(** C7.  For every reachable buffer none of whose lines ends in a carriage
    return, flattening the lines into one newline-joined blob and loading
    that blob again gives the same sequence of line contents; and every
    buffer just loaded from a file is of that kind (and unmodified).  The
    restriction is needed: see [save_reload_counterexample]. *)
Theorem save_reload_roundtrip :
  (forall w rows cols fname,
     reachable w -> Forall no_trailing_CR (lines (ed w)) -> 3 <= rows ->
     exists E', editorOpen (ed (initEditor rows cols)) fname
                  (Some (fst (editorRowsToString (ed w)))) = Ok E' /\
                lines E' = lines (ed w)) /\
  (forall rows cols fname data w,
     3 <= rows ->
     main rows cols (Some (fname, Some data)) [] [] = Waiting w ->
     Forall no_trailing_CR (lines (ed w)) /\ dirty (ed w) = 0).
Proof.
  split.
  - intros w rows cols fname Hw Hcr Hr. rewrite initEditor_open_same by exact Hr.
    apply reload_ok; auto. apply (reachable_is_good w Hw).
  - intros rows cols fname data w Hr Hm.
    apply (sim_Waiting _ _ _ (sim_main rows cols _ [] [])) in Hm.
    eapply loaded_no_trailing_CR; eauto.
Qed.

Lemma save_reload_roundtrip_witness :
  exists E', editorOpen (ed (initEditor 24 80)) (str "a.c")
               (Some (fst (editorRowsToString (ed loaded_state)))) = Ok E' /\
             lines E' = lines (ed loaded_state).
Proof.
  apply (proj1 save_reload_roundtrip).
  - exists 24, 80, (c_file comment_text), [], [].
    split; [lia|]. split; [constructor|vm_compute; reflexivity].
  - apply (proj2 save_reload_roundtrip 24 80 (str "a.c") comment_text
             loaded_state).
    + lia.
    + vm_compute; reflexivity.
  - lia.
Defined.

(** A line that ends in a carriage return does not survive a reload: the
    one-line file [a CR b LF], split after the carriage return with Right,
    Right, Enter and then saved, is a reachable buffer with modification
    counter 0 whose lines are [a CR] and [b]; loading what was saved gives
    [a] and [b]. *)
Lemma save_reload_counterexample :
  reachable cr_state /\ dirty (ed cr_state) = 0 /\
  lines (ed cr_state) = [[chr "a"; CR]; [chr "b"]] /\
  exists E', editorOpen (ed (initEditor 24 80)) (str "t.txt")
               (Some (fst (editorRowsToString (ed cr_state)))) = Ok E' /\
             lines E' = [[chr "a"]; [chr "b"]] /\
             lines E' <> lines (ed cr_state).
Proof.
  split; [|split; [|split]].
  - exists 24, 80, (Some (str "t.txt", Some cr_text)), cr_keys, [true].
    split; [lia|]. split; [|vm_compute; reflexivity].
    repeat constructor; unfold key_ok; vm_compute; intuition discriminate.
  - vm_compute. reflexivity.
  - vm_compute. reflexivity.
  - eexists. split; [vm_compute; reflexivity|].
    split; [vm_compute; reflexivity|]. vm_compute. discriminate.
Qed.

(* ----------------------------------------------------------------- *)
(** ** Quitting *)

Lemma quit_press_dirty w keys writes :
  dirty (ed w) <> 0 -> 0 < quit_times w ->
  editorProcessKeypress quit_key keys writes w =
  Ok (mkWorld (ed w) (quit_times w - 1) (find w), keys, writes).
Proof.
  intros Hd Hq. unfold editorProcessKeypress, quit_key.
  change (CTRL_KEY "q" =? KEY_ENTER) with false.
  change (CTRL_KEY "q" =? CTRL_KEY "q") with true. cbv iota.
  replace (negb (dirty (ed w) =? 0) && (quit_times w >? 0)) with true;
    [reflexivity|].
  symmetry. apply andb_true_iff. split; [apply negb_true_iff|]; lia.
Qed.

Lemma quit_press_exit w keys writes :
  quit_times w <= 0 ->
  editorProcessKeypress quit_key keys writes w = Exited 0.
Proof.
  intros Hq. unfold editorProcessKeypress, quit_key.
  change (CTRL_KEY "q" =? KEY_ENTER) with false.
  change (CTRL_KEY "q" =? CTRL_KEY "q") with true. cbv iota.
  replace (quit_times w >? 0) with false by (symmetry; lia).
  rewrite andb_false_r. reflexivity.
Qed.

(** C4.  With unsaved changes and the confirmation counter at its initial
    value, three quit requests in a row are each answered by a return to
    the main loop with the editor state unchanged, and the fourth one
    exits; every other key that returns to the main loop leaves the
    counter at its initial value. *)
Theorem quit_confirmation_counter :
  (forall w keys writes,
     dirty (ed w) <> 0 -> quit_times w = QUIT_TIMES ->
     let press := editorProcessKeypress quit_key keys writes in
     exists w1 w2 w3,
       press w = Ok (w1, keys, writes) /\ press w1 = Ok (w2, keys, writes) /\
       press w2 = Ok (w3, keys, writes) /\ press w3 = Exited 0 /\
       ed w3 = ed w) /\
  (forall c keys writes w w' keys' writes',
     c <> quit_key ->
     editorProcessKeypress c keys writes w = Ok (w', keys', writes') ->
     quit_times w' = QUIT_TIMES).
Proof.
  split.
  - intros w keys writes Hd Hq press. unfold press.
    do 3 eexists.
    rewrite quit_press_dirty by (rewrite ?Hq; unfold QUIT_TIMES; auto; lia).
    split; [reflexivity|].
    rewrite quit_press_dirty by (cbn [ed quit_times]; rewrite ?Hq; unfold QUIT_TIMES; auto; lia).
    split; [reflexivity|].
    rewrite quit_press_dirty by (cbn [ed quit_times]; rewrite ?Hq; unfold QUIT_TIMES; auto; lia).
    split; [reflexivity|].
    rewrite quit_press_exit by (cbn [ed quit_times]; rewrite ?Hq; unfold QUIT_TIMES; lia).
    split; reflexivity.
  - intros c keys writes w w' keys' writes' Hc H.
    apply (sim_Ok _ _ _ (sim_editorProcessKeypress c keys writes w)) in H.
    eapply other_key_resets; eauto.
Qed.

Lemma quit_confirmation_counter_witness :
  (exists w1 w2 w3,
      editorProcessKeypress quit_key [] [] edited_state = Ok (w1, [], []) /\
      editorProcessKeypress quit_key [] [] w1 = Ok (w2, [], []) /\
      editorProcessKeypress quit_key [] [] w2 = Ok (w3, [], []) /\
      editorProcessKeypress quit_key [] [] w3 = Exited 0 /\
      ed w3 = ed edited_state) /\
  quit_times (mkWorld (ed edited_state) QUIT_TIMES (find edited_state))
  = QUIT_TIMES.
Proof.
  split.
  - apply (proj1 quit_confirmation_counter edited_state [] []).
    + vm_compute; discriminate.
    + vm_compute; reflexivity.
  - apply (proj2 quit_confirmation_counter KEY_ESC [] []
             (mkWorld (ed edited_state) 1 (find edited_state)) _ [] []).
    + vm_compute; discriminate.
    + vm_compute; reflexivity.
Defined.

(** After an edit, three quit requests in a row leave the editor running,
    with its confirmation counter used up; the fourth one exits. *)
Lemma quit_third_request_counterexample :
  (exists w, main 24 80 None [uchar (chr "a"); quit_key; quit_key; quit_key] []
             = Waiting w /\ dirty (ed w) <> 0 /\ quit_times w = 0) /\
  main 24 80 None [uchar (chr "a"); quit_key; quit_key; quit_key; quit_key] []
    = Exited 0.
Proof.
  split; [|vm_compute; reflexivity].
  eexists. split; [vm_compute; reflexivity|]. split; [vm_compute; discriminate|reflexivity].
Qed.

(* ----------------------------------------------------------------- *)
(** ** The whole program *)



(** X2.  On a terminal of at least three rows, in every state in which the
    editor waits for a key the cursor is inside the buffer: its line is one
    of the lines or the line just past the last one, its column is between
    0 and the length of its line, and on the line past the end the column
    is 0.  The three rows are needed: on a terminal of two rows the text
    area has no row, the first refresh scrolls the window to line 1, and
    Page Up, which starts from the first line of the window, leaves the
    cursor on line 1 of an empty buffer. *)
Theorem cursor_stays_in_buffer :
  (forall rows cols arg keys writes w,
     3 <= rows -> Forall key_ok keys ->
     main rows cols arg keys writes = Waiting w ->
     0 <= cy (ed w) <= numrows (ed w) /\
     0 <= cx (ed w) <= len (line_at (ed w) (cy (ed w))) /\
     (cy (ed w) = numrows (ed w) -> cx (ed w) = 0)) /\
  (exists w, main 2 80 None [KEY_PAGE_UP] [] = Waiting w /\
             numrows (ed w) = 0 /\ cy (ed w) = 1).
Proof.
  split.
  - intros rows cols arg keys writes w Hr Hk Hm.
    assert (Hw : reachable w) by (exists rows, cols, arg, keys, writes; auto).
    destruct (reachable_is_good w Hw) as [(Hb & (Hcy & Hcx) & _) _].
    split; [exact Hcy|]. split; [exact Hcx|].
    intros He. unfold line_at in Hcx.
    rewrite nth_line_out in Hcx by (rewrite buf_ok_lines_len by exact Hb; lia).
    change (len (@nil ascii)) with 0 in Hcx. lia.
  - eexists. split; [vm_compute; reflexivity|]. split; reflexivity.
Qed.

Lemma cursor_stays_in_buffer_witness :
  let w := final_state (main 24 80 (c_file comment_text) (close_in_line1 3) []) in
  0 <= cy (ed w) <= numrows (ed w) /\
  0 <= cx (ed w) <= len (line_at (ed w) (cy (ed w))) /\
  (cy (ed w) = numrows (ed w) -> cx (ed w) = 0).
Proof.
  intros w.
  apply (proj1 cursor_stays_in_buffer 24 80 (c_file comment_text)
           (close_in_line1 3) []).
  - lia.
  - repeat constructor; unfold key_ok; vm_compute; intuition discriminate.
  - vm_compute. reflexivity.
Defined.

(** X25.  The frame on the screen while the editor waits for a key, on a
    terminal of at least three rows and one column (sizes and line count
    in the range of [int]): [editorRefreshScreen] reads nothing out of
    bounds and leaves the state as it is (the window was scrolled when the
    frame was drawn); what it writes is: hide the cursor, go home, the
    [rows - 2] lines of the window, the status bar, the message bar, the
    cursor address, show the cursor.  The address is that of the cursor
    relative to the window, and it lies inside the text area: its row is
    between 1 and [rows - 2], its column between 1 and [cols]. *)
Theorem frame_while_waiting rows cols arg keys writes w S now :
  3 <= rows < 2 ^ 31 -> 1 <= cols < 2 ^ 31 -> Forall key_ok keys ->
  main rows cols arg keys writes = Waiting w ->
  numrows (ed w) < 2 ^ 31 - 1 ->
  exists rows_out,
    editorRefreshScreen_frame (ed w) S now
    = Ok (ed w, (ESC :: str "[?25l") ++ (ESC :: str "[H") ++ rows_out
                ++ bars (ed w) S now ++ cursor_escape (ed w)
                ++ (ESC :: str "[?25h")) /\
    visible rows_out = screen_lines (ed w) (Z.to_nat (rows - 2)) 0 /\
    screencols (ed w) = cols /\
    1 <= cy (ed w) - rowoff (ed w) + 1 <= rows - 2 /\
    1 <= rx (ed w) - coloff (ed w) + 1 <= cols /\
    rx (ed w) = cursor_rx (ed w).
Proof.
  intros Hr Hc Hk Hm Hn.
  apply (sim_Waiting _ _ _ (sim_main rows cols arg keys writes)) in Hm.
  exact (frame_while_waiting_ideal rows cols arg keys writes w S now
           Hr Hc Hk Hm Hn).
Qed.

Lemma frame_while_waiting_witness :
  exists rows_out,
    editorRefreshScreen_frame (ed loaded_state) (mkStatus [] 0) 0
    = Ok (ed loaded_state,
          (ESC :: str "[?25l") ++ (ESC :: str "[H") ++ rows_out
          ++ bars (ed loaded_state) (mkStatus [] 0) 0
          ++ cursor_escape (ed loaded_state) ++ (ESC :: str "[?25h")) /\
    visible rows_out = screen_lines (ed loaded_state) (Z.to_nat (24 - 2)) 0.
Proof.
  destruct (frame_while_waiting 24 80 (c_file comment_text) [] []
              loaded_state (mkStatus [] 0) 0)
    as (rows_out & H & Hv & _).
  - split; [lia|reflexivity].
  - split; [lia|reflexivity].
  - constructor.
  - vm_compute. reflexivity.
  - vm_compute. reflexivity.
  - exists rows_out. split; [exact H|exact Hv].
Defined.

(* ----------------------------------------------------------------- *)
(** ** Witnesses on the states of the examples *)

Lemma editorScroll_brings_cursor_into_view_witness :
  exists E', editorScroll four_rows = Ok E' /\ in_view E' /\
             editorScroll E' = Ok E'.
Proof.
  destruct (editorScroll_brings_cursor_into_view four_rows)
    as (E' & H & Hv & _ & _ & _ & _ & _ & _ & _ & _ & _ & Hi).
  - exact four_rows_ok.
  - vm_compute. discriminate.
  - vm_compute. discriminate.
  - exists E'. split; [exact H|]. split; [exact Hv|exact Hi].
Defined.

Lemma render_agrees_with_rowCxToRx_witness :
  rowCxToRx tab_row (size tab_row) = rsize tab_row /\
  Forall (fun x => x <> TAB) (render tab_row).
Proof.
  destruct (render_agrees_with_rowCxToRx tab_row tab_row_derived)
    as (H1 & H2 & _).
  split; [exact H1|exact H2].
Defined.

Lemma render_fits_its_allocation_witness :
  size tab_row <= rsize tab_row /\ rsize tab_row + 1 <= render_alloc tab_row.
Proof.
  apply render_fits_its_allocation; [exact tab_row_derived|].
  vm_compute. discriminate.
Defined.

Lemma editorMoveCursor_wraps_and_snaps_witness :
  exists E', editorMoveCursor four_rows KEY_ARROW_DOWN = Ok E' /\ ed_ok E'.
Proof.
  destruct (editorMoveCursor_wraps_and_snaps four_rows KEY_ARROW_DOWN
              four_rows_ok) as (E' & H & Hok & _).
  exists E'. auto.
Defined.

Lemma arrow_left_right_round_trip_witness :
  exists E1, editorMoveCursor four_rows KEY_ARROW_RIGHT = Ok E1 /\
             editorMoveCursor E1 KEY_ARROW_LEFT = Ok four_rows.
Proof.
  apply (proj1 (arrow_left_right_round_trip four_rows four_rows_ok)).
  vm_compute. reflexivity.
Defined.

Lemma editorRowsToString_length_and_content_witness :
  fst (editorRowsToString four_rows) = join_lines (lines four_rows) /\
  snd (editorRowsToString four_rows)
  = len (fst (editorRowsToString four_rows)) /\
  snd (editorRowsToString four_rows)
  = fold_right (fun l tot => len l + 1 + tot) 0 (lines four_rows).
Proof.
  apply editorRowsToString_length_and_content. exact (proj1 four_rows_ok).
Defined.

Lemma editorPrompt_returns_what_was_typed_witness :
  exists w', same_buffer (ed loaded_state) (ed w') /\
    editorPrompt None
      (map char_to_int (str "ab") ++ repeat KEY_BACKSPACE 1
         ++ KEY_ENTER :: [])
      [] loaded_state
    = Ok (Some (firstn (length (str "ab") - 1) (str "ab")), w', []).
Proof.
  apply (proj2 (editorPrompt_returns_what_was_typed (str "ab") 1 []
                  loaded_state loaded_ok
                  ltac:(repeat constructor; vm_compute; discriminate))).
  cbn. lia.
Defined.



Lemma editorDrawRows_shows_the_window_witness :
  exists out,
    editorDrawRows four_rows [] = Ok ([] ++ out) /\
    visible out = screen_lines four_rows (Z.to_nat (screenrows four_rows)) 0.
Proof.
  destruct (editorDrawRows_shows_the_window four_rows [])
    as (out & H & Hv & _).
  - exact (proj1 four_rows_ok).
  - vm_compute. discriminate.
  - vm_compute. discriminate.
  - vm_compute. discriminate.
  - exists out. split; [exact H|exact Hv].
Defined.

Lemma editorDrawStatusBar_fills_the_width_witness :
  editorDrawStatusBar four_rows []
  = Ok ([] ++ (ESC :: str "[7m") ++ status_bar four_rows (screencols four_rows)
           ++ (ESC :: str "[m") ++ [CR; LF]) /\
  len (status_bar four_rows (screencols four_rows)) = screencols four_rows /\
  len (status_text four_rows) < 80 /\ len (rstatus_text four_rows) < 80.
Proof.
  apply editorDrawStatusBar_fills_the_width.
  - vm_compute. discriminate.
  - vm_compute. split; [discriminate|reflexivity].
  - vm_compute. split; [discriminate|reflexivity].
  - vm_compute. left. reflexivity.
Defined.

Lemma status_message_is_shown_for_five_seconds_witness :
  editorDrawMessageBar four_rows
    (editorSetStatusMessage (str "HELP: Ctrl-S = save") 10) 12 []
  = Ok ([] ++ (ESC :: str "[K")
           ++ (if 12 - 10 <? 5
               then firstn (Z.to_nat (Z.min 79 (screencols four_rows)))
                           (cstr (str "HELP: Ctrl-S = save"))
               else [])).
Proof.
  apply status_message_is_shown_for_five_seconds.
  vm_compute. discriminate.
Defined.

(* ----------------------------------------------------------------- *)
(** ** Loading *)

(** X15.  Loading a file that holds no carriage return and flattening the
    buffer again gives back the bytes of the file, with a newline added at
    the end if the last line had none: what a save writes right after a
    load is the file itself. *)
Theorem load_then_flatten rows cols fname data :
  3 <= rows -> ~ In CR data ->
  exists E', editorOpen (ed (initEditor rows cols)) fname (Some data) = Ok E' /\
    fst (editorRowsToString E') = with_final_newline data.
Proof.
  intros Hr Hcr. rewrite initEditor_open_same by exact Hr.
  exact (load_then_flatten_ideal rows cols fname data Hr Hcr).
Qed.

Lemma load_then_flatten_witness :
  exists E', editorOpen (ed (initEditor 24 80)) (str "a.c") (Some comment_text)
             = Ok E' /\
    fst (editorRowsToString E') = with_final_newline comment_text.
Proof.
  apply load_then_flatten; [lia|].
  vm_compute. intuition discriminate.
Defined.

(** X16.  [editorOpen] at start-up: when the file cannot be opened the
    editor exits with status 1; otherwise the buffer gets one row per line
    of the file, no row holds a newline or ends in a carriage return, the
    modification counter is 0, the file name is recorded and the cursor is
    at the start. *)
Theorem editorOpen_loads_lines rows cols fname file :
  3 <= rows ->
  match editorOpen (ed (initEditor rows cols)) fname file with
  | Exited status => file = None /\ status = 1
  | Ok E' =>
      exists data, file = Some data /\
        numrows E' = line_count data /\
        Forall (fun l => ~ In LF l /\ last l NUL <> CR) (lines E') /\
        dirty E' = 0 /\ filename E' = Some fname /\ cx E' = 0 /\ cy E' = 0
  | _ => False
  end.
Proof.
  intros Hr. rewrite initEditor_open_same by exact Hr.
  exact (editorOpen_loads_lines_ideal rows cols fname file Hr).
Qed.

Lemma editorOpen_loads_lines_witness :
  match editorOpen (ed (initEditor 24 80)) (str "a.c") (Some comment_text) with
  | Exited status => Some comment_text = None /\ status = 1
  | Ok E' =>
      exists data, Some comment_text = Some data /\
        numrows E' = line_count data /\
        Forall (fun l => ~ In LF l /\ last l NUL <> CR) (lines E') /\
        dirty E' = 0 /\ filename E' = Some (str "a.c") /\
        cx E' = 0 /\ cy E' = 0
  | _ => False
  end.
Proof. apply editorOpen_loads_lines. lia. Defined.

(* ----------------------------------------------------------------- *)
(** ** The page keys *)

(** X27.  The page keys, pressed in a state as the refresh leaves it (the
    first line of the window at or above the cursor): Page Up puts the
    cursor one window height above the first line of the window, Page Down
    one window height below its last line, stopping at line 0 and at the
    line past the end of the buffer.  Only the cursor changes; its column
    is never moved to the right, and it ends inside the line reached. *)
Theorem page_keys_move_by_a_page keys writes w :
  ed_ok (ed w) -> rowoff (ed w) <= cy (ed w) ->
  (exists x,
     editorProcessKeypress KEY_PAGE_UP keys writes w
     = Ok (mkWorld (set_cursor (ed w) x
                      (Z.max 0 (rowoff (ed w) - screenrows (ed w))))
                   QUIT_TIMES (find w), keys, writes) /\
     0 <= x <= cx (ed w) /\
     x <= len (line_at (ed w)
                 (Z.max 0 (rowoff (ed w) - screenrows (ed w))))) /\
  (exists x,
     editorProcessKeypress KEY_PAGE_DOWN keys writes w
     = Ok (mkWorld (set_cursor (ed w) x
                      (Z.min (numrows (ed w))
                         (rowoff (ed w) + 2 * screenrows (ed w) - 1)))
                   QUIT_TIMES (find w), keys, writes) /\
     0 <= x <= cx (ed w) /\
     x <= len (line_at (ed w)
                 (Z.min (numrows (ed w))
                    (rowoff (ed w) + 2 * screenrows (ed w) - 1)))).
Proof.
  intros (Hb & (Hcy & Hcx) & (Hro & Hsr)) Hrc.
  set (E := ed w) in *.
  split.
  - unfold editorProcessKeypress. fold E.
    change (KEY_PAGE_UP =? KEY_ENTER) with false.
    change (KEY_PAGE_UP =? CTRL_KEY "q") with false.
    change (KEY_PAGE_UP =? CTRL_KEY "s") with false.
    change (KEY_PAGE_UP =? CTRL_KEY "f") with false.
    change (KEY_PAGE_UP =? KEY_HOME) with false.
    change (KEY_PAGE_UP =? KEY_END) with false.
    change (KEY_PAGE_UP =? KEY_BACKSPACE) with false.
    change (KEY_PAGE_UP =? CTRL_KEY "h") with false.
    change (KEY_PAGE_UP =? KEY_DEL) with false.
    change (KEY_PAGE_UP =? KEY_PAGE_UP) with true.
    cbv iota zeta. cbn [orb].
    cbv iota. cbn [screenrows set_cursor].
    destruct (Z.ltb_spec (screenrows E) 0); [lia|].
    destruct (move_times_vertical KEY_ARROW_UP (or_introl eq_refl)
                (Z.to_nat (screenrows E)) (set_cursor E (cx E) (rowoff E)))
      as (x & Hm & Hx & Hxl); [exact Hb|cbn; lia|cbn; lia|].
    change (KEY_ARROW_UP =? KEY_ARROW_UP) with true in Hm, Hxl.
    cbv iota in Hm, Hxl. cbn [cx cy set_cursor] in Hm, Hx, Hxl.
    rewrite set_cursor_twice in Hm.
    change (line_at (set_cursor E (cx E) (rowoff E))) with (line_at E) in Hxl.
    rewrite Z2Nat.id in Hm, Hxl by lia.
    rewrite Hm. cbn [bind]. exists x. split; [reflexivity|].
    split; [exact Hx|apply Hxl; lia].
  - unfold editorProcessKeypress. fold E.
    change (KEY_PAGE_DOWN =? KEY_ENTER) with false.
    change (KEY_PAGE_DOWN =? CTRL_KEY "q") with false.
    change (KEY_PAGE_DOWN =? CTRL_KEY "s") with false.
    change (KEY_PAGE_DOWN =? CTRL_KEY "f") with false.
    change (KEY_PAGE_DOWN =? KEY_HOME) with false.
    change (KEY_PAGE_DOWN =? KEY_END) with false.
    change (KEY_PAGE_DOWN =? KEY_BACKSPACE) with false.
    change (KEY_PAGE_DOWN =? CTRL_KEY "h") with false.
    change (KEY_PAGE_DOWN =? KEY_DEL) with false.
    change (KEY_PAGE_DOWN =? KEY_PAGE_UP) with false.
    change (KEY_PAGE_DOWN =? KEY_PAGE_DOWN) with true.
    cbv iota zeta. cbn [orb].
    cbv iota. cbn [screenrows set_cursor].
    destruct (Z.ltb_spec (screenrows E) 0); [lia|].
    set (y0 := if rowoff E + screenrows E - 1 >? numrows E then numrows E
               else rowoff E + screenrows E - 1).
    assert (Hy0 : y0 = Z.min (numrows E) (rowoff E + screenrows E - 1)).
    { subst y0. destruct (Z.gtb_spec (rowoff E + screenrows E - 1) (numrows E)); lia. }
    destruct (move_times_vertical KEY_ARROW_DOWN (or_intror eq_refl)
                (Z.to_nat (screenrows E)) (set_cursor E (cx E) y0))
      as (x & Hm & Hx & Hxl); [exact Hb|cbn; lia|cbn; lia|].
    change (KEY_ARROW_DOWN =? KEY_ARROW_UP) with false in Hm, Hxl.
    cbv iota in Hm, Hxl. cbn [cx cy numrows set_cursor] in Hm, Hx, Hxl.
    rewrite set_cursor_twice in Hm.
    change (line_at (set_cursor E (cx E) y0)) with (line_at E) in Hxl.
    rewrite Z2Nat.id in Hm, Hxl by lia.
    replace (Z.min (numrows E) (y0 + screenrows E))
      with (Z.min (numrows E) (rowoff E + 2 * screenrows E - 1)) in Hm, Hxl
      by lia.
    rewrite Hm. cbn [bind]. exists x. split; [reflexivity|].
    split; [exact Hx|apply Hxl; lia].
Qed.

Lemma page_keys_move_by_a_page_witness :
  exists x,
    editorProcessKeypress KEY_PAGE_DOWN [] [] loaded_state
    = Ok (mkWorld (set_cursor (ed loaded_state) x
                     (Z.min (numrows (ed loaded_state))
                        (rowoff (ed loaded_state)
                         + 2 * screenrows (ed loaded_state) - 1)))
                  QUIT_TIMES (find loaded_state), [], []).
Proof.
  destruct (proj2 (page_keys_move_by_a_page [] [] loaded_state loaded_ok
                     ltac:(vm_compute; discriminate)))
    as (x & H & _).
  exists x. exact H.
Defined.

(* ----------------------------------------------------------------- *)
(** ** Editing *)

Lemma no_empty_line_from_check E y :
  buf_ok E -> 0 <= y ->
  no_empty_lineb (skipn (Z.to_nat y) (lines E)) = true ->
  no_empty_line_from E y.
Proof.
  intros Hb Hy H j Hj0 Hj Hl. pose proof (buf_ok_lines_len E Hb) as HL.
  unfold no_empty_lineb in H. rewrite forallb_forall in H.
  assert (Hin : In (line_at E j) (skipn (Z.to_nat y) (lines E))).
  { apply (nth_error_In _ (Z.to_nat j - Z.to_nat y)).
    rewrite nth_error_skipn.
    replace (Z.to_nat y + (Z.to_nat j - Z.to_nat y))%nat with (Z.to_nat j)
      by lia.
    apply nth_line_nth_error. lia. }
  specialize (H _ Hin). rewrite Hl in H. discriminate.
Qed.

Lemma closed_ok : ed_ok (ed closed_state).
Proof. exact (proj1 (reachable_is_good _ demo_reachable)). Qed.

Lemma edited_reachable : reachable edited_state.
Proof.
  exists 24, 80, None, [uchar (chr "a")], [].
  split; [lia|]. split; [|vm_compute; reflexivity].
  repeat constructor; unfold key_ok; vm_compute; intuition discriminate.
Qed.

Lemma edited_ok : ed_ok (ed edited_state).
Proof. exact (proj1 (reachable_is_good _ edited_reachable)). Qed.

(** X7.  [editorInsertChar] with a byte the key handler lets through (not a
    control character, below 128) ends the program with status 1 or
    returns.  When it returns, the byte has been put into the cursor line
    at the cursor column and the cursor moved one column to the right; the
    modification counter has gone up by one; with the cursor on the line
    past the end, a line holding just the byte was appended first, and the
    counter has gone up by two.  It returns whenever there is no syntax
    profile or no line below the cursor line is empty.  It does end the
    program: in the file of the lines [x], the empty line and [y], after
    [/] was typed at the start, typing [*] opens a comment, the
    highlighter goes on to the empty line, and [xrealloc] cannot resize
    its highlight to 0 bytes. *)
Theorem editorInsertChar_inserts_at_cursor :
  (forall E c,
     ed_ok E -> -128 <= c < 128 -> iscntrl c = false ->
     (editorInsertChar E c = Exited 1 \/
      exists E', editorInsertChar E c = Ok E' /\ ed_ok E' /\
        cx E' = cx E + 1 /\ cy E' = cy E /\
        (cy E < numrows E ->
           lines E' = upd (lines E) (Z.to_nat (cy E))
                        (line_with (line_at E (cy E)) (cx E) (int_to_char c)) /\
           numrows E' = numrows E /\ dirty E' = dirty E + 1) /\
        (cy E = numrows E ->
           lines E' = lines E ++ [[int_to_char c]] /\
           numrows E' = numrows E + 1 /\ dirty E' = dirty E + 2)) /\
     (calm E (cy E + 1) -> exists E', editorInsertChar E c = Ok E')) /\
  (exists w, main 24 80 (c_file gap_text) [slash] [] = Waiting w /\
             editorInsertChar (ed w) star = Exited 1).
Proof.
  split.
  - intros E c HE Hc Hctl.
    pose proof (editorInsertChar_inserts_at_cursor_ideal E c HE Hc Hctl) as Hi.
    split.
    + exact (sim_returns _ _ _ (sim_editorInsertChar E c) Hi).
    + intros Hcalm. destruct Hi as (E' & H & _). exists E'.
      rewrite editorInsertChar_same; auto.
      apply int_to_char_not_LF; [lia|exact Hctl|lia].
  - eexists. split; vm_compute; reflexivity.
Qed.

Lemma editorInsertChar_inserts_at_cursor_witness :
  exists E', editorInsertChar four_rows 120 = Ok E' /\ ed_ok E' /\
             cx E' = cx four_rows + 1 /\ cy E' = cy four_rows.
Proof.
  destruct (proj1 editorInsertChar_inserts_at_cursor four_rows 120)
    as (Hd & Hr).
  - exact four_rows_ok.
  - lia.
  - reflexivity.
  - destruct Hr as (E1 & H1).
    { right. apply no_empty_line_from_check;
        [exact (proj1 four_rows_ok)|vm_compute; discriminate
        |vm_compute; reflexivity]. }
    destruct Hd as [Hd|(E' & H & Hok & Hx & Hy & _)];
      [rewrite H1 in Hd; discriminate Hd|].
    exists E'. exact (conj H (conj Hok (conj Hx Hy))).
Defined.

(** X8.  [editorInsertNewline] ends the program with status 1 or returns.
    When it returns it has split the cursor line at the cursor column: the
    part before the cursor stays, the part from the cursor on is the next
    line, and the cursor is at column 0 of that line; with the cursor on
    the line past the end an empty line was appended.  The modification
    counter has gone up by one and the number of lines by one.  It returns
    on the line past the end, and whenever there is no syntax profile, or
    no line from the cursor line on is empty and the cursor stands before
    the end of its line.  It does end the program: in the file of the
    lines [/* a], the empty line and [b], Enter on the empty line inserts
    a line that ends inside the comment, the highlighter goes on to the
    empty line below it, and [xrealloc] cannot resize its highlight to 0
    bytes. *)
Theorem editorInsertNewline_splits_line :
  (forall E,
     ed_ok E ->
     (editorInsertNewline E = Exited 1 \/
      exists E', editorInsertNewline E = Ok E' /\ ed_ok E' /\
        cx E' = 0 /\ cy E' = cy E + 1 /\
        numrows E' = numrows E + 1 /\ dirty E' = dirty E + 1 /\
        (cy E < numrows E -> lines E' = split_line (lines E) (cy E) (cx E)) /\
        (cy E = numrows E -> lines E' = lines E ++ [[]])) /\
     (cy E = numrows E \/ syntax E = None \/
      (no_empty_line_from E (cy E) /\ cx E < len (line_at E (cy E))) ->
      exists E', editorInsertNewline E = Ok E')) /\
  (exists w, main 24 80 (c_file open_gap_text) [KEY_ARROW_DOWN] [] = Waiting w /\
             editorInsertNewline (ed w) = Exited 1).
Proof.
  split.
  - intros E HE.
    pose proof (editorInsertNewline_splits_line_ideal E HE) as Hi.
    split.
    + exact (sim_returns _ _ _ (sim_editorInsertNewline E) Hi).
    + intros Hc. destruct Hi as (E' & H & _). exists E'.
      pose proof HE as (Hb & (Hcy & Hcx) & _).
      rewrite editorInsertNewline_same; auto.
      * destruct Hc as [He|[Hs|[Hn _]]]; [|left; exact Hs|right; exact Hn].
        right. intros j Hj0 Hj. lia.
      * destruct Hc as [He|[Hs|[_ Hlt]]]; auto.
        right. left. unfold line_at in Hcx.
        rewrite nth_line_out in Hcx
          by (rewrite buf_ok_lines_len by exact Hb; lia).
        change (len (@nil ascii)) with 0 in Hcx. lia.
  - eexists. split; vm_compute; reflexivity.
Qed.

Lemma editorInsertNewline_splits_line_witness :
  exists E', editorInsertNewline four_rows = Ok E' /\ ed_ok E' /\
             cx E' = 0 /\ cy E' = cy four_rows + 1.
Proof.
  destruct (proj1 editorInsertNewline_splits_line four_rows four_rows_ok)
    as (Hd & Hr).
  destruct Hr as (E1 & H1).
  { right. right. split; [|vm_compute; reflexivity].
    apply no_empty_line_from_check;
      [exact (proj1 four_rows_ok)|vm_compute; discriminate
      |vm_compute; reflexivity]. }
  destruct Hd as [Hd|(E' & H & Hok & Hx & Hy & _)];
    [rewrite H1 in Hd; discriminate Hd|].
  exists E'. exact (conj H (conj Hok (conj Hx Hy))).
Defined.

(** X9.  [editorDelChar]: on the line past the end, and at column 0 of
    line 0, it returns the state as it was.  Elsewhere it ends the program
    or returns.  When it returns with the cursor after a character, it
    has deleted that character and moved the cursor one column to the left
    (counter plus one); at column 0 of a later line it has appended the
    line to the previous one, deleted it, and put the cursor at the
    junction (counter plus two).  It ends the program, with status 1,
    whenever the edited line is left without a character, since its
    highlight cannot be resized to 0 bytes: deleting the only character of
    a line, and joining two empty lines.  It returns when it leaves a
    character in the edited line and there is no syntax profile or no
    following line is empty. *)
Theorem editorDelChar_deletes_or_joins E :
  ed_ok E ->
  (editorDelChar E = Exited 1 \/
   exists E', editorDelChar E = Ok E' /\ ed_ok E' /\
     (cy E = numrows E \/ (cx E = 0 /\ cy E = 0) -> E' = E) /\
     (cy E < numrows E -> 0 < cx E ->
        lines E' = upd (lines E) (Z.to_nat (cy E))
                     (line_without (line_at E (cy E)) (cx E - 1)) /\
        cx E' = cx E - 1 /\ cy E' = cy E /\
        numrows E' = numrows E /\ dirty E' = dirty E + 1) /\
     (cy E < numrows E -> cx E = 0 -> 0 < cy E ->
        lines E' = join_line (lines E) (cy E) /\
        cx E' = len (line_at E (cy E - 1)) /\ cy E' = cy E - 1 /\
        numrows E' = numrows E - 1 /\ dirty E' = dirty E + 2)) /\
  (cy E = numrows E \/ (cx E = 0 /\ cy E = 0) -> editorDelChar E = Ok E) /\
  (cy E < numrows E -> 0 < cx E -> len (line_at E (cy E)) = 1 ->
   editorDelChar E = Exited 1) /\
  (cy E < numrows E -> cx E = 0 -> 0 < cy E ->
   line_at E (cy E - 1) = [] -> line_at E (cy E) = [] ->
   editorDelChar E = Exited 1) /\
  (cy E < numrows E -> 0 < cx E -> 2 <= len (line_at E (cy E)) ->
   calm E (cy E + 1) -> exists E', editorDelChar E = Ok E') /\
  (cy E < numrows E -> cx E = 0 -> 0 < cy E ->
   line_at E (cy E - 1) ++ line_at E (cy E) <> [] -> calm E (cy E) ->
   exists E', editorDelChar E = Ok E').
Proof.
  intros HE.
  pose proof (editorDelChar_deletes_or_joins_ideal E HE) as Hi.
  split; [exact (sim_returns _ _ _ (sim_editorDelChar E) Hi)|].
  split; [|split; [|split; [|split]]].
  - intros Hc. unfold editorDelChar.
    destruct (Z.eqb_spec (cy E) (numrows E)); [reflexivity|].
    destruct Hc as [Hc|[Hx Hy]]; [contradiction|].
    rewrite Hx, Hy. reflexivity.
  - apply editorDelChar_dies_del; exact HE.
  - apply editorDelChar_dies_join; exact HE.
  - intros Hlt Hx H2 Hc. destruct Hi as (E' & H & _). exists E'.
    rewrite editorDelChar_same; auto. intros; lia.
  - intros Hlt Hx Hy Hne Hc. destruct Hi as (E' & H & _). exists E'.
    rewrite editorDelChar_same; auto. intros; lia.
Qed.

Lemma editorDelChar_deletes_or_joins_witness :
  exists E', editorDelChar (ed closed_state) = Ok E' /\ ed_ok E' /\
    lines E' = upd (lines (ed closed_state)) (Z.to_nat (cy (ed closed_state)))
                 (line_without (line_at (ed closed_state) (cy (ed closed_state)))
                    (cx (ed closed_state) - 1)) /\
    cx E' = cx (ed closed_state) - 1.
Proof.
  destruct (editorDelChar_deletes_or_joins (ed closed_state) closed_ok)
    as (Hd & _ & _ & _ & Hr & _).
  destruct Hr as (E1 & H1).
  { vm_compute. reflexivity. }
  { vm_compute. reflexivity. }
  { vm_compute. discriminate. }
  { right. apply no_empty_line_from_check;
      [exact (proj1 closed_ok)|vm_compute; discriminate
      |vm_compute; reflexivity]. }
  destruct Hd as [Hd|(E' & H & Hok & _ & Hdel & _)];
    [rewrite H1 in Hd; discriminate Hd|].
  destruct Hdel as (Hl & Hx & _).
  { vm_compute. reflexivity. }
  { vm_compute. reflexivity. }
  exists E'. exact (conj H (conj Hok (conj Hl Hx))).
Defined.

(** X10.  Typing a character and then pressing backspace: each of the two
    steps ends the program or returns, and when both return the lines and
    the cursor are the same as before and the modification counter is two
    higher.  On an empty line, and on the line past the end, the backspace
    deletes the only character of its line and ends the program with
    status 1.  On a line that holds a character both steps return when
    there is no syntax profile or no line below the cursor line is
    empty. *)
Theorem insert_then_backspace E c :
  ed_ok E -> -128 <= c < 128 -> iscntrl c = false ->
  (editorInsertChar E c = Exited 1 \/
   exists E1, editorInsertChar E c = Ok E1 /\
     (editorDelChar E1 = Exited 1 \/
      exists E2, editorDelChar E1 = Ok E2 /\
        cx E2 = cx E /\ cy E2 = cy E /\ dirty E2 = dirty E + 2 /\
        lines E2 = lines E)) /\
  (line_at E (cy E) = [] ->
   forall E1, editorInsertChar E c = Ok E1 -> editorDelChar E1 = Exited 1) /\
  (line_at E (cy E) <> [] -> calm E (cy E + 1) ->
   exists E1 E2, editorInsertChar E c = Ok E1 /\ editorDelChar E1 = Ok E2).
Proof.
  intros HE Hc Hctl. pose proof HE as (Hb & (Hcy & Hcx) & Hv).
  pose proof (buf_ok_lines_len E Hb) as HL.
  assert (Hlf : int_to_char c <> LF)
    by (apply int_to_char_not_LF; [lia|exact Hctl|lia]).
  destruct (editorInsertChar_lines E c HE Hlf)
    as (E1 & H1 & Hok1 & Hw1 & Hx1 & Hy1 & A1 & B1).
  assert (Hn1 : cy E1 < numrows E1).
  { destruct (Z.eq_dec (cy E) (numrows E)) as [He|Hne].
    - destruct (B1 He) as (_ & Hn & _). lia.
    - destruct A1 as (_ & Hn & _); lia. }
  assert (Hlen1 : len (line_at E1 (cy E1)) = len (line_at E (cy E)) + 1).
  { destruct (Z.eq_dec (cy E) (numrows E)) as [He|Hne].
    - destruct (B1 He) as (Hl & _). unfold line_at, nth_line.
      rewrite Hl, Hy1, He.
      replace (Z.to_nat (numrows E)) with (length (lines E))
        by (unfold len in HL; lia).
      rewrite nth_error_app2 by lia. rewrite Nat.sub_diag. cbn [nth_error].
      rewrite (proj2 (nth_error_None (lines E) (length (lines E))))
        by lia. reflexivity.
    - destruct A1 as (Hl & _); [lia|]. unfold line_at at 1.
      rewrite Hl, Hy1, nth_line_upd_same by lia.
      unfold line_with. rewrite len_app, len_cons, len_firstn, len_skipn; lia. }
  assert (Hdies : line_at E (cy E) = [] ->
            forall E1', editorInsertChar E c = Ok E1' ->
            editorDelChar E1' = Exited 1).
  { intros H0 E1' H1'.
    apply (sim_Ok _ _ _ (sim_editorInsertChar E c)) in H1'.
    assert (E1' = E1) by congruence. subst E1'.
    apply editorDelChar_dies_del; [exact Hok1|exact Hn1|lia|].
    rewrite Hlen1, H0. reflexivity. }
  split; [|split].
  - destruct (sim_editorInsertChar E c) as [Hs|Hs]; [|left; exact Hs].
    right. exists E1. split; [congruence|].
    destruct (sim_editorDelChar E1) as [Hs2|Hs2]; [|left; exact Hs2].
    right.
    destruct (insert_then_backspace_ideal E c HE Hc Hctl)
      as (E1' & E2 & H1' & H2 & Hx & Hy & Hd & Hl).
    assert (E1' = E1) by congruence. subst E1'.
    exists E2. split; [congruence|].
    destruct (Z.eqb_spec (cy E) (numrows E)) as [He|Hne]; [|auto].
    exfalso. rewrite (Hdies ltac:(apply nth_line_out; lia) E1 ltac:(congruence))
      in Hs2. congruence.
  - exact Hdies.
  - intros Hne Hcalm.
    assert (Hlt : cy E < numrows E).
    { destruct (Z.eq_dec (cy E) (numrows E)) as [He|]; [|lia].
      exfalso. apply Hne. apply nth_line_out. lia. }
    destruct A1 as (Hl1 & Hnr1 & _); [exact Hlt|].
    destruct (editorDelChar_lines E1 Hok1) as (E2 & H2 & _).
    exists E1, E2. split.
    + rewrite editorInsertChar_same; auto.
    + rewrite editorDelChar_same; auto.
      * intros _. split.
        { rewrite Hlen1. destruct (line_at E (cy E)); [contradiction|].
          unfold len. cbn [length]. lia. }
        destruct Hw1 as (_ & _ & _ & _ & _ & Hsy).
        apply (calm_lines E E1 (cy E + 1) (cy E1 + 1)); auto; try lia.
        intros j Hj0 Hj. unfold line_at. rewrite Hl1.
        replace (j + (cy E1 + 1 - (cy E + 1))) with j by lia.
        apply nth_line_upd_other; lia.
      * intros; lia.
Qed.

Lemma insert_then_backspace_witness :
  exists E1 E2,
    editorInsertChar four_rows 120 = Ok E1 /\ editorDelChar E1 = Ok E2 /\
    cx E2 = cx four_rows /\ cy E2 = cy four_rows /\ lines E2 = lines four_rows.
Proof.
  destruct (insert_then_backspace four_rows 120) as (Hd & _ & Hr).
  - exact four_rows_ok.
  - lia.
  - reflexivity.
  - destruct Hr as (E1 & E2 & H1 & H2).
    { vm_compute. discriminate. }
    { right. apply no_empty_line_from_check;
        [exact (proj1 four_rows_ok)|vm_compute; discriminate
        |vm_compute; reflexivity]. }
    destruct Hd as [Hd|(E1' & H1' & Hd)]; [rewrite H1 in Hd; discriminate Hd|].
    rewrite H1 in H1'. inversion H1'. subst E1'.
    destruct Hd as [Hd|(E2' & H2' & Hx & Hy & _ & Hl)];
      [rewrite H2 in Hd; discriminate Hd|].
    exists E1, E2'. exact (conj H1 (conj H2' (conj Hx (conj Hy Hl)))).
Defined.

(** X11.  Pressing Enter and then backspace: each of the two steps ends
    the program or returns, and when both return, with the cursor on a
    line of the buffer, the lines and the cursor are the same as before
    and the modification counter is three higher.  With the cursor on the
    line past the end, Enter appends an empty line and backspace, past the
    end again, does nothing: both return.  On an empty line of the buffer
    the backspace joins two empty lines and ends the program with status
    1.  On a line that holds a character both steps return when there is
    no syntax profile, or no line below the cursor line is empty and the
    cursor stands before the end of its line. *)
Theorem newline_then_backspace E :
  ed_ok E ->
  (editorInsertNewline E = Exited 1 \/
   exists E1, editorInsertNewline E = Ok E1 /\
     (editorDelChar E1 = Exited 1 \/
      exists E2, editorDelChar E1 = Ok E2 /\
        (cy E < numrows E ->
           lines E2 = lines E /\ cx E2 = cx E /\ cy E2 = cy E /\
           dirty E2 = dirty E + 3) /\
        (cy E = numrows E ->
           E2 = E1 /\ lines E2 = lines E ++ [[]] /\ cy E2 = cy E + 1))) /\
  (cy E = numrows E ->
   exists E1, editorInsertNewline E = Ok E1 /\ editorDelChar E1 = Ok E1) /\
  (cy E < numrows E -> line_at E (cy E) = [] ->
   forall E1, editorInsertNewline E = Ok E1 -> editorDelChar E1 = Exited 1) /\
  (cy E < numrows E -> line_at E (cy E) <> [] ->
   syntax E = None \/
   (no_empty_line_from E (cy E + 1) /\ cx E < len (line_at E (cy E))) ->
   exists E1 E2, editorInsertNewline E = Ok E1 /\ editorDelChar E1 = Ok E2).
Proof.
  intros HE. pose proof HE as (Hb & (Hcy & Hcx) & Hv).
  pose proof (buf_ok_lines_len E Hb) as HL.
  destruct (editorInsertNewline_lines E HE)
    as (E1 & H1 & Hok1 & Hw1 & Hx1 & Hy1 & Hn1 & Hd1 & A1 & B1).
  split; [|split; [|split]].
  - destruct (sim_editorInsertNewline E) as [Hs|Hs]; [|left; exact Hs].
    right. exists E1. split; [congruence|].
    destruct (sim_editorDelChar E1) as [Hs2|Hs2]; [|left; exact Hs2].
    right.
    destruct (newline_then_backspace_ideal E HE) as (E1' & E2 & H1' & H2 & P).
    assert (E1' = E1) by congruence. subst E1'.
    exists E2. split; [congruence|exact P].
  - intros He. exists E1. split.
    + rewrite editorInsertNewline_same; auto.
      * right. intros j Hj0 Hj. lia.
      * right. left. unfold line_at in Hcx.
        rewrite nth_line_out in Hcx by lia.
        change (len (@nil ascii)) with 0 in Hcx. lia.
    + unfold editorDelChar.
      replace (cy E1 =? numrows E1) with true by (symmetry; lia).
      reflexivity.
  - intros Hlt H0 E1' H1'.
    apply (sim_Ok _ _ _ (sim_editorInsertNewline E)) in H1'.
    assert (E1' = E1) by congruence. subst E1'.
    specialize (A1 Hlt). unfold line_at in Hcx, H0.
    destruct (nth_line_split (lines E) (cy E) (cx E)) as (N0 & N1 & _);
      [lia|lia|].
    apply editorDelChar_dies_join; [exact Hok1|lia|exact Hx1|lia| |].
    + unfold line_at. rewrite A1, Hy1.
      replace (cy E + 1 - 1) with (cy E) by lia.
      rewrite N0, H0. apply firstn_nil.
    + unfold line_at. rewrite A1, Hy1, N1, H0. apply skipn_nil.
  - intros Hlt Hne Hc. specialize (A1 Hlt).
    assert (Hin : cx E < len (line_at E (cy E)) \/ syntax E = None).
    { destruct Hc as [Hs|[_ Hx]]; auto. }
    destruct (nth_line_split (lines E) (cy E) (cx E)) as (N0 & N1 & _);
      [lia|exact Hcx|].
    destruct (editorDelChar_lines E1 Hok1) as (E2 & H2 & _).
    exists E1, E2. split.
    + rewrite editorInsertNewline_same; auto.
      * destruct Hc as [Hs|[Hn _]]; [left; exact Hs|right].
        intros j Hj0 Hj. destruct (Z.eq_dec j (cy E)) as [->|];
          [exact Hne|apply Hn; lia].
      * destruct Hc as [Hs|[_ Hx]]; auto.
    + rewrite editorDelChar_same; auto; [intros; lia|].
      intros _ _. split.
      * unfold line_at. rewrite A1, Hy1.
        replace (cy E + 1 - 1) with (cy E) by lia.
        rewrite N0, N1, firstn_skipn. exact Hne.
      * destruct Hw1 as (_ & _ & _ & _ & _ & Hsy).
        destruct Hc as [Hs|[Hn Hx]]; [left; congruence|right].
        intros j Hj0 Hj. unfold line_at. rewrite A1.
        destruct (Z.eq_dec j (cy E + 1)) as [->|Hj1].
        { rewrite N1. intros H. apply (f_equal (@length ascii)) in H.
          rewrite length_skipn in H. unfold line_at, len in Hx.
          cbn [length] in H. lia. }
        unfold split_line.
        replace (firstn (Z.to_nat (cy E)) (lines E)
                   ++ firstn (Z.to_nat (cx E)) (nth_line (lines E) (cy E))
                   :: skipn (Z.to_nat (cx E)) (nth_line (lines E) (cy E))
                   :: skipn (S (Z.to_nat (cy E))) (lines E))
          with ((firstn (Z.to_nat (cy E)) (lines E)
                   ++ [firstn (Z.to_nat (cx E)) (nth_line (lines E) (cy E));
                       skipn (Z.to_nat (cx E)) (nth_line (lines E) (cy E))])
                  ++ skipn (S (Z.to_nat (cy E))) (lines E))
          by (rewrite <- app_assoc; reflexivity).
        unfold nth_line at 1. rewrite nth_error_app2
          by (rewrite length_app, length_firstn; cbn [length];
              unfold len in HL; lia).
        rewrite length_app, length_firstn. cbn [length].
        rewrite nth_error_skipn.
        replace (S (Z.to_nat (cy E))
                 + (Z.to_nat j - (Nat.min (Z.to_nat (cy E)) (length (lines E)) + 2)))%nat
          with (Z.to_nat (j - 1)) by (unfold len in HL; lia).
        apply (Hn (j - 1)); lia.
Qed.

Lemma newline_then_backspace_witness :
  exists E1 E2,
    editorInsertNewline four_rows = Ok E1 /\ editorDelChar E1 = Ok E2 /\
    lines E2 = lines four_rows /\ cx E2 = cx four_rows.
Proof.
  destruct (newline_then_backspace four_rows four_rows_ok)
    as (Hd & _ & _ & Hr).
  destruct Hr as (E1 & E2 & H1 & H2).
  { vm_compute. reflexivity. }
  { vm_compute. discriminate. }
  { right. split; [|vm_compute; reflexivity].
    apply no_empty_line_from_check;
      [exact (proj1 four_rows_ok)|vm_compute; discriminate
      |vm_compute; reflexivity]. }
  destruct Hd as [Hd|(E1' & H1' & Hd)]; [rewrite H1 in Hd; discriminate Hd|].
  rewrite H1 in H1'. inversion H1'. subst E1'.
  destruct Hd as [Hd|(E2' & H2' & P & _)];
    [rewrite H2 in Hd; discriminate Hd|].
  destruct P as (Hl & Hx & _); [vm_compute; reflexivity|].
  exists E1, E2'. exact (conj H1 (conj H2' (conj Hl Hx))).
Defined.

(* ----------------------------------------------------------------- *)
(** ** The syntax profile and saving under a new name *)

(** X26.  [editorSelectSyntax] chooses the profile by the file name: no
    name, or a name without a dot, gives no profile; otherwise what stands
    after the last dot decides: [c], [h], [cpp] or [hpp] gives the C
    profile, anything else gives none.  With no profile chosen it returns
    at once.  With the C profile it highlights every row again, and ends
    the program with status 1 if a line is empty: that row's highlight
    cannot be resized to 0 bytes.  When it returns, the text, the number
    of lines, the modification counter and the name are as they were. *)
Theorem editorSelectSyntax_by_extension E :
  ed_ok E ->
  (editorSelectSyntax E = Exited 1 \/
   exists E', editorSelectSyntax E = Ok E' /\ same_text E E' /\
     (filename E = None -> syntax E' = None) /\
     (forall f, filename E = Some f -> ~ In NUL f -> ~ In (chr ".") f ->
        syntax E' = None) /\
     (forall base e,
        filename E = Some (base ++ chr "." :: e) ->
        ~ In NUL (base ++ chr "." :: e) -> ~ In (chr ".") e ->
        (In e c_extensions -> syntax E' = Some c_profile) /\
        (~ In e c_extensions -> syntax E' = None))) /\
  (no_empty_line_from E 0 -> exists E', editorSelectSyntax E = Ok E') /\
  (filename E = None -> editorSelectSyntax E = Ok (set_syntax E None)) /\
  (forall f, filename E = Some f -> ~ In NUL f -> ~ In (chr ".") f ->
     editorSelectSyntax E = Ok (set_syntax E None)) /\
  (forall base e,
     filename E = Some (base ++ chr "." :: e) ->
     ~ In NUL (base ++ chr "." :: e) -> ~ In (chr ".") e ->
     (~ In e c_extensions -> editorSelectSyntax E = Ok (set_syntax E None)) /\
     (In e c_extensions -> In [] (lines E) ->
      editorSelectSyntax E = Exited 1)).
Proof.
  intros HE.
  pose proof (editorSelectSyntax_by_extension_ideal E HE) as Hi.
  split; [exact (sim_returns _ _ _ (sim_editorSelectSyntax E) Hi)|].
  split; [|split; [|split]].
  - intros Hn. destruct Hi as (E' & H & _). exists E'.
    rewrite editorSelectSyntax_same; auto.
  - intros Hf. rewrite editorSelectSyntax_unfold, Hf. reflexivity.
  - intros f Hf Hn Hd. rewrite editorSelectSyntax_unfold, Hf.
    rewrite (ext_no_dot f Hn Hd). reflexivity.
  - intros base e Hf Hn Hd. split.
    + intros Hni. rewrite editorSelectSyntax_unfold, Hf.
      destruct (existsb _ C_EXTS) eqn:Hx; [|reflexivity].
      exfalso. apply Hni. apply (ext_last base e Hn Hd). exact Hx.
    + intros Hin H0.
      apply (editorSelectSyntax_dies E _ HE Hf); [|exact H0].
      apply (ext_last base e Hn Hd). exact Hin.
Qed.

Lemma editorSelectSyntax_by_extension_witness :
  exists E', editorSelectSyntax four_rows = Ok E' /\ same_text four_rows E' /\
             syntax E' = Some c_profile.
Proof.
  destruct (editorSelectSyntax_by_extension four_rows four_rows_ok)
    as (Hd & Hr & _).
  destruct Hr as (E1 & H1).
  { apply no_empty_line_from_check;
      [exact (proj1 four_rows_ok)|lia|vm_compute; reflexivity]. }
  destruct Hd as [Hd|(E' & H & Ht & _ & _ & Hext)];
    [rewrite H1 in Hd; discriminate Hd|].
  destruct (Hext (str "a") (str "c")) as [Hc _].
  { vm_compute. reflexivity. }
  { vm_compute. intuition discriminate. }
  { vm_compute. intuition discriminate. }
  exists E'. exact (conj H (conj Ht (Hc (or_introl eq_refl)))).
Defined.

Lemma printable_no_NUL s : Forall printable s -> ~ In NUL s.
Proof.
  intros Hs Hin. rewrite Forall_forall in Hs. specialize (Hs _ Hin).
  unfold printable in Hs. change (uchar NUL) with 0 in Hs. lia.
Qed.

(** X19.  [editorSave] never changes the text.  With a file name: a write
    that succeeds sets the modification counter to 0, a write that fails
    leaves the state as it was.  Without a file name it asks for one: ESC
    aborts the save, no write is attempted and nothing changes; a name
    typed and confirmed becomes the file name and chooses the syntax
    profile, and then the save ends the program or returns: it ends the
    program, with status 1 and before anything is written, when the name
    chooses the C profile and a line of the buffer is empty; it returns
    when no line is empty, and when it returns the write has succeeded
    (counter 0) or failed (counter kept). *)
Theorem editorSave_outcomes w keys writes :
  ed_ok (ed w) ->
  (forall f, filename (ed w) = Some f ->
     editorSave keys (true :: writes) w
     = Ok (with_ed w (set_dirty (ed w) 0), keys, writes) /\
     editorSave keys (false :: writes) w = Ok (w, keys, writes)) /\
  (filename (ed w) = None ->
   forall s, Forall printable s ->
     (exists w', same_buffer (ed w) (ed w') /\
        editorSave (map char_to_int s ++ KEY_ESC :: keys) writes w
        = Ok (w', keys, writes)) /\
     (s <> [] ->
      (editorSave (map char_to_int s ++ KEY_ENTER :: keys) (true :: writes) w
       = Exited 1 \/
       exists w', lines (ed w') = lines (ed w) /\ dirty (ed w') = 0 /\
         filename (ed w') = Some s /\
         editorSave (map char_to_int s ++ KEY_ENTER :: keys) (true :: writes) w
         = Ok (w', keys, writes)) /\
      (editorSave (map char_to_int s ++ KEY_ENTER :: keys) (false :: writes) w
       = Exited 1 \/
       exists w', lines (ed w') = lines (ed w) /\
         dirty (ed w') = dirty (ed w) /\ filename (ed w') = Some s /\
         editorSave (map char_to_int s ++ KEY_ENTER :: keys) (false :: writes) w
         = Ok (w', keys, writes)) /\
      (no_empty_line_from (ed w) 0 ->
       forall written, exists w',
         editorSave (map char_to_int s ++ KEY_ENTER :: keys)
           (written :: writes) w
         = Ok (w', keys, writes)) /\
      (forall base e,
         s = base ++ chr "." :: e -> ~ In (chr ".") e ->
         In e c_extensions -> In [] (lines (ed w)) ->
         forall ws,
           editorSave (map char_to_int s ++ KEY_ENTER :: keys) ws w
           = Exited 1))).
Proof.
  intros HE. split.
  - intros f Hf. unfold editorSave. rewrite Hf. cbn. split; reflexivity.
  - intros Hf s Hs. split.
    + destruct (editorPrompt_cancel s keys w HE Hs) as (w' & _ & Hb & _ & _ & Hp).
      exists w'. split; [exact Hb|].
      unfold editorSave. rewrite Hf, Hp. reflexivity.
    + intros Hne.
      destruct (editorPrompt_answer s keys w HE Hs Hne)
        as (w' & HE' & Hb & _ & _ & Hp).
      assert (Hrows : lines (ed w') = lines (ed w)).
      { unfold lines. destruct Hb as (_ & _ & -> & _). reflexivity. }
      assert (Hnum : numrows (ed w') = numrows (ed w))
        by (destruct Hb as (_ & _ & _ & -> & _); reflexivity).
      destruct (editorSelectSyntax_ok (set_filename (ed w') (Some s)))
        as (E2 & H2 & HE2 & (Hl2 & Hn2 & Hd2 & Hf2)); [exact HE'|].
      assert (Hlines : lines E2 = lines (ed w)).
      { rewrite Hl2. exact Hrows. }
      assert (Hdirty : dirty E2 = dirty (ed w)).
      { rewrite Hd2. cbn. destruct Hb as (_ & _ & _ & _ & -> & _). reflexivity. }
      assert (Hsave : forall ws,
                editorSave (map char_to_int s ++ KEY_ENTER :: keys) ws w
                = (E' <- editorSelectSyntax (set_filename (ed w') (Some s)) ;;
                   match ws with
                   | true :: ws' =>
                       Ok (with_ed (with_ed w' E') (set_dirty E' 0), keys, ws')
                   | _ => Ok (with_ed w' E', keys, tl ws)
                   end)).
      { intros ws. unfold editorSave. rewrite Hf, Hp. cbn [bind].
        destruct (editorSelectSyntax _); reflexivity. }
      split; [|split; [|split]].
      * rewrite Hsave.
        destruct (sim_editorSelectSyntax (set_filename (ed w') (Some s)))
          as [Hs2|Hs2]; rewrite Hs2; [|left; reflexivity].
        right. rewrite H2. cbn [bind].
        exists (with_ed (with_ed w' E2) (set_dirty E2 0)).
        split; [exact Hlines|]. split; [reflexivity|].
        split; [exact Hf2|reflexivity].
      * rewrite Hsave.
        destruct (sim_editorSelectSyntax (set_filename (ed w') (Some s)))
          as [Hs2|Hs2]; rewrite Hs2; [|left; reflexivity].
        right. rewrite H2. cbn [bind].
        exists (with_ed w' E2).
        split; [exact Hlines|]. split; [exact Hdirty|].
        split; [exact Hf2|reflexivity].
      * intros Hn written. rewrite Hsave.
        rewrite editorSelectSyntax_same, H2; [|exact HE'|].
        -- cbn [bind]. destruct written; eexists; reflexivity.
        -- intros j Hj0 Hj. unfold line_at.
           change (lines (set_filename (ed w') (Some s))) with (lines (ed w')).
           rewrite Hrows. apply Hn; [exact Hj0|].
           change (numrows (set_filename (ed w') (Some s)))
             with (numrows (ed w')) in Hj. lia.
      * intros base e -> Hd Hin H0 ws. rewrite Hsave.
        rewrite (editorSelectSyntax_dies _ (base ++ chr "." :: e));
          [reflexivity|exact HE'|reflexivity| |].
        -- apply (ext_last base e); [|exact Hd|exact Hin].
           apply printable_no_NUL. exact Hs.
        -- change (lines (set_filename (ed w') (Some (base ++ chr "." :: e))))
             with (lines (ed w')). rewrite Hrows. exact H0.
Qed.

Lemma editorSave_outcomes_witness :
  exists w',
    editorSave (map char_to_int (str "b.c") ++ KEY_ENTER :: []) (true :: [])
      edited_state
    = Ok (w', [], []) /\
    lines (ed w') = lines (ed edited_state) /\ dirty (ed w') = 0 /\
    filename (ed w') = Some (str "b.c").
Proof.
  destruct (proj2 (editorSave_outcomes edited_state [] [] edited_ok)
              ltac:(vm_compute; reflexivity) (str "b.c")
              ltac:(repeat constructor; vm_compute; discriminate))
    as (_ & Hs).
  destruct (Hs ltac:(discriminate)) as (Hd & _ & Hr & _).
  destruct (Hr ltac:(apply no_empty_line_from_check;
                      [exact (proj1 edited_ok)|lia|vm_compute; reflexivity])
              true) as (w1 & H1).
  destruct Hd as [Hd|(w' & Hl & Hdd & Hf & H)];
    [rewrite H1 in Hd; discriminate Hd|].
  exists w'. exact (conj H (conj Hl (conj Hdd Hf))).
Defined.
